(* ===== verification/_CoqProject ===== *)
-Q . S2P
Prelude.v
GoStrings.v
GoFloat.v
Http.v
Json.v
Base64.v
Errors.v
Decode.v
Backoff.v
Breaker.v
Retry.v
HttpRetry.v
SqlQuery.v
Request.v
Transaction.v
Dao.v
DaoSpec.v
Cache.v
Redis.v
Amqp.v
Consumer.v
Outbox.v
Scheduler.v
Auth.v
Headers.v
Resolver.v
AppId.v
Trust.v
Envelope.v
Url.v
Elastic.v
EsQuery.v
EsRepo.v
EsMapping.v
EsMigrate.v
Health.v
Regexp.v
Validation.v
Response.v
Middleware.v
Upload.v
RateLimit.v
Timeout.v
Fga.v
Auditing.v
Storage.v
ObjectStore.v
Migrations.v
Runner.v
Pipeline.v
Delivery.v
Tracing.v
Clients.v
Containers.v
Service.v
Minimal.v
