(* ===== verification/Prelude.v ===== *)
(** * dx-common-go: a verification development

    dx-common-go is the Go library the services of a data exchange share.  This
    development models its core in Rocq, package by package, and proves what the
    services rely on.  Definitions keep the names of the Go functions and types
    they translate (with a prefix where two packages use one name); file and
    function names below are relative to the repository root.

    ** The program and the files

    - [Prelude]: 64-bit integers, association lists, point updates, tactics.
    - [GoStrings], [GoFloat], [Http], [Json], [Base64], [Url], [Regexp], [Decode]:
      what the code uses of strings/strconv/sort, of float64 arithmetic, of net/http,
      encoding/json, encoding/base64, net/url, regexp (with UTF-8) and of decoding
      JSON into structs.
    - [Errors] — errors/: error codes, the Go error chain with errors.Is/As, the
      mapping of PostgreSQL errors, error responses.
    - [Backoff], [Breaker], [Retry], [HttpRetry] — resilience/: the delay policy on
      float64, the circuit breaker, the retry loop, the retrying HTTP transport
      and gRPC interceptor.
    - [SqlQuery] — database/postgres/query: the parameterized SQL builder.
    - [Request], [Response], [Validation] — request/, pagination/, model/,
      response/, validation/: list requests, success envelopes, field rules.
    - [Transaction] — database/postgres/transaction: transactions, propagation
      through the context, retry, advisory locks.
    - [Dao], [DaoSpec] — database/postgres/dao, repository and sqlcx: the generic
      data-access layer, and what it promises of a table.
    - [Migrations] — database/postgres/migrate and cmd/dx: running migrations,
      and numbering and writing new ones.
    - [Cache], [Redis] — cache/ and database/redis: caches, singleflight loading,
      locks, rate limiting.
    - [Amqp], [Consumer] — messaging/rabbitmq: client, topology, reliable
      publisher; consumer runner and deduplication.
    - [Outbox], [Scheduler], [Runner] — messaging/outbox and scheduler/: the
      transactional outbox and its dispatcher; one run of a job; the loops that
      Start runs, as a transition system whose runs are those of [Scheduler].
    - [Pipeline], [Delivery] — the two packages composed: the dispatcher over the
      reliable publisher, from a committed row to the broker; and with a consumer on
      the other side, to the handler.
    - [Containers] — dxtest/containers: the databases integration tests share.
    - [Auth], [Headers], [Resolver], [AppId], [Fga] — auth/, auth/authorization,
      auth/jwt, transport/headers, auth/resolver, auth/appid, auth/fga: identities,
      signed subject headers, the middleware chain in front of a handler, and the
      clients of the application-id and authorization services.
    - [Trust], [Envelope] — trust/, mtls/, crypto/envelope: the hot-swapped trust
      store and the handshakes over it; sealed payloads.
    - [Elastic], [EsQuery], [EsRepo], [EsMapping], [EsMigrate] —
      database/elasticsearch: requests and bulk indexing with synchronisation,
      the query language, the repository, mappings and lifecycle policies, and
      reindexing behind an alias.
    - [Middleware], [Upload], [RateLimit], [Timeout] — middleware/: the layers
      around a handler, over an interface of response writers.
    - [Health] — health/: checkers and probes.
    - [Auditing] — auditing/, notify/email, middleware/audit.go: audit records,
      their worker, and email messages.
    - [Storage] — storage/s3 and storage/s3/sts: objects, uploads, scoped policies.
    - [ObjectStore] — storage/s3/store.go: the interface services use, and the client over S3's
      documented behaviour as a map from keys to contents ([Client_store_map]).
    - [Tracing], [Clients], [Service], [Minimal] — observability/,
      messaging/rabbitmq/otel.go, the query tracers; how the PostgreSQL, Redis,
      gRPC, Elasticsearch and JWKS clients are built; httpserver/, openapi/,
      config/, metrics/; and examples/minimal-service, which composes them.

    Packages call each other the way the files require each other: the DAO builds
    its statements with the SQL builder and runs on a transaction taken from the
    context; retried transactions and HTTP calls use the retry loop; the retry
    transport asks the breaker; outbox events are drained to a publisher by a job of
    the scheduler; the resolver calls the header verifier and the JWT middleware and
    writes errors; the bulk indexer retries with the policy of resilience; the
    authorization client signs its requests with the subject headers the resolver
    verifies; the reference service puts configuration, migrations, the pool, the
    scheduler and the server together.

    ** How code is modelled

    - Functions of values are Rocq functions.  Code that fails returns [res] or
      [error] (the Go error chain [goerr], so that errors.Is and errors.As are
      computed).  A panic is a result of its own ([FnPanic], [None], [inr]).
    - Code that acts on its surroundings passes a world: the classes [World],
      [PgPool], [Querier], [OutboxDb], [RedisOps], [Amqp] are the interfaces to the
      clock and context, the pgx pool, PostgreSQL, Redis and RabbitMQ.  What the
      theorems need of them is stated as laws ([PgPoolLaws], [TableLaws],
      [RedisLaws], [AmqpLaws], [OutboxTable], ...) and every set of laws is
      discharged by a concrete instance in the same file.
    - Mutex-protected methods are atomic steps.  Concurrency is explicit where a
      package is about it: the breaker's calls, singleflight loads, lock holders
      and scheduler runs are step relations over many processes.
    - Integers are [Z]; [wrap64] is applied where Go arithmetic can overflow.
      Durations and times are nanoseconds.  float64 is a dyadic with rounding.
    - A Go map is a [gmap], or a list in visiting order where the order matters
      and Go leaves it open; the theorems then hold for every order.
    - Loops that need not end have fuel.  The theorems either hold for every fuel
      ([Consumer.Run], [reconnectLoop]) or give a bound that suffices ([drain] and
      [Dispatcher_Run] need one more than the unsent rows, a synchronisation one more
      than the batches of its source, [SearchAfter] one more than the matches, a
      multipart listing one more than its pages; the retry loop counts its own
      attempts).  Where a loop waits for ever, the model is a step relation.
    - Cryptography is abstract: HMAC, AEAD and signatures are parameters whose
      documented laws (and unforgeability, where a theorem needs it) are hypotheses
      with a concrete instance.  X.509, gzip, regular expressions of users and IAM
      are modelled as far as the code relies on them.
    - Logging is left out where it only prints; the scheduler's counters are calls of
      a run, request metrics and trace contexts have models of their own.

    ** What the theorems show

    - SQL: every placeholder refers to the argument meant for it, argument values
      never reach the text, identifiers come only from the server's allow-lists,
      and filters the server adds cannot be overridden by a request.
    - Data access, with other sessions committing between and during calls: a page is
      the slice of the rows matching at one moment and its total the count at another,
      soft-deleted rows are invisible to reads, a versioned update is an atomic
      compare-and-set, so of two with one expected version at most one succeeds.
    - Transactions: a transaction, also a nested or a retried one, takes effect
      once or not at all, and is closed; an error means not at all, unless the commit
      itself answered with an error, which leaves its outcome open.
    - Resilience: the breaker's invariant, rejection while open, a single probe,
      refinement of a sequential specification; the runs of a retry loop with the
      delay the schedule fixes for every attempt; bodies replayed and responses drained
      by the transport.
    - Caches and locks: the memory cache refines a store with deadlines,
      concurrent loads of one key run the loader once, a Redis mutex has one owner.
    - Messaging: a confirmed publish has left the message with the broker; on one
      connection a failing message is dead-lettered at exactly the configured number of
      failures since it was last settled; redelivered
      messages are absorbed; the outbox neither loses nor repeats an event in a
      drain; behind the dispatcher's loop and a confirming publisher it leaves the
      table only for the broker, and the broker only by a decision of the handler;
      singleton jobs exclude each other.
    - Scheduling: in every interleaving no kick is lost, a job never overlaps
      itself, Start returns only with every run ended and, once cancelled, can.
    - Identity: headers round-trip, only minted identities verify, a handler
      behind the resolver runs only for a verified identity, and an application
      identity, cached or not, was granted for exactly the credentials presented.
    - Trust and secrecy: a server accepts exactly the certificates that chain to the
      anchors the store held at the hello and that no list it held at the decision
      revokes; only sealed payloads open, and what is sealed opens.
    - Search, over the requests and answers as JSON: a synchronisation mirrors its
      source, paging returns every match once, derived mappings fit the documents of
      their type, a migration keeps every document stored behind its alias.
    - HTTP: a request passes validation exactly when every rule holds; uploads are
      limited in size and type; compression is transparent on the wire, with what
      net/http adds to a response; a timed-out response is
      all of the handler's or none of it; callers stay within their rate.
    - Auditing: accepted events are emitted once, in order, before Stop returns.
    - Storage: a scoped session reaches its folder and nothing else.
    - Assembly: connections are released on every failure, instrumentation changes
      no result, migrations are numbered in sequence, pool and migrations agree on
      the schema when configured alike, and the reference service serves only a
      migrated schema.
    - Errors: status codes are determined by the error, internal detail is not
      leaked.
    Examples beside the theorems pin down behaviours that differ from the
    documentation.

    ** What is not modelled

    Drivers and services outside the repository are the parameters named above:
    pgx, go-redis, amqp091, go-elasticsearch, the AWS SDK, golang-migrate, keyfunc and
    the JWT parser, grpc-go, kin-openapi, viper, Prometheus and OpenTelemetry.  The
    generated gRPC code (grpc/appidpb) is left out: it is the output of protoc.
    Exposing metrics is promhttp's work.  Real time is modelled only as far as
    readings of a clock decide something. *)

From Stdlib Require Export Ascii ZArith Lia.
From stdpp Require Export base tactics list gmap strings sorting.

(* stdpp's [set_solver] clears hypotheses it has already consumed. *)
#[export] Set Warnings "-clear-no-such-hyp".

Declare Scope go_scope.
Delimit Scope go_scope with go.
#[global] Open Scope Z_scope.

(** ** Machine integers *)

(** Go's [int], [int64] and [time.Duration] are 64-bit two's complement; an
    arithmetic result is brought back into range by [wrap64]. *)
Definition wrap64 (z : Z) : Z := (z + 2 ^ 63) mod 2 ^ 64 - 2 ^ 63.

Definition min_int64 : Z := - 2 ^ 63.
Definition max_int64 : Z := 2 ^ 63 - 1.

Definition int64_ok (z : Z) : bool := (min_int64 <=? z) && (z <=? max_int64).

Lemma int64_ok_iff z : int64_ok z = true <-> min_int64 <= z <= max_int64.
Proof. unfold int64_ok. rewrite andb_true_iff, !Z.leb_le. lia. Qed.

Lemma wrap64_id z : min_int64 <= z <= max_int64 -> wrap64 z = z.
Proof.
  unfold wrap64, min_int64, max_int64. intros H.
  rewrite Z.mod_small; lia.
Qed.

Lemma wrap64_range z : min_int64 <= wrap64 z <= max_int64.
Proof.
  unfold wrap64, min_int64, max_int64.
  pose proof (Z.mod_pos_bound (z + 2 ^ 63) (2 ^ 64)). lia.
Qed.

(** ** Association lists *)

(** Finite maps as association lists: the first binding of a key counts. *)
Fixpoint alookup {A} (l : list (string * A)) (k : string) : option A :=
  match l with
  | [] => None
  | (k', v) :: l' => if bool_decide (k = k') then Some v else alookup l' k
  end.
Fixpoint aset {A} (k : string) (v : A) (l : list (string * A)) : list (string * A) :=
  match l with
  | [] => [(k, v)]
  | (k', v') :: l' => if bool_decide (k = k') then (k, v) :: l' else (k', v') :: aset k v l'
  end.

Lemma alookup_aset_eq {A} k (v : A) l : alookup (aset k v l) k = Some v.
Proof.
  induction l as [|[k' v'] l IH]; cbn; [by rewrite bool_decide_eq_true_2|].
  case_bool_decide; cbn; [by rewrite bool_decide_eq_true_2|by rewrite bool_decide_eq_false_2].
Qed.
Lemma alookup_aset_ne {A} k k' (v : A) l : k <> k' -> alookup (aset k v l) k' = alookup l k'.
Proof.
  intros Hne. induction l as [|[k1 v1] l IH]; cbn; [by rewrite bool_decide_eq_false_2|].
  case_bool_decide; subst; cbn; [by rewrite !(bool_decide_eq_false_2 (k' = k1))|]. by rewrite IH.
Qed.

(** ** Functions updated at a point: the state of one of many processes *)

Definition upd {A B} `{EqDecision A} (f : A -> B) (a : A) (b : B) : A -> B :=
  fun x => if bool_decide (x = a) then b else f x.

Lemma upd_eq {A B} `{EqDecision A} (f : A -> B) a b : upd f a b a = b.
Proof. unfold upd. by rewrite bool_decide_eq_true_2. Qed.
Lemma upd_ne {A B} `{EqDecision A} (f : A -> B) a b x : x <> a -> upd f a b x = f x.
Proof. intros. unfold upd. by rewrite bool_decide_eq_false_2. Qed.

(** Is [x] the updated point?  Simplify the updates at [x] either way. *)
Ltac upd_cases x a :=
  destruct (decide (x = a)) as [->|?]; rewrite ?upd_eq, ?upd_ne by done.

(** ** Booleans *)

(** Split boolean hypotheses into their parts, down to comparisons of integers. *)
Ltac bools :=
  repeat match goal with
  | H : _ && _ = true |- _ => apply andb_true_iff in H as [? ?]
  | H : _ || _ = false |- _ => apply orb_false_iff in H as [? ?]
  | H : negb _ = true |- _ => apply negb_true_iff in H
  | H : negb _ = false |- _ => apply negb_false_iff in H
  | H : bool_decide _ = true |- _ => apply bool_decide_eq_true in H
  | H : bool_decide _ = false |- _ => apply bool_decide_eq_false in H
  | H : (_ <? _) = true |- _ => apply Z.ltb_lt in H
  | H : (_ <? _) = false |- _ => apply Z.ltb_ge in H
  | H : (_ <=? _) = true |- _ => apply Z.leb_le in H
  | H : (_ <=? _) = false |- _ => apply Z.leb_gt in H
  end.

Lemma filter_in {A} (f : A -> bool) l x : x ∈ List.filter f l <-> f x = true /\ x ∈ l.
Proof. rewrite !list_elem_of_In, filter_In. tauto. Qed.

Lemma filter_none {A} (f : A -> bool) (l : list A) : Forall (fun x => f x = false) l -> List.filter f l = [].
Proof. induction 1 as [|x l Hx Hl IH]; cbn; [done|]. by rewrite Hx. Qed.

Lemma filter_all {A} (f : A -> bool) (l : list A) : Forall (fun x => f x = true) l -> List.filter f l = l.
Proof. induction 1 as [|x l Hx Hl IH]; cbn; [done|]. by rewrite Hx, IH. Qed.

Lemma if_same {A} (b : bool) (x : A) : (if b then x else x) = x.
Proof. by destruct b. Qed.

Lemma Forall_snoc {A} (Q : A -> Prop) l x : Forall Q l -> Q x -> Forall Q (l ++ [x]).
Proof. intros Hl Hx. apply Forall_app. split; [done|]. by constructor. Qed.
