(* ===== verification/GoStrings.v ===== *)
(** * GoStrings: the parts of Go's [strings], [strconv] and [sort] the sources use

    Go strings are byte sequences, modelled by [string] (a list of 8-bit
    [ascii]).  Case mapping ([ToLower], [EqualFold]) is the ASCII part of the
    Unicode tables; [TrimSpace] strips every Unicode white-space rune in its
    UTF-8 encoding, as Go does. *)

From S2P Require Import Prelude.

(** ** Characters *)

Definition byte_of (c : ascii) : Z := Z.of_nat (nat_of_ascii c).
Definition ascii_of_byte (z : Z) : ascii := ascii_of_nat (Z.to_nat z).

(** The value of a hexadecimal digit. *)
Definition hex_value (c : ascii) : option Z :=
  let b := byte_of c in
  if (48 <=? b) && (b <=? 57) then Some (b - 48)
  else if (97 <=? b) && (b <=? 102) then Some (b - 87)
  else if (65 <=? b) && (b <=? 70) then Some (b - 55)
  else None.

(** The %q verb on a text without characters to escape. *)
Definition quoted (s : string) : string :=
  String (ascii_of_byte 34) s +:+ String (ascii_of_byte 34) EmptyString.

Definition is_digit (c : ascii) : bool := (48 <=? byte_of c) && (byte_of c <=? 57).

Definition digit_char (d : Z) : ascii := ascii_of_byte (48 + d).

Definition lower_char (c : ascii) : ascii :=
  if (65 <=? byte_of c) && (byte_of c <=? 90) then ascii_of_byte (byte_of c + 32) else c.

Definition upper_char (c : ascii) : ascii :=
  if (97 <=? byte_of c) && (byte_of c <=? 122) then ascii_of_byte (byte_of c - 32) else c.

Fixpoint string_map (f : ascii -> ascii) (s : string) : string :=
  match s with
  | EmptyString => EmptyString
  | String c s' => String (f c) (string_map f s')
  end.

(** strings.ToLower *)
Definition to_lower (s : string) : string := string_map lower_char s.

(** strings.EqualFold *)
Definition equal_fold (s t : string) : bool := bool_decide (to_lower s = to_lower t).

(** ** Searching *)

Fixpoint contains_char (c : ascii) (s : string) : bool :=
  match s with
  | EmptyString => false
  | String d s' => Ascii.eqb c d || contains_char c s'
  end.

(** strings.ContainsAny *)
Definition contains_any (s chars : string) : bool :=
  existsb (fun c => contains_char c s) (String.list_ascii_of_string chars).

Fixpoint has_prefix (p s : string) : bool :=
  match p, s with
  | EmptyString, _ => true
  | String c p', String d s' => Ascii.eqb c d && has_prefix p' s'
  | String _ _, EmptyString => false
  end.

(** What is left of [s] behind the prefix [p]. *)
Fixpoint strip (p s : string) : option string :=
  match p, s with
  | EmptyString, _ => Some s
  | String c p, String d s => if Ascii.eqb c d then strip p s else None
  | _, EmptyString => None
  end.

(** strings.Contains *)
Fixpoint contains (s sub : string) : bool :=
  has_prefix sub s || match s with EmptyString => false | String _ s' => contains s' sub end.

(** Everything before the first [c] and everything after it ([None] when [c]
    does not occur): what [IndexByte] followed by the two slices computes. *)
Fixpoint cut (c : ascii) (s : string) : option (string * string) :=
  match s with
  | EmptyString => None
  | String d s' =>
      if Ascii.eqb d c then Some (EmptyString, s')
      else match cut c s' with
           | Some (a, b) => Some (String d a, b)
           | None => None
           end
  end.

(** strings.Split with a one-byte separator *)
Fixpoint split (c : ascii) (s : string) : list string :=
  match s with
  | EmptyString => [EmptyString]
  | String d s' =>
      if Ascii.eqb d c then EmptyString :: split c s'
      else match split c s' with
           | w :: ws => String d w :: ws
           | [] => [String d EmptyString]
           end
  end.

(** strings.SplitN with a one-byte separator and n = 2 *)
Definition splitn2 (c : ascii) (s : string) : list string :=
  match cut c s with
  | Some (a, b) => [a; b]
  | None => [s]
  end.

(** strings.Join *)
Fixpoint join (sep : string) (parts : list string) : string :=
  match parts with
  | [] => EmptyString
  | [p] => p
  | p :: ps => p +:+ sep +:+ join sep ps
  end.

(** ** strings.TrimSpace *)

Definition utf8 (bytes : list Z) : string :=
  fold_right (fun b s => String (ascii_of_byte b) s) EmptyString bytes.

(** The UTF-8 encodings of the runes [unicode.IsSpace] accepts. *)
Definition space_runes : list string :=
  map utf8
    ([ [9]; [10]; [11]; [12]; [13]; [32]; [194; 133]; [194; 160]; [225; 154; 128];
       [226; 128; 168]; [226; 128; 169]; [226; 128; 175]; [226; 129; 159]; [227; 128; 128] ]
     ++ map (fun k => [226; 128; 128 + k]) [0; 1; 2; 3; 4; 5; 6; 7; 8; 9; 10]).

(** strings.TrimRight with one character *)
Fixpoint trim_right_char (c : ascii) (s : string) : string :=
  match s with
  | EmptyString => EmptyString
  | String d s => let t := trim_right_char c s in
                  if bool_decide (t = EmptyString) && Ascii.eqb d c then EmptyString else String d t
  end.

(** strings.TrimLeft and strings.Trim with one character *)
Fixpoint trim_left_char (c : ascii) (s : string) : string :=
  match s with String d s' => if Ascii.eqb d c then trim_left_char c s' else s | EmptyString => EmptyString end.
Definition trim_char (c : ascii) (s : string) : string := trim_right_char c (trim_left_char c s).

Fixpoint drop (n : nat) (s : string) : string :=
  match n, s with
  | S n', String _ s' => drop n' s'
  | _, _ => s
  end.

Fixpoint trim_left_go (fuel : nat) (spaces : list string) (s : string) : string :=
  match fuel with
  | O => s
  | S fuel' =>
      match List.find (fun sp => has_prefix sp s) spaces with
      | Some sp => trim_left_go fuel' spaces (drop (String.length sp) s)
      | None => s
      end
  end.

Definition trim_left (s : string) : string :=
  trim_left_go (String.length s) space_runes s.

Definition trim_right (s : string) : string :=
  String.rev (trim_left_go (String.length s) (map String.rev space_runes) (String.rev s)).

Definition trim_space (s : string) : string := trim_right (trim_left s).

(** ** strconv *)

Fixpoint digits_go (fuel : nat) (n : Z) (acc : string) : string :=
  match fuel with
  | O => acc
  | S fuel' =>
      if n <? 10 then String (digit_char n) acc
      else digits_go fuel' (n / 10) (String (digit_char (n mod 10)) acc)
  end.

Definition digits (n : Z) : string := digits_go (S (Z.to_nat (Z.log2 n))) n EmptyString.

(** strconv.Itoa / strconv.FormatInt(_, 10) / the [%d] verb *)
Definition itoa (n : Z) : string :=
  if n <? 0 then String "-" (digits (- n)) else digits n.

Fixpoint parse_digits (s : string) (acc : Z) : option Z :=
  match s with
  | EmptyString => Some acc
  | String c s' => if is_digit c then parse_digits s' (acc * 10 + (byte_of c - 48)) else None
  end.

Definition parse_unsigned (s : string) : option Z :=
  match s with
  | EmptyString => None
  | _ => parse_digits s 0
  end.

(** strconv.Atoi / strconv.ParseInt(_, 10, 64): an optional sign, at least one
    digit, and a value in the 64-bit range; [None] stands for a non-nil error. *)
Definition atoi (s : string) : option Z :=
  let r := match s with
           | String "-" s' => option_map Z.opp (parse_unsigned s')
           | String "+" s' => parse_unsigned s'
           | _ => parse_unsigned s
           end in
  match r with
  | Some n => if int64_ok n then Some n else None
  | None => None
  end.

(** ** sort.Strings *)

Definition sort_strings (l : list string) : list string := merge_sort String.le l.

(** ** Lemmas *)

Create Rewrite HintDb gostr.

#[global] Arguments parse_unsigned : simpl never.
#[global] Arguments digits : simpl never.

Lemma app_String c s t : String c s +:+ t = String c (s +:+ t).
Proof. reflexivity. Qed.
Lemma strip_app p s : strip p (p +:+ s) = Some s.
Proof. induction p as [|c p IH]; [done|]. rewrite app_String. cbn [strip]. by rewrite Ascii.eqb_refl. Qed.

Lemma app_Empty s : EmptyString +:+ s = s.
Proof. reflexivity. Qed.

Lemma app_Empty_r s : s +:+ EmptyString = s.
Proof. induction s as [|c s IH]; [done|]. by rewrite app_String, IH. Qed.

Lemma string_app_assoc s t u : (s +:+ t) +:+ u = s +:+ (t +:+ u).
Proof. induction s as [|c s IH]; [done|]. by rewrite !app_String, IH. Qed.

#[export] Hint Rewrite app_String app_Empty app_Empty_r string_app_assoc : gostr.

Lemma ascii_of_byte_of c : ascii_of_byte (byte_of c) = c.
Proof. unfold ascii_of_byte, byte_of. rewrite Nat2Z.id. apply ascii_nat_embedding. Qed.

Lemma byte_of_range c : 0 <= byte_of c < 256.
Proof. unfold byte_of. pose proof (nat_ascii_bounded c). lia. Qed.

Lemma byte_of_ascii n : 0 <= n < 256 -> byte_of (ascii_of_byte n) = n.
Proof. intros H. unfold byte_of, ascii_of_byte. rewrite nat_ascii_embedding; lia. Qed.

Lemma byte_of_digit d : 0 <= d <= 9 -> byte_of (digit_char d) = 48 + d.
Proof.
  intros H. unfold byte_of, digit_char, ascii_of_byte.
  rewrite nat_ascii_embedding; lia.
Qed.

Lemma is_digit_digit d : 0 <= d <= 9 -> is_digit (digit_char d) = true.
Proof. intros H. unfold is_digit. rewrite byte_of_digit by done. lia. Qed.

(** Characters of a decimal rendering: digits, and nothing else. *)
Fixpoint all_chars (P : ascii -> bool) (s : string) : bool :=
  match s with
  | EmptyString => true
  | String c s' => P c && all_chars P s'
  end.

Lemma all_chars_app P s t : all_chars P (s +:+ t) = all_chars P s && all_chars P t.
Proof.
  induction s as [|c s IH]; [done|].
  rewrite app_String. cbn. rewrite IH. by rewrite andb_assoc.
Qed.

Lemma all_chars_no_char P c s :
  P c = false -> all_chars P s = true -> contains_char c s = false.
Proof.
  intros Hc. induction s as [|d s IH]; [done|]. cbn.
  rewrite andb_true_iff. intros [Hd Hs]. rewrite IH by done.
  destruct (Ascii.eqb_spec c d); [congruence|done].
Qed.

Lemma digits_go_digits fuel n acc :
  0 <= n -> all_chars is_digit (digits_go fuel n acc) = all_chars is_digit acc.
Proof.
  revert n acc. induction fuel as [|fuel IH]; intros n acc Hn; [done|]. cbn.
  destruct (Z.ltb_spec n 10); cbn.
  - by rewrite is_digit_digit by lia.
  - rewrite IH by (apply Z.div_pos; lia). cbn.
    rewrite is_digit_digit; [done|]. pose proof (Z.mod_pos_bound n 10). lia.
Qed.

Lemma parse_digits_go fuel n acc :
  0 <= n < 10 ^ Z.of_nat fuel -> fuel <> O ->
  parse_digits (digits_go fuel n acc) 0 = parse_digits acc n.
Proof.
  revert n acc. induction fuel as [|fuel IH]; intros n acc Hn Hf; [done|]. cbn.
  destruct (Z.ltb_spec n 10) as [Hs|Hl]; cbn.
  - rewrite is_digit_digit, byte_of_digit by lia. f_equal. lia.
  - assert (fuel <> O) as Hf'.
    { intros ->. change (10 ^ Z.of_nat 1) with 10 in Hn. lia. }
    rewrite IH; [| |done].
    + cbn. pose proof (Z.mod_pos_bound n 10). rewrite is_digit_digit, byte_of_digit by lia.
      f_equal. pose proof (Z.div_mod n 10). lia.
    + rewrite Nat2Z.inj_succ, Z.pow_succ_r in Hn by lia. split.
      * apply Z.div_pos; lia.
      * apply Z.div_lt_upper_bound; lia.
Qed.

Lemma digits_fuel n : 0 <= n -> n < 10 ^ Z.of_nat (S (Z.to_nat (Z.log2 n))).
Proof.
  intros Hn. pose proof (Z.log2_nonneg n).
  rewrite Nat2Z.inj_succ, Z2Nat.id by done.
  destruct (Z.eq_dec n 0) as [->|Hz]; [done|].
  pose proof (Z.log2_spec n ltac:(lia)) as [_ Hlt].
  eapply Z.lt_le_trans; [exact Hlt|].
  apply Z.pow_le_mono_l. lia.
Qed.

Lemma digits_not_empty fuel n acc : fuel <> O -> digits_go fuel n acc <> EmptyString.
Proof.
  revert n acc. induction fuel as [|fuel IH]; intros n acc Hf; [done|]. cbn.
  destruct (n <? 10); [done|]. destruct fuel; [done|]. by apply IH.
Qed.

Lemma parse_unsigned_digits n : 0 <= n -> parse_unsigned (digits n) = Some n.
Proof.
  intros Hn. unfold parse_unsigned, digits.
  pose proof (digits_not_empty (S (Z.to_nat (Z.log2 n))) n EmptyString) as He.
  pose proof (parse_digits_go (S (Z.to_nat (Z.log2 n))) n EmptyString) as Hp.
  destruct (digits_go _ n EmptyString) eqn:E; [naive_solver|].
  rewrite Hp; [done| |done]. split; [done|]. by apply digits_fuel.
Qed.

Lemma digits_all n : 0 <= n -> all_chars is_digit (digits n) = true.
Proof. intros Hn. unfold digits. by rewrite digits_go_digits. Qed.

Definition is_num_char (c : ascii) : bool := is_digit c || Ascii.eqb c "-".

Lemma all_chars_mono (P Q : ascii -> bool) s :
  (forall c, P c = true -> Q c = true) -> all_chars P s = true -> all_chars Q s = true.
Proof.
  intros H. induction s as [|c s IH]; [done|]. cbn.
  rewrite !andb_true_iff. intros [? ?]; auto.
Qed.

Lemma itoa_chars n : all_chars is_num_char (itoa n) = true.
Proof.
  unfold itoa. destruct (Z.ltb_spec n 0); cbn.
  1: change (all_chars is_num_char (digits (- n)) = true).
  all: eapply all_chars_mono; [|apply digits_all; lia]; intros c Hc; unfold is_num_char; by rewrite Hc.
Qed.

Lemma atoi_digits s n :
  all_chars is_digit s = true -> parse_unsigned s = Some n -> int64_ok n = true -> atoi s = Some n.
Proof.
  intros Hd Hp Hi. unfold atoi.
  assert (match s with
          | String "-" s' => option_map Z.opp (parse_unsigned s')
          | String "+" s' => parse_unsigned s'
          | _ => parse_unsigned s
          end = parse_unsigned s) as ->.
  { destruct s as [|c s]; [done|]. cbn in Hd. apply andb_true_iff in Hd as [Hc _].
    destruct c as [[] [] [] [] [] [] [] []]; try done; vm_compute in Hc; done. }
  by rewrite Hp, Hi.
Qed.

(** Printing an in-range integer and parsing it back gives the integer. *)
Lemma atoi_itoa n : int64_ok n = true -> atoi (itoa n) = Some n.
Proof.
  intros Hn. unfold itoa. destruct (Z.ltb_spec n 0) as [Hneg|Hpos].
  - unfold atoi. cbn -[int64_ok]. rewrite parse_unsigned_digits by lia.
    cbn -[int64_ok]. by rewrite Z.opp_involutive, Hn.
  - apply atoi_digits; [by apply digits_all|by apply parse_unsigned_digits|done].
Qed.

Lemma atoi_int64 s n : atoi s = Some n -> int64_ok n = true.
Proof. unfold atoi. intros H. repeat case_match; congruence. Qed.

(** *** Splitting and joining *)

Lemma contains_char_app c s t :
  contains_char c (s +:+ t) = contains_char c s || contains_char c t.
Proof.
  induction s as [|d s IH]; [done|]. rewrite app_String. cbn. rewrite IH.
  by rewrite orb_assoc.
Qed.

Lemma cut_app_sep a b c : cut c a = None -> cut c (a +:+ String c b) = Some (a, b).
Proof.
  induction a as [|d a IH]; [intros _; rewrite app_Empty; cbn; by rewrite Ascii.eqb_refl|]. cbn [cut].
  destruct (Ascii.eqb d c) eqn:E; [done|]. destruct (cut c a) as [[? ?]|]; [done|]. intros _. rewrite app_String. cbn.
  by rewrite E, IH.
Qed.
Lemma cut_None c s : contains_char c s = false -> cut c s = None.
Proof.
  induction s as [|d s IH]; [done|]. cbn. intros [Hd Hs]%orb_false_iff. rewrite Ascii.eqb_sym, Hd. by rewrite IH.
Qed.

Lemma split_not_nil c s : split c s <> [].
Proof. destruct s as [|d s]; cbn; repeat case_match; done. Qed.

Lemma split_no_char c s : contains_char c s = false -> split c s = [s].
Proof.
  induction s as [|d s IH]; [done|]. cbn.
  rewrite orb_false_iff. intros [Hd Hs]. rewrite IH by done.
  rewrite Ascii.eqb_sym in Hd. by rewrite Hd.
Qed.

Lemma split_app_sep c s t :
  contains_char c s = false -> split c (s +:+ String c t) = s :: split c t.
Proof.
  induction s as [|d s IH]; cbn.
  - intros _. rewrite app_Empty. cbn. by rewrite Ascii.eqb_refl.
  - rewrite orb_false_iff. intros [Hd Hs]. rewrite app_String. cbn.
    rewrite Ascii.eqb_sym in Hd. rewrite Hd, IH by done. done.
Qed.

(** Joining separator-free parts and splitting again gives the parts. *)
Lemma split_join c parts :
  parts <> [] -> Forall (fun p => contains_char c p = false) parts ->
  split c (join (String c EmptyString) parts) = parts.
Proof.
  intros Hne HF. induction HF as [|p ps Hp HF IH]; [done|].
  destruct ps as [|q qs]; [by apply split_no_char|].
  change (join (String c EmptyString) (p :: q :: qs))
    with (p +:+ String c EmptyString +:+ join (String c EmptyString) (q :: qs)).
  rewrite app_String, app_Empty, split_app_sep by done. by rewrite IH.
Qed.

Lemma join_cons c p ps :
  ps <> [] -> join (String c EmptyString) (p :: ps) = p +:+ String c (join (String c EmptyString) ps).
Proof. by destruct ps. Qed.

Fixpoint count_char (c : ascii) (s : string) : nat :=
  match s with
  | EmptyString => 0
  | String d s' => (if Ascii.eqb c d then 1 else 0) + count_char c s'
  end.

Lemma count_char_app c s t : (count_char c (s +:+ t) = count_char c s + count_char c t)%nat.
Proof.
  induction s as [|d s IH]; [done|]. rewrite app_String. cbn. rewrite IH. lia.
Qed.

Lemma count_char_0 c s : count_char c s = O <-> contains_char c s = false.
Proof.
  induction s as [|d s IH]; [done|]. cbn.
  destruct (Ascii.eqb c d); cbn; [split; [lia|done]|done].
Qed.

Lemma count_char_join c parts :
  parts <> [] ->
  (count_char c (join (String c EmptyString) parts)
   = length parts - 1 + sum_list_with (count_char c) parts)%nat.
Proof.
  induction parts as [|p ps IH]; [done|]. intros _.
  destruct ps as [|q qs].
  - cbn. lia.
  - rewrite join_cons by done. rewrite count_char_app. cbn [count_char].
    rewrite Ascii.eqb_refl, IH by done. cbn. lia.
Qed.

Lemma sum_list_with_0 {A} (f : A -> nat) l :
  sum_list_with f l = O <-> Forall (fun x => f x = O) l.
Proof.
  induction l as [|x l IH]; cbn; [by rewrite Forall_nil|].
  rewrite Forall_cons, <- IH. lia.
Qed.

(** Two joins agree only when the parts agree, as soon as one side is known to
    be separator-free and both sides have the same number of parts: the other
    side cannot move a separator across a field boundary. *)
Lemma join_inj c ps qs :
  length ps = length qs ->
  Forall (fun p => contains_char c p = false) ps ->
  join (String c EmptyString) ps = join (String c EmptyString) qs -> ps = qs.
Proof.
  intros Hlen HF Heq. destruct (decide (ps = [])) as [->|Hp]; [by destruct qs|].
  assert (qs <> []) as Hq by (by destruct ps, qs).
  assert (Forall (fun p => contains_char c p = false) qs) as HG.
  { assert (sum_list_with (count_char c) qs = O) as H0.
    { pose proof (count_char_join c ps Hp) as H1. pose proof (count_char_join c qs Hq) as H2.
      rewrite Heq in H1. assert (sum_list_with (count_char c) ps = O) as H3.
      { apply sum_list_with_0. eapply Forall_impl; [exact HF|]. intros p. apply count_char_0. }
      lia. }
    apply sum_list_with_0 in H0. eapply Forall_impl; [exact H0|]. intros p. apply count_char_0. }
  rewrite <- (split_join c ps), <- (split_join c qs) by done. by rewrite Heq.
Qed.

Lemma join_split c s : join (String c EmptyString) (split c s) = s.
Proof.
  induction s as [|d s IH]; [done|]. cbn.
  destruct (Ascii.eqb_spec d c) as [->|Hd].
  - rewrite join_cons by apply split_not_nil. by rewrite IH.
  - pose proof (split_not_nil c s). destruct (split c s) as [|w [|w' ws]]; [done| |].
    + cbn in *. by rewrite IH.
    + rewrite join_cons in IH |- * by done. by rewrite app_String, IH.
Qed.

Lemma sort_strings_Permutation l : sort_strings l ≡ₚ l.
Proof. apply merge_sort_Permutation. Qed.

Lemma sort_strings_Sorted l : StronglySorted String.le (sort_strings l).
Proof. apply StronglySorted_merge_sort; apply _. Qed.

(** Two sorted lists with the same elements are equal, so sorting forgets the
    order in which a Go map was ranged over. *)
Lemma sort_strings_perm l l' : l ≡ₚ l' -> sort_strings l = sort_strings l'.
Proof.
  intros H. apply (StronglySorted_unique String.le); [apply sort_strings_Sorted..|].
  by rewrite !sort_strings_Permutation.
Qed.
