(* ===== verification/GoFloat.v ===== *)
(** * GoFloat: IEEE-754 double arithmetic as Go's [float64] and [math] use it

    A finite double is a dyadic number [Fin m e] = m * 2^e; every operation
    computes the exact rational result and rounds it to 53 bits, nearest-even,
    with the double's exponent range (overflow gives an infinity).  The sign of
    zero is not kept: no source line distinguishes it.  Conversion of an
    out-of-range double to [int64] is implementation-defined in Go; the amd64
    result, the smallest int64, is used. *)

From S2P Require Import Prelude.

Inductive f64 :=
  | Fin (m e : Z)
  | PosInf
  | NegInf
  | NaN.

#[export] Instance f64_eq_dec : EqDecision f64.
Proof. solve_decision. Defined.

(** ** Rounding a positive rational n/d *)

(** 2^l <= n/d *)
Definition pow2_le (n d l : Z) : bool :=
  if 0 <=? l then d * 2 ^ l <=? n else d <=? n * 2 ^ (- l).

Definition round_exp (n d : Z) : Z :=
  let l := Z.log2 n - Z.log2 d in
  Z.max (if pow2_le n d l then l - 52 else l - 53) (-1074).

(** Nearest integer to num/den, ties to even. *)
Definition round_div (num den : Z) : Z :=
  let q := num / den in
  let r := num mod den in
  if (den <? 2 * r) || ((2 * r =? den) && Z.odd q) then q + 1 else q.

Definition round_mant (n d e : Z) : Z :=
  if 0 <=? e then round_div n (d * 2 ^ e) else round_div (n * 2 ^ (- e)) d.

Definition round_pos (n d : Z) : f64 :=
  let e := round_exp n d in
  let m := round_mant n d e in
  if 1024 <=? e + Z.log2 m then PosInf else Fin m e.

Definition f64_neg (x : f64) : f64 :=
  match x with
  | Fin m e => Fin (- m) e
  | PosInf => NegInf
  | NegInf => PosInf
  | NaN => NaN
  end.

(** Rounding of the rational n/d, d > 0. *)
Definition round_rat (n d : Z) : f64 :=
  if n =? 0 then Fin 0 0
  else if 0 <? n then round_pos n d
  else f64_neg (round_pos (- n) d).

(** Rounding of m * 2^e. *)
Definition round_dyadic (m e : Z) : f64 :=
  if 0 <=? e then round_rat (m * 2 ^ e) 1 else round_rat m (2 ^ (- e)).

(** ** Conversions, comparison, arithmetic *)

(** float64(n) *)
Definition f64_of_int (n : Z) : f64 := round_rat n 1.

Definition trunc (m e : Z) : Z := if 0 <=? e then m * 2 ^ e else m ÷ 2 ^ (- e).

(** int64(x) *)
Definition int64_of_f64 (x : f64) : Z :=
  match x with
  | Fin m e => if int64_ok (trunc m e) then trunc m e else min_int64
  | _ => min_int64
  end.

Definition fin_lt (m1 e1 m2 e2 : Z) : bool :=
  let e := Z.min e1 e2 in m1 * 2 ^ (e1 - e) <? m2 * 2 ^ (e2 - e).

(** x < y *)
Definition f64_lt (x y : f64) : bool :=
  match x, y with
  | NaN, _ | _, NaN => false
  | Fin m1 e1, Fin m2 e2 => fin_lt m1 e1 m2 e2
  | NegInf, NegInf | PosInf, _ | Fin _ _, NegInf => false
  | NegInf, _ | Fin _ _, PosInf => true
  end.

Definition f64_sign (x : f64) : Z :=
  match x with
  | Fin m _ => Z.sgn m
  | PosInf => 1
  | NegInf => -1
  | NaN => 0
  end.

Definition f64_inf (s : Z) : f64 :=
  if 0 <? s then PosInf else if s <? 0 then NegInf else NaN.

(** x * y *)
Definition f64_mul (x y : f64) : f64 :=
  match x, y with
  | NaN, _ | _, NaN => NaN
  | Fin m1 e1, Fin m2 e2 => round_dyadic (m1 * m2) (e1 + e2)
  | _, _ => f64_inf (f64_sign x * f64_sign y)
  end.

(** x / y, for finite operands ([float64] of integers). *)
Definition f64_div (x y : f64) : f64 :=
  match x, y with
  | Fin m1 e1, Fin m2 e2 =>
      if m2 =? 0 then f64_inf (Z.sgn m1)
      else let s := Z.sgn m2 in
           let k := e1 - e2 in
           if 0 <=? k then round_rat (s * m1 * 2 ^ k) (Z.abs m2)
           else round_rat (s * m1) (Z.abs m2 * 2 ^ (- k))
  | Fin _ _, (PosInf | NegInf) => Fin 0 0
  | PosInf, Fin m _ => f64_inf (if m =? 0 then 1 else Z.sgn m)
  | NegInf, Fin m _ => f64_inf (- (if m =? 0 then 1 else Z.sgn m))
  | _, _ => NaN
  end.

(** math.Ceil *)
Definition f64_ceil (x : f64) : f64 :=
  match x with
  | Fin m e => if 0 <=? e then x else Fin (- (- m / 2 ^ (- e))) 0
  | _ => x
  end.

(** math.Frexp of a non-zero finite double: x = frac * 2^exp, 1/2 <= |frac| < 1 *)
Definition frexp (m e : Z) : f64 * Z :=
  let k := Z.log2 (Z.abs m) + 1 in (Fin m (- k), e + k).

(** math.Ldexp *)
Definition ldexp (frac : f64) (ex : Z) : f64 :=
  match frac with
  | Fin m e => round_dyadic m (e + ex)
  | _ => frac
  end.

(** The loop of math.Pow for the integer part [i] of the exponent. *)
Fixpoint pow_loop (fuel : nat) (i : Z) (a1 : f64) (ae : Z) (x1 : f64) (xe : Z) : f64 * Z :=
  match fuel with
  | O => (a1, ae)
  | S fuel' =>
      if i =? 0 then (a1, ae)
      else if (xe <? - 2 ^ 12) || (2 ^ 12 <? xe) then (a1, ae + xe)
      else
        let '(a1', ae') := if Z.odd i then (f64_mul a1 x1, ae + xe) else (a1, ae) in
        let x2 := f64_mul x1 x1 in
        let xe2 := xe * 2 in
        let '(x3, xe3) := if f64_lt x2 (Fin 1 (-1)) then (f64_mul x2 (Fin 2 0), xe2 - 1)
                          else (x2, xe2) in
        pow_loop fuel' (i / 2) a1' ae' x3 xe3
  end.

Definition f64_one (x : f64) : bool :=
  match x with Fin m e => negb (fin_lt m e 1 0) && negb (fin_lt 1 0 m e) | _ => false end.

(** math.Pow(x, y) for x = +Inf, NaN or a finite x >= 1, and a double y whose
    value is a non-negative integer (below 2^63 the 64 halvings exhaust it). *)
Definition f64_pow (x : f64) (y : Z) : f64 :=
  if (y =? 0) || f64_one x then Fin 1 0
  else if y =? 1 then x
  else match x with
       | Fin m e =>
           if 2 ^ 63 <=? y then PosInf else
           let '(x1, xe) := frexp m e in
           let '(a1, ae) := pow_loop 64 y (Fin 1 0) 0 x1 xe in
           ldexp a1 ae
       | _ => x
       end.

(** The integer value of a finite double without fractional part. *)
Definition f64_int_value (x : f64) : Z := match x with Fin m e => trunc m e | _ => 0 end.

(** ** Lemmas *)

Lemma pow2_pos k : 0 <= k -> 0 < 2 ^ k.
Proof. intros. by apply Z.pow_pos_nonneg. Qed.

Lemma pow2_split a b : 0 <= a -> 0 <= b -> 2 ^ (a + b) = 2 ^ a * 2 ^ b.
Proof. intros. by apply Z.pow_add_r. Qed.

Lemma trunc_align m e e0 :
  e0 <= e -> e0 <= 0 -> trunc m e = (m * 2 ^ (e - e0)) ÷ 2 ^ (- e0).
Proof.
  intros He H0. unfold trunc. destruct (Z.leb_spec 0 e) as [Hp|Hn].
  - replace (e - e0) with (e + - e0) by lia. rewrite pow2_split by lia.
    rewrite Z.mul_assoc, Z.quot_mul; [done|]. pose proof (pow2_pos (- e0)). lia.
  - replace (- e0) with ((e - e0) + - e) by lia. rewrite pow2_split by lia.
    pose proof (pow2_pos (e - e0)). pose proof (pow2_pos (- e)).
    rewrite (Z.mul_comm m). by rewrite Z.quot_mul_cancel_l by lia.
Qed.

(** Truncation is monotone for the exact comparison of doubles. *)
Lemma trunc_mono m1 e1 m2 e2 : fin_lt m2 e2 m1 e1 = false -> trunc m1 e1 <= trunc m2 e2.
Proof.
  unfold fin_lt. rewrite Z.ltb_ge. set (e := Z.min e2 e1). intros H.
  set (e0 := Z.min e 0).
  rewrite (trunc_align m1 e1 e0), (trunc_align m2 e2 e0) by lia.
  apply Z.quot_le_mono; [apply pow2_pos; lia|].
  replace (e1 - e0) with ((e1 - e) + (e - e0)) by lia.
  replace (e2 - e0) with ((e2 - e) + (e - e0)) by lia.
  rewrite !pow2_split by lia. rewrite !Z.mul_assoc.
  apply Z.mul_le_mono_nonneg_r; [|done]. pose proof (pow2_pos (e - e0)). lia.
Qed.

Lemma round_div_exact q den : 0 < den -> round_div (q * den) den = q.
Proof.
  intros H. unfold round_div. rewrite Z.div_mul, Z.mod_mul by lia.
  replace (den <? 2 * 0) with false by lia. replace (2 * 0 =? den) with false by lia. done.
Qed.

Lemma round_div_le num den hi : 0 < den -> num <= hi * den -> round_div num den <= hi.
Proof.
  intros Hd Hhi. unfold round_div.
  pose proof (Z.div_mod num den ltac:(lia)) as E.
  pose proof (Z.mod_pos_bound num den Hd) as B.
  set (q := num / den) in *. set (r := num mod den) in *.
  assert (q <= hi) by nia.
  destruct ((den <? 2 * r) || _) eqn:Hup; [|lia].
  assert (q <> hi); [|lia]. intros ->.
  rewrite orb_true_iff, andb_true_iff, Z.ltb_lt, Z.eqb_eq in Hup. nia.
Qed.

Lemma round_div_gt num den lo :
  0 < den -> den < 2 * (num - lo * den) -> lo < round_div num den.
Proof.
  intros Hd Hgap. unfold round_div.
  pose proof (Z.div_mod num den ltac:(lia)) as E.
  pose proof (Z.mod_pos_bound num den Hd) as B.
  set (q := num / den) in *. set (r := num mod den) in *.
  assert (lo <= q) by nia.
  destruct ((den <? 2 * r) || _) eqn:Hup; [lia|].
  rewrite orb_false_iff, Z.ltb_ge in Hup. nia.
Qed.

(** Below 2^53 the scale of the rounding is a negative power of two that keeps
    at least 53 significant bits. *)
Lemma round_exp_small n d :
  0 < n < 2 ^ 53 -> 0 < d -> Z.log2 d < 1000 ->
  round_exp n d <= 0 /\ d * 2 ^ 52 <= n * 2 ^ (- round_exp n d).
Proof.
  intros Hn Hd Hd'. unfold round_exp.
  pose proof (Z.log2_spec n ltac:(lia)) as [Hn1 Hn2].
  pose proof (Z.log2_spec d ltac:(lia)) as [Hd1 Hd2].
  pose proof (Z.log2_nonneg n). pose proof (Z.log2_nonneg d).
  assert (Z.log2 n < 53) by (apply Z.log2_lt_pow2; lia).
  set (ln := Z.log2 n) in *. set (ld := Z.log2 d) in *. set (l := ln - ld) in *.
  destruct (pow2_le n d l) eqn:Hle.
  - rewrite Z.max_l by lia. split; [lia|]. replace (- (l - 52)) with (52 - l) by lia.
    unfold pow2_le in Hle. destruct (Z.leb_spec 0 l); rewrite Z.leb_le in Hle.
    + replace 52 with (l + (52 - l)) at 1 by lia. rewrite pow2_split by lia.
      pose proof (pow2_pos (52 - l)). nia.
    + replace (52 - l) with (52 + - l) by lia. rewrite pow2_split by lia. nia.
  - rewrite Z.max_l by lia. split; [lia|]. replace (- (l - 53)) with (53 - l) by lia.
    assert (2 ^ (ld + 1) * 2 ^ 52 <= n * 2 ^ (53 - l)) as Hup.
    { rewrite <- pow2_split by lia. replace (ld + 1 + 52) with (ln + (53 - l)) by lia.
      rewrite pow2_split by lia. pose proof (pow2_pos (53 - l)). nia. }
    unfold Z.succ in Hd2. pose proof (pow2_pos 52). nia.
Qed.

(** No overflow, and the mantissa is the rounded scaled quotient. *)
Lemma round_pos_small n d :
  0 < n < 2 ^ 53 -> 0 < d -> Z.log2 d < 1000 ->
  round_pos n d = Fin (round_div (n * 2 ^ (- round_exp n d)) d) (round_exp n d).
Proof.
  intros Hn Hd Hd'. destruct (round_exp_small n d Hn Hd Hd') as [He _].
  unfold round_pos. set (e := round_exp n d) in *.
  assert (round_mant n d e = round_div (n * 2 ^ (- e)) d) as ->.
  { unfold round_mant. destruct (Z.leb_spec 0 e); [|done].
    replace e with 0 by lia. change (2 ^ 0) with 1. change (2 ^ (- 0)) with 1. by rewrite !Z.mul_1_r. }
  set (m := round_div (n * 2 ^ (- e)) d).
  assert (m <= 2 ^ (53 + - e)) as Hm.
  { apply round_div_le; [done|]. rewrite pow2_split by lia. pose proof (pow2_pos (- e)). nia. }
  assert (Z.log2 m <= 53 + - e) as Hl.
  { rewrite <- (Z.log2_pow2 (53 + - e)) by lia. by apply Z.log2_le_mono. }
  destruct (Z.leb_spec 1024 (e + Z.log2 m)); [lia|done].
Qed.

(** [x] is exactly the integer [v]. *)
Definition f64_val (x : f64) (v : Z) : Prop :=
  match x with
  | Fin m e => if 0 <=? e then m * 2 ^ e = v else m = v * 2 ^ (- e)
  | _ => False
  end.

Lemma f64_val_trunc m e v : f64_val (Fin m e) v -> trunc m e = v.
Proof.
  unfold f64_val, trunc. destruct (Z.leb_spec 0 e); [done|]. intros ->.
  apply Z.quot_mul. pose proof (pow2_pos (- e)). lia.
Qed.

Lemma f64_val_align m e v e0 :
  f64_val (Fin m e) v -> e0 <= e -> e0 <= 0 -> m * 2 ^ (e - e0) = v * 2 ^ (- e0).
Proof.
  unfold f64_val. intros Hv H1 H2. destruct (Z.leb_spec 0 e).
  - replace (e - e0) with (e + - e0) by lia. rewrite pow2_split by lia. lia.
  - subst m. rewrite <- Z.mul_assoc, <- pow2_split by lia. do 2 f_equal. lia.
Qed.

Lemma fin_lt_val m1 e1 v1 m2 e2 v2 :
  f64_val (Fin m1 e1) v1 -> f64_val (Fin m2 e2) v2 -> fin_lt m1 e1 m2 e2 = (v1 <? v2).
Proof.
  intros H1 H2. unfold fin_lt. set (e := Z.min e1 e2).
  pose proof (f64_val_align m1 e1 v1 (Z.min e 0) H1 ltac:(lia) ltac:(lia)) as A1.
  pose proof (f64_val_align m2 e2 v2 (Z.min e 0) H2 ltac:(lia) ltac:(lia)) as A2.
  replace (e1 - Z.min e 0) with (e1 - e + (e - Z.min e 0)) in A1 by lia.
  replace (e2 - Z.min e 0) with (e2 - e + (e - Z.min e 0)) in A2 by lia.
  rewrite pow2_split, Z.mul_assoc in A1, A2 by lia.
  pose proof (pow2_pos (e - Z.min e 0) ltac:(lia)). pose proof (pow2_pos (- Z.min e 0) ltac:(lia)).
  set (x := m1 * 2 ^ (e1 - e)) in *. set (y := m2 * 2 ^ (e2 - e)) in *.
  destruct (Z.ltb_spec x y), (Z.ltb_spec v1 v2); try done; nia.
Qed.

(** A rational whose value is an integer with at most 53 significant bits is
    rounded exactly. *)
Lemma round_pos_exact b k d :
  0 < b < 2 ^ 53 -> 0 <= k < 900 -> 0 < d -> Z.log2 d < 1000 ->
  f64_val (round_pos (b * 2 ^ k * d) d) (b * 2 ^ k).
Proof.
  intros Hb Hk Hd Hd'. unfold round_pos. set (v := b * 2 ^ k).
  set (e := round_exp (v * d) d). pose proof (pow2_pos k ltac:(lia)).
  assert (0 < v) as Hv by (unfold v; nia).
  assert (Z.log2 v = Z.log2 b + k) as Hlv by (unfold v; rewrite Z.log2_mul_pow2 by lia; lia).
  pose proof (Z.log2_nonneg b). pose proof (Z.log2_nonneg d).
  assert (Z.log2 b < 53) by (apply Z.log2_lt_pow2; lia).
  assert (-1074 <= e <= k) as He.
  { unfold e, round_exp. pose proof (Z.log2_mul_below v d ltac:(lia) ltac:(lia)).
    pose proof (Z.log2_mul_above v d ltac:(lia) ltac:(lia)).
    destruct (pow2_le (v * d) d _) eqn:Hle; [|lia].
    set (l := Z.log2 (v * d) - Z.log2 d) in *. assert (l <= 52 + k); [|lia].
    unfold pow2_le in Hle. destruct (Z.leb_spec 0 l); [|lia]. rewrite Z.leb_le in Hle.
    destruct (Z.leb_spec l (52 + k)); [done|]. exfalso.
    assert (2 ^ (53 + k) <= 2 ^ l) by (apply Z.pow_le_mono_r; lia).
    assert (2 ^ (53 + k) = 2 ^ 53 * 2 ^ k) by (apply pow2_split; lia).
    assert (2 ^ l <= v) by nia. assert (v < 2 ^ 53 * 2 ^ k) by (unfold v; nia). lia. }
  assert (exists m, round_mant (v * d) d e = m /\ (if 0 <=? e then m * 2 ^ e = v else m = v * 2 ^ (- e)))
    as (m & -> & Hm).
  { unfold round_mant. destruct (Z.leb_spec 0 e).
    - exists (b * 2 ^ (k - e)). assert (v = b * 2 ^ (k - e) * 2 ^ e) as Ev.
      { unfold v. rewrite <- Z.mul_assoc, <- pow2_split by lia. do 2 f_equal. lia. }
      split; [|done]. rewrite Ev. rewrite <- Z.mul_assoc, (Z.mul_comm (2 ^ e)).
      apply round_div_exact. pose proof (pow2_pos e). nia.
    - exists (v * 2 ^ (- e)). split; [|done].
      replace (v * d * 2 ^ (- e)) with (v * 2 ^ (- e) * d) by lia. by apply round_div_exact. }
  assert (e + Z.log2 m = Z.log2 v) as Hlm.
  { destruct (Z.leb_spec 0 e).
    - assert (0 < m) by (pose proof (pow2_pos e); nia).
      rewrite <- Hm, Z.log2_mul_pow2 by lia. lia.
    - rewrite Hm, Z.log2_mul_pow2 by lia. lia. }
  destruct (Z.leb_spec 1024 (e + Z.log2 m)); [lia|exact Hm].
Qed.

Lemma f64_val_neg x v : f64_val x v -> f64_val (f64_neg x) (- v).
Proof. destruct x as [m e| | |]; try done. cbn. destruct (0 <=? e); lia. Qed.

(** Integers below 2^53 in absolute value convert to float64 exactly. *)
Lemma f64_of_int_exact n : - 2 ^ 53 < n < 2 ^ 53 -> f64_val (f64_of_int n) n.
Proof.
  intros Hn. unfold f64_of_int, round_rat. destruct (Z.eqb_spec n 0) as [->|Hz]; [done|].
  assert (forall b, 0 < b < 2 ^ 53 -> f64_val (round_pos b 1) b) as Hpos.
  { intros b Hb. pose proof (round_pos_exact b 0 1 Hb ltac:(lia) ltac:(lia) ltac:(done)) as E.
    change (2 ^ 0) with 1 in E. by rewrite !Z.mul_1_r in E. }
  destruct (Z.ltb_spec 0 n); [by apply Hpos; lia|].
  rewrite <- (Z.opp_involutive n) at 2. apply f64_val_neg, Hpos. lia.
Qed.

Lemma int64_of_f64_val x v : f64_val x v -> min_int64 <= v <= max_int64 -> int64_of_f64 x = v.
Proof.
  destruct x as [m e| | |]; try done. intros Hv Hr. unfold int64_of_f64.
  rewrite (f64_val_trunc m e v) by done. by rewrite (proj2 (int64_ok_iff v) Hr).
Qed.

Lemma f64_of_int_exp n m e : f64_of_int n = Fin m e -> -53 <= e.
Proof.
  assert (forall b, 0 < b -> -53 <= round_exp b 1) as H.
  { intros b Hb. unfold round_exp. pose proof (Z.log2_nonneg b).
    change (Z.log2 1) with 0. destruct (pow2_le _ _ _); lia. }
  unfold f64_of_int, round_rat, round_pos.
  destruct (Z.eqb_spec n 0); [intros [= <- <-]; lia|].
  destruct (Z.ltb_spec 0 n); (destruct (1024 <=? _); [done|]); intros [= <- <-]; apply H; lia.
Qed.

(** A product that is an integer with at most 53 significant bits is exact. *)
Lemma f64_mul_exact m1 e1 m2 e2 v w b k :
  f64_val (Fin m1 e1) v -> f64_val (Fin m2 e2) w -> -1000 < e1 + e2 ->
  v * w = b * 2 ^ k -> 0 < b < 2 ^ 53 -> 0 <= k < 900 ->
  f64_val (f64_mul (Fin m1 e1) (Fin m2 e2)) (v * w).
Proof.
  intros H1 H2 He Hvw Hb Hk. cbn [f64_mul]. unfold round_dyadic.
  pose proof (pow2_pos k ltac:(lia)).
  set (e0 := Z.min (Z.min e1 e2) 0).
  pose proof (f64_val_align m1 e1 v e0 H1 ltac:(lia) ltac:(lia)) as A1.
  pose proof (f64_val_align m2 e2 w e0 H2 ltac:(lia) ltac:(lia)) as A2.
  assert (m1 * m2 * 2 ^ (e1 + e2 - 2 * e0) = v * w * 2 ^ (- (2 * e0))) as A.
  { replace (e1 + e2 - 2 * e0) with ((e1 - e0) + (e2 - e0)) by lia.
    replace (- (2 * e0)) with (- e0 + - e0) by lia. rewrite !pow2_split by lia.
    transitivity ((m1 * 2 ^ (e1 - e0)) * (m2 * 2 ^ (e2 - e0))); [ring|]. rewrite A1, A2. ring. }
  pose proof (pow2_pos (- (2 * e0)) ltac:(lia)).
  destruct (Z.leb_spec 0 (e1 + e2)).
  - assert (m1 * m2 * 2 ^ (e1 + e2) = v * w) as ->.
    { replace (e1 + e2 - 2 * e0) with ((e1 + e2) + - (2 * e0)) in A by lia.
      rewrite pow2_split, Z.mul_assoc in A by lia. by apply Z.mul_reg_r in A; [|lia]. }
    rewrite Hvw. unfold round_rat. destruct (Z.eqb_spec (b * 2 ^ k) 0); [nia|].
    destruct (Z.ltb_spec 0 (b * 2 ^ k)); [|nia].
    pose proof (round_pos_exact b k 1 Hb Hk ltac:(lia) ltac:(done)) as E. by rewrite Z.mul_1_r in E.
  - assert (m1 * m2 = v * w * 2 ^ (- (e1 + e2))) as ->.
    { replace (- (2 * e0)) with ((- (e1 + e2)) + (e1 + e2 - 2 * e0)) in A by lia.
      rewrite (pow2_split (- (e1 + e2))), Z.mul_assoc in A by lia. apply Z.mul_reg_r in A; [done|].
      pose proof (pow2_pos (e1 + e2 - 2 * e0)). lia. }
    pose proof (pow2_pos (- (e1 + e2)) ltac:(lia)).
    rewrite Hvw. unfold round_rat. destruct (Z.eqb_spec (b * 2 ^ k * 2 ^ (- (e1 + e2))) 0); [nia|].
    destruct (Z.ltb_spec 0 (b * 2 ^ k * 2 ^ (- (e1 + e2)))); [|nia].
    apply round_pos_exact; try done. rewrite Z.log2_pow2 by lia. lia.
Qed.

(** math.Ceil of a float64 quotient is the exact ceiling for a dividend below
    2^53: the rounding of the quotient never crosses an integer. *)
Lemma f64_ceil_round_pos n d :
  0 < n < 2 ^ 53 -> 0 < d -> Z.log2 d < 1000 ->
  f64_int_value (f64_ceil (round_pos n d)) = - (- n / d).
Proof.
  intros Hn Hd Hd'. rewrite round_pos_small by done.
  destruct (round_exp_small n d Hn Hd Hd') as [He Hsig].
  set (e := round_exp n d) in *. set (s := - e) in *.
  pose proof (pow2_pos s ltac:(lia)) as Hs.
  set (k := - (- n / d)).
  assert ((k - 1) * d < n <= k * d) as Hk.
  { unfold k. pose proof (Z.div_mod (- n) d ltac:(lia)).
    pose proof (Z.mod_pos_bound (- n) d Hd). nia. }
  set (m := round_div (n * 2 ^ s) d).
  assert ((k - 1) * 2 ^ s < m <= k * 2 ^ s) as Hm.
  { split.
    - apply round_div_gt; [done|].
      assert (2 ^ s <= n * 2 ^ s - (k - 1) * 2 ^ s * d) by nia.
      assert (d < 2 * 2 ^ s); [|lia].
      assert (d * 2 ^ 52 < 2 ^ 53 * 2 ^ s) by nia. lia.
    - apply round_div_le; [done|]. nia. }
  unfold f64_ceil, f64_int_value. destruct (Z.leb_spec 0 e) as [Hz|Hz].
  - assert (e = 0) as E0 by lia. assert (s = 0) as Es by lia. rewrite Es in Hm.
    change (2 ^ 0) with 1 in Hm. unfold trunc. rewrite E0. cbn. lia.
  - fold s. unfold trunc. cbn. assert (- m / 2 ^ s = - k); [|lia].
    symmetry. apply (Z.div_unique_pos (- m) (2 ^ s) (- k) (k * 2 ^ s - m)); lia.
Qed.

(** ** Quotients of small integers *)

(** Rounding depends on the ratio only: a common power of two cancels. *)
Lemma round_div_scale n d c : 0 < d -> 0 < c -> round_div (n * c) (d * c) = round_div n d.
Proof.
  intros Hd Hc. unfold round_div. rewrite Z.div_mul_cancel_r, Zmult_mod_distr_r by lia.
  replace (2 * (n mod d * c)) with (2 * (n mod d) * c) by ring.
  assert ((d * c <? 2 * (n mod d) * c) = (d <? 2 * (n mod d))) as ->.
  { destruct (Z.ltb_spec d (2 * (n mod d))), (Z.ltb_spec (d * c) (2 * (n mod d) * c)); nia. }
  assert ((2 * (n mod d) * c =? d * c) = (2 * (n mod d) =? d)) as ->; [|done].
  destruct (Z.eqb_spec (2 * (n mod d)) d), (Z.eqb_spec (2 * (n mod d) * c) (d * c)); nia.
Qed.

Lemma pow2_le_scale n d l c : 0 < c -> pow2_le (n * c) (d * c) l = pow2_le n d l.
Proof.
  intros Hc. unfold pow2_le. destruct (0 <=? l).
  - replace (d * c * 2 ^ l) with (d * 2 ^ l * c) by ring. generalize (d * 2 ^ l). intros x.
    destruct (Z.leb_spec x n), (Z.leb_spec (x * c) (n * c)); nia.
  - replace (n * c * 2 ^ (- l)) with (n * 2 ^ (- l) * c) by ring. generalize (n * 2 ^ (- l)). intros x.
    destruct (Z.leb_spec d x), (Z.leb_spec (d * c) (x * c)); nia.
Qed.

Lemma round_pos_scale n d j :
  0 < n -> 0 < d -> 0 <= j -> round_pos (n * 2 ^ j) (d * 2 ^ j) = round_pos n d.
Proof.
  intros Hn Hd Hj. pose proof (pow2_pos j Hj) as Hp. unfold round_pos.
  assert (round_exp (n * 2 ^ j) (d * 2 ^ j) = round_exp n d) as ->.
  { unfold round_exp. rewrite !Z.log2_mul_pow2 by lia.
    replace (j + Z.log2 n - (j + Z.log2 d)) with (Z.log2 n - Z.log2 d) by lia.
    rewrite pow2_le_scale by done. reflexivity. }
  assert (round_mant (n * 2 ^ j) (d * 2 ^ j) (round_exp n d) = round_mant n d (round_exp n d)) as ->;
    [|done].
  unfold round_mant. destruct (Z.leb_spec 0 (round_exp n d)) as [He|He].
  - replace (d * 2 ^ j * 2 ^ round_exp n d) with (d * 2 ^ round_exp n d * 2 ^ j) by ring.
    pose proof (pow2_pos _ He). apply round_div_scale; nia.
  - replace (n * 2 ^ j * 2 ^ (- round_exp n d)) with (n * 2 ^ (- round_exp n d) * 2 ^ j) by ring.
    by apply round_div_scale.
Qed.

Lemma f64_of_int_small v :
  0 < v < 2 ^ 53 -> exists s, 0 <= s /\ f64_of_int v = Fin (v * 2 ^ s) (- s).
Proof.
  intros Hv. pose proof (f64_of_int_exact v ltac:(lia)) as Hx.
  destruct (f64_of_int v) as [m e| | |] eqn:E; try done.
  assert (e <= 0) as He.
  { unfold f64_of_int, round_rat in E. destruct (Z.eqb_spec v 0); [lia|].
    destruct (Z.ltb_spec 0 v); [|lia]. unfold round_pos in E.
    destruct (1024 <=? _); [done|]. injection E as _ <-. unfold round_exp.
    pose proof (Z.log2_lt_pow2 v 53 ltac:(lia)). change (Z.log2 1) with 0.
    destruct (pow2_le _ _ _); lia. }
  exists (- e). split; [lia|]. rewrite Z.opp_involutive. f_equal. unfold f64_val in Hx.
  destruct (Z.leb_spec 0 e); [|done]. assert (e = 0) as -> by lia. cbn in *. lia.
Qed.

(** int(math.Ceil(float64(n) / float64(d))) is the exact ceiling. *)
Lemma ceil_quotient n d :
  0 <= n < 2 ^ 53 -> 0 < d < 2 ^ 53 ->
  int64_of_f64 (f64_ceil (f64_div (f64_of_int n) (f64_of_int d))) = - (- n / d).
Proof.
  intros Hn Hd. destruct (f64_of_int_small d Hd) as (sd & Hsd & ->).
  pose proof (pow2_pos sd Hsd).
  destruct (Z.eq_dec n 0) as [->|Hn0].
  { change (f64_of_int 0) with (Fin 0 0). cbn [f64_div].
    destruct (Z.eqb_spec (d * 2 ^ sd) 0); [nia|].
    rewrite Z.mul_0_r, Z.mul_0_l. by destruct (0 <=? 0 - - sd). }
  destruct (f64_of_int_small n ltac:(lia)) as (sn & Hsn & ->). pose proof (pow2_pos sn Hsn).
  assert (f64_div (Fin (n * 2 ^ sn) (- sn)) (Fin (d * 2 ^ sd) (- sd)) = round_pos n d) as ->.
  { cbn [f64_div]. destruct (Z.eqb_spec (d * 2 ^ sd) 0); [nia|].
    rewrite Z.sgn_pos, Z.mul_1_l, Z.abs_eq by nia. unfold round_rat.
    destruct (Z.leb_spec 0 (- sn - - sd)).
    - rewrite <- Z.mul_assoc, <- pow2_split by lia. replace (sn + (- sn - - sd)) with sd by lia.
      destruct (Z.eqb_spec (n * 2 ^ sd) 0); [nia|]. destruct (Z.ltb_spec 0 (n * 2 ^ sd)); [|nia].
      apply round_pos_scale; lia.
    - rewrite <- Z.mul_assoc, <- pow2_split by lia. replace (sd + - (- sn - - sd)) with sn by lia.
      destruct (Z.eqb_spec (n * 2 ^ sn) 0); [nia|]. destruct (Z.ltb_spec 0 (n * 2 ^ sn)); [|nia].
      apply round_pos_scale; lia. }
  pose proof (f64_ceil_round_pos n d ltac:(lia) ltac:(lia)
    ltac:(pose proof (Z.log2_lt_pow2 d 53); lia)) as Hc.
  assert (0 < - (- n / d) <= n).
  { pose proof (Z.div_mod (- n) d ltac:(lia)). pose proof (Z.mod_pos_bound (- n) d ltac:(lia)). nia. }
  destruct (f64_ceil (round_pos n d)) as [m e| | |]; cbn in Hc |- *; try lia.
  rewrite Hc. rewrite (proj2 (int64_ok_iff _)); [done|]. unfold min_int64, max_int64. lia.
Qed.
