(* ===== verification/Http.v ===== *)
(** * Http: the parts of [net/http] and [encoding/json] the handlers use

    Headers with canonical keys, a response writer with net/http's
    first-[WriteHeader]-wins rule, and JSON values as trees (an encoded body is
    kept as the tree that was encoded). *)

From S2P Require Import Prelude GoStrings GoFloat.

Set Warnings "-register-all".

(** ** JSON values

    Numbers by the Go type they were marshalled from: integers and [float64]s. *)

Inductive json :=
  | JNull
  | JBool (b : bool)
  | JNum (n : Z)
  | JFloat (f : f64)
  | JStr (s : string)
  | JArr (l : list json)
  | JObj (fields : list (string * json)).

(** ** Headers *)

Abbreviation headers := (gmap string (list string)).

Definition is_token_char (c : ascii) : bool :=
  is_digit c
  || ((65 <=? byte_of c) && (byte_of c <=? 90))
  || ((97 <=? byte_of c) && (byte_of c <=? 122))
  || contains_char c "!#$%&'*+-.^_`|~".

Fixpoint canonical_go (up : bool) (s : string) : string :=
  match s with
  | EmptyString => EmptyString
  | String c s' =>
      String (if up then upper_char c else lower_char c) (canonical_go (Ascii.eqb c "-") s')
  end.

(** textproto.CanonicalMIMEHeaderKey *)
Definition canonical_key (s : string) : string :=
  if all_chars is_token_char s then canonical_go true s else s.

Definition hdr_get (h : headers) (k : string) : string :=
  match h !! canonical_key k with
  | Some (v :: _) => v
  | _ => EmptyString
  end.

Definition hdr_set (k v : string) (h : headers) : headers := <[canonical_key k := [v]]> h.

Definition hdr_add (k v : string) (h : headers) : headers :=
  <[canonical_key k := default [] (h !! canonical_key k) ++ [v]]> h.

Definition hdr_del (k : string) (h : headers) : headers := delete (canonical_key k) h.

(** ** Request bodies *)

(** A request body: the bytes it yields, and whether reading then fails instead of ending. *)
Record body := mkBody { body_text : string; body_fails : bool }.

(** ** Response writers *)

Inductive chunk :=
  | Raw (s : string)
  | Encoded (j : json).

Record ResponseWriter := mkRW {
  rw_header : headers;
  rw_sent : option (Z * headers);   (* status line and headers already on the wire *)
  rw_body : list chunk
}.

Definition new_writer : ResponseWriter := mkRW ∅ None [].

Definition upd_header (f : headers -> headers) (w : ResponseWriter) : ResponseWriter :=
  mkRW (f (rw_header w)) (rw_sent w) (rw_body w).

(** http.ResponseWriter.WriteHeader: only the first call counts. *)
Definition write_header (code : Z) (w : ResponseWriter) : ResponseWriter :=
  match rw_sent w with
  | Some _ => w
  | None => mkRW (rw_header w) (Some (code, rw_header w)) (rw_body w)
  end.

(** http.ResponseWriter.Write: an implicit WriteHeader(200), then the bytes. *)
Definition write_chunk (c : chunk) (w : ResponseWriter) : ResponseWriter :=
  let w' := write_header 200 w in
  mkRW (rw_header w') (rw_sent w') (rw_body w' ++ [c]).

Definition rw_status (w : ResponseWriter) : option Z := fst <$> rw_sent w.

(** Status codes, by their [net/http] names. *)
Definition StatusOK : Z := 200.
Definition StatusNoContent : Z := 204.
Definition StatusBadRequest : Z := 400.
Definition StatusUnauthorized : Z := 401.
Definition StatusForbidden : Z := 403.
Definition StatusNotFound : Z := 404.
Definition StatusMethodNotAllowed : Z := 405.
Definition StatusConflict : Z := 409.
Definition StatusTooManyRequests : Z := 429.
Definition StatusInternalServerError : Z := 500.
Definition StatusBadGateway : Z := 502.
Definition StatusServiceUnavailable : Z := 503.
Definition StatusGatewayTimeout : Z := 504.

(** ** Lemmas *)

(** Canonical keys are their own canonical form. *)
Lemma canonical_go_idem up s : canonical_go up (canonical_go up s) = canonical_go up s.
Proof.
  revert up. induction s as [|c s IH]; intros up; [done|]. cbn.
  assert (Hc : (if up then upper_char (if up then upper_char c else lower_char c) else lower_char (if up then upper_char c else lower_char c))
               = (if up then upper_char c else lower_char c) /\
               Ascii.eqb (if up then upper_char c else lower_char c) "-" = Ascii.eqb c "-")
    by (destruct up, c as [[] [] [] [] [] [] [] []]; done).
  destruct Hc as [-> ->]. by rewrite IH.
Qed.
Lemma token_canonical up s : all_chars is_token_char (canonical_go up s) = all_chars is_token_char s.
Proof.
  revert up. induction s as [|c s IH]; intros up; [done|]. cbn. rewrite IH. f_equal.
  destruct up, c as [[] [] [] [] [] [] [] []]; vm_compute; done.
Qed.
Lemma canonical_idem k : canonical_key (canonical_key k) = canonical_key k.
Proof.
  unfold canonical_key. destruct (all_chars is_token_char k) eqn:Hk; [|by rewrite Hk].
  by rewrite token_canonical, Hk, canonical_go_idem.
Qed.

Lemma hdr_get_set_eq h k v : hdr_get (hdr_set k v h) k = v.
Proof. unfold hdr_get, hdr_set. by rewrite lookup_insert_eq. Qed.

Lemma hdr_get_set_ne h k k' v :
  canonical_key k <> canonical_key k' -> hdr_get (hdr_set k v h) k' = hdr_get h k'.
Proof. intros H. unfold hdr_get, hdr_set. by rewrite lookup_insert_ne. Qed.

Lemma hdr_get_empty k : hdr_get ∅ k = EmptyString.
Proof. unfold hdr_get. by rewrite lookup_empty. Qed.

Lemma write_header_sent code w r : rw_sent w = Some r -> write_header code w = w.
Proof. unfold write_header. by intros ->. Qed.
