(* ===== verification/Json.v ===== *)
(** * Json: the text form of JSON, as [encoding/json] reads and writes it

    A parser for the whole grammar (numbers that are not integer literals become
    [float64]s; bytes that are not UTF-8 are kept instead of replaced), and the
    rendering of a struct of strings, with the round trip between them. *)

From S2P Require Import Prelude GoStrings GoFloat Http.

(** ** Reading *)

Definition is_ws (c : ascii) : bool :=
  let b := byte_of c in (b =? 32) || (b =? 9) || (b =? 10) || (b =? 13).
Fixpoint skip_ws (s : string) : string :=
  match s with String c s' => if is_ws c then skip_ws s' else s | EmptyString => s end.

Definition dquote : ascii := ascii_of_byte 34.
Definition backslash : ascii := ascii_of_byte 92.

(** Four hexadecimal digits. *)
Definition hex4 (s : string) : option (Z * string) :=
  match s with
  | String a (String b (String c (String d r))) =>
      match hex_value a, hex_value b, hex_value c, hex_value d with
      | Some a, Some b, Some c, Some d => Some (4096 * a + 256 * b + 16 * c + d, r)
      | _, _, _, _ => None
      end
  | _ => None
  end.

(** The UTF-8 encoding of a code point. *)
Definition utf8_rune (r : Z) : string :=
  utf8 (if r <? 128 then [r]
        else if r <? 2048 then [192 + r / 64; 128 + r mod 64]
        else if r <? 65536 then [224 + r / 4096; 128 + r / 64 mod 64; 128 + r mod 64]
        else [240 + r / 262144; 128 + r / 4096 mod 64; 128 + r / 64 mod 64; 128 + r mod 64]).

(** A code point written as \u escapes: surrogate pairs combine, a lone one is U+FFFD. *)
Definition rune_escape (s : string) : option (string * string) :=
  match hex4 s with
  | None => None
  | Some (r, s1) =>
      if (55296 <=? r) && (r <=? 57343) then
        match s1 with
        | String b (String u s2) =>
            match (if Ascii.eqb b backslash && Ascii.eqb u "u" then hex4 s2 else None) with
            | Some (r2, s3) => if (r <=? 56319) && (56320 <=? r2) && (r2 <=? 57343)
                               then Some (utf8_rune (65536 + (r - 55296) * 1024 + (r2 - 56320)), s3)
                               else Some (utf8_rune 65533, s1)
            | None => Some (utf8_rune 65533, s1)
            end
        | _ => Some (utf8_rune 65533, s1)
        end
      else Some (utf8_rune r, s1)
  end.

Definition simple_escape (c : ascii) : option ascii :=
  if Ascii.eqb c dquote || Ascii.eqb c backslash || Ascii.eqb c "/" then Some c
  else if Ascii.eqb c "b" then Some (ascii_of_byte 8)
  else if Ascii.eqb c "f" then Some (ascii_of_byte 12)
  else if Ascii.eqb c "n" then Some (ascii_of_byte 10)
  else if Ascii.eqb c "r" then Some (ascii_of_byte 13)
  else if Ascii.eqb c "t" then Some (ascii_of_byte 9)
  else None.

(** The rest of a string behind its opening quote. *)
Fixpoint parse_string (fuel : nat) (s : string) : option (string * string) :=
  match fuel, s with
  | S fuel, String c s' =>
      if Ascii.eqb c dquote then Some (EmptyString, s')
      else if byte_of c <? 32 then None
      else if Ascii.eqb c backslash then
        match s' with
        | EmptyString => None
        | String e s'' =>
            match (if Ascii.eqb e "u" then rune_escape s''
                   else match simple_escape e with Some x => Some (String x EmptyString, s'') | None => None end) with
            | Some (x, rest) => match parse_string fuel rest with Some (t, r) => Some (x +:+ t, r) | None => None end
            | None => None
            end
        end
      else match parse_string fuel s' with Some (t, r) => Some (String c t, r) | None => None end
  | _, _ => None
  end.

(** A maximal run of digits. *)
Fixpoint span_digits (s : string) : string * string :=
  match s with
  | String c s' => if is_digit c then let '(d, r) := span_digits s' in (String c d, r) else (EmptyString, s)
  | EmptyString => (EmptyString, EmptyString)
  end.

Definition parse_number (s : string) : option (json * string) :=
  let '(neg, s1) := match s with String c r => if Ascii.eqb c "-" then (true, r) else (false, s) | _ => (false, s) end in
  let '(ip, s2) := span_digits s1 in
  let sgn (z : Z) := if neg : bool then - z else z in
  match parse_unsigned ip with
  | None => None
  | Some i =>
      if has_prefix "0" ip && (1 <? Z.of_nat (String.length ip)) then None
      else
        let '(fp, s3, frac) := match s2 with
                               | String c r => if Ascii.eqb c "." then let '(f, r') := span_digits r in (f, r', true) else (EmptyString, s2, false)
                               | _ => (EmptyString, s2, false)
                               end in
        if frac && (Z.of_nat (String.length fp) =? 0) then None
        else
          let '(ex, s4, ok, exp) :=
            match s3 with
            | String c r =>
                if Ascii.eqb c "e" || Ascii.eqb c "E" then
                  let '(eneg, r1) := match r with
                                     | String d r' => if Ascii.eqb d "-" then (true, r') else if Ascii.eqb d "+" then (false, r') else (false, r)
                                     | _ => (false, r)
                                     end in
                  let '(ed, r2) := span_digits r1 in
                  match parse_unsigned ed with
                  | Some e => ((if eneg : bool then - e else e), r2, true, true)
                  | None => (0, r2, false, true)
                  end
                else (0, s3, true, false)
            | _ => (0, s3, true, false)
            end in
          if negb ok then None
          else if negb frac && negb exp then Some (JNum (sgn i), s4)
          else
            let k := Z.of_nat (String.length fp) in
            let m := sgn (i * 10 ^ k + default 0 (parse_unsigned fp)) in
            let e := ex - k in
            Some (JFloat (if 0 <=? e then round_rat (m * 10 ^ e) 1 else round_rat m (10 ^ (- e))), s4)
  end.

Fixpoint parse_value (fuel : nat) (s : string) : option (json * string) :=
  match fuel with
  | O => None
  | S fuel =>
      match skip_ws s with
      | EmptyString => None
      | String c r =>
          if Ascii.eqb c dquote then match parse_string fuel r with Some (t, r) => Some (JStr t, r) | None => None end
          else if Ascii.eqb c "{" then
            match skip_ws r with
            | String c' r' => if Ascii.eqb c' "}" then Some (JObj [], r')
                              else match parse_members fuel r with Some (fs, r) => Some (JObj fs, r) | None => None end
            | EmptyString => None
            end
          else if Ascii.eqb c "[" then
            match skip_ws r with
            | String c' r' => if Ascii.eqb c' "]" then Some (JArr [], r')
                              else match parse_elements fuel r with Some (l, r) => Some (JArr l, r) | None => None end
            | EmptyString => None
            end
          else if has_prefix "true" (String c r) then Some (JBool true, drop 4 (String c r))
          else if has_prefix "false" (String c r) then Some (JBool false, drop 5 (String c r))
          else if has_prefix "null" (String c r) then Some (JNull, drop 4 (String c r))
          else parse_number (String c r)
      end
  end
(** What stands behind "{" or a comma. *)
with parse_members (fuel : nat) (s : string) : option (list (string * json) * string) :=
  match fuel with
  | O => None
  | S fuel =>
      match skip_ws s with
      | String q r =>
          if Ascii.eqb q dquote then
            match parse_string fuel r with
            | Some (k, r) =>
                match skip_ws r with
                | String c r =>
                    if Ascii.eqb c ":" then
                      match parse_value fuel r with
                      | Some (v, r) =>
                          match skip_ws r with
                          | String d r =>
                              if Ascii.eqb d "}" then Some ([(k, v)], r)
                              else if Ascii.eqb d "," then
                                match parse_members fuel r with Some (fs, r) => Some ((k, v) :: fs, r) | None => None end
                              else None
                          | EmptyString => None
                          end
                      | None => None
                      end
                    else None
                | EmptyString => None
                end
            | None => None
            end
          else None
      | EmptyString => None
      end
  end
with parse_elements (fuel : nat) (s : string) : option (list json * string) :=
  match fuel with
  | O => None
  | S fuel =>
      match parse_value fuel s with
      | Some (v, r) =>
          match skip_ws r with
          | String d r => if Ascii.eqb d "]" then Some ([v], r)
                          else if Ascii.eqb d "," then
                            match parse_elements fuel r with Some (l, r) => Some (v :: l, r) | None => None end
                          else None
          | EmptyString => None
          end
      | None => None
      end
  end.

(** Every recursive call but the step into a value consumes a byte. *)
Definition json_parse (s : string) : option json :=
  match parse_value (S (2 * String.length s)) s with
  | Some (j, r) => match skip_ws r with EmptyString => Some j | _ => None end
  | None => None
  end.

(** A sample text with its double quotes written as single ones. *)
Definition requote (s : string) : string := string_map (fun c => if Ascii.eqb c "'" then dquote else c) s.
Example json_parse_sample :
  json_parse (requote " {'a': [1, -2.5e1, 'x\n\u00e9'], 'b': null}")
  = Some (JObj [("a", JArr [JNum 1; JFloat (round_rat (-250) 10);
                            JStr (String "x" (String (ascii_of_byte 10) (utf8 [195; 169])))]); ("b", JNull)]).
Proof. vm_compute. reflexivity. Qed.

(** ** Writing a struct of strings *)

(** Characters json.Marshal writes as they are. *)
Definition plain_char (c : ascii) : bool :=
  let b := byte_of c in
  (32 <=? b) && (b <? 127) && negb (Ascii.eqb c dquote) && negb (Ascii.eqb c backslash)
  && negb (Ascii.eqb c "<") && negb (Ascii.eqb c ">") && negb (Ascii.eqb c "&").
Definition plain (s : string) : bool := all_chars plain_char s.

(** json.Marshal of a struct whose names and values are plain. *)
Definition struct_text (kvs : list (string * string)) : string :=
  "{" +:+ join "," (map (fun kv => quoted kv.1 +:+ ":" +:+ quoted kv.2) kvs) +:+ "}".

(** *** The round trip *)

Lemma quoted_app v rest : quoted v +:+ rest = String dquote (v +:+ String dquote rest).
Proof. unfold quoted. change (ascii_of_byte 34) with dquote. by rewrite !app_String, string_app_assoc. Qed.

Lemma parse_string_plain v rest fuel :
  plain v = true -> (String.length v < fuel)%nat -> parse_string fuel (v +:+ String dquote rest) = Some (v, rest).
Proof.
  unfold plain. revert fuel. induction v as [|c v IH]; intros [|fuel] Hp Hf; cbn in Hf; try lia; [done|].
  cbn in Hp. apply andb_prop in Hp as [Hc Hv]. rewrite app_String. cbn [parse_string].
  unfold plain_char in Hc. bools. rewrite (proj2 (Z.ltb_ge _ _)) by done.
  repeat match goal with H : Ascii.eqb _ _ = false |- _ => rewrite ?H; clear H end.
  by rewrite IH by (done || lia).
Qed.

Lemma skip_ws_char c s : is_ws c = false -> skip_ws (String c s) = String c s.
Proof. intros H. cbn. by rewrite H. Qed.

Lemma string_length_app s t : String.length (s +:+ t) = (String.length s + String.length t)%nat.
Proof. induction s as [|c s IH]; [done|]. rewrite app_String. cbn. by rewrite IH. Qed.

Lemma length_quoted s : String.length (quoted s) = (String.length s + 2)%nat.
Proof. unfold quoted. rewrite string_length_app. cbn. lia. Qed.

Lemma parse_value_string v rest fuel :
  plain v = true -> (S (String.length v) < fuel)%nat ->
  parse_value fuel (String dquote (v +:+ String dquote rest)) = Some (JStr v, rest).
Proof.
  intros Hp Hf. destruct fuel as [|fuel]; [lia|]. cbn [parse_value]. rewrite skip_ws_char by done.
  change (Ascii.eqb dquote dquote) with true. cbv iota. by rewrite parse_string_plain by (done || lia).
Qed.

Definition text_len (kvs : list (string * string)) : nat :=
  sum_list_with (fun kv => String.length kv.1 + String.length kv.2 + 6)%nat kvs.

Lemma parse_members_struct kvs rest fuel :
  kvs <> [] -> Forall (fun kv => plain kv.1 = true /\ plain kv.2 = true) kvs -> (text_len kvs < fuel)%nat ->
  parse_members fuel (join "," (map (fun kv => quoted kv.1 +:+ ":" +:+ quoted kv.2) kvs) +:+ String "}" rest)
  = Some (map (fun kv => (kv.1, JStr kv.2)) kvs, rest).
Proof.
  intros Hne Hp. revert fuel Hne. induction Hp as [|[k v] kvs [Hk Hv] Hp IH]; [done|]. intros fuel _ Hf.
  unfold text_len in Hf. cbn [sum_list_with] in Hf. fold (text_len kvs) in Hf. cbn [fst snd] in *.
  destruct fuel as [|fuel]; [lia|].
  set (tail := match kvs with [] => String "}" rest
    | _ => String "," (join "," (map (fun kv => quoted kv.1 +:+ ":" +:+ quoted kv.2) kvs) +:+ String "}" rest) end).
  replace (join "," (map _ ((k, v) :: kvs)) +:+ String "}" rest)
    with (String dquote (k +:+ String dquote (String ":" (String dquote (v +:+ String dquote tail))))).
  2: { subst tail. destruct kvs as [|kv kvs]; cbn [map join fst snd]; rewrite ?string_app_assoc, !quoted_app, ?app_String;
       rewrite ?app_Empty, ?quoted_app; reflexivity. }
  cbn [parse_members]. rewrite skip_ws_char by done. change (Ascii.eqb dquote dquote) with true. cbv iota.
  rewrite parse_string_plain by (done || lia). rewrite skip_ws_char by done.
  change (Ascii.eqb ":" ":") with true. cbv iota. rewrite parse_value_string by (done || lia).
  subst tail. destruct kvs as [|kv kvs]; [done|]. rewrite skip_ws_char by done.
  change (Ascii.eqb "," "}") with false. change (Ascii.eqb "," ",") with true. cbv iota.
  by rewrite IH by (done || lia).
Qed.

(** A struct of plain strings is read back as it was written. *)
Lemma json_parse_struct kvs :
  kvs <> [] -> Forall (fun kv => plain kv.1 = true /\ plain kv.2 = true) kvs ->
  json_parse (struct_text kvs) = Some (JObj (map (fun kv => (kv.1, JStr kv.2)) kvs)).
Proof.
  intros Hne Hp. unfold json_parse, struct_text. set (body := join "," _).
  assert (Hlen : (text_len kvs <= S (String.length body))%nat).
  { subst body. clear Hp. unfold text_len. induction kvs as [|[k v] kvs IH]; [done|]. cbn [sum_list_with map fst snd].
    destruct kvs as [|kv kvs].
    - cbn [map join fst snd sum_list_with]. rewrite !string_length_app, !length_quoted. cbn. lia.
    - specialize (IH ltac:(done)). set (l := kv :: kvs) in *. change (map ?f (?a :: ?l)) with (f a :: map f l).
      rewrite (join_cons ","%char) by done. rewrite !string_length_app, !length_quoted. cbn [String.length fst snd]. lia. }
  assert (Hq : exists r, body +:+ "}" = String dquote r).
  { subst body. destruct kvs as [|[k v] [|kv kvs]]; [done|..]; cbn [map join fst snd];
      rewrite ?string_app_assoc, quoted_app; by eexists. }
  destruct Hq as [r Hr]. rewrite app_String, app_Empty. cbn [parse_value]. rewrite skip_ws_char by done.
  change (Ascii.eqb "{" dquote) with false. change (Ascii.eqb "{" "{") with true. cbv iota.
  rewrite Hr at 1. rewrite skip_ws_char by done. change (Ascii.eqb dquote "}") with false. cbv iota.
  cbn [String.length]. rewrite string_length_app. cbn [String.length].
  rewrite (parse_members_struct kvs EmptyString) by (done || lia). done.
Qed.
