(* ===== verification/Base64.v ===== *)
(** * Base64: [encoding/base64]'s RawURLEncoding

    Decoding as Go does it: line breaks are skipped anywhere, padding is refused,
    the unused bits of the last group are not checked. *)

From S2P Require Import Prelude GoStrings GoFloat Http Json.

Definition enc6 (n : Z) : ascii :=
  ascii_of_byte (if n <? 26 then 65 + n else if n <? 52 then 71 + n else if n <? 62 then n - 4 else if n =? 62 then 45 else 95).
Definition dec6 (c : ascii) : option Z :=
  let b := byte_of c in
  if (65 <=? b) && (b <=? 90) then Some (b - 65)
  else if (97 <=? b) && (b <=? 122) then Some (b - 71)
  else if (48 <=? b) && (b <=? 57) then Some (b + 4)
  else if b =? 45 then Some 62
  else if b =? 95 then Some 63
  else None.

Fixpoint b64_encode (s : string) : string :=
  match s with
  | EmptyString => EmptyString
  | String a EmptyString =>
      let a := byte_of a in String (enc6 (a / 4)) (String (enc6 (a mod 4 * 16)) EmptyString)
  | String a (String b EmptyString) =>
      let a := byte_of a in let b := byte_of b in
      String (enc6 (a / 4)) (String (enc6 (a mod 4 * 16 + b / 16)) (String (enc6 (b mod 16 * 4)) EmptyString))
  | String a (String b (String c r)) =>
      let a := byte_of a in let b := byte_of b in let c := byte_of c in
      String (enc6 (a / 4)) (String (enc6 (a mod 4 * 16 + b / 16))
        (String (enc6 (b mod 16 * 4 + c / 64)) (String (enc6 (c mod 64)) (b64_encode r))))
  end.

Definition is_newline (c : ascii) : bool := (byte_of c =? 10) || (byte_of c =? 13).
Fixpoint drop_newlines (s : string) : string :=
  match s with
  | EmptyString => EmptyString
  | String c s => if is_newline c then drop_newlines s else String c (drop_newlines s)
  end.

Fixpoint decode_groups (s : string) : option string :=
  match s with
  | EmptyString => Some EmptyString
  | String _ EmptyString => None
  | String x (String y EmptyString) =>
      match dec6 x, dec6 y with
      | Some x, Some y => Some (String (ascii_of_byte (x * 4 + y / 16)) EmptyString)
      | _, _ => None
      end
  | String x (String y (String z EmptyString)) =>
      match dec6 x, dec6 y, dec6 z with
      | Some x, Some y, Some z =>
          Some (String (ascii_of_byte (x * 4 + y / 16)) (String (ascii_of_byte (y mod 16 * 16 + z / 4)) EmptyString))
      | _, _, _ => None
      end
  | String x (String y (String z (String t r))) =>
      match dec6 x, dec6 y, dec6 z, dec6 t, decode_groups r with
      | Some x, Some y, Some z, Some t, Some rest =>
          Some (String (ascii_of_byte (x * 4 + y / 16)) (String (ascii_of_byte (y mod 16 * 16 + z / 4))
            (String (ascii_of_byte (z mod 4 * 64 + t)) rest)))
      | _, _, _, _, _ => None
      end
  end.

(** DecodeString; [None] is a CorruptInputError. *)
Definition b64_decode (s : string) : option string := decode_groups (drop_newlines s).

(** ** The round trip *)

Lemma byte_of_enc6 n : 0 <= n < 64 ->
  byte_of (enc6 n) = if n <? 26 then 65 + n else if n <? 52 then 71 + n else if n <? 62 then n - 4 else if n =? 62 then 45 else 95.
Proof. intros H. unfold enc6. apply byte_of_ascii. repeat case_match; bools; lia. Qed.

Lemma dec6_enc6 n : 0 <= n < 64 -> dec6 (enc6 n) = Some n.
Proof.
  intros H. unfold dec6. rewrite byte_of_enc6 by done.
  destruct (Z.ltb_spec n 26), (Z.ltb_spec n 52), (Z.ltb_spec n 62), (Z.eqb_spec n 62); try lia;
    repeat case_match; bools; try lia; f_equal; lia.
Qed.

Lemma enc6_plain n : 0 <= n < 64 -> plain_char (enc6 n) = true /\ is_newline (enc6 n) = false.
Proof.
  intros H. pose proof (byte_of_enc6 n H) as Hb.
  assert (Hr : 45 <= byte_of (enc6 n) <= 122 /\ byte_of (enc6 n) <> 92 /\ byte_of (enc6 n) <> 60 /\ byte_of (enc6 n) <> 62).
  { rewrite Hb. destruct (Z.ltb_spec n 26), (Z.ltb_spec n 52), (Z.ltb_spec n 62), (Z.eqb_spec n 62); lia. }
  assert (Hne : forall c k, byte_of c = k -> byte_of (enc6 n) <> k -> Ascii.eqb (enc6 n) c = false).
  { intros c k Hc Hk. destruct (Ascii.eqb_spec (enc6 n) c) as [E|]; [by rewrite E in Hk|done]. }
  unfold plain_char, is_newline.
  rewrite (Hne dquote 34), (Hne backslash 92), (Hne "<"%char 60), (Hne ">"%char 62), (Hne "&"%char 38) by (reflexivity || lia).
  lia.
Qed.

(** The quotients and remainders of an encoding are six-bit numbers. *)
Lemma div_range x m k : 0 < m -> 0 <= x < m * k -> 0 <= x / m < k.
Proof. intros Hm Hx. split; [apply Z.div_pos; lia|apply Z.div_lt_upper_bound; lia]. Qed.

(** Strings, three bytes at a time. *)
Lemma string_ind3 (P : string -> Prop) :
  P EmptyString -> (forall a, P (String a EmptyString)) -> (forall a b, P (String a (String b EmptyString))) ->
  (forall a b c r, P r -> P (String a (String b (String c r)))) -> forall s, P s.
Proof.
  intros H0 H1 H2 H3. fix IH 1. intros [|a [|b [|c r]]]; [exact H0|apply H1|apply H2|]. apply H3, IH.
Qed.

Lemma b64_decode_groups s : decode_groups (b64_encode s) = Some s.
Proof.
  induction s as [|a|a b|a b c r IH] using string_ind3; [done|..]; cbn [b64_encode decode_groups];
    pose proof (byte_of_range a) as Ha; try pose proof (byte_of_range b) as Hb; try pose proof (byte_of_range c) as Hc;
    pose proof (div_range (byte_of a) 4 64 ltac:(lia) ltac:(lia)) as Ha1; pose proof (Z.mod_pos_bound (byte_of a) 4 ltac:(lia)) as Ha2;
    pose proof (Z.div_mod (byte_of a) 4 ltac:(lia)) as Ha3.
  - rewrite !dec6_enc6 by lia. rewrite Z.div_mul by lia. f_equal. f_equal. rewrite <- (ascii_of_byte_of a) at 3. f_equal. lia.
  - pose proof (div_range (byte_of b) 16 16 ltac:(lia) ltac:(lia)) as Hb1. pose proof (Z.mod_pos_bound (byte_of b) 16 ltac:(lia)) as Hb2.
    pose proof (Z.div_mod (byte_of b) 16 ltac:(lia)) as Hb3.
    rewrite !dec6_enc6 by lia. f_equal.
    rewrite (Z.add_comm (byte_of a mod 4 * 16)), Z.div_add, Z.mod_add, Z.div_mul by lia.
    rewrite (Z.div_small (byte_of b / 16)), (Z.mod_small (byte_of b / 16)) by lia.
    rewrite <- (ascii_of_byte_of a) at 3. rewrite <- (ascii_of_byte_of b) at 3. f_equal; [f_equal; lia|]. f_equal. f_equal. lia.
  - pose proof (div_range (byte_of b) 16 16 ltac:(lia) ltac:(lia)) as Hb1. pose proof (Z.mod_pos_bound (byte_of b) 16 ltac:(lia)) as Hb2.
    pose proof (Z.div_mod (byte_of b) 16 ltac:(lia)) as Hb3.
    pose proof (div_range (byte_of c) 64 4 ltac:(lia) ltac:(lia)) as Hc1. pose proof (Z.mod_pos_bound (byte_of c) 64 ltac:(lia)) as Hc2.
    pose proof (Z.div_mod (byte_of c) 64 ltac:(lia)) as Hc3.
    rewrite !dec6_enc6 by lia. rewrite IH. f_equal.
    rewrite (Z.add_comm (byte_of a mod 4 * 16)), (Z.add_comm (byte_of b mod 16 * 4)), !Z.div_add, !Z.mod_add by lia.
    rewrite (Z.div_small (byte_of b / 16)), (Z.mod_small (byte_of b / 16)), (Z.div_small (byte_of c / 64)), (Z.mod_small (byte_of c / 64)) by lia.
    rewrite <- (ascii_of_byte_of a) at 3. rewrite <- (ascii_of_byte_of b) at 3. rewrite <- (ascii_of_byte_of c) at 3.
    f_equal; [f_equal; lia|]. f_equal; [f_equal; lia|]. f_equal; f_equal; lia.
Qed.

Lemma b64_encode_chars s : all_chars (fun c => plain_char c && negb (is_newline c)) (b64_encode s) = true.
Proof.
  assert (He : forall n, 0 <= n < 64 -> plain_char (enc6 n) && negb (is_newline (enc6 n)) = true).
  { intros n Hn. destruct (enc6_plain n Hn) as [-> ->]. done. }
  induction s as [|a|a b|a b c r IH] using string_ind3; [done|..]; cbn [b64_encode all_chars];
    pose proof (byte_of_range a) as Ha; try pose proof (byte_of_range b) as Hb; try pose proof (byte_of_range c) as Hc;
    pose proof (div_range (byte_of a) 4 64 ltac:(lia) ltac:(lia)); pose proof (Z.mod_pos_bound (byte_of a) 4 ltac:(lia));
    try (pose proof (div_range (byte_of b) 16 16 ltac:(lia) ltac:(lia)); pose proof (Z.mod_pos_bound (byte_of b) 16 ltac:(lia)));
    try (pose proof (div_range (byte_of c) 64 4 ltac:(lia) ltac:(lia)); pose proof (Z.mod_pos_bound (byte_of c) 64 ltac:(lia)));
    rewrite ?IH, !He by lia; done.
Qed.

Lemma b64_encode_plain s : plain (b64_encode s) = true.
Proof.
  eapply all_chars_mono; [|apply b64_encode_chars]. cbn. intros c [H _]%andb_prop. done.
Qed.

Lemma b64_roundtrip s : b64_decode (b64_encode s) = Some s.
Proof.
  unfold b64_decode. replace (drop_newlines (b64_encode s)) with (b64_encode s); [apply b64_decode_groups|].
  pose proof (b64_encode_chars s) as H. induction (b64_encode s) as [|c t IH]; [done|]. cbn in *.
  apply andb_prop in H as [Hc Ht]. apply andb_prop in Hc as [_ Hn]. apply negb_true_iff in Hn. rewrite Hn. f_equal. by apply IH.
Qed.

Example b64_sample : (b64_encode "light work.", b64_decode "bGlnaHQgd29yay4", b64_decode "bGlnaHQgd29yay4=") =
  ("bGlnaHQgd29yay4", Some "light work.", None).
Proof. vm_compute. reflexivity. Qed.
