(* ===== verification/Errors.v ===== *)
(** * Errors: the [errors] package — the DxError taxonomy every package uses

    [goerr] is the error values the library passes around: sentinels compared by
    identity, plain [errors.New] values, [fmt.Errorf] wrappers, [BaseDxError]
    and the driver's [pgconn.PgError].  [error] is Go's nilable error. *)

From S2P Require Import Prelude GoStrings Http.

Set Warnings "-register-all".

(** ** codes.go *)

Definition ErrorCode := string.

Definition ErrValidation : ErrorCode := "ERR_VALIDATION".
Definition ErrUnauthorized : ErrorCode := "ERR_UNAUTHORIZED".
Definition ErrForbidden : ErrorCode := "ERR_FORBIDDEN".
Definition ErrNotFound : ErrorCode := "ERR_NOT_FOUND".
Definition ErrConflict : ErrorCode := "ERR_CONFLICT".
Definition ErrInternal : ErrorCode := "ERR_INTERNAL".
Definition ErrBadGateway : ErrorCode := "ERR_BAD_GATEWAY".
Definition ErrServiceUnavailable : ErrorCode := "ERR_SERVICE_UNAVAILABLE".
Definition ErrTooManyRequests : ErrorCode := "ERR_TOO_MANY_REQUESTS".
Definition ErrExpired : ErrorCode := "ERR_EXPIRED".
Definition ErrDatabase : ErrorCode := "ERR_DATABASE".
Definition ErrMethodNotAllowed : ErrorCode := "ERR_METHOD_NOT_ALLOWED".

(** The constants of codes.go, in its order. *)
Definition all_codes : list ErrorCode :=
  [ErrValidation; ErrUnauthorized; ErrForbidden; ErrNotFound; ErrConflict; ErrInternal;
   ErrBadGateway; ErrServiceUnavailable; ErrTooManyRequests; ErrExpired; ErrDatabase;
   ErrMethodNotAllowed].

(** ** base.go *)

Record BaseDxError_ (E : Type) := mkDx {
  code : ErrorCode;
  message : string;
  details : list string;
  cause : option E
}.
Arguments mkDx {E}. Arguments code {E}. Arguments message {E}.
Arguments details {E}. Arguments cause {E}.

(** The fields of pgconn.PgError the library reads. *)
Record PgError := mkPg {
  pg_code : string;
  pg_detail : string;
  pg_column : string;
  pg_constraint : string
}.

Inductive goerr :=
  | Sentinel (id text : string)             (* package-level error variable *)
  | NewErr (text : string)                  (* errors.New / fmt.Errorf without a wrap *)
  | WrapErr (text : string) (inner : goerr) (* fmt.Errorf(".. %w ..", inner) *)
  | DxErr (e : BaseDxError_ goerr)
  | PgErr (e : PgError).

Abbreviation BaseDxError := (BaseDxError_ goerr).
Abbreviation error := (option goerr).

(** A Go result (value, error) whose value is the zero value when err is non-nil. *)
Inductive res (A : Type) :=
  | Ok (a : A)
  | Err (e : goerr).
Arguments Ok {A}. Arguments Err {A}.

Definition httpStatusMap : gmap ErrorCode Z := list_to_map
  [(ErrValidation, StatusBadRequest); (ErrUnauthorized, StatusUnauthorized);
   (ErrForbidden, StatusForbidden); (ErrNotFound, StatusNotFound);
   (ErrConflict, StatusConflict); (ErrInternal, StatusInternalServerError);
   (ErrBadGateway, StatusBadGateway); (ErrServiceUnavailable, StatusServiceUnavailable);
   (ErrTooManyRequests, StatusTooManyRequests); (ErrExpired, StatusUnauthorized);
   (ErrDatabase, StatusInternalServerError); (ErrMethodNotAllowed, StatusMethodNotAllowed)].

Definition urnMap : gmap ErrorCode string := list_to_map
  [(ErrValidation, "urn:dx:as:InvalidParamValue"); (ErrUnauthorized, "urn:dx:as:Unauthorized");
   (ErrForbidden, "urn:dx:as:Forbidden"); (ErrNotFound, "urn:dx:rs:ResourceNotFound");
   (ErrConflict, "urn:dx:as:ResourceAlreadyExists"); (ErrInternal, "urn:dx:as:InternalServerError");
   (ErrBadGateway, "urn:dx:as:BadGateway"); (ErrServiceUnavailable, "urn:dx:as:ServiceUnavailable");
   (ErrTooManyRequests, "urn:dx:as:RateLimitExceeded"); (ErrExpired, "urn:dx:as:TokenExpired");
   (ErrDatabase, "urn:dx:as:DatabaseError"); (ErrMethodNotAllowed, "urn:dx:as:MethodNotAllowed")].

Definition titleMap : gmap ErrorCode string := list_to_map
  [(ErrValidation, "Bad Request"); (ErrUnauthorized, "Not Authorized");
   (ErrForbidden, "Forbidden"); (ErrNotFound, "Not Found");
   (ErrConflict, "Conflict"); (ErrInternal, "Internal Server Error");
   (ErrBadGateway, "Bad Gateway"); (ErrServiceUnavailable, "Service Unavailable");
   (ErrTooManyRequests, "Too Many Requests"); (ErrExpired, "Not Authorized");
   (ErrDatabase, "Internal Server Error"); (ErrMethodNotAllowed, "Method Not Allowed")].

Definition Dx_Error (e : BaseDxError) : string := "[" +:+ code e +:+ "] " +:+ message e.
Definition HTTPStatus (e : BaseDxError) : Z :=
  default StatusInternalServerError (httpStatusMap !! code e).
Definition URN (e : BaseDxError) : string :=
  default "urn:dx:as:InternalServerError" (urnMap !! code e).
Definition Title (e : BaseDxError) : string :=
  default "Internal Server Error" (titleMap !! code e).

(** ** The standard library's errors.Is / errors.As over [goerr] *)

Definition error_text (e : goerr) : string :=
  match e with
  | Sentinel _ t | NewErr t | WrapErr t _ => t
  | DxErr d => Dx_Error d
  | PgErr p => pg_code p +:+ ": " +:+ pg_detail p
  end.

(** fmt.Errorf("what: %w", e) *)
Definition wrapf (what : string) (e : goerr) : goerr := WrapErr (what +:+ ": " +:+ error_text e) e.

(** errors.Is(e, target) for a sentinel target *)
Fixpoint errors_is (e : goerr) (target : string) : bool :=
  match e with
  | Sentinel id _ => bool_decide (id = target)
  | NewErr _ | PgErr _ => false
  | WrapErr _ inner => errors_is inner target
  | DxErr d => match cause d with Some c => errors_is c target | None => false end
  end.

(** errors.As(e, *DxError) *)
Fixpoint as_dx (e : goerr) : option BaseDxError :=
  match e with
  | Sentinel _ _ | NewErr _ | PgErr _ => None
  | WrapErr _ inner => as_dx inner
  | DxErr d => Some d
  end.

(** errors.As(e, **pgconn.PgError) *)
Fixpoint as_pg (e : goerr) : option PgError :=
  match e with
  | Sentinel _ _ | NewErr _ => None
  | PgErr p => Some p
  | WrapErr _ inner => as_pg inner
  | DxErr d => match cause d with Some c => as_pg c | None => None end
  end.

(** ** Sentinels of the drivers and the standard library *)

Definition context_Canceled : goerr := Sentinel "context.Canceled" "context canceled".
Definition context_DeadlineExceeded : goerr :=
  Sentinel "context.DeadlineExceeded" "context deadline exceeded".
Definition pgx_ErrNoRows : goerr := Sentinel "pgx.ErrNoRows" "no rows in result set".

(** ** types.go *)

Definition dx (c : ErrorCode) (m : string) (ds : list string) : BaseDxError := mkDx c m ds None.

Definition NewValidation (m : string) (ds : list string) : BaseDxError := dx ErrValidation m ds.
Definition NewUnauthorized (m : string) (ds : list string) : BaseDxError := dx ErrUnauthorized m ds.
Definition NewForbidden (m : string) (ds : list string) : BaseDxError := dx ErrForbidden m ds.
Definition NewNotFound (m : string) (ds : list string) : BaseDxError := dx ErrNotFound m ds.
Definition NewConflict (m : string) (ds : list string) : BaseDxError := dx ErrConflict m ds.
Definition NewInternal (m : string) (ds : list string) : BaseDxError := dx ErrInternal m ds.
Definition NewDatabase (m : string) (ds : list string) : BaseDxError := dx ErrDatabase m ds.
Definition NewExpired (m : string) (ds : list string) : BaseDxError := dx ErrExpired m ds.
Definition NewBadGateway (m : string) (ds : list string) : BaseDxError := dx ErrBadGateway m ds.
Definition NewServiceUnavailable (m : string) (ds : list string) : BaseDxError :=
  dx ErrServiceUnavailable m ds.
Definition NewTooManyRequests (m : string) (ds : list string) : BaseDxError :=
  dx ErrTooManyRequests m ds.
Definition NewMethodNotAllowed (m : string) (ds : list string) : BaseDxError :=
  dx ErrMethodNotAllowed m ds.

(** ** handler.go *)

Record DxErrorResponse := mkErrResp {
  resp_type : string; resp_title : string; resp_detail : string; resp_errors : list string
}.

(** The JSON encoding of [DxErrorResponse] ([errors] carries omitempty). *)
Definition encode_error_response (r : DxErrorResponse) : json :=
  JObj ([("type", JStr (resp_type r)); ("title", JStr (resp_title r));
         ("detail", JStr (resp_detail r))]
        ++ match resp_errors r with
           | [] => []
           | ds => [("errors", JArr (map JStr ds))]
           end).

Definition WriteError (e : BaseDxError) (w : ResponseWriter) : ResponseWriter :=
  let resp := mkErrResp (URN e) (Title e) (message e) (details e) in
  let w := upd_header (hdr_set "Content-Type" "application/json") w in
  let w := write_header (HTTPStatus e) w in
  write_chunk (Encoded (encode_error_response resp)) w.

(** Panic values: an error value, or anything else. *)
Inductive panicv := PanicErr (e : goerr) | PanicVal (v : string).

(** What running a handler on a response writer ends with. *)
Inductive hresult := Returned (w : ResponseWriter) | Panicked (p : panicv) (w : ResponseWriter).

Definition GlobalErrorHandler (next : ResponseWriter -> hresult) (w : ResponseWriter) : hresult :=
  match next w with
  | Returned w' => Returned w'
  | Panicked (PanicErr (DxErr d)) w' => Returned (WriteError d w')
  | Panicked p w' => Panicked p w'
  end.

(** ** helpers.go *)

Definition HandleError (err : error) (w : ResponseWriter) : ResponseWriter :=
  match err with
  | None => w
  | Some e =>
      match as_dx e with
      | Some d => WriteError d w
      | None => WriteError (NewInternal "internal server error" []) w
      end
  end.

(** Returns the writer and the errors handed to [logUnexpected] ([log] says
    whether that callback is non-nil). *)
Definition WriteServerError (err : error) (log : bool) (w : ResponseWriter)
  : ResponseWriter * list error :=
  match err ≫= as_dx with
  | Some d => (WriteError d w, [])
  | None => (WriteError (NewInternal "internal error" []) w, if log then [err] else [])
  end.

Definition HandleValidationError (ds : list string) (w : ResponseWriter) : ResponseWriter :=
  WriteError (NewValidation "validation failed" ds) w.

Definition HandleAuthorizationError (resource operation : string) (w : ResponseWriter)
  : ResponseWriter :=
  WriteError (NewForbidden ("unauthorized to " +:+ operation +:+ " " +:+ resource) []) w.

Definition HandleNotFoundError (resource id : string) (w : ResponseWriter) : ResponseWriter :=
  let m := resource +:+ " not found" in
  let m := if bool_decide (id = "") then m else m +:+ ": " +:+ id in
  WriteError (NewNotFound m []) w.

Definition MapPostgresError (err : error) : error :=
  match err with
  | None => None
  | Some e =>
      let wrapped := Some (WrapErr ("database error: " +:+ error_text e) e) in
      if errors_is e "pgx.ErrNoRows" then Some (DxErr (NewNotFound "resource not found" []))
      else match as_pg e with
           | Some p =>
               if bool_decide (pg_code p = "23505")
               then Some (DxErr (NewConflict ("resource already exists: " +:+ pg_detail p) []))
               else if bool_decide (pg_code p = "23503")
               then Some (DxErr (NewValidation ("foreign key constraint violated: " +:+ pg_detail p) []))
               else if bool_decide (pg_code p = "23502")
               then Some (DxErr (NewValidation ("required field is null: " +:+ pg_column p) []))
               else if bool_decide (pg_code p = "23514")
               then Some (DxErr (NewValidation ("check constraint violated: " +:+ pg_constraint p) []))
               else if bool_decide (pg_code p = "40001")
               then Some (DxErr (NewDatabase "serialization failure, please retry" []))
               else if bool_decide (pg_code p = "40P01")
               then Some (DxErr (NewDatabase "deadlock detected, please retry" []))
               else wrapped
           | None => wrapped
           end
  end.

Definition HandleDatabaseError (err : error) (w : ResponseWriter) : ResponseWriter :=
  match err with
  | None => w
  | Some _ =>
      match MapPostgresError err ≫= as_dx with
      | Some d => WriteError d w
      | None => WriteError (NewDatabase "database operation failed" []) w
      end
  end.

Definition HandleStatusCodeError (statusCode : Z) (m : string) (w : ResponseWriter)
  : ResponseWriter :=
  let d :=
    if statusCode =? StatusBadRequest then NewValidation m []
    else if statusCode =? StatusUnauthorized then NewUnauthorized m []
    else if statusCode =? StatusForbidden then NewForbidden m []
    else if statusCode =? StatusNotFound then NewNotFound m []
    else if statusCode =? StatusConflict then NewConflict m []
    else if statusCode =? StatusTooManyRequests then NewTooManyRequests m []
    else if statusCode =? StatusInternalServerError then NewInternal m []
    else if statusCode =? StatusBadGateway then NewBadGateway m []
    else NewInternal "unexpected error" [] in
  WriteError d w.

Definition IsNotFoundError (err : error) : bool :=
  match err ≫= as_dx with
  | Some d => HTTPStatus d =? StatusNotFound
  | None => false
  end.

Definition IsValidationError (err : error) : bool :=
  match err ≫= as_dx with
  | Some d => HTTPStatus d =? StatusBadRequest
  | None => false
  end.

Definition IsAuthorizationError (err : error) : bool :=
  match err ≫= as_dx with
  | Some d => (HTTPStatus d =? StatusUnauthorized) || (HTTPStatus d =? StatusForbidden)
  | None => false
  end.

Record ErrorDetail := mkDetail {
  ed_code : string; ed_message : string; ed_details : list string; ed_status : Z
}.

Definition GetErrorDetail (err : error) : ErrorDetail :=
  match err ≫= as_dx with
  | Some d => mkDetail (code d) (message d) (details d) (HTTPStatus d)
  | None => mkDetail "INTERNAL_ERROR" "internal server error" [] StatusInternalServerError
  end.

(** ** Lemmas *)

(** [fmt.Errorf("..: %w", ..)] applied repeatedly. *)
Definition wrap_all (ts : list string) (e : goerr) : goerr := foldr WrapErr e ts.

Lemma errors_is_wrap_all ts e target : errors_is (wrap_all ts e) target = errors_is e target.
Proof. by induction ts. Qed.

Lemma as_dx_wrap_all ts e : as_dx (wrap_all ts e) = as_dx e.
Proof. by induction ts. Qed.

Lemma as_pg_wrap_all ts e : as_pg (wrap_all ts e) = as_pg e.
Proof. by induction ts. Qed.

Create Rewrite HintDb goerr.
#[export] Hint Rewrite errors_is_wrap_all as_dx_wrap_all as_pg_wrap_all : goerr.

(** The status of a DxError written to an unused writer is its HTTPStatus, and
    a writer whose status line is out keeps it. *)
Lemma WriteError_status e w :
  rw_sent w = None -> rw_status (WriteError e w) = Some (HTTPStatus e).
Proof. intros H. unfold WriteError, rw_status, write_chunk, write_header. cbn. by rewrite H. Qed.

Lemma WriteError_keeps_status e w s :
  rw_status w = Some s -> rw_status (WriteError e w) = Some s.
Proof. destruct w as [h [[s' h']|] b]; [|done]. by intros [= ->]. Qed.

(** What the comments on MapPgError document: unique -> 409, foreign key,
    not-null and check -> 400, everything else the driver reports -> 500. *)
Definition pg_status (c : string) : Z :=
  if bool_decide (c = "23505") then StatusConflict
  else if bool_decide (c = "23503") || bool_decide (c = "23502") || bool_decide (c = "23514")
  then StatusBadRequest
  else StatusInternalServerError.

Lemma MapPostgresError_pg e p :
  errors_is e "pgx.ErrNoRows" = false -> as_pg e = Some p -> as_dx e = None ->
  HTTPStatus (default (NewDatabase "database operation failed" [])
                      (MapPostgresError (Some e) ≫= as_dx)) = pg_status (pg_code p).
Proof.
  intros Hr Hp Hd. unfold MapPostgresError, pg_status. rewrite Hr, Hp.
  repeat (case_bool_decide; [done|]). cbn. by rewrite Hd.
Qed.

Lemma HandleDatabaseError_Some e w :
  HandleDatabaseError (Some e) w
  = WriteError (default (NewDatabase "database operation failed" [])
                        (MapPostgresError (Some e) ≫= as_dx)) w.
Proof. unfold HandleDatabaseError. by destruct (_ ≫= _). Qed.

(** ** Properties *)

(** A database failure gets the documented HTTP status on every path, no
    matter how many times it was wrapped with [%w] on its way to the handler:
    pgx.ErrNoRows is 404, a PostgreSQL error follows the table (unique 409;
    foreign key, not-null, check 400; serialization, deadlock and every other
    code 500), an error that already is a DxError keeps its own status, and
    anything else is 500. *)
Theorem HandleDatabaseError_status ts w :
  rw_sent w = None ->
  rw_status (HandleDatabaseError (Some (wrap_all ts pgx_ErrNoRows)) w) = Some StatusNotFound
  /\ (forall p, rw_status (HandleDatabaseError (Some (wrap_all ts (PgErr p))) w)
                = Some (pg_status (pg_code p)))
  /\ (forall c m ds, rw_status (HandleDatabaseError (Some (wrap_all ts (DxErr (dx c m ds)))) w)
                = Some (HTTPStatus (dx c m ds)))
  /\ (forall t, rw_status (HandleDatabaseError (Some (wrap_all ts (NewErr t))) w)
                = Some StatusInternalServerError).
Proof.
  intros Hw. repeat split; intros; rewrite HandleDatabaseError_Some, WriteError_status by done.
  - unfold MapPostgresError. by autorewrite with goerr.
  - rewrite (MapPostgresError_pg _ p); by autorewrite with goerr.
  - unfold MapPostgresError. autorewrite with goerr. cbn. by autorewrite with goerr.
  - unfold MapPostgresError. autorewrite with goerr. cbn. by autorewrite with goerr.
Qed.

Lemma HandleDatabaseError_status_witness :
  rw_status (HandleDatabaseError
    (Some (WrapErr "repo" (WrapErr "dao" (PgErr (mkPg "23505" "(id)=(1)" "" ""))))) new_writer)
  = Some 409.
Proof.
  exact (proj1 (proj2 (HandleDatabaseError_status ["repo"; "dao"] new_writer eq_refl))
               (mkPg "23505" "(id)=(1)" "" "")).
Defined.

(** Re-translating an already translated database error changes nothing the
    client can see: the DxError found in MapPostgresError (MapPostgresError e)
    is the one found in MapPostgresError e, so layers may translate twice. *)
Theorem MapPostgresError_stable (err : error) :
  (MapPostgresError (MapPostgresError err) ≫= as_dx) = (MapPostgresError err ≫= as_dx).
Proof.
  destruct err as [e|]; [|done]. unfold MapPostgresError at 2 3.
  destruct (errors_is e "pgx.ErrNoRows") eqn:Hr; [done|].
  destruct (as_pg e) as [p|] eqn:Hp.
  2: { cbn. rewrite Hr, Hp. done. }
  repeat (case_bool_decide; [done|]).
  unfold MapPostgresError. cbn [errors_is as_pg]. rewrite Hr, Hp.
  by repeat (rewrite bool_decide_eq_false_2 by done).
Qed.

(** Unexpected errors never reach the client: the bytes and status
    WriteServerError and HandleError produce are the same for any two errors
    that carry no DxError, whatever their text, and the status is 500. *)
Theorem unexpected_errors_do_not_leak e1 e2 log w :
  as_dx e1 = None -> as_dx e2 = None -> rw_sent w = None ->
  fst (WriteServerError (Some e1) log w) = fst (WriteServerError (Some e2) log w)
  /\ HandleError (Some e1) w = HandleError (Some e2) w
  /\ rw_status (fst (WriteServerError (Some e1) log w)) = Some StatusInternalServerError
  /\ rw_status (HandleError (Some e1) w) = Some StatusInternalServerError.
Proof.
  intros H1 H2 Hw. unfold WriteServerError, HandleError. cbn. rewrite H1, H2.
  repeat split; by apply WriteError_status.
Qed.

Lemma unexpected_errors_do_not_leak_witness :
  HandleError (Some (NewErr "dial tcp 10.0.0.1: refused")) new_writer
  = HandleError (Some (WrapErr "x: secret" (PgErr (mkPg "XX000" "secret" "" "")))) new_writer.
Proof.
  exact (proj1 (proj2 (unexpected_errors_do_not_leak
    (NewErr "dial tcp 10.0.0.1: refused") (WrapErr "x: secret" (PgErr (mkPg "XX000" "secret" "" "")))
    true new_writer eq_refl eq_refl eq_refl))).
Defined.
