(* ===== verification/Decode.v ===== *)
(** * Decode: [encoding/json] into the structures the code declares

    A decoder takes the value of a field, if it has one, and fails on a value of
    another kind; null and absence leave the zero value. *)

From S2P Require Import Prelude GoStrings GoFloat Http Errors.

(** A field of an object: exact or case-folded name, the last occurrence. *)
Definition jfield (name : string) (fields : list (string * json)) : option json :=
  match List.filter (fun kv => bool_decide (kv.1 = name) || equal_fold kv.1 name) fields with
  | [] => None
  | f :: fs => Some (List.last (f :: fs) f).2
  end.

Definition json_error : goerr := NewErr "json: cannot unmarshal".

(** A string, bool or object field; null and absence leave the zero value. *)
Definition dec_string (j : option json) : res string :=
  match j with Some (JStr s) => Ok s | None | Some JNull => Ok EmptyString | Some _ => Err json_error end.
Definition dec_bool (j : option json) : res bool :=
  match j with Some (JBool b) => Ok b | None | Some JNull => Ok false | Some _ => Err json_error end.
Definition dec_fields (j : option json) : res (option (list (string * json))) :=
  match j with Some (JObj fs) => Ok (Some fs) | None | Some JNull => Ok None | Some _ => Err json_error end.

Definition dec_int64 (j : option json) : res Z :=
  match j with
  | None | Some JNull => Ok 0
  | Some (JNum n) => if int64_ok n then Ok n else Err json_error
  | Some _ => Err json_error
  end.
Definition dec_float (j : option json) : res f64 :=
  match j with
  | None | Some JNull => Ok (Fin 0 0)
  | Some (JNum n) => Ok (f64_of_int n)
  | Some (JFloat f) => Ok f
  | Some _ => Err json_error
  end.
Definition dec_list {A} (dec : json -> res A) (j : option json) : res (list A) :=
  match j with
  | None | Some JNull => Ok []
  | Some (JArr l) => (fix go (l : list json) := match l with
                        | [] => Ok []
                        | x :: l => match dec x, go l with Ok a, Ok r => Ok (a :: r) | Err e, _ | _, Err e => Err e end
                        end) l
  | Some _ => Err json_error
  end.
Definition dec_map {A} (dec : json -> res A) (j : option json) : res (list (string * A)) :=
  match dec_fields j with
  | Err e => Err e
  | Ok None => Ok []
  | Ok (Some fs) => (fix go (l : list (string * json)) := match l with
                       | [] => Ok []
                       | (k, x) :: l => match dec x, go l with
                                        | Ok a, Ok r => Ok ((k, a) :: r)
                                        | Err e, _ | _, Err e => Err e
                                        end
                       end) fs
  end.

(** A struct: null leaves it zero. *)
Definition dec_struct {A} (dec : list (string * json) -> res A) (j : option json) : res A :=
  match dec_fields j with Ok fs => dec (default [] fs) | Err e => Err e end.
