(* ===== verification/Backoff.v ===== *)
(** * Backoff: resilience/backoff.go — the retry policy and its delays

    A delay is a [time.Duration] (int64 nanoseconds).  [Backoff] returns [None]
    where the Go code panics (math/rand's Int63n on a non-positive bound). *)

From S2P Require Import Prelude GoFloat.

Definition Millisecond : Z := 1000000.
Definition Second : Z := 1000 * Millisecond.

Record Policy := mkPolicy {
  MaxAttempts : Z;
  BaseDelay : Z;
  MaxDelay : Z;
  Multiplier : f64;
  Jitter : bool;
  rng : option (Z -> Z)
}.

Definition DefaultPolicy : Policy :=
  mkPolicy 3 (100 * Millisecond) (10 * Second) (Fin 2 0) true None.

Definition PolicyOption := Policy -> Policy.

Definition NewPolicy (opts : list PolicyOption) : Policy :=
  fold_left (fun p o => o p) opts DefaultPolicy.

Definition WithMaxAttempts (n : Z) : PolicyOption := fun p =>
  mkPolicy n (BaseDelay p) (MaxDelay p) (Multiplier p) (Jitter p) (rng p).
Definition WithBaseDelay (d : Z) : PolicyOption := fun p =>
  mkPolicy (MaxAttempts p) d (MaxDelay p) (Multiplier p) (Jitter p) (rng p).
Definition WithMaxDelay (d : Z) : PolicyOption := fun p =>
  mkPolicy (MaxAttempts p) (BaseDelay p) d (Multiplier p) (Jitter p) (rng p).
Definition WithMultiplier (m : f64) : PolicyOption := fun p =>
  mkPolicy (MaxAttempts p) (BaseDelay p) (MaxDelay p) m (Jitter p) (rng p).
Definition WithJitter (on : bool) : PolicyOption := fun p =>
  mkPolicy (MaxAttempts p) (BaseDelay p) (MaxDelay p) (Multiplier p) on (rng p).
Definition WithJitterSource (f : Z -> Z) : PolicyOption := fun p =>
  mkPolicy (MaxAttempts p) (BaseDelay p) (MaxDelay p) (Multiplier p) (Jitter p) (Some f).

Definition attempts (p : Policy) : Z := if MaxAttempts p <? 1 then 1 else MaxAttempts p.

(** [int63n] is the random source behind rand.Int63n: a value below its bound. *)
Definition jitter (int63n : Z -> Z) (p : Policy) (n : Z) : option Z :=
  if n <=? 0 then Some 0
  else match rng p with
       | Some f => Some (f n)
       | None => let bound := wrap64 (n + 1) in
                 if bound <=? 0 then None else Some (int63n bound)
       end.

(** The delay before jitter. *)
Definition raw_delay (p : Policy) (attempt : Z) : Z :=
  let mult := if f64_lt (Multiplier p) (Fin 1 0) then Fin 1 0 else Multiplier p in
  let d := f64_mul (f64_of_int (BaseDelay p))
                   (f64_pow mult (f64_int_value (f64_of_int (attempt - 2)))) in
  let max := f64_of_int (MaxDelay p) in
  let d := if (0 <? MaxDelay p) && f64_lt max d then max else d in
  let delay := int64_of_f64 d in
  if delay <? 0 then MaxDelay p else delay.

Definition Backoff (int63n : Z -> Z) (p : Policy) (attempt : Z) : option Z :=
  if attempt <=? 1 then Some 0
  else let delay := raw_delay p attempt in
       if Jitter p && (0 <? delay) then jitter int63n p delay else Some delay.

(** ** Lemmas *)

(** The jitter source of the policy stays within its bound. *)
Definition rng_ok (int63n : Z -> Z) (p : Policy) : Prop :=
  (forall n, 0 < n -> 0 <= int63n n < n)
  /\ (forall f, rng p = Some f -> forall n, 0 < n -> 0 <= f n <= n).

Lemma jitter_range int63n p n :
  rng_ok int63n p -> 0 < n < max_int64 -> exists d, jitter int63n p n = Some d /\ 0 <= d <= n.
Proof.
  intros [Hi Hf] Hn. unfold jitter. destruct (Z.leb_spec n 0); [lia|].
  destruct (rng p) as [f|] eqn:Er.
  - exists (f n). split; [done|]. apply Hf; [done|lia].
  - rewrite wrap64_id by (unfold min_int64; lia).
    destruct (Z.leb_spec (n + 1) 0); [lia|].
    exists (int63n (n + 1)). split; [done|]. specialize (Hi (n + 1)). lia.
Qed.

(** The delay is never negative, and never above an exactly representable cap,
    whatever the multiplier (infinities and NaN included). *)
Lemma raw_delay_range p attempt :
  0 < MaxDelay p < 2 ^ 53 -> 0 <= raw_delay p attempt <= MaxDelay p.
Proof.
  intros Hm. unfold raw_delay. set (d := f64_mul _ _).
  pose proof (f64_of_int_exact (MaxDelay p) ltac:(lia)) as Hmax.
  destruct (Z.ltb_spec 0 (MaxDelay p)); [|lia]. rewrite andb_true_l.
  destruct (f64_lt (f64_of_int (MaxDelay p)) d) eqn:Hlt.
  - rewrite (int64_of_f64_val _ (MaxDelay p)) by (done || (unfold min_int64, max_int64; lia)).
    destruct (Z.ltb_spec (MaxDelay p) 0); lia.
  - assert (int64_of_f64 d <= MaxDelay p) as Hle.
    { destruct d as [m e| | |]; cbn; unfold min_int64; try lia.
      destruct (f64_of_int (MaxDelay p)) as [m' e'| | |]; try done.
      cbn in Hlt. apply trunc_mono in Hlt.
      rewrite (f64_val_trunc m' e' (MaxDelay p)) in Hlt by done.
      destruct (int64_ok (trunc m e)); lia. }
    destruct (Z.ltb_spec (int64_of_f64 d) 0); lia.
Qed.

(** math.Pow(2.0, k) is exactly 2^k throughout the range of a Duration. *)
Lemma f64_pow_two k :
  0 <= k < 64 ->
  f64_pow (Fin 2 0) k = if k <=? 1 then Fin (k + 1) 0 else Fin (2 ^ 52) (k - 52).
Proof.
  intros Hk.
  assert (forallb (fun k => bool_decide (f64_pow (Fin 2 0) k
    = if k <=? 1 then Fin (k + 1) 0 else Fin (2 ^ 52) (k - 52))) (seqZ 0 64) = true) as HF.
  { by vm_compute. }
  rewrite forallb_forall in HF. specialize (HF k).
  refine (proj1 (bool_decide_eq_true _) (HF _)). apply list_elem_of_In, elem_of_seqZ. lia.
Qed.

Lemma f64_pow_two_val k :
  0 <= k < 64 -> exists m e, f64_pow (Fin 2 0) k = Fin m e /\ -52 <= e /\ f64_val (Fin m e) (2 ^ k).
Proof.
  intros Hk. rewrite f64_pow_two by done. destruct (Z.leb_spec k 1).
  - exists (k + 1), 0. repeat split; [lia|]. assert (k = 0 \/ k = 1) as [->| ->] by lia; done.
  - exists (2 ^ 52), (k - 52). repeat split; [lia|]. unfold f64_val. destruct (Z.leb_spec 0 (k - 52)).
    + rewrite <- pow2_split by lia. f_equal. lia.
    + rewrite <- pow2_split by lia. f_equal. lia.
Qed.

Lemma doubling_product b k :
  0 < b < 2 ^ 53 -> 0 <= k < 64 ->
  f64_val (f64_mul (f64_of_int b) (f64_pow (Fin 2 0) k)) (b * 2 ^ k).
Proof.
  intros Hb Hk. destruct (f64_pow_two_val k Hk) as (m2 & e2 & -> & He2 & Hv2).
  pose proof (f64_of_int_exact b ltac:(lia)) as Hv1.
  destruct (f64_of_int b) as [m1 e1| | |] eqn:E1; try done.
  pose proof (f64_of_int_exp b m1 e1 E1).
  by apply (f64_mul_exact _ _ _ _ _ _ b k); try done; lia.
Qed.

Lemma Backoff_range int63n p attempt :
  rng_ok int63n p -> 0 < MaxDelay p < 2 ^ 53 ->
  exists d, Backoff int63n p attempt = Some d /\ 0 <= d <= MaxDelay p.
Proof.
  intros Hr Hm. unfold Backoff. destruct (attempt <=? 1); [exists 0; split; [done|lia]|].
  pose proof (raw_delay_range p attempt Hm) as Hd.
  destruct (Jitter p && (0 <? raw_delay p attempt)) eqn:Hj; [|by eauto].
  apply andb_true_iff in Hj as [_ Hpos]. rewrite Z.ltb_lt in Hpos.
  destruct (jitter_range int63n p (raw_delay p attempt) Hr) as (d & -> & Hd').
  { unfold max_int64. lia. }
  exists d. split; [done|lia].
Qed.

(** ** Properties *)

(** Every delay the policy computes is a non-negative duration that respects
    the cap: with MaxDelay positive and below 2^53 ns, Backoff never panics and
    returns a value in [0, MaxDelay], for every attempt number, base delay and
    multiplier (also NaN and infinities) and every jitter source that keeps its
    contract. *)
Theorem Backoff_within_cap int63n p attempt :
  rng_ok int63n p -> 0 < MaxDelay p < 2 ^ 53 ->
  exists d, Backoff int63n p attempt = Some d /\ 0 <= d <= MaxDelay p.
Proof. apply Backoff_range. Qed.

Lemma Backoff_within_cap_witness :
  exists d, Backoff (fun n => n - 1) DefaultPolicy 1000 = Some d /\ 0 <= d <= MaxDelay DefaultPolicy.
Proof.
  apply (Backoff_within_cap (fun n => n - 1) DefaultPolicy 1000).
  - split; [intros; lia|done].
  - split; reflexivity.
Defined.

(** The schedule before jitter with the default multiplier 2.0: BaseDelay
    doubled once per attempt and capped, floating-point rounding never shows. *)
Lemma raw_delay_doubling p k :
  Multiplier p = Fin 2 0 ->
  0 < BaseDelay p < 2 ^ 53 -> 0 < MaxDelay p < 2 ^ 53 -> 0 <= k < 64 ->
  raw_delay p (k + 2) = Z.min (BaseDelay p * 2 ^ k) (MaxDelay p).
Proof.
  intros Hmul Hb Hm Hk. unfold raw_delay. rewrite Hmul.
  change (f64_lt (Fin 2 0) (Fin 1 0)) with false. cbn match.
  replace (k + 2 - 2) with k by lia.
  pose proof (f64_of_int_exact k ltac:(lia)) as Hk'.
  assert (f64_int_value (f64_of_int k) = k) as ->.
  { destruct (f64_of_int k); try done. by apply f64_val_trunc. }
  pose proof (doubling_product (BaseDelay p) k Hb Hk) as Hd.
  pose proof (f64_of_int_exact (MaxDelay p) ltac:(lia)) as Hx.
  destruct (Z.ltb_spec 0 (MaxDelay p)); [|lia]. rewrite andb_true_l.
  assert (f64_lt (f64_of_int (MaxDelay p)) (f64_mul (f64_of_int (BaseDelay p)) (f64_pow (Fin 2 0) k))
          = (MaxDelay p <? BaseDelay p * 2 ^ k)) as ->.
  { destruct (f64_of_int (MaxDelay p)), (f64_mul _ _); try done. by apply fin_lt_val. }
  pose proof (pow2_pos k ltac:(lia)).
  destruct (Z.ltb_spec (MaxDelay p) (BaseDelay p * 2 ^ k)).
  - rewrite (int64_of_f64_val _ (MaxDelay p)) by (done || (unfold min_int64, max_int64; lia)).
    destruct (Z.ltb_spec (MaxDelay p) 0); lia.
  - rewrite (int64_of_f64_val _ (BaseDelay p * 2 ^ k)) by (done || (unfold min_int64, max_int64; nia)).
    destruct (Z.ltb_spec (BaseDelay p * 2 ^ k) 0); nia.
Qed.

(** The documented schedule: with the default multiplier 2.0 and no jitter
    the wait before attempt k+2 is exactly BaseDelay * 2^k, capped at MaxDelay,
    for every k < 64. *)
Theorem Backoff_doubling int63n p k :
  Multiplier p = Fin 2 0 -> Jitter p = false ->
  0 < BaseDelay p < 2 ^ 53 -> 0 < MaxDelay p < 2 ^ 53 -> 0 <= k < 64 ->
  Backoff int63n p (k + 2) = Some (Z.min (BaseDelay p * 2 ^ k) (MaxDelay p)).
Proof.
  intros Hmul Hj Hb Hm Hk. unfold Backoff. destruct (Z.leb_spec (k + 2) 1); [lia|].
  rewrite Hj. cbn [andb]. f_equal. by apply raw_delay_doubling.
Qed.

(** What a delay computed for the retry after attempt [k] may be. *)
Definition schedule (p : Policy) (k d : Z) : Prop :=
  0 <= d <= MaxDelay p
  /\ (Multiplier p = Fin 2 0 -> 0 < BaseDelay p < 2 ^ 53 -> k <= 64 ->
      d <= Z.min (BaseDelay p * 2 ^ (k - 1)) (MaxDelay p)
      /\ (Jitter p = false -> d = Z.min (BaseDelay p * 2 ^ (k - 1)) (MaxDelay p))).

(** After attempt [k] the loop waits what the schedule says. *)
Lemma Backoff_schedule int63n p k :
  rng_ok int63n p -> 0 < MaxDelay p < 2 ^ 53 -> 1 <= k ->
  exists d, Backoff int63n p (k + 1) = Some d /\ schedule p k d.
Proof.
  intros Hr Hm Hk. unfold Backoff. destruct (Z.leb_spec (k + 1) 1); [lia|].
  pose proof (raw_delay_range p (k + 1) Hm) as Hd.
  assert (Multiplier p = Fin 2 0 -> 0 < BaseDelay p < 2 ^ 53 -> k <= 64 ->
          raw_delay p (k + 1) = Z.min (BaseDelay p * 2 ^ (k - 1)) (MaxDelay p)) as Hraw.
  { intros Hmul Hb Hk'. replace (k + 1) with (k - 1 + 2) by lia.
    apply raw_delay_doubling; try done; lia. }
  destruct (Jitter p) eqn:Hj; cbn [andb].
  - destruct (Z.ltb_spec 0 (raw_delay p (k + 1))).
    + destruct (jitter_range int63n p (raw_delay p (k + 1)) Hr) as (d & -> & Hd');
        [unfold max_int64; lia|].
      exists d. split; [done|]. split; [lia|]. intros ? ? ?. split; [|congruence]. rewrite <- Hraw by done. lia.
    + eexists. split; [done|]. split; [lia|]. intros ? ? ?. split; [|congruence]. rewrite Hraw by done. lia.
  - eexists. split; [done|]. split; [lia|]. intros ? ? ?. rewrite Hraw by done. split; [lia|done].
Qed.

Lemma Backoff_doubling_witness :
  Backoff (fun _ => 0) (NewPolicy [WithJitter false]) (4 + 2) = Some (1600 * Millisecond).
Proof.
  apply (Backoff_doubling (fun _ => 0) (NewPolicy [WithJitter false]) 4);
    (reflexivity || (split; reflexivity) || (split; [discriminate|reflexivity])).
Defined.

(** A cap of the largest Duration ("no cap") makes the jittered Backoff panic
    once the schedule overflows: the delay becomes MaxInt64 and jitter asks
    rand.Int63n for the wrapped bound MaxInt64+1 < 0, whatever the source. *)
Theorem Backoff_max_duration_panics int63n :
  Backoff int63n (NewPolicy [WithBaseDelay Second; WithMaxDelay max_int64]) 40 = None.
Proof. vm_compute. reflexivity. Qed.
