(* ===== verification/Breaker.v ===== *)
(** * Breaker: resilience/circuitbreaker.go — the circuit breaker

    Instants are nanoseconds on a monotonic clock; an operation that reads
    [b.now()] takes the reading as an argument.  [changes] records what the
    onStateChange hook is called with.  The mutex makes [beforeCall],
    [afterCall] and [State] atomic; [step] interleaves them the way concurrent
    callers of [Execute] do. *)

From S2P Require Import Prelude GoStrings Errors Backoff.

Definition ErrOpen : goerr :=
  Sentinel "resilience.ErrOpen" "resilience: circuit breaker is open".

Inductive State := StateClosed | StateOpen | StateHalfOpen.

#[export] Instance State_eq_dec : EqDecision State.
Proof. solve_decision. Defined.

(** iota values, and State.String on an arbitrary int. *)
Definition State_code (s : State) : Z :=
  match s with StateClosed => 0 | StateOpen => 1 | StateHalfOpen => 2 end.
Definition State_String (s : Z) : string :=
  if s =? 0 then "closed" else if s =? 1 then "open" else if s =? 2 then "half-open"
  else "unknown".

Record CircuitBreaker := mkCB {
  failureThreshold : Z;
  cooldown : Z;
  isFailure : error -> bool;
  hook : bool;                       (* onStateChange <> nil *)
  state : State;
  failures : Z;
  openedAt : Z;
  probeInFlight : bool;
  changes : list (State * State)     (* calls of onStateChange, oldest first *)
}.

Definition BreakerOption := CircuitBreaker -> CircuitBreaker.

Definition WithFailureThreshold (n : Z) : BreakerOption := fun b =>
  if 0 <? n
  then mkCB n (cooldown b) (isFailure b) (hook b) (state b) (failures b) (openedAt b)
            (probeInFlight b) (changes b)
  else b.
Definition WithCooldown (d : Z) : BreakerOption := fun b =>
  if 0 <? d
  then mkCB (failureThreshold b) d (isFailure b) (hook b) (state b) (failures b) (openedAt b)
            (probeInFlight b) (changes b)
  else b.
Definition WithFailureClassifier (f : option (error -> bool)) : BreakerOption := fun b =>
  match f with
  | Some f => mkCB (failureThreshold b) (cooldown b) f (hook b) (state b) (failures b)
                   (openedAt b) (probeInFlight b) (changes b)
  | None => b
  end.
Definition WithOnStateChange (non_nil : bool) : BreakerOption := fun b =>
  mkCB (failureThreshold b) (cooldown b) (isFailure b) non_nil (state b) (failures b)
       (openedAt b) (probeInFlight b) (changes b).

Definition is_some {A} (o : option A) : bool := match o with Some _ => true | None => false end.

Definition NewCircuitBreaker (opts : list BreakerOption) : CircuitBreaker :=
  fold_left (fun b o => o b) opts
    (mkCB 5 (30 * Second) is_some false StateClosed 0 0 false []).

Definition set_probe (x : bool) (b : CircuitBreaker) : CircuitBreaker :=
  mkCB (failureThreshold b) (cooldown b) (isFailure b) (hook b) (state b) (failures b)
       (openedAt b) x (changes b).
Definition set_failures (n : Z) (b : CircuitBreaker) : CircuitBreaker :=
  mkCB (failureThreshold b) (cooldown b) (isFailure b) (hook b) (state b) n
       (openedAt b) (probeInFlight b) (changes b).
Definition set_openedAt (t : Z) (b : CircuitBreaker) : CircuitBreaker :=
  mkCB (failureThreshold b) (cooldown b) (isFailure b) (hook b) (state b) (failures b)
       t (probeInFlight b) (changes b).

Definition setState (s : State) (b : CircuitBreaker) : CircuitBreaker :=
  if bool_decide (state b = s) then b
  else mkCB (failureThreshold b) (cooldown b) (isFailure b) (hook b) s (failures b)
            (openedAt b) (probeInFlight b)
            (if hook b then changes b ++ [(state b, s)] else changes b).

Definition trip (now : Z) (b : CircuitBreaker) : CircuitBreaker :=
  setState StateOpen (set_openedAt now b).

Definition reset (b : CircuitBreaker) : CircuitBreaker :=
  setState StateClosed (set_failures 0 b).

(** time.Time.Sub: the difference, saturated to a Duration. *)
Definition time_sub (t u : Z) : Z := Z.max min_int64 (Z.min max_int64 (t - u)).

Definition refresh (now : Z) (b : CircuitBreaker) : CircuitBreaker :=
  if bool_decide (state b = StateOpen) && (cooldown b <=? time_sub now (openedAt b))
  then set_probe false (setState StateHalfOpen b)
  else b.

(** State() *)
Definition State_ (now : Z) (b : CircuitBreaker) : State * CircuitBreaker :=
  let b := refresh now b in (state b, b).

Definition beforeCall (now : Z) (b : CircuitBreaker) : error * CircuitBreaker :=
  let b := refresh now b in
  match state b with
  | StateOpen => (Some ErrOpen, b)
  | StateHalfOpen => if probeInFlight b then (Some ErrOpen, b) else (None, set_probe true b)
  | StateClosed => (None, b)
  end.

Definition counts_as_failure (b : CircuitBreaker) (err : error) : bool :=
  isFailure b err && negb (match err with Some e => errors_is e "resilience.ErrOpen" | None => false end).

Definition afterCall (now : Z) (err : error) (b : CircuitBreaker) : CircuitBreaker :=
  let failure := counts_as_failure b err in
  if bool_decide (state b = StateHalfOpen)
  then let b := set_probe false b in
       if failure then trip now b else reset b
  else if failure
       then let b := set_failures (wrap64 (failures b + 1)) b in
            if failureThreshold b <=? failures b then trip now b else b
       else set_failures 0 b.

(** How a call of [fn] ends. *)
Inductive fnres := FnRet (err : error) | FnPanic.

(** Execute: [t1] and [t2] are the clock at beforeCall and afterCall.  A panic of
    fn propagates (there is no deferred afterCall). *)
Definition Execute (t1 t2 : Z) (fn : fnres) (b : CircuitBreaker) : fnres * CircuitBreaker :=
  match beforeCall t1 b with
  | (Some e, b) => (FnRet (Some e), b)
  | (None, b) => match fn with
                 | FnRet err => (FnRet err, afterCall t2 err b)
                 | FnPanic => (FnPanic, b)
                 end
  end.

(** ** Concurrent callers *)

Record sys := mkSys { brk : CircuitBreaker; clock : Z; inflight : nat }.

Inductive event :=
  | Tick (t : Z) | Query | Admit | Reject | Finish (err : error) | Abandon.

Inductive step : sys -> event -> sys -> Prop :=
  | step_tick b t n t' : t <= t' -> step (mkSys b t n) (Tick t') (mkSys b t' n)
  | step_query b t n : step (mkSys b t n) Query (mkSys (State_ t b).2 t n)
  | step_admit b t n b' :
      beforeCall t b = (None, b') -> step (mkSys b t n) Admit (mkSys b' t (S n))
  | step_reject b t n b' e :
      beforeCall t b = (Some e, b') -> step (mkSys b t n) Reject (mkSys b' t n)
  | step_finish b t n err :
      step (mkSys b t (S n)) (Finish err) (mkSys (afterCall t err b) t n)
  | step_abandon b t n : (* fn panicked *)
      step (mkSys b t (S n)) Abandon (mkSys b t n).

Inductive steps : sys -> list event -> sys -> Prop :=
  | steps_nil s : steps s [] s
  | steps_cons s e s' es s'' : step s e s' -> steps s' es s'' -> steps s (e :: es) s''.

(** The same steps as a function. *)
Definition exec1 (s : sys) (e : event) : option sys :=
  let '(mkSys b t n) := s in
  match e with
  | Tick t' => if t <=? t' then Some (mkSys b t' n) else None
  | Query => Some (mkSys (State_ t b).2 t n)
  | Admit => match beforeCall t b with (None, b') => Some (mkSys b' t (S n)) | _ => None end
  | Reject => match beforeCall t b with (Some _, b') => Some (mkSys b' t n) | _ => None end
  | Finish err => match n with S n' => Some (mkSys (afterCall t err b) t n') | O => None end
  | Abandon => match n with S n' => Some (mkSys b t n') | O => None end
  end.

Fixpoint exec (s : sys) (es : list event) : option sys :=
  match es with
  | [] => Some s
  | e :: es' => match exec1 s e with Some s' => exec s' es' | None => None end
  end.

Lemma exec1_step s e s' : exec1 s e = Some s' <-> step s e s'.
Proof.
  split.
  - destruct s as [b t n], e; cbn.
    + destruct (Z.leb_spec t t0); intros [= <-]. by constructor.
    + intros [= <-]. apply step_query.
    + destruct (beforeCall t b) as [[e|] b'] eqn:E; intros [= <-]. by constructor.
    + destruct (beforeCall t b) as [[e|] b'] eqn:E; intros [= <-]. by econstructor.
    + destruct n as [|n]; intros [= <-]. constructor.
    + destruct n as [|n]; intros [= <-]. constructor.
  - destruct 1 as [b t n t' H| |b t n b' H|b t n b' e H| |]; cbn; try done; try by rewrite H.
    by rewrite (proj2 (Z.leb_le t t') H).
Qed.

Lemma exec_steps s es s' : exec s es = Some s' <-> steps s es s'.
Proof.
  split.
  - revert s. induction es as [|e es IH]; intros s; cbn; [intros [= <-]; constructor|].
    destruct (exec1 s e) as [s1|] eqn:E; [|done]. intros H. econstructor; [|by apply IH].
    by apply exec1_step.
  - induction 1 as [|s e s1 es s2 H _ IH]; cbn; [done|]. by rewrite (proj2 (exec1_step _ _ _) H).
Qed.

(** ** Invariant *)

(** The transitions the state machine documents. *)
Definition edge (s s' : State) : bool :=
  match s, s' with
  | StateClosed, StateOpen | StateOpen, StateHalfOpen
  | StateHalfOpen, StateOpen | StateHalfOpen, StateClosed => true
  | _, _ => false
  end.

(** Where a log of transitions leads from [s], if it is a path of the machine. *)
Fixpoint follow (s : State) (log : list (State * State)) : option State :=
  match log with
  | [] => Some s
  | (a, b) :: log' => if bool_decide (a = s) && edge a b then follow b log' else None
  end.

Record inv (now : Z) (b : CircuitBreaker) : Prop := mkInv {
  inv_threshold : 0 < failureThreshold b <= max_int64;
  inv_cooldown : 0 < cooldown b <= max_int64;
  inv_failures : state b = StateClosed -> 0 <= failures b < failureThreshold b;
  inv_probe : probeInFlight b = true -> state b = StateHalfOpen;
  inv_opened : state b = StateOpen -> openedAt b <= now;
  inv_log : hook b = true -> follow StateClosed (changes b) = Some (state b)
}.

Inductive is_option : BreakerOption -> Prop :=
  | is_threshold n : n <= max_int64 -> is_option (WithFailureThreshold n)
  | is_cooldown d : d <= max_int64 -> is_option (WithCooldown d)
  | is_classifier f : is_option (WithFailureClassifier f)
  | is_hook x : is_option (WithOnStateChange x).

Lemma follow_app s log a b :
  follow s (log ++ [(a, b)]) =
  match follow s log with Some x => if bool_decide (a = x) && edge a b then Some b else None | None => None end.
Proof.
  revert s. induction log as [|[x y] log IH]; intros s; cbn; [done|].
  by destruct (bool_decide (x = s) && edge x y).
Qed.

(** Case analysis on the breaker's branches. *)
Ltac brk_cases :=
  repeat (first [ progress cbn in *
                | case_bool_decide
                | match goal with
                  | |- context [match ?x with _ => _ end] => destruct x eqn:?
                  | H : context [match ?x with _ => _ end] |- _ => destruct x eqn:?
                  end ]).

Lemma setState_inv now b s :
  (0 < failureThreshold b <= max_int64) -> (0 < cooldown b <= max_int64) ->
  (s = StateClosed -> 0 <= failures b < failureThreshold b) ->
  (probeInFlight b = true -> s = StateHalfOpen) ->
  (s = StateOpen -> openedAt b <= now) ->
  (hook b = true -> follow StateClosed (changes b) = Some (state b)) ->
  (state b = s \/ edge (state b) s = true) ->
  inv now (setState s b).
Proof.
  intros H1 H2 H3 H4 H5 H6 H7. unfold setState.
  destruct (decide (state b = s)) as [<-|Hs].
  - rewrite bool_decide_eq_true_2 by done. by constructor.
  - rewrite bool_decide_eq_false_2 by done. constructor; cbn; try done.
    intros Hh. rewrite Hh, follow_app, H6 by done.
    destruct H7 as [H7|H7]; [done|]. by rewrite bool_decide_eq_true_2, H7 by done.
Qed.

Lemma refresh_inv now b : inv now b -> inv now (refresh now b).
Proof.
  intros [? ? ? ? ? ?]. unfold refresh. case_bool_decide as Hs; cbn; [|by constructor].
  destruct (_ <=? _); [|by constructor].
  assert (inv now (setState StateHalfOpen b)) as [? ? ? ? ? ?].
  { apply setState_inv; try done. rewrite Hs. by right. }
  constructor; cbn; try done.
Qed.

Lemma beforeCall_inv now b e b' : inv now b -> beforeCall now b = (e, b') -> inv now b'.
Proof.
  intros Hi%refresh_inv. unfold beforeCall.
  destruct (state (refresh now b)) eqn:Hs; [by intros [= _ <-]..|].
  destruct (probeInFlight _); intros [= _ <-]; [done|]. by destruct Hi; constructor.
Qed.

Lemma afterCall_inv now err b : inv now b -> inv now (afterCall now err b).
Proof.
  intros [? ? Hf Hp ? Hl]. unfold afterCall. case_bool_decide as Hs.
  - destruct (counts_as_failure b err); apply setState_inv; cbn; try done;
      try (intros; lia); rewrite Hs; by right.
  - assert (probeInFlight b = false) as Hpf.
    { destruct (probeInFlight b); [by destruct Hs; apply Hp|done]. }
    destruct (counts_as_failure b err); cbn.
    2: { constructor; cbn; try done. intros _. lia. }
    set (n := wrap64 (failures b + 1)).
    destruct (Z.leb_spec (failureThreshold b) n).
    + apply setState_inv; cbn; try done; [by rewrite Hpf|].
      destruct (state b); [by right|by left|done].
    + constructor; cbn; try done. intros Hc. specialize (Hf Hc).
      unfold n in *. rewrite wrap64_id in * by (unfold min_int64; lia). lia.
Qed.

Lemma inv_mono now now' b : now <= now' -> inv now b -> inv now' b.
Proof. intros Hle [? ? ? ? Ho ?]. constructor; try done. intros Hs. specialize (Ho Hs). lia. Qed.

Lemma step_inv s e s' : step s e s' -> inv (clock s) (brk s) -> inv (clock s') (brk s').
Proof.
  intros Hst Hi. inversion Hst; subst; cbn in *.
  - by eapply inv_mono.
  - by apply refresh_inv.
  - by eapply beforeCall_inv.
  - by eapply beforeCall_inv.
  - by apply afterCall_inv.
  - done.
Qed.

Lemma NewCircuitBreaker_inv now opts :
  Forall is_option opts -> inv now (NewCircuitBreaker opts).
Proof.
  intros Ho. unfold NewCircuitBreaker.
  assert (forall b, inv now b /\ changes b = [] /\ state b = StateClosed /\ failures b = 0 ->
    inv now (fold_left (fun b o => o b) opts b)) as H.
  { induction Ho as [|o opts Hopt Ho IH]; intros b Hb; [apply Hb|]. apply IH. clear IH.
    destruct Hb as ([] & Hc & Hs & Hz). destruct Hopt as [n Hn|d Hd|[f|]|x]; cbn.
    - unfold WithFailureThreshold. destruct (Z.ltb_spec 0 n); cbn; [|done].
      split; [|done]. constructor; cbn; try done. rewrite Hz. lia.
    - unfold WithCooldown. destruct (Z.ltb_spec 0 d); cbn; [|done].
      split; [|done]. by constructor.
    - split; [|done]. by constructor.
    - done.
    - split; [|done]. constructor; cbn; try done. by rewrite Hc, Hs. }
  apply H. split; [|done]. by constructor.
Qed.

(** ** Behaviour of single steps *)

Lemma step_clock s e s' : step s e s' -> clock s <= clock s'.
Proof. by inversion 1. Qed.

Lemma steps_clock s es s' : steps s es s' -> clock s <= clock s'.
Proof. induction 1 as [|s e s' es s'' H1%step_clock _ IH]; lia. Qed.

Lemma time_sub_le c t u : 0 < c <= max_int64 -> (c <=? time_sub t u) = (c <=? t - u).
Proof. unfold time_sub, min_int64, max_int64. intros H.
  destruct (Z.leb_spec c (t - u)), (Z.leb_spec c (Z.max (- 2 ^ 63) (Z.min (2 ^ 63 - 1) (t - u)))); lia.
Qed.

Lemma refresh_early now b :
  0 < cooldown b <= max_int64 -> now - openedAt b < cooldown b -> refresh now b = b.
Proof.
  intros Hc Hn. unfold refresh. rewrite time_sub_le by done.
  destruct (Z.leb_spec (cooldown b) (now - openedAt b)); [lia|]. by rewrite andb_false_r.
Qed.

Lemma refresh_not_open now b : state b <> StateOpen -> refresh now b = b.
Proof. intros H. unfold refresh. by rewrite bool_decide_eq_false_2. Qed.

Lemma refresh_late now b :
  0 < cooldown b <= max_int64 -> state b = StateOpen -> cooldown b <= now - openedAt b ->
  refresh now b = set_probe false (setState StateHalfOpen b).
Proof.
  intros Hc Hs Hn. unfold refresh. rewrite time_sub_le, bool_decide_eq_true_2 by done.
  by destruct (Z.leb_spec (cooldown b) (now - openedAt b)); [|lia].
Qed.

(** Operations keep the configuration. *)
Definition same_cfg (b b' : CircuitBreaker) : Prop :=
  failureThreshold b' = failureThreshold b /\ cooldown b' = cooldown b
  /\ isFailure b' = isFailure b.

Lemma setState_cfg s b : same_cfg b (setState s b).
Proof. unfold setState. by case_bool_decide. Qed.

Lemma refresh_cfg now b : same_cfg b (refresh now b).
Proof. unfold refresh. destruct (_ && _); [|done]. apply setState_cfg. Qed.

Lemma setState_fields s b :
  state (setState s b) = s /\ failures (setState s b) = failures b
  /\ openedAt (setState s b) = openedAt b /\ probeInFlight (setState s b) = probeInFlight b.
Proof. unfold setState. case_bool_decide as H; [by rewrite H|done]. Qed.

Arguments setState : simpl never.
Arguments trip : simpl never.
Arguments reset : simpl never.

Lemma trip_fields now b :
  state (trip now b) = StateOpen /\ failures (trip now b) = failures b
  /\ openedAt (trip now b) = now /\ probeInFlight (trip now b) = probeInFlight b
  /\ same_cfg b (trip now b).
Proof.
  unfold trip. destruct (setState_fields StateOpen (set_openedAt now b)) as (-> & -> & -> & ->).
  do 4 (split; [done|]). apply (setState_cfg StateOpen (set_openedAt now b)).
Qed.

Lemma reset_fields b :
  state (reset b) = StateClosed /\ failures (reset b) = 0
  /\ probeInFlight (reset b) = probeInFlight b /\ same_cfg b (reset b).
Proof.
  unfold reset. destruct (setState_fields StateClosed (set_failures 0 b)) as (-> & -> & _ & ->).
  do 3 (split; [done|]). apply (setState_cfg StateClosed (set_failures 0 b)).
Qed.

Lemma afterCall_count now err b :
  state b <> StateHalfOpen ->
  afterCall now err b =
  if counts_as_failure b err
  then if failureThreshold b <=? wrap64 (failures b + 1)
       then trip now (set_failures (wrap64 (failures b + 1)) b)
       else set_failures (wrap64 (failures b + 1)) b
  else set_failures 0 b.
Proof. intros H. unfold afterCall. by rewrite bool_decide_eq_false_2. Qed.

Lemma afterCall_probe now err b :
  state b = StateHalfOpen ->
  afterCall now err b =
  if counts_as_failure b err then trip now (set_probe false b) else reset (set_probe false b).
Proof. intros H. unfold afterCall. by rewrite bool_decide_eq_true_2. Qed.

(** While open, nothing moves the breaker before its cooldown has passed. *)
Lemma step_open s e s' t0 :
  step s e s' -> inv (clock s) (brk s) -> state (brk s) = StateOpen ->
  t0 <= openedAt (brk s) -> clock s' < t0 + cooldown (brk s) ->
  e <> Admit /\ state (brk s') = StateOpen /\ t0 <= openedAt (brk s')
  /\ cooldown (brk s') = cooldown (brk s).
Proof.
  intros Hst Hi Hs Ht Hclk. pose proof (inv_cooldown _ _ Hi) as Hc.
  pose proof (inv_opened _ _ Hi Hs) as Ho.
  inversion Hst; subst; cbn in *.
  - done.
  - rewrite refresh_early by lia. done.
  - unfold beforeCall in *. rewrite refresh_early, Hs in * by lia. done.
  - unfold beforeCall in *. rewrite refresh_early, Hs in * by lia. by simplify_eq.
  - split; [done|]. rewrite afterCall_count by congruence.
    destruct (counts_as_failure b err); [|done]. destruct (_ <=? _); [|done].
    match goal with |- context [trip t ?x] =>
      destruct (trip_fields t x) as (-> & _ & -> & _ & Hcfg) end.
    split; [done|]. split; [lia|]. apply Hcfg.
  - done.
Qed.

Lemma step_probe s e s' :
  step s e s' -> state (brk s) = StateHalfOpen -> probeInFlight (brk s) = true ->
  (forall err, e <> Finish err) ->
  e <> Admit /\ state (brk s') = StateHalfOpen /\ probeInFlight (brk s') = true
  /\ (inflight s' <= inflight s)%nat.
Proof.
  intros Hst Hs Hp Hf. inversion Hst; subst; cbn in *.
  all: unfold beforeCall in *; rewrite ?refresh_not_open in * by congruence; rewrite ?Hs, ?Hp in *;
    simplify_eq; try by naive_solver.
Qed.

Lemma steps_probe s es s' :
  steps s es s' -> state (brk s) = StateHalfOpen -> probeInFlight (brk s) = true ->
  (forall err, Finish err ∉ es) ->
  (Admit ∉ es) /\ state (brk s') = StateHalfOpen /\ probeInFlight (brk s') = true.
Proof.
  induction 1 as [s|s e s1 es s2 H1 H2 IH]; intros Hs Hp Hf.
  { split; [apply not_elem_of_nil|done]. }
  destruct (step_probe _ _ _ H1 Hs Hp) as (Ha & Hs1 & Hp1 & _).
  { intros err ->. apply (Hf err). by left. }
  destruct (IH Hs1 Hp1) as (Ha' & ? & ?).
  { intros err Hin. apply (Hf err). by right. }
  split; [|done]. apply not_elem_of_cons. done.
Qed.

(** With no call in flight there is nothing to finish. *)
Lemma steps_wedged s es s' :
  steps s es s' -> state (brk s) = StateHalfOpen -> probeInFlight (brk s) = true ->
  inflight s = O -> (forall err, Finish err ∉ es).
Proof.
  induction 1 as [s|s e s1 es s2 H1 H2 IH]; intros Hs Hp Hn err; [apply not_elem_of_nil|].
  assert (forall err, e <> Finish err) as Hf.
  { intros err' ->. inversion H1; subst. done. }
  destruct (step_probe _ _ _ H1 Hs Hp Hf) as (_ & Hs1 & Hp1 & Hle).
  apply not_elem_of_cons. split; [congruence|]. apply IH; [done..|]. lia.
Qed.

(** ** The documented contract, for callers that do not overlap *)

(** Consecutive failures so far, or the instant the breaker opened. *)
Inductive spec := SClosed (n : Z) | SOpen (since : Z).

Definition spec_exec (threshold cool : Z) (t1 t2 : Z) (failure : bool) (s : spec) : bool * spec :=
  match s with
  | SClosed n =>
      (true, if failure then (if threshold <=? n + 1 then SOpen t2 else SClosed (n + 1))
             else SClosed 0)
  | SOpen since =>
      if t1 - since <? cool then (false, s)
      else (true, if failure then SOpen t2 else SClosed 0)
  end.

Record call := mkCall { c_t1 : Z; c_t2 : Z; c_err : error }.

Fixpoint run (cs : list call) (b : CircuitBreaker) : list fnres :=
  match cs with
  | [] => []
  | c :: cs' => let '(r, b') := Execute (c_t1 c) (c_t2 c) (FnRet (c_err c)) b in r :: run cs' b'
  end.

Fixpoint spec_run (fails : error -> bool) (threshold cool : Z) (cs : list call) (s : spec)
  : list fnres :=
  match cs with
  | [] => []
  | c :: cs' =>
      let '(admitted, s') := spec_exec threshold cool (c_t1 c) (c_t2 c) (fails (c_err c)) s in
      FnRet (if admitted then c_err c else Some ErrOpen)
        :: spec_run fails threshold cool cs' s'
  end.

Fixpoint in_order (now : Z) (cs : list call) : bool :=
  match cs with
  | [] => true
  | c :: cs' => (now <=? c_t1 c) && (c_t1 c <=? c_t2 c) && in_order (c_t2 c) cs'
  end.

Definition sim (now : Z) (b : CircuitBreaker) (s : spec) : Prop :=
  inv now b /\ probeInFlight b = false /\
  match s with
  | SClosed n => state b = StateClosed /\ failures b = n
  | SOpen since =>
      openedAt b = since /\
      (state b = StateOpen \/ (state b = StateHalfOpen /\ cooldown b <= now - since))
  end.

(** The outcome of a probe decides the next state. *)
Lemma probe_outcome now b err :
  inv now b -> state b = StateHalfOpen ->
  sim now (afterCall now err (set_probe true b))
    (if counts_as_failure b err then SOpen now else SClosed 0)
  /\ same_cfg b (afterCall now err (set_probe true b)).
Proof.
  intros Hi Hs.
  assert (inv now (set_probe true b)) as Hi' by (destruct Hi; by constructor).
  apply (afterCall_inv now err) in Hi'. rewrite afterCall_probe in * by done.
  change (counts_as_failure (set_probe true b) err) with (counts_as_failure b err) in *.
  unfold sim. destruct (counts_as_failure b err).
  - destruct (trip_fields now (set_probe false (set_probe true b))) as (-> & _ & -> & -> & Hcfg).
    split; [|exact Hcfg]. split; [done|]. split; [done|]. split; [done|by left].
  - destruct (reset_fields (set_probe false (set_probe true b))) as (-> & -> & -> & Hcfg).
    split; [|exact Hcfg]. done.
Qed.

(** One call of the code is one call of the contract. *)
Lemma sim_exec now t1 t2 err b s :
  now <= t1 -> t1 <= t2 -> sim now b s ->
  let '(r, b') := Execute t1 t2 (FnRet err) b in
  let '(adm, s') := spec_exec (failureThreshold b) (cooldown b) t1 t2 (counts_as_failure b err) s in
  r = FnRet (if adm then err else Some ErrOpen) /\ sim t2 b' s' /\ same_cfg b b'.
Proof.
  intros H1 H2 (Hi & Hp & Hs). pose proof (inv_cooldown _ _ Hi) as Hc.
  apply (inv_mono _ t2) in Hi; [|lia]. unfold Execute, beforeCall. destruct s as [n|since].
  - destruct Hs as [Hs Hn]. rewrite refresh_not_open, Hs by congruence. cbn.
    pose proof (inv_failures _ _ Hi Hs) as Hf. pose proof (inv_threshold _ _ Hi) as Ht.
    pose proof (afterCall_inv t2 err b Hi) as Hi'.
    rewrite afterCall_count in * by congruence. split; [done|].
    rewrite wrap64_id, Hn in * by (unfold min_int64; lia).
    unfold sim. destruct (counts_as_failure b err); [|done].
    destruct (failureThreshold b <=? n + 1); [|done].
    destruct (trip_fields t2 (set_failures (n + 1) b)) as (-> & _ & -> & -> & Hcfg).
    split; [|exact Hcfg]. split; [done|]. split; [done|]. split; [done|by left].
  - destruct Hs as [<- Hs]. cbn. destruct (Z.ltb_spec (t1 - openedAt b) (cooldown b)).
    + destruct Hs as [Hs|[_ Hs]]; [|lia]. rewrite refresh_early, Hs by lia.
      split; [done|]. split; [|done]. split; [done|]. split; [done|]. split; [done|by left].
    + assert (exists b1, refresh t1 b = b1 /\ state b1 = StateHalfOpen /\ probeInFlight b1 = false
        /\ inv t2 b1 /\ same_cfg b b1) as (b1 & -> & Hs1 & Hp1 & Hi1 & Hcfg).
      { eexists. split; [done|]. destruct Hs as [Hs|[Hs _]].
        - split; [|split; [|split; [|apply refresh_cfg]]].
          1-2: by rewrite refresh_late by (done || lia); cbn;
            try apply (setState_fields StateHalfOpen b).
          apply (inv_mono t1); [done|]. apply refresh_inv. destruct Hi. constructor; try done. lia.
        - by rewrite refresh_not_open by congruence. }
      rewrite Hs1, Hp1. cbn. destruct (probe_outcome t2 b1 err Hi1 Hs1) as [Hsim Hcfg'].
      unfold counts_as_failure in *. destruct Hcfg as (E1 & E2 & E3). rewrite <- E3.
      split; [done|]. split; [done|]. unfold same_cfg in *. by rewrite <- E1, <- E2, <- E3.
Qed.

Lemma sim_run cs now b s :
  in_order now cs = true -> sim now b s ->
  run cs b = spec_run (counts_as_failure b) (failureThreshold b) (cooldown b) cs s.
Proof.
  revert now b s. induction cs as [|[t1 t2 err] cs IH]; intros now b s Ho Hs; [done|].
  cbn in Ho. apply andb_true_iff in Ho as [Ho1 Ho2]. apply andb_true_iff in Ho1 as [H1 H2].
  apply Z.leb_le in H1, H2. pose proof (sim_exec now t1 t2 err b s H1 H2 Hs) as He.
  cbn. destruct (Execute t1 t2 (FnRet err) b) as [r b'].
  destruct (spec_exec _ _ t1 t2 _ s) as [adm s']. destruct He as (-> & Hs' & E1 & E2 & E3).
  f_equal. rewrite (IH t2 b' s' Ho2 Hs'), E1, E2. unfold counts_as_failure. by rewrite E3.
Qed.

(** The configuration that a list of options selects. *)
Lemma NewCircuitBreaker_sim now opts :
  Forall is_option opts -> sim now (NewCircuitBreaker opts) (SClosed 0).
Proof.
  intros Ho. split; [by apply NewCircuitBreaker_inv|]. unfold NewCircuitBreaker.
  set (P := fun b => probeInFlight b = false /\ state b = StateClosed /\ failures b = 0).
  assert (forall b, P b -> P (fold_left (fun b o => o b) opts b)) as H; [|by apply H].
  induction Ho as [|o opts Hopt Ho IH]; intros b Hb; [done|]. apply IH.
  destruct Hopt as [n Hn|d Hd|[f|]|x]; cbn; try done.
  - unfold WithFailureThreshold. by destruct (0 <? n).
  - unfold WithCooldown. by destruct (0 <? d).
Qed.

Lemma steps_inv s es s' : steps s es s' -> inv (clock s) (brk s) -> inv (clock s') (brk s').
Proof. induction 1 as [|s e s1 es s2 H1 _ IH]; [done|]. intros Hi. eapply IH, step_inv; done. Qed.

(** ** Theorems *)

(** C27. Whatever options build it and however concurrent calls, their
    outcomes and the clock interleave, the breaker keeps its invariant: while
    closed it has seen fewer consecutive failures than the threshold, a probe
    is recorded only while half-open, the opening instant is not in the
    future, and the transitions reported to the onStateChange hook are exactly
    a path closed -> open -> half-open -> (open | closed) to its state. *)
Theorem breaker_invariant opts t es s :
  Forall is_option opts -> steps (mkSys (NewCircuitBreaker opts) t 0) es s ->
  inv (clock s) (brk s).
Proof. intros Ho Hst. eapply steps_inv; [done|]. by apply NewCircuitBreaker_inv. Qed.

(** A history that trips a one-failure breaker and probes it. *)
Definition sample_opts : list BreakerOption :=
  [WithFailureThreshold 1; WithCooldown 10; WithOnStateChange true].
Definition sample_err : error := Some (NewErr "boom").

Lemma sample_is_option : Forall is_option sample_opts.
Proof. repeat constructor; unfold max_int64; lia. Qed.

(** Trip at 0, probe at 10, probe fails, probe again at 20 and recover. *)
Definition sample_history : list event :=
  [Admit; Finish sample_err; Reject; Tick 10; Admit; Reject; Finish sample_err;
   Tick 20; Query; Admit; Finish None; Admit].

Lemma breaker_invariant_witness :
  exists s, exec (mkSys (NewCircuitBreaker sample_opts) 0 0) sample_history = Some s
            /\ inv (clock s) (brk s).
Proof.
  eexists. split; [vm_compute; reflexivity|].
  apply (breaker_invariant sample_opts 0 sample_history); [apply sample_is_option|].
  apply exec_steps. vm_compute. reflexivity.
Defined.

(** An open breaker rejects every call until its cooldown has elapsed:
    under every interleaving of callers, late outcomes and clock readings
    before openedAt + cooldown no call is admitted and the breaker stays
    open. *)
Theorem open_rejects s es s' :
  inv (clock s) (brk s) -> state (brk s) = StateOpen -> steps s es s' ->
  clock s' < openedAt (brk s) + cooldown (brk s) ->
  (Admit ∉ es) /\ state (brk s') = StateOpen.
Proof.
  intros Hi Hs Hst. set (t0 := openedAt (brk s)).
  assert (t0 <= openedAt (brk s)) as Ht by done. clearbody t0. revert t0 Hi Hs Ht.
  induction Hst as [s|s e s1 es s2 H1 H2 IH]; intros t0 Hi Hs Ht Hclk.
  { split; [apply not_elem_of_nil|done]. }
  pose proof (steps_clock _ _ _ H2).
  destruct (step_open _ _ _ t0 H1 Hi Hs Ht) as (Ha & Hs1 & Ht1 & Hc1); [lia|].
  destruct (IH t0) as [Hn Hs2]; try done; [by eapply step_inv|lia|].
  split; [|done]. by apply not_elem_of_cons.
Qed.

Definition tripped : sys :=
  default (mkSys (NewCircuitBreaker sample_opts) 0 0)
    (exec (mkSys (NewCircuitBreaker sample_opts) 0 0) [Tick 7; Admit; Admit; Finish sample_err]).

Lemma tripped_inv : inv (clock tripped) (brk tripped).
Proof.
  apply (steps_inv (mkSys (NewCircuitBreaker sample_opts) 0 0)
    [Tick 7; Admit; Admit; Finish sample_err]).
  - apply exec_steps. vm_compute. reflexivity.
  - apply NewCircuitBreaker_inv, sample_is_option.
Qed.

Lemma open_rejects_witness :
  exists s', exec tripped [Reject; Tick 12; Finish None; Reject; Query] = Some s'
             /\ state (brk s') = StateOpen.
Proof.
  eexists. split; [vm_compute; reflexivity|].
  eapply (open_rejects tripped [Reject; Tick 12; Finish None; Reject; Query]);
    [apply tripped_inv | reflexivity | apply exec_steps; vm_compute; reflexivity | reflexivity].
Defined.

(** C5. Half-open admits a single probe: while one is in flight and no call
    has finished, no other call is admitted, whatever the clock does. *)
Theorem single_probe s es s' :
  state (brk s) = StateHalfOpen -> probeInFlight (brk s) = true -> steps s es s' ->
  (forall err, Finish err ∉ es) ->
  (Admit ∉ es) /\ state (brk s') = StateHalfOpen.
Proof.
  intros Hs Hp Hst Hf. by destruct (steps_probe _ _ _ Hst Hs Hp Hf) as (? & ? & _).
Qed.

Definition probing : sys :=
  default tripped (exec tripped [Finish None; Tick 17; Admit]).

Lemma single_probe_witness :
  exists s', exec probing [Reject; Tick 1000; Query; Reject] = Some s'
             /\ state (brk s') = StateHalfOpen.
Proof.
  eexists. split; [vm_compute; reflexivity|].
  eapply (single_probe probing [Reject; Tick 1000; Query; Reject]);
    [reflexivity | reflexivity | apply exec_steps; vm_compute; reflexivity |].
  intros err H. repeat (apply elem_of_cons in H as [H|H]; [discriminate|]). by inversion H.
Defined.

(** C39. Calls that do not overlap see the documented contract and nothing
    else: a run of Execute returns, call by call, what a breaker described by
    just a failure count or an opening instant returns — rejected while the
    cooldown runs, opened by the threshold-th consecutive failure, re-opened by
    a failed probe and closed by a successful one. *)
Theorem Execute_refines opts t cs :
  Forall is_option opts -> in_order t cs = true ->
  let b := NewCircuitBreaker opts in
  run cs b = spec_run (counts_as_failure b) (failureThreshold b) (cooldown b) cs (SClosed 0).
Proof. intros Ho Hc. eapply sim_run; [done|]. by apply NewCircuitBreaker_sim. Qed.

Definition sample_calls : list call :=
  [mkCall 0 1 sample_err; mkCall 5 5 None; mkCall 11 12 sample_err; mkCall 21 21 None;
   mkCall 22 23 None; mkCall 24 25 (Some ErrOpen)].

Lemma Execute_refines_witness :
  run sample_calls (NewCircuitBreaker sample_opts) =
    [FnRet sample_err; FnRet (Some ErrOpen); FnRet sample_err; FnRet (Some ErrOpen);
     FnRet None; FnRet (Some ErrOpen)]
  /\ run sample_calls (NewCircuitBreaker sample_opts) =
     spec_run (counts_as_failure (NewCircuitBreaker sample_opts)) 1 10 sample_calls (SClosed 0).
Proof.
  split; [reflexivity|].
  apply (Execute_refines sample_opts 0 sample_calls); [apply sample_is_option | reflexivity].
Defined.

(** Execute does not record the outcome of a call that panics, so a panic
    of the probe is never accounted for: once the only admitted call is a
    probe that panics, the breaker admits no call ever again. *)
Theorem probe_panic_wedges b t es s :
  state b = StateOpen -> steps (mkSys b t 0) (Admit :: Abandon :: es) s ->
  (Admit ∉ es) /\ state (brk s) = StateHalfOpen.
Proof.
  intros Hs Hst. inversion Hst as [|? ? s1 ? ? H1 Hst1]; subst.
  inversion Hst1 as [|? ? s2 ? ? H2 Hst2]; subst.
  inversion H1 as [| |? ? ? b1 Hb| | |]; subst. inversion H2; subst.
  assert (state b1 = StateHalfOpen /\ probeInFlight b1 = true) as [Hs1 Hp1].
  { unfold beforeCall, refresh in Hb. rewrite bool_decide_eq_true_2 in Hb by done. cbn in Hb.
    destruct (_ <=? _); [|by rewrite Hs in Hb]. cbn in Hb.
    rewrite (proj1 (setState_fields StateHalfOpen b)) in Hb. injection Hb as <-. cbn.
    split; [apply setState_fields|done]. }
  pose proof (steps_wedged _ _ _ Hst2 Hs1 Hp1 eq_refl) as Hf.
  by destruct (steps_probe _ _ _ Hst2 Hs1 Hp1 Hf) as (? & ? & _).
Qed.

Lemma probe_panic_wedges_witness :
  exists s, exec (mkSys (brk (default tripped (exec tripped [Finish None]))) 17 0)
               [Admit; Abandon; Reject; Tick (365 * 24 * 3600 * Second); Reject] = Some s
            /\ state (brk s) = StateHalfOpen.
Proof.
  eexists. split; [vm_compute; reflexivity|].
  eapply (probe_panic_wedges (brk (default tripped (exec tripped [Finish None]))) 17
    [Reject; Tick (365 * 24 * 3600 * Second); Reject]);
    [reflexivity | apply exec_steps; vm_compute; reflexivity].
Defined.

(** ** Outcomes that arrive late *)

(** A call admitted before the trip that succeeds after the cooldown closes the
    breaker while the probe is still running, so a second call is admitted. *)
Example stale_success_closes :
  option_map (fun s => (state (brk s), inflight s))
    (exec (mkSys (NewCircuitBreaker sample_opts) 0 0)
       [Admit; Admit; Finish sample_err; Tick 10; Admit; Reject; Finish None; Admit])
  = Some (StateClosed, 2%nat).
Proof. reflexivity. Qed.

(** A failure that arrives while the breaker is open restarts its cooldown: at
    instant 10 the probe is due, yet it is rejected until 19. *)
Example late_failure_extends :
  option_map (fun s => (state (brk s), openedAt (brk s)))
    (exec (mkSys (NewCircuitBreaker sample_opts) 0 0)
       [Admit; Admit; Finish sample_err; Tick 9; Finish sample_err; Tick 10; Reject; Tick 18; Reject])
  = Some (StateOpen, 9).
Proof. reflexivity. Qed.
