(* ===== verification/Retry.v ===== *)
(** * Retry: resilience/retry.go — Retry and its wait

    Code that runs in a context is modelled over a world [W]: what the code
    observes of its surroundings ([ctx.Err()], the clock, math/rand) is read
    from the world, and a wait or a call returns the world after it.  The class
    [World] is the interface; every retry loop of the repository is proved
    against it. *)

From S2P Require Import Prelude GoStrings Http Errors GoFloat Backoff Breaker.

Class World (W : Type) := {
  ctx_err : W -> error;            (* ctx.Err() *)
  time_now : W -> Z;               (* time.Now(), nanoseconds *)
  rand63n : W -> Z -> Z;           (* rand.Int63n *)
  wait : Z -> W -> bool * W        (* select on the timer and ctx.Done(): true = the timer fired *)
}.

(** What the standard library guarantees of them: Int63n stays below its
    bound, a context once done keeps its error, and Done() is closed only when
    Err() is set. *)
Class WorldLaws (W : Type) `{World W} := {
  rand63n_range w n : 0 < n -> 0 <= rand63n w n < n;
  wait_ctx d w e : ctx_err w = Some e -> ctx_err (wait d w).2 = Some e;
  wait_done d w : (wait d w).1 = false -> ctx_err (wait d w).2 <> None
}.

(** A world extended by more state of the program. *)
#[export] Instance world_prod {W S} `{World W} : World (W * S) := {
  ctx_err w := ctx_err w.1;
  time_now w := time_now w.1;
  rand63n w := rand63n w.1;
  wait d w := let '(b, w') := wait d w.1 in (b, (w', w.2))
}.

#[export] Instance world_prod_laws {W S} `{World W} `{!WorldLaws W} : WorldLaws (W * S).
Proof.
  split.
  - intros [w s] n. exact (rand63n_range w n).
  - intros d [w s] e. cbn. pose proof (wait_ctx d w e). by destruct (wait d w).
  - intros d [w s]. cbn. pose proof (wait_done d w). by destruct (wait d w).
Qed.

Definition defaultRetryable (err : error) : bool :=
  match err with
  | None => false
  | Some e => negb (errors_is e "context.Canceled" || errors_is e "context.DeadlineExceeded")
  end.

(** What a retry loop does, in order. *)
Inductive action :=
  | Called (err : error)                       (* fn returned err *)
  | CallPanicked
  | OnRetry (attempt : Z) (err : error) (delay : Z)
  | Waited (delay : Z).

Section retry.
Context {W : Type} `{World W}.

Record retryConfig := mkRetryConfig {
  retryable : error -> bool;
  onRetry : bool;                              (* onRetry <> nil *)
  sleep : Z -> W -> error * W
}.
Definition RetryOption := retryConfig -> retryConfig.

Definition WithRetryable (f : option (error -> bool)) : RetryOption := fun c =>
  match f with Some f => mkRetryConfig f (onRetry c) (sleep c) | None => c end.
Definition WithOnRetry (non_nil : bool) : RetryOption := fun c =>
  mkRetryConfig (retryable c) non_nil (sleep c).
Definition withSleep (f : Z -> W -> error * W) : RetryOption := fun c =>
  mkRetryConfig (retryable c) (onRetry c) f.

Definition sleepCtx (d : Z) (w : W) : error * W :=
  if d <=? 0 then (ctx_err w, w)
  else let '(fired, w') := wait d w in
       if fired then (None, w') else (ctx_err w', w').

(** The loop from [attempt] on, with [left] iterations to go.  [None] as the
    result stands for a panic of the jitter source in [Backoff]. *)
Fixpoint retry_loop (cfg : retryConfig) (policy : Policy) (fn : W -> fnres * W)
    (attempts : Z) (left : nat) (attempt : Z) (lastErr : error) (w : W)
  : fnres * W * list action :=
  match left with
  | O => (FnRet lastErr, w, [])
  | S left' =>
      match ctx_err w with
      | Some e => (FnRet (Some e), w, [])
      | None =>
          match fn w with
          | (FnPanic, w) => (FnPanic, w, [CallPanicked])
          | (FnRet None, w) => (FnRet None, w, [Called None])
          | (FnRet lastErr, w) =>
              if (attempt =? attempts) || negb (retryable cfg lastErr)
              then (FnRet lastErr, w, [Called lastErr])
              else
                match Backoff (rand63n w) policy (attempt + 1) with
                | None => (FnPanic, w, [Called lastErr])
                | Some delay =>
                    let hook := if onRetry cfg then [OnRetry attempt lastErr delay] else [] in
                    match sleep cfg delay w with
                    | (Some e, w) => (FnRet (Some e), w, Called lastErr :: hook ++ [Waited delay])
                    | (None, w) =>
                        let '(r, w, tr) :=
                          retry_loop cfg policy fn attempts left' (attempt + 1) lastErr w in
                        (r, w, Called lastErr :: hook ++ Waited delay :: tr)
                    end
                end
          end
      end
  end.

Definition Retry (policy : Policy) (fn : W -> fnres * W) (opts : list RetryOption) (w : W)
  : fnres * W * list action :=
  let cfg := fold_left (fun c o => o c) opts (mkRetryConfig defaultRetryable false sleepCtx) in
  let n := attempts policy in
  retry_loop cfg policy fn n (Z.to_nat n) 1 None w.

End retry.
Arguments retryConfig : clear implicits.
Arguments RetryOption : clear implicits.

(** ** The shape of a run *)

(** The trace of one failed attempt that is followed by a wait. *)
Definition retried (hook : bool) (x : Z * goerr * Z) : list action :=
  let '(i, e, d) := x in
  Called (Some e) :: (if hook then [OnRetry i (Some e) d] else []) ++ [Waited d].

Section proofs.
Context {W : Type} `{World W} `{!WorldLaws W}.

(** The waits of a policy: a sound jitter source and a cap below 2^53 ns. *)
Definition policy_ok (p : Policy) : Prop :=
  0 < MaxDelay p < 2 ^ 53 /\ (forall f, rng p = Some f -> forall n, 0 < n -> 0 <= f n <= n).

Lemma Backoff_ok (w : W) p k :
  policy_ok p -> exists d, Backoff (rand63n w) p k = Some d /\ 0 <= d <= MaxDelay p.
Proof.
  intros [Hm Hf]. apply Backoff_range; [|done]. split; [apply rand63n_range|done].
Qed.

(** A pause of [d] that ran to its end, and one the context cut short. *)
Definition elapsed (d : Z) (w w' : W) : Prop :=
  (d <= 0 /\ w' = w /\ ctx_err w = None) \/ (0 < d /\ wait d w = (true, w')).
Definition interrupted (d : Z) (w w' : W) (e : goerr) : Prop :=
  ctx_err w' = Some e /\ ((d <= 0 /\ w' = w) \/ (0 < d /\ wait d w = (false, w'))).

(** The runs the documentation of Retry allows from attempt [k] on: [w] is the
    world in which the attempt starts, [w'] the one in which Retry returns. *)
Inductive retry_run (p : Policy) (rt : error -> bool) (hook : bool) (fn : W -> fnres * W)
  : Z -> W -> fnres -> W -> list action -> Prop :=
  | run_cancelled k w e :                      (* the context is done: fn is not called *)
      ctx_err w = Some e -> retry_run p rt hook fn k w (FnRet (Some e)) w []
  | run_ok k w w1 :
      ctx_err w = None -> fn w = (FnRet None, w1) ->
      retry_run p rt hook fn k w (FnRet None) w1 [Called None]
  | run_panic k w w1 :
      ctx_err w = None -> fn w = (FnPanic, w1) ->
      retry_run p rt hook fn k w FnPanic w1 [CallPanicked]
  | run_final k w e w1 :
      ctx_err w = None -> fn w = (FnRet (Some e), w1) -> k = attempts p \/ rt (Some e) = false ->
      retry_run p rt hook fn k w (FnRet (Some e)) w1 [Called (Some e)]
  | run_interrupted k w e w1 d e' w2 :
      ctx_err w = None -> fn w = (FnRet (Some e), w1) -> k < attempts p -> rt (Some e) = true ->
      schedule p k d -> interrupted d w1 w2 e' ->
      retry_run p rt hook fn k w (FnRet (Some e')) w2 (retried hook (k, e, d))
  | run_again k w e w1 d w2 r w' tr :
      ctx_err w = None -> fn w = (FnRet (Some e), w1) -> k < attempts p -> rt (Some e) = true ->
      schedule p k d -> elapsed d w1 w2 -> retry_run p rt hook fn (k + 1) w2 r w' tr ->
      retry_run p rt hook fn k w r w' (retried hook (k, e, d) ++ tr).

Lemma sleepCtx_spec d (w : W) err w' :
  sleepCtx d w = (err, w') ->
  match err with None => elapsed d w w' | Some e => interrupted d w w' e end.
Proof.
  unfold sleepCtx, elapsed, interrupted. destruct (Z.leb_spec d 0).
  - intros [= <- <-]. destruct (ctx_err w); auto.
  - pose proof (wait_done d w) as Hd. destruct (wait d w) as [[] w1]; intros [= <- <-]; [auto|].
    cbn in Hd. destruct (ctx_err w1); [auto|]. by destruct Hd.
Qed.

Lemma retry_loop_run cfg p fn left k lastErr (w : W) r w' tr :
  policy_ok p -> sleep cfg = sleepCtx -> k + Z.of_nat left = attempts p + 1 -> 1 <= k <= attempts p ->
  retry_loop cfg p fn (attempts p) left k lastErr w = (r, w', tr) ->
  retry_run p (retryable cfg) (onRetry cfg) fn k w r w' tr.
Proof.
  intros Hp Hsl. revert k lastErr w r w' tr.
  induction left as [|left IH]; intros k lastErr w r w' tr Hk HN; [lia|]. cbn.
  destruct (ctx_err w) as [e|] eqn:Hc; [intros [= <- <- <-]; by apply run_cancelled|].
  destruct (fn w) as [[[e|]|] w1] eqn:Hf;
    [| intros [= <- <- <-]; by apply run_ok | intros [= <- <- <-]; by apply run_panic].
  destruct (Z.eqb_spec k (attempts p)) as [->|Hne]; cbn;
    [intros [= <- <- <-]; apply run_final; auto|].
  destruct (retryable cfg (Some e)) eqn:Hr; cbn; [|intros [= <- <- <-]; apply run_final; auto].
  destruct (Backoff_schedule (rand63n w1) p k) as (d & -> & Hd);
    [split; [apply rand63n_range|apply Hp]|apply Hp|lia|].
  rewrite Hsl. destruct (sleepCtx d w1) as [err w2] eqn:Es. apply sleepCtx_spec in Es.
  destruct err as [e'|].
  - intros [= <- <- <-]. eapply run_interrupted; try done. lia.
  - destruct (retry_loop cfg p fn (attempts p) left (k + 1) (Some e) w2) as [[r2 w3] tr2] eqn:El.
    intros [= <- <- <-]. apply IH in El; [|lia|lia].
    replace (Called (Some e) :: _) with (retried (onRetry cfg) (k, e, d) ++ tr2);
      [eapply run_again; try done; lia|].
    cbn. by rewrite <- app_assoc.
Qed.

Lemma attempts_pos p : 1 <= attempts p.
Proof. unfold attempts. destruct (Z.ltb_spec (MaxAttempts p) 1); lia. Qed.

(** What a run establishes, for what attempts establish: an attempt that is
    retried keeps [P], as a wait does; [F] holds of an error Retry returns. *)
Lemma retry_run_inv p rt hook fn k (w : W) r w' tr (P : W -> Prop) (F : goerr -> W -> Prop)
    (Q : fnres -> W -> Prop) :
  (forall w r w', P w -> fn w = (r, w') ->
     match r with
     | FnRet (Some e) => F e w' /\ (rt (Some e) = true -> P w')
     | _ => Q r w'
     end) ->
  (forall d w, P w -> P (wait d w).2) ->
  (forall w e, P w -> ctx_err w = Some e -> F e w) ->
  P w -> retry_run p rt hook fn k w r w' tr ->
  match r with FnRet (Some e) => F e w' | _ => Q r w' end.
Proof.
  intros Hfn Hw Hc HP Hrun. revert HP.
  induction Hrun as [k w e He|k w w1 He Hf|k w w1 He Hf|k w e w1 He Hf _
    |k w e w1 d e' w2 He Hf _ Hr _ [He' Hi]|k w e w1 d w2 r w' tr He Hf _ Hr _ Hi _ IH]; intros HP.
  - by apply Hc.
  - apply (Hfn _ _ _ HP Hf).
  - apply (Hfn _ _ _ HP Hf).
  - apply (Hfn _ _ _ HP Hf).
  - destruct (Hfn _ _ _ HP Hf) as [_ HP1]. apply Hc; [|done].
    destruct Hi as [[_ ->]|[_ Hi]]; [by apply HP1|]. specialize (Hw d w1 (HP1 Hr)). by rewrite Hi in Hw.
  - destruct (Hfn _ _ _ HP Hf) as [_ HP1]. apply IH.
    destruct Hi as [(_ & -> & _)|[_ Hi]]; [by apply HP1|].
    specialize (Hw d w1 (HP1 Hr)). by rewrite Hi in Hw.
Qed.

Lemma Retry_run p fn opts (w : W) r w' tr :
  let cfg := fold_left (fun c o => o c) opts (mkRetryConfig defaultRetryable false sleepCtx) in
  policy_ok p -> sleep cfg = sleepCtx -> Retry p fn opts w = (r, w', tr) ->
  retry_run p (retryable cfg) (onRetry cfg) fn 1 w r w' tr.
Proof.
  intros cfg Hp Hs Hl. pose proof (attempts_pos p).
  by eapply retry_loop_run in Hl; [|done|done|lia|lia].
Qed.

(** What failed attempts and waits preserve holds when Retry gives up; a success
    or a panic ends where that call ended. *)
Lemma Retry_keeps p fn (w : W) r w' tr (P : W -> Prop) (Q : fnres -> W -> Prop) :
  policy_ok p ->
  (forall w r w', P w -> fn w = (r, w') -> match r with FnRet (Some _) => P w' | _ => Q r w' end) ->
  (forall d w, P w -> P (wait d w).2) ->
  P w -> Retry p fn [] w = (r, w', tr) ->
  match r with FnRet (Some _) => P w' | _ => Q r w' end.
Proof.
  intros Hp Hfn Hw HP Hl. apply Retry_run in Hl; [|done|done].
  apply (retry_run_inv _ _ _ _ _ _ _ _ _ P (fun _ w => P w) Q) in Hl; [done| |done..].
  intros w0 r0 w1 H0 Hf. specialize (Hfn w0 r0 w1 H0 Hf). by destruct r0 as [[]|].
Qed.


(** fn's results on its first calls, each made after the wait that follows the
    previous one. *)
Fixpoint fails_then_ok (fn : W -> fnres * W) (rt : error -> bool) (p : Policy)
    (n : nat) (k : Z) (w : W) : bool :=
  match ctx_err w, fn w with
  | None, (FnRet err, w1) =>
      match n, err with
      | O, None => true
      | S n', Some e =>
          rt err &&
          match Backoff (rand63n w1) p (k + 1) with
          | Some d => match sleepCtx d w1 with
                      | (None, w2) => fails_then_ok fn rt p n' (k + 1) w2
                      | _ => false
                      end
          | None => false
          end
      | _, _ => false
      end
  | _, _ => false
  end.

Lemma retry_loop_recovers cfg p fn N left n k lastErr (w : W) :
  sleep cfg = sleepCtx -> k + Z.of_nat left = N + 1 -> (n < left)%nat ->
  fails_then_ok fn (retryable cfg) p n k w = true ->
  exists w' tr, retry_loop cfg p fn N left k lastErr w = (FnRet None, w', tr).
Proof.
  intros Hsl. revert n k lastErr w.
  induction left as [|left IH]; intros n k lastErr w Hk Hn Hf; [lia|]. cbn.
  assert (fails_then_ok fn (retryable cfg) p n k w = true) as Hg by done. clear Hf.
  destruct n as [|n]; cbn in Hg; destruct (ctx_err w); try done;
    destruct (fn w) as [[[e|]|] w1]; try done.
  { by eexists _, _. }
  apply andb_true_iff in Hg as [Hr Hg]. rewrite Hr.
  destruct (Z.eqb_spec k N) as [->|_]; [lia|]. cbn.
  destruct (Backoff (rand63n w1) p (k + 1)) as [d|]; [|done]. rewrite Hsl.
  destruct (sleepCtx d w1) as [[e'|] w2]; [done|].
  destruct (IH n (k + 1) (Some e) w2) as (w' & tr & ->); [lia|lia|done|]. by eexists _, _.
Qed.

(** Retry recovers from transient failures: if fn fails n < MaxAttempts
    times with retryable errors and then succeeds, the context staying live
    through calls and waits, Retry returns nil. *)
Theorem Retry_recovers p fn rt hook n (w : W) :
  Z.of_nat n < attempts p -> fails_then_ok fn rt p n 1 w = true ->
  exists w' tr, Retry p fn [WithRetryable (Some rt); WithOnRetry hook] w = (FnRet None, w', tr).
Proof.
  intros Hn Hf. unfold Retry. cbn. pose proof (attempts_pos p).
  apply (retry_loop_recovers _ _ _ _ _ n); [done|lia|lia|done].
Qed.
End proofs.

(** ** A concrete world: a clock and a deadline *)

Record clockw := mkClock { cw_now : Z; cw_deadline : Z }.

#[export] Instance clock_world : World clockw := {
  ctx_err w := if cw_deadline w <=? cw_now w then Some context_DeadlineExceeded else None;
  time_now := cw_now;
  rand63n _ n := n / 2;
  wait d w := if cw_now w + Z.max 0 d <? cw_deadline w
              then (true, mkClock (cw_now w + Z.max 0 d) (cw_deadline w))
              else (false, mkClock (Z.max (cw_now w) (cw_deadline w)) (cw_deadline w))
}.

#[export] Instance clock_world_laws : WorldLaws clockw.
Proof.
  split; cbn.
  - intros _ n Hn. split; [apply Z.div_pos; lia|]. apply Z.div_lt; lia.
  - intros d [t dl] e; cbn. intros H. destruct (Z.ltb_spec (t + Z.max 0 d) dl); cbn.
    + destruct (Z.leb_spec dl t); [lia|done].
    + destruct (Z.leb_spec dl t); [|done]. by destruct (Z.leb_spec dl (Z.max t dl)); [|lia].
  - intros d [t dl]; cbn. destruct (Z.ltb_spec (t + Z.max 0 d) dl); cbn; [done|].
    intros _. by destruct (Z.leb_spec dl (Z.max t dl)); [|lia].
Qed.

(** A call that takes 1 ms and fails until the clock has passed [t]. *)
Definition ok_after (t : Z) (w : clockw) : fnres * clockw :=
  let w' := mkClock (cw_now w + Millisecond) (cw_deadline w) in
  (FnRet (if cw_now w' <=? t then Some (NewErr "unavailable") else None), w').


Lemma Retry_recovers_witness :
  exists w' tr, Retry DefaultPolicy (ok_after (100 * Millisecond))
    [WithRetryable (Some defaultRetryable); WithOnRetry false] (mkClock 0 Second) = (FnRet None, w', tr).
Proof.
  apply (Retry_recovers DefaultPolicy (ok_after (100 * Millisecond)) defaultRetryable false 2);
    [reflexivity | vm_compute; reflexivity].
Defined.
