(* ===== verification/HttpRetry.v ===== *)
(** * HttpRetry: resilience/httpclient.go and resilience/grpc.go

    The retrying transport around an [http.RoundTripper] and the unary gRPC
    interceptor, both over [Retry]'s world.  A request body is what reading it
    yields; the base transport says how much of it it left.  The trace records
    what the transport does to the requests and responses, in order. *)

From S2P Require Import Prelude GoStrings Http Errors GoFloat Backoff Breaker Retry.

(** CircuitBreaker.Execute on a function that acts on the world. *)
Definition Execute_in {W} `{World W} (fn : W -> fnres * W) (w : W) (b : CircuitBreaker)
  : fnres * W * CircuitBreaker :=
  match beforeCall (time_now w) b with
  | (Some e, b) => (FnRet (Some e), w, b)
  | (None, b) => let '(r, w) := fn w in
                 match r with
                 | FnRet err => (FnRet err, w, afterCall (time_now w) err b)
                 | FnPanic => (FnPanic, w, b)
                 end
  end.

(** ** HTTP *)

Inductive reqbody :=
  | BodyNil                                   (* req.Body == nil *)
  | NoBody                                    (* http.NoBody *)
  | Reader (content : string) (read_err : error).  (* yields content, then read_err or EOF *)

Record response := mkResp { StatusCode : Z; Header : headers }.

Definition idempotentMethods : gset string :=
  list_to_set ["GET"; "HEAD"; "PUT"; "DELETE"; "OPTIONS"; "TRACE"].

Definition defaultRetryStatus (code : Z) : bool :=
  (code =? StatusTooManyRequests) || (code =? StatusInternalServerError)
  || (code =? StatusBadGateway) || (code =? StatusServiceUnavailable)
  || (code =? StatusGatewayTimeout).

(** What the transport does, in order. *)
Inductive haction :=
  | Sent (b : reqbody)
  | Got (resp : option response) (err : error)
  | Drained (resp : response)
  | HOnRetry (attempt : Z) (err : error) (status delay : Z)
  | HWaited (delay : Z).

Inductive rtres := RTRet (resp : option response) (err : error) | RTPanic.

Section http.
Context {W : Type} `{World W}.

Record request := mkReq {
  Method : string;
  Body : reqbody;
  GetBody : option (W -> res reqbody);
  ContentLength : Z
}.

(** net/http.ParseTime, and what a body that was read and closed still yields. *)
Variable ParseTime : string -> option Z.
Variable closed_body : reqbody -> reqbody.

Record httpConfig := mkHttpConfig {
  h_policy : Policy;
  base : request -> W -> option response * error * reqbody * W;
  breaker : option CircuitBreaker;
  retryMethods : gset string;
  retryOnStatus : Z -> bool;
  h_timeout : Z;
  h_onRetry : bool
}.
Definition HTTPOption := httpConfig -> httpConfig.

Definition WithPolicy (p : Policy) : HTTPOption := fun c =>
  mkHttpConfig p (base c) (breaker c) (retryMethods c) (retryOnStatus c) (h_timeout c) (h_onRetry c).
Definition WithBaseTransport (rt : option (request -> W -> option response * error * reqbody * W))
  : HTTPOption := fun c =>
  match rt with
  | Some rt => mkHttpConfig (h_policy c) rt (breaker c) (retryMethods c) (retryOnStatus c)
                            (h_timeout c) (h_onRetry c)
  | None => c
  end.
Definition WithBreaker (b : option CircuitBreaker) : HTTPOption := fun c =>
  mkHttpConfig (h_policy c) (base c) b (retryMethods c) (retryOnStatus c) (h_timeout c) (h_onRetry c).
Definition WithRetryMethods (ms : list string) : HTTPOption := fun c =>
  mkHttpConfig (h_policy c) (base c) (breaker c) (list_to_set ms) (retryOnStatus c)
               (h_timeout c) (h_onRetry c).
Definition WithRetryStatus (f : option (Z -> bool)) : HTTPOption := fun c =>
  match f with
  | Some f => mkHttpConfig (h_policy c) (base c) (breaker c) (retryMethods c) f
                           (h_timeout c) (h_onRetry c)
  | None => c
  end.
Definition WithClientTimeout (d : Z) : HTTPOption := fun c =>
  mkHttpConfig (h_policy c) (base c) (breaker c) (retryMethods c) (retryOnStatus c) d (h_onRetry c).
Definition WithHTTPOnRetry (non_nil : bool) : HTTPOption := fun c =>
  mkHttpConfig (h_policy c) (base c) (breaker c) (retryMethods c) (retryOnStatus c)
               (h_timeout c) non_nil.

(** The configuration NewHTTPClient gives its transport; [default_transport] is
    http.DefaultTransport. *)
Definition NewHTTPClient (default_transport : request -> W -> option response * error * reqbody * W)
    (opts : list HTTPOption) : httpConfig :=
  fold_left (fun c o => o c) opts
    (mkHttpConfig DefaultPolicy default_transport None idempotentMethods defaultRetryStatus 0 false).

Definition with_body (b : reqbody) (req : request) : request :=
  mkReq (Method req) b (GetBody req) (ContentLength req).

Definition bufferBody (req : request) : error * request :=
  match Body req with
  | Reader c None =>
      (None, mkReq (Method req) (Reader c None) (Some (fun _ => Ok (Reader c None)))
                   (Z.of_nat (String.length c)))
  | Reader c (Some e) => (Some e, with_body (closed_body (Body req)) req)
  | _ => (None, mkReq (Method req) (Reader "" None) (Some (fun _ => Ok (Reader "" None))) 0)
  end.

Definition resetBody (w : W) (req : request) : error * request :=
  match GetBody req with
  | None => (None, req)
  | Some g => match g w with
              | Ok b => (None, with_body b req)
              | Err e => (Some e, req)
              end
  end.

Definition retryAfter (resp : response) (now : Z) : Z :=
  let v := hdr_get (Header resp) "Retry-After" in
  if bool_decide (v = "") then 0
  else match atoi v with
       | Some secs => if secs <? 0 then 0 else wrap64 (secs * Second)
       | None => match ParseTime v with
                 | Some t => let d := time_sub t now in if 0 <? d then d else 0
                 | None => 0
                 end
       end.

(** attempt: the result, the request after it, and whether the base transport ran.
    [None] is the nil dereference of a base transport that returns (nil, nil). *)
Definition attempt (cfg : httpConfig) (req : request) (w : W) (brk : option CircuitBreaker)
  : option (option response * error) * request * W * option CircuitBreaker * list haction :=
  match brk with
  | None =>
      let '(resp, err, b, w') := base cfg req w in
      (Some (resp, err), with_body b req, w', None, [Sent (Body req)])
  | Some brk =>
      (* the state the closure assigns: the world, resp, the request, the trace *)
      let fn := fun s : W * (option response * request * list haction) =>
        let '(r, e, b, w') := base cfg req s.1 in
        let s' := (w', (r, with_body b req, [Sent (Body req)])) in
        match e, r with
        | Some e, _ => (FnRet (Some e), s')
        | None, None => (FnPanic, s')
        | None, Some r =>
            (FnRet (if retryOnStatus cfg (StatusCode r)
                    then Some (NewErr ("resilience: upstream status " +:+ itoa (StatusCode r)))
                    else None), s')
        end in
      match Execute_in fn (w, (None, req, [])) brk with
      | (FnPanic, (w', (_, req', tr)), brk') => (None, req', w', Some brk', tr)
      | (FnRet err, (w', (resp, req', tr)), brk') =>
          (Some (match resp with Some r => (Some r, None) | None => (None, err) end),
           req', w', Some brk', tr)
      end
  end.

Fixpoint roundtrip_loop (cfg : httpConfig) (attempts : Z) (left : nat) (k : Z) (lastErr : error)
    (req : request) (w : W) (brk : option CircuitBreaker)
  : rtres * W * option CircuitBreaker * list haction :=
  match left with
  | O => (RTRet None lastErr, w, brk, [])
  | S left' =>
      match ctx_err w with
      | Some e => (RTRet None (Some e), w, brk, [])
      | None =>
      match resetBody w req with
      | (Some e, _) => (RTRet None (Some e), w, brk, [])
      | (None, req) =>
      match attempt cfg req w brk with
      | (None, _, w, brk, tr) => (RTPanic, w, brk, tr)
      | (Some (resp, err), req, w, brk, tr) =>
          let tr := tr ++ [Got resp err] in
          let retry := match err, resp with
                       | Some _, _ => true
                       | None, None => false
                       | None, Some r => retryOnStatus cfg (StatusCode r)
                       end in
          if negb retry then (RTRet resp None, w, brk, tr)
          else if k =? attempts
          then (match err with Some e => RTRet None (Some e) | None => RTRet resp None end, w, brk, tr)
          else
            match Backoff (rand63n w) (h_policy cfg) (k + 1) with
            | None => (RTPanic, w, brk, tr)
            | Some delay =>
                let status := match resp with Some r => StatusCode r | None => 0 end in
                let delay := match resp with
                             | Some r => let ra := retryAfter r (time_now w) in
                                         if delay <? ra then ra else delay
                             | None => delay
                             end in
                let tr := tr ++ match resp with Some r => [Drained r] | None => [] end
                             ++ (if h_onRetry cfg then [HOnRetry k err status delay] else [])
                             ++ [HWaited delay] in
                match sleepCtx delay w with
                | (Some e, w) => (RTRet None (Some e), w, brk, tr)
                | (None, w) =>
                    let '(r, w, brk, tr') := roundtrip_loop cfg attempts left' (k + 1) err req w brk in
                    (r, w, brk, tr ++ tr')
                end
            end
      end end end
  end.

Definition RoundTrip (cfg : httpConfig) (req : request) (w : W) (brk : option CircuitBreaker)
  : rtres * W * option CircuitBreaker * list haction :=
  let retryable := bool_decide (Method req ∈ retryMethods cfg) in
  let '(retryable, req) :=
    match Body req, GetBody req with
    | Reader _ _, None =>
        if retryable
        then match bufferBody req with
             | (Some _, req) => (false, req)
             | (None, req) => (true, req)
             end
        else (retryable, req)
    | _, _ => (retryable, req)
    end in
  let n := if retryable then attempts (h_policy cfg) else 1 in
  roundtrip_loop cfg n (Z.to_nat n) 1 None req w brk.

End http.
Arguments request : clear implicits.
Arguments httpConfig : clear implicits.

(** ** gRPC *)

(** codes.Code values of google.golang.org/grpc/codes. *)
Definition codes_ResourceExhausted : Z := 8.
Definition codes_Aborted : Z := 10.
Definition codes_Unavailable : Z := 14.

Definition defaultRetryableCodes : gset Z :=
  list_to_set [codes_Unavailable; codes_ResourceExhausted; codes_Aborted].

Record grpcConfig := mkGrpcConfig {
  g_policy : Policy;
  g_breaker : bool;                            (* breaker <> nil *)
  isRetryable : Z -> bool;
  g_onRetry : bool
}.
Definition GRPCOption := grpcConfig -> grpcConfig.

Definition WithGRPCPolicy (p : Policy) : GRPCOption := fun c =>
  mkGrpcConfig p (g_breaker c) (isRetryable c) (g_onRetry c).
Definition WithGRPCBreaker (non_nil : bool) : GRPCOption := fun c =>
  mkGrpcConfig (g_policy c) non_nil (isRetryable c) (g_onRetry c).
Definition WithRetryableCodes (cs : list Z) : GRPCOption := fun c =>
  mkGrpcConfig (g_policy c) (g_breaker c) (fun code => bool_decide (code ∈ cs)) (g_onRetry c).
Definition WithGRPCOnRetry (non_nil : bool) : GRPCOption := fun c =>
  mkGrpcConfig (g_policy c) (g_breaker c) (isRetryable c) non_nil.

Definition grpc_config (opts : list GRPCOption) : grpcConfig :=
  fold_left (fun c o => o c) opts
    (mkGrpcConfig DefaultPolicy false (fun code => bool_decide (code ∈ defaultRetryableCodes)) false).

Section grpc.
Context {W : Type} `{World W}.
(** google.golang.org/grpc/status.Code *)
Variable status_Code : goerr -> Z.

(** The interceptor, on the world and the shared breaker (ignored when not
    configured).  The hook it gives Retry is never nil. *)
Definition UnaryClientInterceptor (opts : list GRPCOption) (invoker : W -> fnres * W)
    (w : W * CircuitBreaker) : fnres * (W * CircuitBreaker) * list action :=
  let cfg := grpc_config opts in
  let retryable err := match err with
                       | None => false
                       | Some e => isRetryable cfg (status_Code e)
                       end in
  let call := fun s : W * CircuitBreaker =>
    if g_breaker cfg
    then let '(r, w, b) := Execute_in invoker s.1 s.2 in (r, (w, b))
    else let '(r, w) := invoker s.1 in (r, (w, s.2)) in
  Retry (g_policy cfg) call [WithRetryable (Some retryable); WithOnRetry true] w.
End grpc.

(** ** Properties of the transport *)

Create Rewrite HintDb htrace.

Definition sent (tr : list haction) : list reqbody :=
  omap (fun a => match a with Sent b => Some b | _ => None end) tr.
Definition got (tr : list haction) : list response :=
  omap (fun a => match a with Got r _ => r | _ => None end) tr.
Definition drained (tr : list haction) : list response :=
  omap (fun a => match a with Drained r => Some r | _ => None end) tr.
Definition returned (r : rtres) : list response :=
  match r with RTRet (Some resp) _ => [resp] | _ => [] end.
(** Attempts that came back. *)
Definition tries (tr : list haction) : list unit :=
  omap (fun a => match a with Got _ _ => Some tt | _ => None end) tr.

Lemma sent_app a b : sent (a ++ b) = sent a ++ sent b.
Proof. apply omap_app. Qed.
Lemma got_app a b : got (a ++ b) = got a ++ got b.
Proof. apply omap_app. Qed.
Lemma drained_app a b : drained (a ++ b) = drained a ++ drained b.
Proof. apply omap_app. Qed.
Lemma tries_app a b : tries (a ++ b) = tries a ++ tries b.
Proof. apply omap_app. Qed.
#[export] Hint Rewrite sent_app got_app drained_app tries_app : htrace.

Section proofs.
Context {W : Type} `{World W} `{!WorldLaws W}.
Variable ParseTime : string -> option Z.
Variable closed_body : reqbody -> reqbody.

(** The RoundTripper contract: a response or an error, never both or neither. *)
Definition base_contract (cfg : httpConfig W) : Prop :=
  forall req w, match base cfg req w with
                | (Some _, None, _, _) | (None, Some _, _, _) => True
                | _ => False
                end.

Lemma attempt_spec (cfg : httpConfig W) req w brk o req' w' brk' tr :
  base_contract cfg -> attempt cfg req w brk = (o, req', w', brk', tr) ->
  (exists resp err, o = Some (resp, err)
     /\ match resp, err with Some _, None | None, Some _ => True | _, _ => False end)
  /\ GetBody req' = GetBody req
  /\ (tr = [] \/ tr = [Sent (Body req)]).
Proof.
  intros Hb. unfold attempt, Execute_in. specialize (Hb req w).
  destruct brk as [brk|]; cbn.
  - destruct (beforeCall _ brk) as [[e|] b1].
    + intros [= <- <- <- <- <-]. repeat split; [by eexists _, _|by left].
    + destruct (base cfg req w) as [[[[r|] [e|]] b] w1]; try done;
        intros [= <- <- <- <- <-]; (repeat split; [by eexists _, _|by right]).
  - destruct (base cfg req w) as [[[resp err] b] w1]. intros [= <- <- <- <- <-].
    repeat split; [|by right]. eexists _, _. split; [done|]. by destruct resp, err.
Qed.

(** The requests an attempt may send: what resetBody restores, or the only one. *)
Definition replays (req : request W) (left : nat) (b : reqbody) : Prop :=
  (exists g, GetBody req = Some g /\ forall w, g w = Ok b)
  \/ (GetBody req = None /\ Body req = b /\ left = 1%nat).

Record run_ok (cfg : httpConfig W) (N k : Z) (left : nat) (r : rtres) (tr : list haction) : Prop := {
  ro_panic : r <> RTPanic;
  ro_sent : (length (sent tr) <= left)%nat;
  ro_ledger : got tr = drained tr ++ returned r;
  ro_final : forall resp err, r = RTRet (Some resp) err ->
    err = None /\
    (retryOnStatus cfg (StatusCode resp) = false \/ k + Z.of_nat (length (tries tr)) = N + 1)
}.

Lemma resetBody_spec (w : W) (req : request W) e req' :
  resetBody w req = (e, req') -> GetBody req' = GetBody req.
Proof.
  unfold resetBody. destruct (GetBody req) as [g|] eqn:Eg; [|by intros [= _ <-]].
  destruct (g w); intros [= _ <-]; done.
Qed.

(** A run that ends in its first attempt, or before it. *)
Lemma run_ok_start cfg N k left r tr :
  (tr = [] \/ exists b, tr = [Sent b]) -> (exists e, r = RTRet None e) ->
  run_ok cfg N k (S left) r tr.
Proof.
  intros Htr [e ->]. split; [done| |by destruct Htr as [->|[b ->]]|done].
  destruct Htr as [->|[b ->]]; cbn; lia.
Qed.


Lemma run_ok_cons cfg N k left r pre tr :
  (length (sent pre) <= 1)%nat -> got pre = drained pre -> length (tries pre) = 1%nat ->
  run_ok cfg N (k + 1) left r tr -> run_ok cfg N k (S left) r (pre ++ tr).
Proof.
  intros Hs Hg Ht [R1 R2 R3 R4].
  split; autorewrite with htrace; rewrite ?length_app.
  - done.
  - lia.
  - by rewrite Hg, R3, app_assoc.
  - intros resp err E. destruct (R4 _ _ E) as [? [?|?]]; (split; [done|]); [by left|right; lia].
Qed.

(** What one attempt contributes to the trace, followed by [tail]. *)
Definition attempt_trace (tr1 : list haction) (resp : option response) (err : error)
    (tail : list haction) : list haction :=
  (tr1 ++ [Got resp err]) ++ match resp with Some r => [Drained r] | None => [] end ++ tail.

Lemma attempt_trace_facts tr1 resp err hook d :
  (exists b, tr1 = [] \/ tr1 = [Sent b]) -> (sent hook = [] /\ got hook = [] /\ drained hook = [] /\ tries hook = []) ->
  let tr := attempt_trace tr1 resp err (hook ++ [HWaited d]) in
  sent tr = sent tr1 /\ got tr = drained tr /\ length (tries tr) = 1%nat.
Proof.
  intros [b Htr] (H1 & H2 & H3 & H4). unfold attempt_trace.
  autorewrite with htrace. rewrite H1, H2, H3, H4. by destruct Htr as [->| ->], resp.
Qed.

Lemma roundtrip_loop_ok cfg N left k lastErr req w brk r w' brk' tr :
  policy_ok (h_policy cfg) -> base_contract cfg -> k + Z.of_nat left = N + 1 ->
  roundtrip_loop ParseTime cfg N left k lastErr req w brk = (r, w', brk', tr) ->
  run_ok cfg N k left r tr
  /\ (forall b, replays req left b -> Forall (fun x => x = b) (sent tr)).
Proof.
  intros Hp Hb. revert k lastErr req w brk r w' brk' tr.
  induction left as [|left IH]; intros k lastErr req w brk r w' brk' tr Hk; cbn [roundtrip_loop].
  { intros [= <- <- <- <-]. split; [by split|constructor]. }
  destruct (ctx_err w) as [e|].
  { intros [= <- <- <- <-]. split; [|constructor]. apply run_ok_start; [by left|by eexists]. }
  destruct (resetBody w req) as [[e|] req1] eqn:Er.
  { intros [= <- <- <- <-]. split; [|constructor]. apply run_ok_start; [by left|by eexists]. }
  destruct (attempt cfg req1 w brk) as [[[[o req2] w1] brk1] tr1] eqn:Ea.
  destruct (attempt_spec _ _ _ _ _ _ _ _ _ Hb Ea) as ((resp & err & -> & Hre) & Hg2 & Htr1).
  pose proof (resetBody_spec _ _ _ _ Er) as Hg1.
  assert (forall b, replays req (S left) b -> Forall (fun x => x = b) (sent tr1)) as Hs1.
  { intros b [(g & Hg & Hc)|(Hg & Hbd & _)]; unfold resetBody in Er; rewrite Hg in Er.
    - rewrite Hc in Er. injection Er as <-. by destruct Htr1 as [->| ->]; repeat constructor.
    - injection Er as <-. destruct Htr1 as [->| ->]; repeat constructor; done. }
  assert (forall r', match resp with Some x => r' = RTRet (Some x) None /\
      (retryOnStatus cfg (StatusCode x) = false \/ k = N) | None => exists e, r' = RTRet None e end ->
    run_ok cfg N k (S left) r' (tr1 ++ [Got resp err])
    /\ (forall b, replays req (S left) b -> Forall (fun x => x = b) (sent (tr1 ++ [Got resp err]))))
    as Hend.
  { intros r' Hr'. split.
    - destruct resp as [x|]; [destruct Hr' as [-> Hr']|destruct Hr' as [? ->]];
        destruct Htr1 as [->| ->]; (split; cbn; [done|lia|done|try done; intros ? ? [= <- <-]]);
        (split; [done|]); (destruct Hr' as [?|?]; [by left|right; lia]).
    - intros b Hrb. rewrite sent_app. cbn. rewrite app_nil_r. by apply Hs1. }
  destruct (negb _) eqn:Hretry.
  { intros [= <- <- <- <-]. apply Hend. destruct resp as [x|]; [|by eexists].
    destruct err; [done|]. split; [done|]. left. by apply negb_true_iff in Hretry. }
  destruct (Z.eqb_spec k N) as [->|HN].
  { intros [= <- <- <- <-]. apply Hend. destruct resp as [x|], err; try done; [by split; [|right]|by eexists]. }
  destruct (Backoff_ok w1 (h_policy cfg) (k + 1) Hp) as (d & -> & _).
  set (d' := match resp with Some _ => _ | None => d end).
  set (hook := if h_onRetry cfg then _ else _).
  assert (sent hook = [] /\ got hook = [] /\ drained hook = [] /\ tries hook = []) as Hhook
    by (unfold hook; by destruct (h_onRetry cfg)).
  destruct (attempt_trace_facts tr1 resp err hook d' ltac:(by eexists) Hhook) as (F1 & F2 & F3).
  unfold attempt_trace in F1, F2, F3. fold hook.
  assert ((length (sent tr1) <= 1)%nat) as Hl1 by (destruct Htr1 as [->| ->]; cbn; lia).
  destruct (sleepCtx d' w1) as [[e|] w2].
  - intros [= <- <- <- <-]. rewrite <- (app_nil_r ((tr1 ++ [Got resp err]) ++ _)). split.
    + apply run_ok_cons; [by rewrite F1|done..|]. split; cbn; [done|lia|done|done].
    + intros b Hrb. rewrite sent_app, F1. cbn. rewrite app_nil_r. by apply Hs1.
  - destruct (roundtrip_loop ParseTime cfg N left (k + 1) err req2 w2 brk1)
      as [[[r2 w3] brk2] tr2] eqn:El.
    intros [= <- <- <- <-].
    destruct (IH (k + 1) _ _ _ _ _ _ _ _ ltac:(lia) El) as [Hro Hrep]. split.
    + apply run_ok_cons; [by rewrite F1|done..].
    + intros b Hrb. rewrite sent_app, F1. apply Forall_app. split; [by apply Hs1|].
      apply Hrep. destruct Hrb as [(g & Hg & Hc)|(Hg & Hbd & Hone)]; [|lia].
      left. exists g. by rewrite Hg2, Hg1.
Qed.

(** RoundTrip as a loop over a request that can be replayed. *)
Lemma RoundTrip_start cfg (req : request W) w brk c :
  Body req = Reader c None -> GetBody req = None ->
  exists req' N, RoundTrip ParseTime closed_body cfg req w brk
      = roundtrip_loop ParseTime cfg N (Z.to_nat N) 1 None req' w brk
    /\ N = (if bool_decide (Method req ∈ retryMethods cfg) then attempts (h_policy cfg) else 1)
    /\ replays req' (Z.to_nat N) (Reader c None).
Proof.
  intros Hb Hg. unfold RoundTrip, bufferBody. rewrite Hb, Hg.
  case_bool_decide; eexists _, _; (split; [done|]); (split; [done|]).
  - left. by eexists.
  - by right.
Qed.

(** Retrying never replays what it must not and never corrupts what it
    replays: for a request whose body can be read, every attempt sends exactly
    the original body; a request whose method is not in the retryable set is
    sent at most once, any other at most MaxAttempts times. *)
Theorem RoundTrip_replays_body cfg (req : request W) w brk c r w' brk' tr :
  policy_ok (h_policy cfg) -> base_contract cfg ->
  Body req = Reader c None -> GetBody req = None ->
  RoundTrip ParseTime closed_body cfg req w brk = (r, w', brk', tr) ->
  Forall (fun b => b = Reader c None) (sent tr)
  /\ Z.of_nat (length (sent tr)) <=
     (if bool_decide (Method req ∈ retryMethods cfg) then attempts (h_policy cfg) else 1).
Proof.
  intros Hp Hc Hb Hg. destruct (RoundTrip_start cfg req w brk c Hb Hg) as (req' & N & -> & HN & Hr).
  pose proof (attempts_pos (h_policy cfg)) as Ha.
  assert (1 <= N) by (subst N; case_bool_decide; lia).
  intros Hl. apply roundtrip_loop_ok in Hl as [Ho Hrep]; [|done|done|lia].
  split; [by apply Hrep|]. rewrite <- HN. pose proof (ro_sent _ _ _ _ _ _ Ho). lia.
Qed.

(** No response is lost or leaked: of the responses the transport received
    every one is drained and closed, in order, except the one handed to the
    caller; the call does not panic; and the caller gets a response with a
    retryable status only when all attempts are used up. *)
Theorem RoundTrip_responses cfg (req : request W) w brk c r w' brk' tr :
  policy_ok (h_policy cfg) -> base_contract cfg ->
  Body req = Reader c None -> GetBody req = None ->
  RoundTrip ParseTime closed_body cfg req w brk = (r, w', brk', tr) ->
  r <> RTPanic /\ got tr = drained tr ++ returned r
  /\ (forall resp err, r = RTRet (Some resp) err -> err = None /\
       (retryOnStatus cfg (StatusCode resp) = false
        \/ Z.of_nat (length (tries tr)) =
           (if bool_decide (Method req ∈ retryMethods cfg) then attempts (h_policy cfg) else 1))).
Proof.
  intros Hp Hc Hb Hg. destruct (RoundTrip_start cfg req w brk c Hb Hg) as (req' & N & -> & HN & Hr).
  pose proof (attempts_pos (h_policy cfg)) as Ha.
  assert (1 <= N) by (subst N; case_bool_decide; lia).
  intros Hl. apply roundtrip_loop_ok in Hl as [[R1 R2 R3 R4] _]; [|done|done|lia].
  split; [done|]. split; [done|]. intros resp err E. destruct (R4 _ _ E) as [? [?|?]].
  - auto.
  - split; [done|]. right. rewrite <- HN. lia.
Qed.
End proofs.

(** A server that answers 503 with a Retry-After until the clock reaches [t]. *)
Definition busy_until (t : Z) (req : request clockw) (w : clockw)
  : option response * error * reqbody * clockw :=
  (Some (if cw_now w <? t then mkResp 503 (hdr_set "Retry-After" "2" ∅) else mkResp 200 ∅),
   None, Reader "" None, w).

Definition sample_cfg : httpConfig clockw :=
  NewHTTPClient (busy_until (3 * Second)) [].
Definition sample_put : request clockw := mkReq "PUT" (Reader "{}" None) None 2.

Definition sample_run :=
  RoundTrip (fun _ => None) (fun b => b) sample_cfg sample_put (mkClock 0 (100 * Second))
    (Some (NewCircuitBreaker [])).

Lemma quad_eta {A B C D} (x : A * B * C * D) : x = (x.1.1.1, x.1.1.2, x.1.2, x.2).
Proof. by destruct x as [[[]]]. Qed.

Lemma RoundTrip_replays_body_witness :
  sent sample_run.2 = [Reader "{}" None; Reader "{}" None; Reader "{}" None]
  /\ Forall (fun b => b = Reader "{}" None) (sent sample_run.2).
Proof.
  split; [vm_compute; reflexivity|].
  eapply (RoundTrip_replays_body (fun _ => None) (fun b => b) sample_cfg sample_put
            (mkClock 0 (100 * Second)) (Some (NewCircuitBreaker [])) "{}"
            sample_run.1.1.1 sample_run.1.1.2 sample_run.1.2 sample_run.2);
    [split; [split; reflexivity|done] | intros req w; exact I | reflexivity | reflexivity
    | exact (quad_eta sample_run)].
Defined.

Lemma RoundTrip_responses_witness :
  sample_run.1.1.1 = RTRet (Some (mkResp 200 ∅)) None
  /\ got sample_run.2 = drained sample_run.2 ++ returned sample_run.1.1.1.
Proof.
  split; [vm_compute; reflexivity|].
  eapply (RoundTrip_responses (fun _ => None) (fun b => b) sample_cfg sample_put
            (mkClock 0 (100 * Second)) (Some (NewCircuitBreaker [])) "{}"
            sample_run.1.1.1 sample_run.1.1.2 sample_run.1.2 sample_run.2);
    [split; [split; reflexivity|done] | intros req w; exact I | reflexivity | reflexivity
    | exact (quad_eta sample_run)].
Defined.

(** A server's Retry-After is honoured beyond the policy's cap: asked to wait an
    hour, the transport waits an hour under a MaxDelay of 10 s. *)
Example retry_after_exceeds_cap :
  MaxDelay (h_policy sample_cfg) = 10 * Second /\
  (RoundTrip (fun _ => None) (fun b => b)
     (NewHTTPClient (fun _ w => (Some (mkResp 429 (hdr_set "Retry-After" "3600" ∅)), None, NoBody, w)) [])
     sample_put (mkClock 0 (4000 * Second)) None).2
  = [Sent (Reader "{}" None); Got (Some (mkResp 429 (hdr_set "Retry-After" "3600" ∅))) None;
     Drained (mkResp 429 (hdr_set "Retry-After" "3600" ∅)); HWaited (3600 * Second);
     Sent (Reader "{}" None); Got (Some (mkResp 429 (hdr_set "Retry-After" "3600" ∅))) None;
     Drained (mkResp 429 (hdr_set "Retry-After" "3600" ∅)); HWaited (3600 * Second)].
Proof. split; vm_compute; reflexivity. Qed.

(** A Retry-After beyond 292 years wraps to a negative duration and is ignored. *)
Example retry_after_wraps :
  retryAfter (fun _ => None) (mkResp 429 (hdr_set "Retry-After" "9223372037" ∅)) 0 < 0.
Proof. vm_compute. reflexivity. Qed.
