(* ===== verification/SqlQuery.v ===== *)
(** * SqlQuery: database/postgres/query — the parameterized SQL builder

    Every Build function returns the SQL text and the argument slice.  Code that
    appends to [args] and bumps [idx] through pointers passes the pair as state.
    A Go map is a [gmap]; where the code ranges over one, the order is an
    argument. *)

From S2P Require Import Prelude GoStrings.

Set Warnings "-register-all".

(** Go values of type [any], by dynamic type. *)
Inductive goany :=
  | ANil
  | ABool (b : bool)
  | AInt (n : Z)
  | AStr (s : string)
  | ATime (t : Z)
  | AStrs (l : list string)          (* []string *)
  | ASlice (l : list goany).         (* []any *)

#[export] Instance goany_eq_dec : EqDecision goany.
Proof.
  refine (fix go (x y : goany) : Decision (x = y) :=
    match x, y with
    | ANil, ANil => left eq_refl
    | ABool a, ABool b => cast_if (decide (a = b))
    | AInt a, AInt b => cast_if (decide (a = b))
    | AStr a, AStr b => cast_if (decide (a = b))
    | ATime a, ATime b => cast_if (decide (a = b))
    | AStrs a, AStrs b => cast_if (decide (a = b))
    | ASlice a, ASlice b => cast_if (@list_eq_dec _ go a b)
    | _, _ => right _
    end); clear go; abstract congruence.
Defined.

Definition Operator := string.
Definition OpEq : Operator := "=".
Definition OpNotEq : Operator := "<>".
Definition OpGt : Operator := ">".
Definition OpGte : Operator := ">=".
Definition OpLt : Operator := "<".
Definition OpLte : Operator := "<=".
Definition OpLike : Operator := "LIKE".
Definition OpILike : Operator := "ILIKE".
Definition OpIn : Operator := "IN".
Definition OpNotIn : Operator := "NOT IN".
Definition OpBetween : Operator := "BETWEEN".
Definition OpIsNull : Operator := "IS NULL".
Definition OpNotNull : Operator := "IS NOT NULL".
Definition OpAnd : Operator := "AND".
Definition OpOr : Operator := "OR".

Inductive Condition :=
  mkCond (Column : string) (Op : Operator) (Value : goany) (Sub : list Condition).

Definition c_column (c : Condition) : string := match c with mkCond x _ _ _ => x end.
Definition c_op (c : Condition) : Operator := match c with mkCond _ x _ _ => x end.
Definition c_value (c : Condition) : goany := match c with mkCond _ _ x _ => x end.
Definition c_sub (c : Condition) : list Condition := match c with mkCond _ _ _ x => x end.

(** ** spec.go *)

Definition cond (col : string) (op : Operator) (v : goany) : Condition := mkCond col op v [].

Definition Eq_ (col : string) (v : goany) := cond col OpEq v.
Definition NotEq (col : string) (v : goany) := cond col OpNotEq v.
Definition Gt_ (col : string) (v : goany) := cond col OpGt v.
Definition Gte (col : string) (v : goany) := cond col OpGte v.
Definition Lt_ (col : string) (v : goany) := cond col OpLt v.
Definition Lte (col : string) (v : goany) := cond col OpLte v.
Definition Like (col pattern : string) := cond col OpLike (AStr pattern).
Definition ILike (col pattern : string) := cond col OpILike (AStr pattern).
Definition In_ (col : string) (vs : goany) := cond col OpIn vs.
Definition NotIn (col : string) (vs : goany) := cond col OpNotIn vs.
Definition Between (col : string) (low high : goany) := cond col OpBetween (ASlice [low; high]).
Definition IsNull (col : string) := cond col OpIsNull ANil.
Definition IsNotNull (col : string) := cond col OpNotNull ANil.
Definition And_ (cs : list Condition) := mkCond "" OpAnd ANil cs.
Definition Or_ (cs : list Condition) := mkCond "" OpOr ANil cs.

(** ** condition.go *)

Definition ConditionBuilder := list Condition.
Definition NewConditionBuilder : ConditionBuilder := [].
Definition b_Eq (col : string) (v : goany) (b : ConditionBuilder) := b ++ [cond col OpEq v].
Definition b_NotEq (col : string) (v : goany) (b : ConditionBuilder) := b ++ [cond col OpNotEq v].
Definition b_Gt (col : string) (v : goany) (b : ConditionBuilder) := b ++ [cond col OpGt v].
Definition b_Gte (col : string) (v : goany) (b : ConditionBuilder) := b ++ [cond col OpGte v].
Definition b_Lt (col : string) (v : goany) (b : ConditionBuilder) := b ++ [cond col OpLt v].
Definition b_Lte (col : string) (v : goany) (b : ConditionBuilder) := b ++ [cond col OpLte v].
Definition b_Like (col p : string) (b : ConditionBuilder) := b ++ [cond col OpLike (AStr p)].
Definition b_ILike (col p : string) (b : ConditionBuilder) := b ++ [cond col OpILike (AStr p)].
Definition b_In (col : string) (vs : goany) (b : ConditionBuilder) := b ++ [cond col OpIn vs].
Definition b_NotIn (col : string) (vs : goany) (b : ConditionBuilder) := b ++ [cond col OpNotIn vs].
Definition b_Between (col : string) (low high : goany) (b : ConditionBuilder) :=
  b ++ [cond col OpBetween (ASlice [low; high])].
Definition b_IsNull (col : string) (b : ConditionBuilder) := b ++ [cond col OpIsNull ANil].
Definition b_IsNotNull (col : string) (b : ConditionBuilder) := b ++ [cond col OpNotNull ANil].
Definition b_And (cs : list Condition) (b : ConditionBuilder) := b ++ [mkCond "" OpAnd ANil cs].
Definition b_Or (cs : list Condition) (b : ConditionBuilder) := b ++ [mkCond "" OpOr ANil cs].
Definition b_Build (b : ConditionBuilder) : list Condition := b.

(** The argument slice and the next placeholder index. *)
Abbreviation binding := (list goany * Z)%type.

Definition placeholder (i : Z) : string := "$" +:+ itoa i.

(** Append one argument: its placeholder and the new state. *)
Definition bind_arg (v : goany) (st : binding) : string * binding :=
  (placeholder (snd st), (fst st ++ [v], snd st + 1)).

(** Thread the state through a list, collecting the fragments. *)
Fixpoint render_list {A} (f : A -> binding -> string * binding) (l : list A) (st : binding)
  : list string * binding :=
  match l with
  | [] => ([], st)
  | x :: l' => let '(p, st) := f x st in
               let '(ps, st) := render_list f l' st in (p :: ps, st)
  end.

Fixpoint conditionSQL (c : Condition) (st : binding) : string * binding :=
  let '(mkCond col op v sub) := c in
  if bool_decide (op = OpIsNull) then (col +:+ " IS NULL", st)
  else if bool_decide (op = OpNotNull) then (col +:+ " IS NOT NULL", st)
  else if bool_decide (op = OpIn) || bool_decide (op = OpNotIn) then
    let '(p, st) := bind_arg v st in
    if bool_decide (op = OpNotIn)
    then (col +:+ " <> ALL(" +:+ p +:+ ")", st)
    else (col +:+ " = ANY(" +:+ p +:+ ")", st)
  else if bool_decide (op = OpBetween) then
    match v with
    | ASlice [lo; hi] =>
        let '(args, i) := st in
        (col +:+ " BETWEEN " +:+ placeholder i +:+ " AND " +:+ placeholder (i + 1),
         (args ++ [lo; hi], i + 1 + 1))
    | _ => ("1=0 /* BETWEEN requires [low, high] */", st)
    end
  else if bool_decide (op = OpAnd) || bool_decide (op = OpOr) then
    let '(parts, st) := render_list conditionSQL sub st in
    ("(" +:+ join (" " +:+ op +:+ " ") parts +:+ ")", st)
  else
    let '(p, st) := bind_arg v st in
    (col +:+ " " +:+ op +:+ " " +:+ p, st).

Definition buildConditions (cs : list Condition) (st : binding) : string * binding :=
  let '(parts, st) := render_list conditionSQL cs st in (join " AND " parts, st).

(** ** render.go, order.go *)

Definition BuildWhere (cs : list Condition) (startIdx : Z) : string * list goany :=
  match cs with
  | [] => ("", [])
  | _ => let '(sql, (args, _)) := buildConditions cs ([], startIdx) in (sql, args)
  end.

Definition JoinAnd (fragments : list string) : string :=
  join " AND " (filter (fun f => trim_space f <> "") fragments).

Record OrderBy := mkOrder { o_column : string; o_desc : bool }.

Definition order_part (o : OrderBy) : string :=
  o_column o +:+ " " +:+ (if o_desc o then "DESC" else "ASC").

Definition BuildOrderBy (os : list OrderBy) : string :=
  match os with
  | [] => ""
  | _ => "ORDER BY " +:+ join ", " (map order_part os)
  end.

(** ** model.go, joins.go, builder.go *)

Record Join := mkJoin { j_type : string; j_table : string; j_on : string }.

Record SelectQuery := mkSelect {
  s_table : string; s_distinct : bool; s_columns : list string; s_joins : list Join;
  s_conditions : list Condition; s_groupBy : list string; s_having : list Condition;
  s_orderBy : list OrderBy; s_limit : Z; s_offset : Z; s_forUpdate : bool
}.
Record InsertQuery := mkInsert {
  i_table : string; i_columns : list string; i_values : list goany; i_returning : list string
}.
Record UpdateQuery := mkUpdate {
  u_table : string; u_set : gmap string goany; u_increment : list string;
  u_conditions : list Condition; u_returning : list string
}.
Record DeleteQuery := mkDelete {
  d_table : string; d_conditions : list Condition; d_softDelete : bool
}.
Record UpsertQuery := mkUpsert {
  x_table : string; x_columns : list string; x_values : list goany; x_conflictColumn : string;
  x_updateColumns : list string; x_returning : list string
}.

Definition where_clause (kw : string) (cs : list Condition) (st : binding) : string * binding :=
  match cs with
  | [] => ("", st)
  | _ => let '(sql, st) := buildConditions cs st in (kw +:+ sql, st)
  end.

(** [" kw a, b, c"], or nothing for an empty list. *)
Definition list_clause (kw : string) (l : list string) : string :=
  match l with [] => "" | _ => kw +:+ join ", " l end.

Definition limit_clause (kw : string) (n : Z) (st : binding) : string * binding :=
  if 0 <? n
  then let '(p, st) := bind_arg (AInt n) st in (kw +:+ p, st)
  else ("", st).

Definition join_clause (j : Join) : string :=
  " " +:+ j_type j +:+ " JOIN " +:+ j_table j +:+ " ON " +:+ j_on j.

Definition select_head (q : SelectQuery) : string :=
  (if s_distinct q then "SELECT DISTINCT" else "SELECT") +:+ " "
  +:+ (match s_columns q with [] => "*" | cs => join ", " cs end)
  +:+ " FROM " +:+ s_table q +:+ join "" (map join_clause (s_joins q)).

Definition BuildSelect (q : SelectQuery) : string * list goany :=
  let '(wh, st) := where_clause " WHERE " (s_conditions q) ([], 1) in
  let gb := list_clause " GROUP BY " (s_groupBy q) in
  let '(hv, st) := where_clause " HAVING " (s_having q) st in
  let ob := list_clause " ORDER BY " (map order_part (s_orderBy q)) in
  let '(lim, st) := limit_clause " LIMIT " (s_limit q) st in
  let '(off, st) := limit_clause " OFFSET " (s_offset q) st in
  let fu := if s_forUpdate q then " FOR UPDATE" else "" in
  (select_head q +:+ wh +:+ gb +:+ hv +:+ ob +:+ lim +:+ off +:+ fu, fst st).

Definition BuildInsert (q : InsertQuery) : string * list goany :=
  let '(ps, st) := render_list bind_arg (i_values q) ([], 1) in
  ("INSERT INTO " +:+ i_table q +:+ " (" +:+ join ", " (i_columns q) +:+ ") VALUES ("
   +:+ join ", " ps +:+ ")" +:+ list_clause " RETURNING " (i_returning q), fst st).

Definition set_part (p : string * goany) (st : binding) : string * binding :=
  let '(s, st) := bind_arg (snd p) st in (fst p +:+ " = " +:+ s, st).

(** [order] is the order in which the loop over q.Set visits the map. *)
Definition BuildUpdate (order : list (string * goany)) (q : UpdateQuery) : string * list goany :=
  let '(sets, st) := render_list set_part order ([], 1) in
  let incs := map (fun col => col +:+ " = " +:+ col +:+ " + 1") (u_increment q) in
  let '(wh, st) := where_clause " WHERE " (u_conditions q) st in
  ("UPDATE " +:+ u_table q +:+ " SET " +:+ join ", " (sets ++ incs) +:+ wh
   +:+ list_clause " RETURNING " (u_returning q), fst st).

Definition BuildDelete (q : DeleteQuery) : string * list goany :=
  let '(wh, st) := where_clause " WHERE " (d_conditions q) ([], 1) in
  ((if d_softDelete q then "UPDATE " +:+ d_table q +:+ " SET status = 'DELETED'"
    else "DELETE FROM " +:+ d_table q) +:+ wh, fst st).

Definition BuildUpsert (q : UpsertQuery) : string * list goany :=
  let '(ps, st) := render_list bind_arg (x_values q) ([], 1) in
  ("INSERT INTO " +:+ x_table q +:+ " (" +:+ join ", " (x_columns q) +:+ ") VALUES ("
   +:+ join ", " ps +:+ ") ON CONFLICT (" +:+ x_conflictColumn q +:+ ") DO UPDATE SET "
   +:+ join ", " (map (fun col => col +:+ " = EXCLUDED." +:+ col) (x_updateColumns q))
   +:+ list_clause " RETURNING " (x_returning q), fst st).

(** ** filters.go *)

(** The loop body of FromFilters: [None] where it continues. *)
Definition filter_condition (col : string) (v : goany) : option Condition :=
  match v with
  | ANil => None
  | AStrs [] | ASlice [] => None
  | AStrs [s] => Some (cond col OpEq (AStr s))
  | ASlice [x] => Some (cond col OpEq x)
  | AStrs _ | ASlice _ => Some (cond col OpIn v)
  | AStr s => if bool_decide (s = "") then None else Some (cond col OpEq v)
  | _ => Some (cond col OpEq v)
  end.

Definition FromFilters (filters : gmap string goany) : list Condition :=
  let keys := sort_strings (map fst (map_to_list filters)) in
  omap (fun col => match filters !! col with
                   | Some v => filter_condition col v
                   | None => None
                   end) keys.

Record TemporalFilter := mkTemporal { t_field : string; t_rel : string; t_time : goany; t_end : goany }.

Definition FromTemporal (filters : list TemporalFilter) : list Condition :=
  omap (fun t =>
    if bool_decide (t_rel t = "between")
    then Some (cond (t_field t) OpBetween (ASlice [t_time t; t_end t]))
    else if bool_decide (t_rel t = "after") then Some (cond (t_field t) OpGt (t_time t))
    else if bool_decide (t_rel t = "before") then Some (cond (t_field t) OpLt (t_time t))
    else None) filters.

(** The tests of builder_test.go. *)
Example select_sample :
  BuildSelect (mkSelect "t" false ["id"] [mkJoin "LEFT" "u" "u.id = t.uid"]
    [Eq_ "status" (AStr "A"); Or_ [Gt_ "n" (AInt 3); Between "at" (ATime 1) (ATime 2)]] [] []
    [mkOrder "id" true] 10 20 false)
  = ("SELECT id FROM t LEFT JOIN u ON u.id = t.uid WHERE status = $1 AND (n > $2 OR at BETWEEN $3 AND $4) ORDER BY id DESC LIMIT $5 OFFSET $6",
     [AStr "A"; AInt 3; ATime 1; ATime 2; AInt 10; AInt 20]).
Proof. vm_compute. reflexivity. Qed.

(** ** What the database sees: placeholders replaced by the bound literals *)

(** The text with every [$n] replaced by [bind n], in one pass. *)
Section expand.
Variable bind : Z -> string.

Definition expand_ref (ds : string) : string :=
  match parse_unsigned ds with Some n => bind n | None => "$" +:+ ds end.

(** [ref] holds the digits read since a dollar sign. *)
Fixpoint expand_go (ref : option string) (s : string) : string :=
  match ref, s with
  | None, EmptyString => EmptyString
  | Some ds, EmptyString => expand_ref ds
  | None, String c s' =>
      if Ascii.eqb c "$" then expand_go (Some EmptyString) s' else String c (expand_go None s')
  | Some ds, String c s' =>
      if is_digit c then expand_go (Some (ds +:+ String c EmptyString)) s'
      else expand_ref ds +:+
           (if Ascii.eqb c "$" then expand_go (Some EmptyString) s' else String c (expand_go None s'))
  end.

Definition expand (s : string) : string := expand_go None s.

(** A fragment [s] stands for [t] wherever no digit follows it. *)
Definition no_digit (s : string) : bool :=
  match s with EmptyString => true | String c _ => negb (is_digit c) end.
Definition frag (s t : string) : Prop :=
  forall rest, no_digit rest = true -> expand (s +:+ rest) = t +:+ expand rest.
End expand.

(** Identifiers and operators are interpolated: they may not contain a [$]. *)
Definition clean (s : string) : bool := negb (contains_char "$" s).

(** Reference rendering: the condition with its values written in place. *)
Section inline.
Variable lit : goany -> string.

Fixpoint inline (c : Condition) : string :=
  let '(mkCond col op v sub) := c in
  if bool_decide (op = OpIsNull) then col +:+ " IS NULL"
  else if bool_decide (op = OpNotNull) then col +:+ " IS NOT NULL"
  else if bool_decide (op = OpIn) then col +:+ " = ANY(" +:+ lit v +:+ ")"
  else if bool_decide (op = OpNotIn) then col +:+ " <> ALL(" +:+ lit v +:+ ")"
  else if bool_decide (op = OpBetween) then
    match v with
    | ASlice [lo; hi] => col +:+ " BETWEEN " +:+ lit lo +:+ " AND " +:+ lit hi
    | _ => "1=0 /* BETWEEN requires [low, high] */"
    end
  else if bool_decide (op = OpAnd) || bool_decide (op = OpOr) then
    "(" +:+ join (" " +:+ op +:+ " ") (map inline sub) +:+ ")"
  else col +:+ " " +:+ op +:+ " " +:+ lit v.

Definition inline_where (kw : string) (cs : list Condition) : string :=
  match cs with [] => "" | _ => kw +:+ join " AND " (map inline cs) end.
Definition inline_limit (kw : string) (n : Z) : string :=
  if 0 <? n then kw +:+ lit (AInt n) else "".
End inline.

Fixpoint cond_clean (c : Condition) : bool :=
  let '(mkCond col op _ sub) := c in clean col && clean op && forallb cond_clean sub.

(** The literals the arguments of a statement stand for. *)
Definition bind_of (lit : goany -> string) (start : Z) (args : list goany) (n : Z) : string :=
  match args !! Z.to_nat (n - start) with Some v => lit v | None => "" end.

Section expand_lemmas.
Variable bind : Z -> string.

Lemma expand_text s rest :
  clean s = true -> expand bind (s +:+ rest) = s +:+ expand bind rest.
Proof.
  unfold clean. rewrite negb_true_iff. induction s as [|c s IH]; intros Hc; [done|].
  cbn [contains_char] in Hc. apply orb_false_iff in Hc as [Hc Hs].
  rewrite !app_String. unfold expand. cbn [expand_go].
  rewrite Ascii.eqb_sym, Hc. f_equal. by apply IH.
Qed.

Lemma expand_digits ds acc rest :
  all_chars is_digit ds = true -> no_digit rest = true ->
  expand_go bind (Some acc) (ds +:+ rest) = expand_ref bind (acc +:+ ds) +:+ expand bind rest.
Proof.
  revert acc. induction ds as [|c ds IH]; intros acc Hd Hr.
  - rewrite app_Empty, app_Empty_r.
    destruct rest as [|c rest]; cbn [expand_go]; [by rewrite app_Empty_r|].
    cbn [no_digit] in Hr. rewrite negb_true_iff in Hr. by rewrite Hr.
  - cbn [all_chars] in Hd. apply andb_true_iff in Hd as [Hc Hd].
    rewrite app_String. cbn [expand_go]. rewrite Hc.
    rewrite IH by done. by rewrite string_app_assoc, app_String, app_Empty.
Qed.

Lemma frag_text s : clean s = true -> frag bind s s.
Proof. intros Hc rest _. by apply expand_text. Qed.

Lemma frag_placeholder i : 0 <= i -> frag bind (placeholder i) (bind i).
Proof.
  intros Hi rest Hr. unfold placeholder, itoa. destruct (Z.ltb_spec i 0); [lia|].
  rewrite app_String, app_Empty. unfold expand at 1. rewrite app_String. cbn [expand_go].
  change (Ascii.eqb "$" "$") with true. cbn iota.
  rewrite expand_digits by (done || by apply digits_all).
  rewrite app_Empty. unfold expand_ref. by rewrite parse_unsigned_digits.
Qed.

Lemma no_digit_app s t : no_digit s = true -> no_digit t = true -> no_digit (s +:+ t) = true.
Proof. by destruct s. Qed.

Lemma frag_text_app s u t : clean s = true -> frag bind u t -> frag bind (s +:+ u) (s +:+ t).
Proof. intros Hs Hu rest Hr. rewrite !string_app_assoc, expand_text by done. by rewrite Hu. Qed.

Lemma frag_app s u s' u' :
  frag bind s s' -> frag bind u u' -> no_digit u = true -> frag bind (s +:+ u) (s' +:+ u').
Proof.
  intros Hs Hu Hn rest Hr. rewrite !string_app_assoc, Hs by by apply no_digit_app. by rewrite Hu.
Qed.

Lemma frag_join c sep ps ts :
  is_digit c = false -> clean (String c sep) = true -> Forall2 (frag bind) ps ts ->
  frag bind (join (String c sep) ps) (join (String c sep) ts).
Proof.
  intros Hc Hs HF. induction HF as [|p t ps ts Hp HF IH]; [by apply frag_text|].
  destruct HF as [|p' t' ps ts Hp' HF]; [done|]. cbn [join].
  apply frag_app; [done| |rewrite app_String; cbn [no_digit]; by rewrite Hc]. by apply frag_text_app.
Qed.

Lemma frag_expand s t : frag bind s t -> expand bind s = t.
Proof. intros H. specialize (H EmptyString eq_refl). by rewrite !app_Empty_r in H. Qed.
End expand_lemmas.

Section binding.
Variable lit : goany -> string.

(** [bind] gives the arguments appended from index [i] on their literals. *)
Definition binds (bind : Z -> string) (i : Z) (new : list goany) : Prop :=
  forall k v, new !! k = Some v -> bind (i + Z.of_nat k) = lit v.

Lemma binds_app bind i a b :
  binds bind i (a ++ b) -> binds bind i a /\ binds bind (i + Z.of_nat (length a)) b.
Proof.
  intros H. split; intros k v Hk.
  - apply H. by apply lookup_app_l_Some.
  - rewrite <- Z.add_assoc, <- Nat2Z.inj_add. apply H.
    rewrite lookup_app_r by lia. by replace (length a + k - length a)%nat with k by lia.
Qed.

(** A renderer whose text, its placeholders bound to the arguments it appended,
    reads [t]; the index stays in step with the arguments. *)
Definition renders (f : binding -> string * binding) (t : string) : Prop :=
  forall args i, 0 <= i -> exists s new,
    f (args, i) = (s, (args ++ new, i + Z.of_nat (length new)))
    /\ forall bind, binds bind i new -> frag bind s t.

Definition renders_all (f : binding -> list string * binding) (ts : list string) : Prop :=
  forall args i, 0 <= i -> exists ss new,
    f (args, i) = (ss, (args ++ new, i + Z.of_nat (length new)))
    /\ forall bind, binds bind i new -> Forall2 (frag bind) ss ts.

Lemma renders_text s : clean s = true -> renders (fun st => (s, st)) s.
Proof.
  intros Hs args i _. exists s, []. rewrite app_nil_r, Z.add_0_r.
  split; [done|]. intros bind _. by apply frag_text.
Qed.

Lemma renders_bind_arg v : renders (bind_arg v) (lit v).
Proof.
  intros args i Hi. exists (placeholder i), [v]. split; [done|].
  intros bind Hb. specialize (Hb O v eq_refl). rewrite Z.add_0_r in Hb. rewrite <- Hb.
  by apply frag_placeholder.
Qed.

Lemma renders_list {A} (f : A -> binding -> string * binding) (g : A -> string) l :
  Forall (fun x => renders (f x) (g x)) l -> renders_all (render_list f l) (map g l).
Proof.
  induction 1 as [|x l Hx _ IH]; intros args i Hi; cbn.
  - exists [], []. rewrite app_nil_r, Z.add_0_r. split; [done|]. constructor.
  - destruct (Hx args i Hi) as (s & n1 & -> & H1).
    destruct (IH (args ++ n1) (i + Z.of_nat (length n1)) ltac:(lia)) as (ss & n2 & -> & H2).
    exists (s :: ss), (n1 ++ n2). rewrite length_app, Nat2Z.inj_add, app_assoc, Z.add_assoc.
    split; [done|]. intros bind [Hb1 Hb2]%binds_app. constructor; auto.
Qed.

(** Wrapping a renderer in fixed text. *)
Lemma renders_wrap f t pre post :
  renders f t -> clean pre = true -> clean post = true -> no_digit post = true ->
  renders (fun st => let '(s, st) := f st in (pre +:+ s +:+ post, st)) (pre +:+ t +:+ post).
Proof.
  intros Hf Hpre Hpost Hnd args i Hi. destruct (Hf args i Hi) as (s & new & -> & Hs).
  exists (pre +:+ s +:+ post), new. split; [done|]. intros bind Hb.
  apply frag_text_app; [done|]. apply frag_app; [by apply Hs|by apply frag_text|done].
Qed.

Lemma renders_joined f ts c sep :
  is_digit c = false -> clean (String c sep) = true -> renders_all f ts ->
  renders (fun st => let '(ps, st) := f st in (join (String c sep) ps, st)) (join (String c sep) ts).
Proof.
  intros Hc Hs Hf args i Hi. destruct (Hf args i Hi) as (ss & new & -> & Hss).
  exists (join (String c sep) ss), new. split; [done|]. intros bind Hb.
  apply frag_join; auto.
Qed.

Lemma renders_ext f g t : (forall st, f st = g st) -> renders g t -> renders f t.
Proof. intros H Hg args i Hi. rewrite H. by apply Hg. Qed.

Lemma renders_between col lo hi :
  clean col = true ->
  renders (conditionSQL (mkCond col OpBetween (ASlice [lo; hi]) []))
    (col +:+ " BETWEEN " +:+ lit lo +:+ " AND " +:+ lit hi).
Proof.
  intros Hc args i Hi. eexists _, [lo; hi]. split; [cbn; by rewrite <- Z.add_assoc|].
  intros bind Hb. pose proof (Hb 0%nat lo eq_refl) as H0. pose proof (Hb 1%nat hi eq_refl) as H1.
  rewrite Z.add_0_r in H0. rewrite <- H0, <- H1.
  apply frag_text_app; [done|]. apply frag_text_app; [done|].
  apply frag_app; [by apply frag_placeholder| |done].
  apply frag_text_app; [done|]. apply frag_placeholder. lia.
Qed.

Lemma clean_app s t : clean (s +:+ t) = clean s && clean t.
Proof. unfold clean. by rewrite contains_char_app, negb_orb. Qed.

Lemma join_clean sep l :
  clean sep = true -> forallb clean l = true -> clean (join sep l) = true.
Proof.
  intros Hs. induction l as [|x l IH]; [done|]. cbn [forallb]. rewrite andb_true_iff.
  intros [Hx Hl]. destruct l as [|y l]; [done|]. cbn [join]. rewrite !clean_app, Hx, Hs. by apply IH.
Qed.
End binding.

Lemma Condition_ind' (P : Condition -> Prop) :
  (forall col op v sub, Forall P sub -> P (mkCond col op v sub)) -> forall c, P c.
Proof.
  intros H. fix IH 1. intros [col op v sub]. apply H.
  induction sub as [|c sub IHs]; constructor; [apply IH|apply IHs].
Qed.

Lemma conditionSQL_renders lit c : cond_clean c = true -> renders lit (conditionSQL c) (inline lit c).
Proof.
  induction c as [col op v sub IH] using Condition_ind'. cbn [cond_clean].
  rewrite !andb_true_iff, forallb_forall. intros [[Hcol Hop] Hsub]. cbn [inline].
  case_bool_decide as H1; [|case_bool_decide as H2; [|case_bool_decide as H3; [|case_bool_decide as H4;
    [|case_bool_decide as H5; [|destruct (bool_decide (op = OpAnd) || bool_decide (op = OpOr)) eqn:H6]]]]].
  - subst op. eapply renders_ext; [by intros|]. apply renders_text. by rewrite clean_app, Hcol.
  - subst op. eapply renders_ext; [by intros|]. apply renders_text. by rewrite clean_app, Hcol.
  - subst op. rewrite <- string_app_assoc.
    apply (renders_ext lit _ (fun st => let '(s, st) := bind_arg v st in
      ((col +:+ " = ANY(") +:+ s +:+ ")", st))); [intros st; unfold bind_arg; cbv beta iota; by rewrite string_app_assoc|].
    apply renders_wrap; [apply renders_bind_arg| |done|done].
    by rewrite clean_app, Hcol.
  - subst op. rewrite <- string_app_assoc.
    apply (renders_ext lit _ (fun st => let '(s, st) := bind_arg v st in
      ((col +:+ " <> ALL(") +:+ s +:+ ")", st))); [intros st; unfold bind_arg; cbv beta iota; by rewrite string_app_assoc|].
    apply renders_wrap; [apply renders_bind_arg| |done|done].
    by rewrite clean_app, Hcol.
  - subst op. destruct v as [| | | | | |[|lo [|hi [|? ?]]]];
      first [ by apply renders_between | by apply renders_text ].
  - eapply (renders_ext lit _ (fun st => let '(s, st) :=
      (fun st => let '(ps, st) := render_list conditionSQL sub st in
                 (join (String " " (op +:+ " ")) ps, st)) st in ("(" +:+ s +:+ ")", st))).
    { intros st. cbn [conditionSQL]. rewrite !bool_decide_eq_false_2, H6 by done. cbn [orb].
      by destruct (render_list conditionSQL sub st). }
    apply renders_wrap; [|done..]. apply renders_joined; [done| |].
    { change (String " " (op +:+ " ")) with (" " +:+ (op +:+ " ")). by rewrite !clean_app, Hop. }
    apply renders_list. rewrite Forall_forall in IH |- *. intros c Hc. apply IH; [done|].
    apply Hsub. by apply list_elem_of_In.
  - rewrite <- (app_Empty_r (lit v)), <- !string_app_assoc, string_app_assoc.
    eapply (renders_ext lit _ (fun st => let '(s, st) := bind_arg v st in
      ((((col +:+ " ") +:+ op) +:+ " ") +:+ s +:+ "", st))).
    { intros st. cbn [conditionSQL]. rewrite !bool_decide_eq_false_2, H6 by done. cbn [orb].
      destruct (bind_arg v st). by rewrite app_Empty_r, !string_app_assoc. }
    apply renders_wrap; [apply renders_bind_arg| |done|done].
    by rewrite !clean_app, Hcol, Hop.
Qed.

(** ** Statements *)

(** A part of a statement: it renders [t] and never starts with a digit. *)
Definition clause (lit : goany -> string) (g : binding -> string * binding) (t : string) : Prop :=
  renders lit g t /\ forall st, no_digit (fst (g st)) = true.

Definition seq_clause (f g : binding -> string * binding) (st : binding) : string * binding :=
  let '(a, st) := f st in let '(b, st) := g st in (a +:+ b, st).

Section statements.
Variable lit : goany -> string.

Lemma renders_seq f g t u :
  renders lit f t -> clause lit g u -> renders lit (seq_clause f g) (t +:+ u).
Proof.
  intros Hf [Hg Hnd] args i Hi. destruct (Hf args i Hi) as (a & n1 & E1 & H1).
  destruct (Hg (args ++ n1) (i + Z.of_nat (length n1)) ltac:(lia)) as (b & n2 & E2 & H2).
  exists (a +:+ b), (n1 ++ n2). rewrite length_app, Nat2Z.inj_add, app_assoc, Z.add_assoc.
  unfold seq_clause. rewrite E1, E2. split; [done|]. intros bind [Hb1 Hb2]%binds_app.
  apply frag_app; [auto..|]. specialize (Hnd (args ++ n1, i + Z.of_nat (length n1))).
  by rewrite E2 in Hnd.
Qed.

Lemma clause_seq f g t u :
  clause lit f t -> clause lit g u -> clause lit (seq_clause f g) (t +:+ u).
Proof.
  intros [Hf Hnf] Hg. split; [by apply renders_seq|]. intros st. unfold seq_clause.
  specialize (Hnf st). destruct Hg as [_ Hng]. destruct (f st) as [a st1].
  specialize (Hng st1). destruct (g st1). by apply no_digit_app.
Qed.

Lemma clause_text s : clean s = true -> no_digit s = true -> clause lit (fun st => (s, st)) s.
Proof. split; [by apply renders_text|done]. Qed.

Lemma buildConditions_renders cs :
  forallb cond_clean cs = true ->
  renders lit (buildConditions cs) (join " AND " (map (inline lit) cs)).
Proof.
  intros Hc. apply renders_joined; [done..|]. apply renders_list.
  rewrite forallb_forall in Hc. apply Forall_forall. intros c Hin.
  apply conditionSQL_renders, Hc. by apply list_elem_of_In.
Qed.

Lemma where_clause_renders c kw cs :
  is_digit c = false -> clean (String c kw) = true -> forallb cond_clean cs = true ->
  clause lit (where_clause (String c kw) cs) (inline_where lit (String c kw) cs).
Proof.
  intros Hd Hk Hc. unfold where_clause, inline_where. destruct cs as [|c0 cs]; [by apply clause_text|].
  set (l := c0 :: cs) in *. split.
  - intros args i Hi. destruct (buildConditions_renders l Hc args i Hi) as (s & new & -> & Hs).
    exists (String c kw +:+ s), new. split; [done|]. intros bind Hb. apply frag_text_app; auto.
  - intros st. destruct (buildConditions l st). cbn [fst]. rewrite app_String. cbn [no_digit].
    by rewrite Hd.
Qed.

Lemma limit_clause_renders c kw n :
  is_digit c = false -> clean (String c kw) = true ->
  clause lit (limit_clause (String c kw) n) (inline_limit lit (String c kw) n).
Proof.
  intros Hd Hk. unfold limit_clause, inline_limit. destruct (0 <? n); [|by apply clause_text]. split.
  - intros args i Hi. destruct (renders_bind_arg lit (AInt n) args i Hi) as (s & new & -> & Hs).
    exists (String c kw +:+ s), new. split; [done|]. intros bind Hb. apply frag_text_app; auto.
  - intros st. cbn [fst bind_arg]. rewrite app_String. cbn [no_digit]. by rewrite Hd.
Qed.

Lemma list_clause_clean kw l :
  clean kw = true -> forallb clean l = true -> clean (list_clause kw l) = true.
Proof.
  intros Hk Hl. unfold list_clause. destruct l as [|x l]; [done|]. rewrite clean_app, Hk.
  apply join_clean; done.
Qed.
End statements.

(** A renderer run on its own, from index [start]. *)
Lemma renders_expand lit f t start sql args i' :
  renders lit f t -> 0 <= start -> f ([], start) = (sql, (args, i')) ->
  expand (bind_of lit start args) sql = t /\ i' = start + Z.of_nat (length args).
Proof.
  intros Hf Hs E. destruct (Hf [] start Hs) as (s & new & E' & Hfrag).
  rewrite E' in E. injection E as <- <- <-. split; [|done]. apply frag_expand, Hfrag.
  intros k v Hk. unfold bind_of.
  replace (Z.to_nat (start + Z.of_nat k - start)) with k by lia. by rewrite Hk.
Qed.

(** Every identifier of the statement is free of [$]. *)
Definition select_clean (q : SelectQuery) : bool :=
  clean (s_table q) && forallb clean (s_columns q)
  && forallb (fun j => clean (j_type j) && clean (j_table j) && clean (j_on j)) (s_joins q)
  && forallb cond_clean (s_conditions q) && forallb clean (s_groupBy q)
  && forallb cond_clean (s_having q) && forallb (fun o => clean (o_column o)) (s_orderBy q).

Definition inline_select (lit : goany -> string) (q : SelectQuery) : string :=
  select_head q +:+ inline_where lit " WHERE " (s_conditions q)
  +:+ list_clause " GROUP BY " (s_groupBy q) +:+ inline_where lit " HAVING " (s_having q)
  +:+ list_clause " ORDER BY " (map order_part (s_orderBy q))
  +:+ inline_limit lit " LIMIT " (s_limit q) +:+ inline_limit lit " OFFSET " (s_offset q)
  +:+ (if s_forUpdate q then " FOR UPDATE" else "").

Lemma forallb_map {A B} (f : A -> B) p l : forallb p (map f l) = forallb (fun x => p (f x)) l.
Proof. induction l as [|x l IH]; [done|]. cbn. by rewrite IH. Qed.

Lemma forallb_impl {A} (p q : A -> bool) l :
  (forall x, p x = true -> q x = true) -> forallb p l = true -> forallb q l = true.
Proof. intros H. rewrite !forallb_forall. auto. Qed.

Lemma select_head_clean q : select_clean q = true -> clean (select_head q) = true.
Proof.
  unfold select_clean. rewrite !andb_true_iff. intros [[[[[[Ht Hc] Hj] _] _] _] _].
  unfold select_head. rewrite !clean_app, !andb_true_iff. repeat split; try done.
  - by destruct (s_distinct q).
  - destruct (s_columns q) eqn:E; [done|]. rewrite <- E in *. by apply join_clean.
  - apply join_clean; [done|]. rewrite forallb_map. eapply forallb_impl; [|done].
    intros j. rewrite !andb_true_iff. intros [[H1 H2] H3]. unfold join_clause.
    by rewrite !clean_app, H1, H2, H3.
Qed.

Lemma order_parts_clean os :
  forallb (fun o => clean (o_column o)) os = true -> forallb clean (map order_part os) = true.
Proof.
  intros H. rewrite forallb_map. eapply forallb_impl; [|done]. intros o Ho.
  unfold order_part. rewrite !clean_app, Ho. by destruct (o_desc o).
Qed.

Lemma list_clause_no_digit c kw l : is_digit c = false -> no_digit (list_clause (String c kw) l) = true.
Proof. intros H. destruct l; [done|]. unfold list_clause. rewrite app_String. cbn. by rewrite H. Qed.

(** BuildSelect as a sequence of clauses. *)
Definition select_clauses (q : SelectQuery) : binding -> string * binding :=
  seq_clause (fun st => (select_head q, st))
  (seq_clause (where_clause " WHERE " (s_conditions q))
  (seq_clause (fun st => (list_clause " GROUP BY " (s_groupBy q), st))
  (seq_clause (where_clause " HAVING " (s_having q))
  (seq_clause (fun st => (list_clause " ORDER BY " (map order_part (s_orderBy q)), st))
  (seq_clause (limit_clause " LIMIT " (s_limit q))
  (seq_clause (limit_clause " OFFSET " (s_offset q))
     (fun st => (if s_forUpdate q then " FOR UPDATE" else "", st)))))))).

Lemma BuildSelect_clauses q :
  BuildSelect q = let '(sql, st) := select_clauses q ([], 1) in (sql, fst st).
Proof.
  unfold BuildSelect, select_clauses, seq_clause.
  repeat (match goal with |- context [let '(_, _) := ?x in _] => destruct x end). done.
Qed.

Lemma select_clauses_renders lit q :
  select_clean q = true -> renders lit (select_clauses q) (inline_select lit q).
Proof.
  intros Hq. pose proof (select_head_clean q Hq) as Hh. unfold select_clean in Hq.
  rewrite !andb_true_iff in Hq. destruct Hq as [[[[[[Ht Hc] Hj] Hw] Hg] Hv] Ho].
  apply renders_seq; [by apply renders_text|].
  repeat apply clause_seq;
    first [ by apply where_clause_renders | by apply limit_clause_renders | apply clause_text ];
    first [ by apply list_clause_clean | by apply list_clause_no_digit
          | by apply list_clause_clean, order_parts_clean | by destruct (s_forUpdate q) ].
Qed.

(** C1. BuildSelect binds every value to its own placeholder: if no identifier
    contains a dollar sign, replacing each [$n] of the generated SQL by the
    literal of the n-th argument yields exactly the statement with all
    condition values, HAVING values, LIMIT and OFFSET written in place — for
    every way of printing literals, also ones that contain [$]. *)
Theorem BuildSelect_binds lit q sql args :
  select_clean q = true -> BuildSelect q = (sql, args) ->
  expand (bind_of lit 1 args) sql = inline_select lit q.
Proof.
  intros Hq. rewrite BuildSelect_clauses.
  destruct (select_clauses q ([], 1)) as [s [a i]] eqn:E. intros [= <- <-].
  eapply renders_expand in E as [E _]; [exact E|by apply select_clauses_renders|lia].
Qed.

(** A printer of literals that writes a dollar sign into each of them. *)
Definition sample_lit (v : goany) : string :=
  match v with AStr s => "'$" +:+ s +:+ "'" | AInt n => itoa n | _ => "$1" end.

Definition sample_select : SelectQuery :=
  mkSelect "t" true [] [] [Eq_ "status" (AStr "$2"); Or_ [Gt_ "n" (AInt 3); In_ "k" (AStrs ["a"])]]
    ["k"] [Gte "COUNT(*)" (AInt 2)] [] 10 5 true.

Lemma BuildSelect_binds_witness :
  expand (bind_of sample_lit 1 (snd (BuildSelect sample_select))) (fst (BuildSelect sample_select))
  = "SELECT DISTINCT * FROM t WHERE status = '$$2' AND (n > 3 OR k = ANY($1)) GROUP BY k HAVING COUNT(*) >= 2 LIMIT 10 OFFSET 5 FOR UPDATE".
Proof. apply (BuildSelect_binds sample_lit sample_select); reflexivity. Defined.

(** BuildWhere numbers its placeholders from startIdx on and binds each to
    its own value, so a fragment can be spliced after startIdx - 1 parameters
    of a hand-written statement. *)
Theorem BuildWhere_binds lit cs startIdx sql args :
  forallb cond_clean cs = true -> 0 < startIdx -> BuildWhere cs startIdx = (sql, args) ->
  expand (bind_of lit startIdx args) sql = join " AND " (map (inline lit) cs).
Proof.
  intros Hc Hs. unfold BuildWhere. destruct cs as [|c cs]; [by intros [= <- <-]|].
  destruct (buildConditions (c :: cs) ([], startIdx)) as [s [a i]] eqn:E. intros [= <- <-].
  eapply renders_expand in E as [E _]; [exact E|by apply buildConditions_renders|lia].
Qed.

Lemma BuildWhere_binds_witness :
  expand (bind_of sample_lit 3 [AStr "x"; ANil]) "a = $3 AND (b < $4)" = "a = '$x' AND (b < $1)".
Proof.
  apply (BuildWhere_binds sample_lit [Eq_ "a" (AStr "x"); And_ [Lt_ "b" ANil]] 3); reflexivity.
Defined.

Definition update_clean (q : UpdateQuery) : bool :=
  clean (u_table q) && forallb (fun p => clean (fst p)) (map_to_list (u_set q))
  && forallb clean (u_increment q) && forallb cond_clean (u_conditions q)
  && forallb clean (u_returning q).

Definition inline_update (lit : goany -> string) (order : list (string * goany)) (q : UpdateQuery)
  : string :=
  (("UPDATE " +:+ u_table q +:+ " SET ")
   +:+ join ", " (map (fun p => fst p +:+ " = " +:+ lit (snd p)) order
                  ++ map (fun col => col +:+ " = " +:+ col +:+ " + 1") (u_increment q)))
  +:+ inline_where lit " WHERE " (u_conditions q) +:+ list_clause " RETURNING " (u_returning q).

Lemma set_part_renders lit p :
  clean (fst p) = true -> renders lit (set_part p) (fst p +:+ " = " +:+ lit (snd p)).
Proof.
  intros Hp args i Hi. destruct (renders_bind_arg lit (snd p) args i Hi) as (s & new & E & Hs).
  exists (fst p +:+ " = " +:+ s), new. unfold set_part. rewrite E. split; [done|].
  intros bind Hb. apply frag_text_app; [done|]. apply frag_text_app; auto.
Qed.

Lemma renders_all_app lit f ts us :
  renders_all lit f ts -> forallb clean us = true ->
  renders_all lit (fun st => let '(ps, st) := f st in (ps ++ us, st)) (ts ++ us).
Proof.
  intros Hf Hu args i Hi. destruct (Hf args i Hi) as (ss & new & -> & Hss).
  exists (ss ++ us), new. split; [done|]. intros bind Hb. apply Forall2_app; [auto|].
  rewrite forallb_forall in Hu. apply Forall2_same_length_lookup_2; [done|].
  intros k x y Hx Hy. rewrite Hx in Hy. injection Hy as <-. apply frag_text, Hu.
  apply list_elem_of_In. by eapply list_elem_of_lookup_2.
Qed.

Definition update_clauses (order : list (string * goany)) (q : UpdateQuery) : binding -> string * binding :=
  let parts := fun st =>
    let '(ps, st) := render_list set_part order st in
    (ps ++ map (fun col => col +:+ " = " +:+ col +:+ " + 1") (u_increment q), st) in
  seq_clause
    (fun st => let '(s, st) := (let '(ps, st) := parts st in (join ", " ps, st)) in
               (("UPDATE " +:+ u_table q +:+ " SET ") +:+ s +:+ "", st))
    (seq_clause (where_clause " WHERE " (u_conditions q))
       (fun st => (list_clause " RETURNING " (u_returning q), st))).

Lemma BuildUpdate_clauses order q :
  BuildUpdate order q = let '(sql, st) := update_clauses order q ([], 1) in (sql, fst st).
Proof.
  unfold BuildUpdate, update_clauses, seq_clause.
  destruct (render_list set_part order ([], 1)) as [ps st].
  destruct (where_clause " WHERE " (u_conditions q) st) as [w st'].
  by rewrite app_Empty_r, !string_app_assoc.
Qed.

(** BuildUpdate assigns every column its own value, in whatever order the
    range over the Set map visits it: with the arguments substituted the
    statement reads "SET col = value" for exactly the entries of the map, then
    the increments, then the WHERE clause with its own values. *)
Theorem BuildUpdate_binds lit order q sql args :
  update_clean q = true -> order ≡ₚ map_to_list (u_set q) ->
  BuildUpdate order q = (sql, args) ->
  expand (bind_of lit 1 args) sql = inline_update lit order q.
Proof.
  intros Hq Ho. rewrite BuildUpdate_clauses.
  destruct (update_clauses order q ([], 1)) as [s [a i]] eqn:E. intros [= <- <-].
  unfold update_clean in Hq. rewrite !andb_true_iff in Hq. destruct Hq as [[[[Ht Hk] Hi] Hc] Hr].
  eapply renders_expand in E as [E _]; [exact E| |lia]. unfold inline_update.
  apply renders_seq.
  - rewrite <- (app_Empty_r (join ", " _)).
    apply renders_wrap; [|by rewrite !clean_app, Ht|done|done].
    apply renders_joined; [done..|]. apply renders_all_app.
    + apply renders_list. apply Forall_forall. intros p Hp. apply set_part_renders.
      rewrite forallb_forall in Hk. apply Hk, list_elem_of_In. by rewrite <- Ho.
    + rewrite forallb_map. eapply forallb_impl; [|done]. intros x Hx. by rewrite !clean_app, Hx.
  - apply clause_seq; [by apply where_clause_renders|].
    apply clause_text; [by apply list_clause_clean|by apply list_clause_no_digit].
Qed.

Lemma BuildUpdate_binds_witness :
  let q := mkUpdate "t" {[ "a" := AInt 7 ]} ["version"] [Eq_ "id" (AStr "x")] ["version"] in
  expand (bind_of sample_lit 1 (snd (BuildUpdate [("a", AInt 7)] q))) (fst (BuildUpdate [("a", AInt 7)] q))
  = "UPDATE t SET a = 7, version = version + 1 WHERE id = '$x' RETURNING version".
Proof.
  apply (BuildUpdate_binds sample_lit [("a", AInt 7)]
    (mkUpdate "t" {[ "a" := AInt 7 ]} ["version"] [Eq_ "id" (AStr "x")] ["version"]));
    [vm_compute; reflexivity | | reflexivity].
  cbn [u_set]. rewrite map_to_list_singleton. reflexivity.
Defined.

(** ** Values never reach the text *)

Fixpoint cond_map (f : goany -> goany) (c : Condition) : Condition :=
  let '(mkCond col op v sub) := c in mkCond col op (f v) (map (cond_map f) sub).

(** A []any of length two, what BETWEEN takes. *)
Definition is_pair (v : goany) : bool := match v with ASlice [_; _] => true | _ => false end.

(** A query without its values: what remains of a condition's value is whether
    it is a pair, of LIMIT and OFFSET whether they are given. *)
Definition blank_value (v : goany) : goany := if is_pair v then ASlice [ANil; ANil] else ANil.
Definition blank_limit (n : Z) : Z := if 0 <? n then 1 else 0.
Definition skeleton (q : SelectQuery) : SelectQuery :=
  mkSelect (s_table q) (s_distinct q) (s_columns q) (s_joins q) (map (cond_map blank_value) (s_conditions q))
    (s_groupBy q) (map (cond_map blank_value) (s_having q)) (s_orderBy q)
    (blank_limit (s_limit q)) (blank_limit (s_offset q)) (s_forUpdate q).

(** Two renderers write the same text and move the index alike. *)
Definition same_text {A} (f g : binding -> A * binding) : Prop :=
  forall st st', snd st = snd st' -> fst (f st) = fst (g st') /\ snd (snd (f st)) = snd (snd (g st')).

Lemma same_text_list {A} (f g : A -> binding -> string * binding) (h : A -> A) l :
  Forall (fun x => same_text (f (h x)) (g x)) l -> same_text (render_list f (map h l)) (render_list g l).
Proof.
  induction 1 as [|x l Hx _ IH]; intros st st' Hs; cbn; [done|].
  destruct (Hx st st' Hs) as [H1 H2].
  destruct (f (h x) st) as [p1 s1], (g x st') as [p2 s2]. cbn in *.
  destruct (IH s1 s2 H2) as [H3 H4].
  destruct (render_list f (map h l) s1), (render_list g l s2). cbn in *. by subst.
Qed.

Lemma bind_arg_same v v' : same_text (bind_arg v) (bind_arg v').
Proof. intros [a i] [a' i'] Hi. cbn in *. by subst. Qed.

Lemma conditionSQL_same f c :
  (forall v, is_pair (f v) = is_pair v) -> same_text (conditionSQL (cond_map f c)) (conditionSQL c).
Proof.
  intros Hf. induction c as [col op v sub IH] using Condition_ind'. intros [a i] [a' i'] Hi.
  cbn in Hi. subst i'. cbn [cond_map conditionSQL]. specialize (Hf v).
  pose proof (bind_arg_same (f v) v (a, i) (a', i) eq_refl) as Hb.
  pose proof (same_text_list conditionSQL conditionSQL _ _ IH (a, i) (a', i) eq_refl) as Hl.
  destruct (bind_arg (f v) (a, i)) as [p s], (bind_arg v (a', i)) as [p' s'].
  destruct (render_list conditionSQL (map (cond_map f) sub) (a, i)) as [ps t],
    (render_list conditionSQL sub (a', i)) as [ps' t'].
  cbn in Hb, Hl. destruct Hb as [-> Hb], Hl as [-> Hl].
  repeat case_match; cbn in *; try done; simplify_eq; done.
Qed.

Lemma where_clause_same f kw cs :
  (forall v, is_pair (f v) = is_pair v) ->
  same_text (where_clause kw (map (cond_map f) cs)) (where_clause kw cs).
Proof.
  intros Hf st st' Hs. destruct cs as [|c cs]; [done|]. unfold where_clause, buildConditions.
  cbn [map]. change (cond_map f c :: map (cond_map f) cs) with (map (cond_map f) (c :: cs)).
  pose proof (same_text_list conditionSQL conditionSQL (cond_map f) (c :: cs)) as Hl.
  destruct (Hl ltac:(apply Forall_forall; intros; by apply conditionSQL_same) st st' Hs) as [H1 H2].
  destruct (render_list conditionSQL (map (cond_map f) (c :: cs)) st) as [ps t],
    (render_list conditionSQL (c :: cs) st') as [ps' t']. cbn in *. by subst.
Qed.

Lemma seq_same f f' g g' :
  same_text f f' -> same_text g g' -> same_text (seq_clause f g) (seq_clause f' g').
Proof.
  intros Hf Hg st st' Hs. unfold seq_clause. destruct (Hf st st' Hs) as [H1 H2].
  destruct (f st) as [a s], (f' st') as [a' s']. cbn in *. destruct (Hg s s' H2) as [H3 H4].
  destruct (g s), (g' s'). cbn in *. by subst.
Qed.

Lemma same_text_const (s : string) : same_text (fun st => (s, st)) (fun st => (s, st)).
Proof. by intros st st' Hs. Qed.

Lemma limit_clause_same kw n : same_text (limit_clause kw (blank_limit n)) (limit_clause kw n).
Proof.
  intros [a i] [a' i'] Hi. cbn in Hi. subst. unfold limit_clause, blank_limit. by destruct (0 <? n).
Qed.

Lemma blank_value_pair v : is_pair (blank_value v) = is_pair v.
Proof. unfold blank_value. by destruct (is_pair v). Qed.

Lemma BuildSelect_skeleton q : fst (BuildSelect (skeleton q)) = fst (BuildSelect q).
Proof.
  rewrite !BuildSelect_clauses.
  assert (same_text (select_clauses (skeleton q)) (select_clauses q)) as H.
  { unfold select_clauses, skeleton, select_head; cbn.
    repeat apply seq_same;
      first [ apply same_text_const | by apply where_clause_same, blank_value_pair | apply limit_clause_same ]. }
  destruct (H ([], 1) ([], 1) eq_refl) as [Ht _].
  by destruct (select_clauses (skeleton q) ([], 1)), (select_clauses q ([], 1)).
Qed.

(** C28. Injection safety: the SQL text of a SELECT depends on no bound value.
    Two queries that differ only in the values of their conditions and HAVING
    conditions (a BETWEEN pair staying a pair) and in the numbers of a LIMIT and
    OFFSET that both or neither give have the same text; a value can reach the
    database only through the argument slice. *)
Theorem BuildSelect_value_free q q' :
  skeleton q = skeleton q' -> fst (BuildSelect q) = fst (BuildSelect q').
Proof. intros E. by rewrite <- (BuildSelect_skeleton q), E, BuildSelect_skeleton. Qed.

(** A harmless query and one with hostile values. *)
Definition id_query (v : goany) (limit offset : Z) : SelectQuery :=
  mkSelect "users" false [] [] [Eq_ "id" v] [] [] [] limit offset false.

Lemma BuildSelect_value_free_witness :
  fst (BuildSelect (id_query (AInt 7) 10 20)) = "SELECT * FROM users WHERE id = $1 LIMIT $2 OFFSET $3"
  /\ fst (BuildSelect (id_query (AInt 7) 10 20))
     = fst (BuildSelect (id_query (AStr "'; DROP TABLE t; --") 99 1)).
Proof.
  split; [vm_compute; reflexivity|].
  apply (BuildSelect_value_free (id_query (AInt 7) 10 20) (id_query (AStr "'; DROP TABLE t; --") 99 1)).
  reflexivity.
Defined.

(** ** Filters *)

Lemma omap_columns (m : gmap string goany) keys :
  map c_column (omap (fun col => match m !! col with
                                 | Some v => filter_condition col v | None => None end) keys)
  = filter (fun col => match m !! col with
                       | Some v => match filter_condition col v with Some _ => true | None => false end
                       | None => false end = true) keys.
Proof.
  induction keys as [|k keys IH]; [done|]. cbn [omap list_omap].
  rewrite filter_cons. destruct (m !! k) as [v|]; [|done].
  destruct (filter_condition k v) as [c|] eqn:E; [|done].
  cbn. rewrite IH. rewrite decide_True by done. f_equal.
  destruct v as [| | | | |[|? [|? ?]]|[|? [|? ?]]]; cbn in E; try by simplify_eq.
  case_bool_decide; by simplify_eq.
Qed.

Lemma StronglySorted_filter {A} (R : A -> A -> Prop) (P : A -> Prop) `{forall x, Decision (P x)} l :
  StronglySorted R l -> StronglySorted R (filter P l).
Proof.
  induction 1 as [|x l Hs IH Hx]; [constructor|]. rewrite filter_cons. case_decide; [|done].
  constructor; [done|]. rewrite Forall_forall in Hx |- *. intros y Hy.
  apply Hx. by apply list_elem_of_filter in Hy as [_ Hy].
Qed.

Lemma FromFilters_elem m c :
  c ∈ FromFilters m <->
  exists v, m !! c_column c = Some v /\ filter_condition (c_column c) v = Some c.
Proof.
  unfold FromFilters. set (keys := sort_strings (map fst (map_to_list m))).
  assert (keys ≡ₚ map fst (map_to_list m)) as Hk by apply sort_strings_Permutation.
  rewrite list_elem_of_omap. split.
  - intros (col & _ & Hc). destruct (m !! col) as [v|] eqn:Hm; [|done].
    exists v. assert (c_column c = col) as ->; [|done].
    destruct v as [| | | | |[|? [|? ?]]|[|? [|? ?]]]; cbn in Hc; try by simplify_eq.
    case_bool_decide; by simplify_eq.
  - intros (v & Hm & Hc). exists (c_column c). rewrite Hm. split; [|done].
    rewrite Hk. apply list_elem_of_fmap. exists (c_column c, v). split; [done|].
    by apply elem_of_map_to_list.
Qed.

(** FromFilters is deterministic and complete: it yields one condition for
    each filter that is neither nil, nor an empty string, nor an empty slice,
    on that filter's column and value, in ascending column order, without
    duplicates and with nothing else. *)
Theorem FromFilters_spec m :
  StronglySorted String.le (map c_column (FromFilters m))
  /\ NoDup (map c_column (FromFilters m))
  /\ (forall c, c ∈ FromFilters m <->
        exists v, m !! c_column c = Some v /\ filter_condition (c_column c) v = Some c).
Proof.
  unfold FromFilters. set (keys := sort_strings (map fst (map_to_list m))).
  assert (keys ≡ₚ map fst (map_to_list m)) as Hk by apply sort_strings_Permutation.
  split; [|split].
  - rewrite omap_columns. apply StronglySorted_filter, sort_strings_Sorted.
  - rewrite omap_columns. apply NoDup_filter. rewrite Hk. apply NoDup_fst_map_to_list.
  - apply FromFilters_elem.
Qed.
