(* ===== verification/Request.v ===== *)
(** * Request: request/, pagination/ and model/ — parsing list requests

    The query string is parsed as net/url does.  A loop over a Go map visits it
    in an arbitrary order: [range] stands for that order and is only known to be
    a permutation of the entries. *)

From S2P Require Import Prelude GoStrings GoFloat Errors SqlQuery.

(** ** net/url *)

(** url.QueryUnescape; [None] is its error. *)
Fixpoint query_unescape (s : string) : option string :=
  match s with
  | EmptyString => Some EmptyString
  | String c s' =>
      if Ascii.eqb c "%" then
        match s' with
        | String h1 (String h2 s'') =>
            match hex_value h1, hex_value h2, query_unescape s'' with
            | Some a, Some b, Some t => Some (String (ascii_of_byte (16 * a + b)) t)
            | _, _, _ => None
            end
        | _ => None
        end
      else match query_unescape s' with
           | Some t => Some (String (if Ascii.eqb c "+" then " " else c) t)
           | None => None
           end
  end.

Abbreviation values := (gmap string (list string)).

(** One pair of the query string; malformed pairs and pairs with a [;] are dropped. *)
Definition query_pair (p : string) (m : values) : values :=
  if bool_decide (p = "") || contains_char ";" p then m
  else let '(k, v) := match cut "=" p with Some kv => kv | None => (p, "") end in
       match query_unescape k, query_unescape v with
       | Some k, Some v => <[k := default [] (m !! k) ++ [v]]> m
       | _, _ => m
       end.

(** URL.Query() on the raw query string. *)
Definition url_query (raw : string) : values :=
  fold_left (fun m p => query_pair p m) (split "&" raw) ∅.

(** url.Values.Get *)
Definition values_get (q : values) (k : string) : string :=
  match q !! k with Some (v :: _) => v | _ => "" end.

(** ** request/paginated_request.go *)

Definition defaultPage : Z := 1.
Definition defaultSize : Z := 10.
Definition maxSize : Z := 100.
Definition maxSortFields : Z := 3.

Record PaginatedRequest := mkPaginated {
  Page : Z; Size : Z;
  Filters : gmap string goany;
  FuzzyFilters : gmap string string;
  pr_OrderBy : list OrderBy;
  Temporal : list TemporalFilter
}.

Definition Limit (p : PaginatedRequest) : Z := Size p.
Definition Offset (p : PaginatedRequest) : Z :=
  if Page p <? 1 then 0 else wrap64 ((Page p - 1) * Size p).

Abbreviation strset := (gmap string unit).

Record Builder := mkBuilder {
  raw_query : string;                        (* r.URL.RawQuery *)
  allowedFiltersDBMap : gmap string string;
  additionalFilters : gmap string goany;
  allowedTimeFields : strset;
  defaultTimeField : string;
  allowedSortFields : strset;
  defaultSortBy : string;
  defaultOrder : string;
  apiToDBMap : gmap string string;
  fuzzyFiltersDBMap : gmap string string;
  extraParams : strset
}.

Definition toSet (items : list string) : strset :=
  fold_left (fun m i => <[i := tt]> m) items ∅.

Definition From_ (raw : string) : Builder :=
  mkBuilder raw ∅ ∅ ∅ "" ∅ "" "desc" ∅ ∅ ∅.
Definition AllowParams (names : list string) (b : Builder) : Builder :=
  mkBuilder (raw_query b) (allowedFiltersDBMap b) (additionalFilters b) (allowedTimeFields b)
    (defaultTimeField b) (allowedSortFields b) (defaultSortBy b) (defaultOrder b) (apiToDBMap b)
    (fuzzyFiltersDBMap b) (fold_left (fun m n => <[n := tt]> m) names (extraParams b)).
Definition AllowedFiltersDBMap (m : gmap string string) (b : Builder) : Builder :=
  mkBuilder (raw_query b) m (additionalFilters b) (allowedTimeFields b) (defaultTimeField b)
    (allowedSortFields b) (defaultSortBy b) (defaultOrder b) (apiToDBMap b) (fuzzyFiltersDBMap b)
    (extraParams b).
Definition AdditionalFilters (m : gmap string goany) (b : Builder) : Builder :=
  mkBuilder (raw_query b) (allowedFiltersDBMap b) m (allowedTimeFields b) (defaultTimeField b)
    (allowedSortFields b) (defaultSortBy b) (defaultOrder b) (apiToDBMap b) (fuzzyFiltersDBMap b)
    (extraParams b).
Definition AllowedSortFields (fields : list string) (b : Builder) : Builder :=
  mkBuilder (raw_query b) (allowedFiltersDBMap b) (additionalFilters b) (allowedTimeFields b)
    (defaultTimeField b) (toSet fields) (defaultSortBy b) (defaultOrder b) (apiToDBMap b)
    (fuzzyFiltersDBMap b) (extraParams b).
Definition APIToDBMap (m : gmap string string) (b : Builder) : Builder :=
  mkBuilder (raw_query b) (allowedFiltersDBMap b) (additionalFilters b) (allowedTimeFields b)
    (defaultTimeField b) (allowedSortFields b) (defaultSortBy b) (defaultOrder b) m
    (fuzzyFiltersDBMap b) (extraParams b).
Definition DefaultSort (field order : string) (b : Builder) : Builder :=
  mkBuilder (raw_query b) (allowedFiltersDBMap b) (additionalFilters b) (allowedTimeFields b)
    (defaultTimeField b) (allowedSortFields b) field
    (if bool_decide (order <> "") then order else defaultOrder b) (apiToDBMap b)
    (fuzzyFiltersDBMap b) (extraParams b).
Definition FuzzyFiltersDBMap (m : gmap string string) (b : Builder) : Builder :=
  mkBuilder (raw_query b) (allowedFiltersDBMap b) (additionalFilters b) (allowedTimeFields b)
    (defaultTimeField b) (allowedSortFields b) (defaultSortBy b) (defaultOrder b) (apiToDBMap b)
    m (extraParams b).
Definition AllowedTimeFields (fields : list string) (b : Builder) : Builder :=
  mkBuilder (raw_query b) (allowedFiltersDBMap b) (additionalFilters b) (toSet fields)
    (defaultTimeField b) (allowedSortFields b) (defaultSortBy b) (defaultOrder b) (apiToDBMap b)
    (fuzzyFiltersDBMap b) (extraParams b).
Definition DefaultTimeField (field : string) (b : Builder) : Builder :=
  mkBuilder (raw_query b) (allowedFiltersDBMap b) (additionalFilters b) (allowedTimeFields b)
    field (allowedSortFields b) (defaultSortBy b) (defaultOrder b) (apiToDBMap b)
    (fuzzyFiltersDBMap b) (extraParams b).

Definition parseIntOrDefault (s : string) (def : Z) : Z :=
  if bool_decide (s = "") then def else match atoi s with Some v => v | None => def end.

Fixpoint raw_param (pairs : list string) (key : string) : string :=
  match pairs with
  | [] => ""
  | p :: rest =>
      match cut "=" p with
      | None => raw_param rest key
      | Some (k, v) =>
          if bool_decide (k = key)
          then match query_unescape v with Some u => u | None => v end
          else raw_param rest key
      end
  end.
Definition rawQueryParam (raw key : string) : string := raw_param (split "&" raw) key.

Definition is_Some_b {A} (o : option A) : bool := match o with Some _ => true | None => false end.

(** One item of the sort parameter. *)
Definition sort_item (b : Builder) (item : string) : res OrderBy :=
  match splitn2 ":" item with
  | [p0; p1] =>
      let field := trim_space p0 in
      let dir := to_lower (trim_space p1) in
      if negb (is_Some_b (allowedSortFields b !! field))
      then Err (DxErr (NewValidation ("invalid sort field: " +:+ field) []))
      else if negb (bool_decide (dir = "asc")) && negb (bool_decide (dir = "desc"))
      then Err (DxErr (NewValidation ("invalid sort order: " +:+ dir) []))
      else Ok (mkOrder (default field (apiToDBMap b !! field)) (bool_decide (dir = "desc")))
  | _ => Err (DxErr (NewValidation ("invalid sort format: " +:+ item +:+ " (expected field:order)") []))
  end.

Fixpoint sort_items (b : Builder) (items : list string) : res (list OrderBy) :=
  match items with
  | [] => Ok []
  | i :: rest =>
      match sort_item b i with
      | Err e => Err e
      | Ok o => match sort_items b rest with Err e => Err e | Ok os => Ok (o :: os) end
      end
  end.

Definition extractSort (b : Builder) (sortParam : string) : res (list OrderBy) :=
  if bool_decide (sortParam = "") then
    Ok (if bool_decide (defaultSortBy b <> "")
        then [mkOrder (defaultSortBy b) (equal_fold (defaultOrder b) "desc")] else [])
  else
    let items := split ";" sortParam in
    if maxSortFields <? Z.of_nat (length items)
    then Err (DxErr (NewValidation ("too many sort fields; max allowed is " +:+ itoa maxSortFields) []))
    else sort_items b items.

Section build.
(** The order in which a loop visits a map. *)
Variable range : forall A : Type, gmap string A -> list (string * A).
Arguments range {A}.

Definition Conditions (p : PaginatedRequest) : list Condition :=
  FromFilters (Filters p)
  ++ map (fun kv => cond (fst kv) OpILike (AStr ("%" +:+ snd kv +:+ "%"))) (range (FuzzyFilters p))
  ++ FromTemporal (Temporal p).

Definition extractTemporal (b : Builder) (q : values) : res (list TemporalFilter) :=
  let get := values_get q in
  let time := get "time" in
  let endtime := get "endtime" in
  let timerel := get "timerel" in
  let per_field := omap (fun f : string * unit =>
    let trl := get (fst f +:+ "_timerel") in
    if bool_decide (trl <> "")
    then Some (mkTemporal (fst f) trl (AStr (get (fst f +:+ "_time"))) (AStr (get (fst f +:+ "_endtime"))))
    else None) (range (allowedTimeFields b)) in
  if bool_decide (defaultTimeField b <> "") then
    if bool_decide (endtime <> "") && bool_decide (time = "")
    then Err (DxErr (NewValidation "parameter 'endtime' cannot be used without 'time'" []))
    else if bool_decide (time <> "") && bool_decide (timerel = "")
    then Err (DxErr (NewValidation "parameter 'timerel' is required for a temporal query" []))
    else Ok ((if bool_decide (timerel <> "")
              then [mkTemporal (defaultTimeField b) timerel (AStr time) (AStr endtime)] else [])
             ++ per_field)
  else Ok per_field.

Definition allowedQueryParams (b : Builder) : strset :=
  let add_keys {A} (m : gmap string A) (a : strset) :=
    fold_left (fun a kv => <[fst kv := tt]> a) (range m) a in
  let a := toSet ["page"; "size"; "sort"; "search_term"; "time"; "endtime"; "timerel"] in
  let a := add_keys (allowedFiltersDBMap b) a in
  let a := add_keys (fuzzyFiltersDBMap b) a in
  let a := fold_left (fun a (f : string * unit) =>
    <[fst f +:+ "_timerel" := tt]> (<[fst f +:+ "_endtime" := tt]> (<[fst f +:+ "_time" := tt]> a)))
    (range (allowedTimeFields b)) a in
  add_keys (extraParams b) a.

(** The first parameter, in the order of the loop, that is not allowed. *)
Definition unknown_param (b : Builder) (q : values) : option string :=
  let allowed := allowedQueryParams b in
  fst <$> List.find (fun kv => negb (is_Some_b (allowed !! fst kv))) (range q).

Definition build_filters (b : Builder) (q : values) : gmap string goany :=
  let fs := fold_left (fun m (kv : string * string) =>
    match q !! fst kv with
    | Some (v :: vs) => <[snd kv := AStrs (v :: vs)]> m
    | _ => m
    end) (range (allowedFiltersDBMap b)) ∅ in
  fold_left (fun m (kv : string * goany) => <[fst kv := snd kv]> m) (range (additionalFilters b)) fs.

Definition build_fuzzy (b : Builder) (q : values) : gmap string string :=
  fold_left (fun m (kv : string * string) =>
    let v := trim_space (values_get q (fst kv)) in
    if bool_decide (v <> "") then <[snd kv := v]> m else m) (range (fuzzyFiltersDBMap b)) ∅.

Definition Build (b : Builder) : res PaginatedRequest :=
  let q := url_query (raw_query b) in
  match unknown_param b q with
  | Some name => Err (DxErr (NewValidation ("invalid query parameter: " +:+ name) []))
  | None =>
      let page := parseIntOrDefault (values_get q "page") defaultPage in
      let page := if page <? 1 then defaultPage else page in
      let size := parseIntOrDefault (values_get q "size") defaultSize in
      let size := if size <? 1 then defaultSize else size in
      let size := if maxSize <? size then maxSize else size in
      match extractSort b (rawQueryParam (raw_query b) "sort") with
      | Err e => Err e
      | Ok orderBy =>
          match extractTemporal b q with
          | Err e => Err e
          | Ok temporal =>
              Ok (mkPaginated page size (build_filters b q) (build_fuzzy b q) orderBy temporal)
          end
      end
  end.
End build.

(** ** pagination/pagination.go *)

Record PRequest := mkPRequest { p_page : Z; p_pageSize : Z }.
Record PResponse := mkPResponse {
  r_page : Z; r_pageSize : Z; r_total : Z; r_totalPages : Z; r_hasNext : bool; r_hasPrev : bool
}.

Definition Validate (pr : PRequest) : PRequest :=
  let page := if p_page pr <? 1 then 1 else p_page pr in
  let size := if p_pageSize pr <? 1 then 10 else p_pageSize pr in
  let size := if 100 <? size then 100 else size in
  mkPRequest page size.

Definition p_Offset (pr : PRequest) : Z := wrap64 (wrap64 (p_page pr - 1) * p_pageSize pr).

Definition NewResponse (req : PRequest) (total : Z) : PResponse :=
  let totalPages := int64_of_f64 (f64_ceil (f64_div (f64_of_int total) (f64_of_int (p_pageSize req)))) in
  let totalPages := if total =? 0 then 1 else totalPages in
  mkPResponse (p_page req) (p_pageSize req) total totalPages (p_page req <? totalPages) (1 <? p_page req).

Definition ParsePaginationParams (pageStr pageSizeStr : string) : PRequest :=
  let page := match atoi pageStr with Some p => if 0 <? p then p else 1 | None => 1 end in
  let pageSize := match atoi pageSizeStr with Some ps => if 0 <? ps then ps else 10 | None => 10 end in
  Validate (mkPRequest page pageSize).

Record Info := mkInfo {
  i_page : Z; i_size : Z; i_totalCount : Z; i_totalPages : Z; i_hasNext : bool; i_hasPrevious : bool
}.

Definition NewInfo (page size totalCount : Z) : Info :=
  let page := if page <? 1 then 1 else page in
  let size := if size <? 1 then 10 else size in
  let totalPages := int64_of_f64 (f64_ceil (f64_div (f64_of_int totalCount) (f64_of_int size))) in
  mkInfo page size totalCount totalPages (page <? totalPages) (1 <? page).

Record PaginatedResult (T : Type) := mkPaginatedResult { pr_data : list T; pr_pagination : PResponse }.
Definition NewPaginatedResult {T} (data : list T) (p : PResponse) : PaginatedResult T :=
  mkPaginatedResult T data p.

(** ** model/ *)

Definition defaultLimit : Z := 10.
Definition maxLimit : Z := 100.
Definition defaultOffset : Z := 0.

Record PaginationRequest := mkPagination { m_limit : Z; m_offset : Z }.

Definition ParsePagination (raw : string) : PaginationRequest :=
  let q := url_query raw in
  let l := values_get q "limit" in
  let limit := if bool_decide (l <> "")
               then match atoi l with Some v => if 1 <=? v then v else defaultLimit | None => defaultLimit end
               else defaultLimit in
  let limit := if maxLimit <? limit then maxLimit else limit in
  let o := values_get q "offset" in
  let offset := if bool_decide (o <> "")
                then match atoi o with Some v => if 0 <=? v then v else defaultOffset | None => defaultOffset end
                else defaultOffset in
  mkPagination limit offset.

Definition RequestStatus := string.
Definition RequestStatus_IsValid (s : RequestStatus) : bool :=
  bool_decide (s ∈ ["PENDING"; "ACTIVE"; "DELETED"; "INACTIVE"]).
Definition ItemType := string.
Definition ItemType_IsValid (t : ItemType) : bool :=
  bool_decide (t ∈ ["DATABANK"; "AIMODEL"; "APPS"; "RESOURCE_GROUP"]).

Definition GenerateURN (namespace resourceType id : string) : string :=
  "urn:" +:+ namespace +:+ ":" +:+ resourceType +:+ ":" +:+ id.

(** model/user.go: the columns of a user, and its JSON. *)
Record model_DxUser := mkModelUser {
  mu_ID : string; mu_Email : string; mu_Name : string; mu_OrganisationID : string; mu_OrganisationName : string;
  mu_Status : string; mu_CreatedAt : string; mu_UpdatedAt : string
}.

(** ** Properties of Build *)

(** The columns a service names in its own configuration. *)
Definition trusted_column (b : Builder) (col : string) : Prop :=
  (exists k, allowedFiltersDBMap b !! k = Some col) \/ is_Some (additionalFilters b !! col)
  \/ (exists k, fuzzyFiltersDBMap b !! k = Some col)
  \/ col = defaultTimeField b \/ is_Some (allowedTimeFields b !! col).
Definition trusted_sort (b : Builder) (col : string) : Prop :=
  col = defaultSortBy b
  \/ exists f, is_Some (allowedSortFields b !! f) /\ col = default f (apiToDBMap b !! f).

Section build_proofs.
Variable range : forall A : Type, gmap string A -> list (string * A).
Hypothesis range_perm : forall A (m : gmap string A), range A m ≡ₚ map_to_list m.

Lemma range_lookup {A} (m : gmap string A) k v : (k, v) ∈ range A m <-> m !! k = Some v.
Proof. rewrite range_perm. apply elem_of_map_to_list. Qed.

(** Keys written by a loop of guarded insertions. *)
Lemma fold_insert_keys {A B} (f : string * A -> option (string * B)) l (m : gmap string B) k :
  is_Some (fold_left (fun m kv => match f kv with Some (k, v) => <[k := v]> m | None => m end) l m !! k)
  <-> is_Some (m !! k) \/ exists kv v, kv ∈ l /\ f kv = Some (k, v).
Proof.
  revert m. induction l as [|kv l IH]; intros m; cbn.
  { split; [by left|]. intros [?|(? & ? & Hin & _)]; [done|]. by apply not_elem_of_nil in Hin. }
  rewrite IH. destruct (f kv) as [[k' v']|] eqn:E.
  - destruct (decide (k = k')) as [->|Hne].
    + rewrite lookup_insert_eq. split; intros _; [|by left].
      right. exists kv, v'. split; [by left|done].
    + rewrite lookup_insert_ne by done. split; (intros [?|(kv' & v & Hin & Hf)]; [by left|right]).
      * exists kv', v. split; [by right|done].
      * apply elem_of_cons in Hin as [->|Hin]; [congruence|]. by exists kv', v.
  - split; (intros [?|(kv' & v & Hin & Hf)]; [by left|right]).
    + exists kv', v. split; [by right|done].
    + apply elem_of_cons in Hin as [->|Hin]; [congruence|]. by exists kv', v.
Qed.

Lemma fold_left_ext_fn {A B} (f g : A -> B -> A) l a :
  (forall a b, f a b = g a b) -> fold_left f l a = fold_left g l a.
Proof. intros H. revert a. induction l as [|b l IH]; intros a; cbn; [done|]. by rewrite H, IH. Qed.

Lemma build_filters_keys b q col :
  is_Some (build_filters range b q !! col) ->
  (exists k, allowedFiltersDBMap b !! k = Some col) \/ is_Some (additionalFilters b !! col).
Proof.
  unfold build_filters. intros Hb.
  rewrite (fold_left_ext_fn _ (fun m kv => match Some kv with Some (k, v) => <[k := v]> m | None => m end))
    in Hb by (by intros m []).
  apply (fold_insert_keys (fun kv => Some kv)) in Hb as [H|([k v] & v' & Hin & [= -> ->])].
  - rewrite (fold_left_ext_fn _ (fun m kv => match
      (fun kv : string * string => match q !! fst kv with
         | Some (v :: vs) => Some (snd kv, AStrs (v :: vs)) | _ => None end) kv
      with Some (k, v) => <[k := v]> m | None => m end)) in H.
    2: { intros m [k c]. cbn. by destruct (q !! k) as [[|? ?]|]. }
    apply fold_insert_keys in H as [H|([k c] & v & Hin & Hf)].
    { rewrite lookup_empty in H. by destruct H. }
    left. cbn in Hf. apply range_lookup in Hin. exists k.
    destruct (q !! k) as [[|? ?]|]; by simplify_eq.
  - right. apply range_lookup in Hin. by eexists.
Qed.

Lemma build_fuzzy_keys b q col :
  is_Some (build_fuzzy range b q !! col) -> exists k, fuzzyFiltersDBMap b !! k = Some col.
Proof.
  unfold build_fuzzy. intros H.
  rewrite (fold_left_ext_fn _ (fun m kv => match
    (fun kv : string * string => if bool_decide (trim_space (values_get q (fst kv)) <> "")
       then Some (snd kv, trim_space (values_get q (fst kv))) else None) kv
    with Some (k, v) => <[k := v]> m | None => m end)) in H
    by (intros m [k c]; cbn; by case_bool_decide).
  apply fold_insert_keys in H as [H|([k c] & v & Hin & Hf)].
  { rewrite lookup_empty in H. by destruct H. }
  cbn in Hf. case_bool_decide; [|done]. apply range_lookup in Hin. by simplify_eq; eexists.
Qed.

(** Later insertions of distinct keys decide. *)
Lemma fold_insert_last {B} (l : list (string * B)) (m : gmap string B) k v :
  NoDup (map fst l) -> (k, v) ∈ l ->
  fold_left (fun m kv => <[fst kv := snd kv]> m) l m !! k = Some v.
Proof.
  revert m. induction l as [|[k' v'] l IH]; intros m Hnd Hin; [by apply not_elem_of_nil in Hin|].
  cbn in *. apply NoDup_cons in Hnd as [Hk Hnd].
  apply elem_of_cons in Hin as [[= -> ->]|Hin]; [|by apply IH].
  clear IH. assert (forall m : gmap string B, m !! k' = Some v' ->
    fold_left (fun m kv => <[fst kv := snd kv]> m) l m !! k' = Some v') as H; [|by apply H, lookup_insert_eq].
  clear Hnd. induction l as [|[k v] l IH]; intros m' Hm; cbn in *; [done|].
  apply not_elem_of_cons in Hk as [Hne Hk]. apply IH; [done|]. by rewrite lookup_insert_ne.
Qed.

Lemma build_filters_additional b q col v :
  additionalFilters b !! col = Some v -> build_filters range b q !! col = Some v.
Proof.
  intros H. unfold build_filters. apply fold_insert_last; [|by apply range_lookup].
  rewrite range_perm. apply NoDup_fst_map_to_list.
Qed.

Lemma sort_item_trusted b item o : sort_item b item = Ok o -> trusted_sort b (o_column o).
Proof.
  unfold sort_item. destruct (splitn2 ":" item) as [|p0 [|p1 [|? ?]]]; try done.
  destruct (allowedSortFields b !! trim_space p0) as [[]|] eqn:E; cbn; [|done].
  destruct (_ && _); [done|]. intros [= <-]. right. exists (trim_space p0). by rewrite E.
Qed.

Lemma sort_items_trusted b items os :
  sort_items b items = Ok os -> Forall (fun o => trusted_sort b (o_column o)) os /\ length os = length items.
Proof.
  revert os. induction items as [|i items IH]; intros os; cbn; [by intros [= <-]|].
  destruct (sort_item b i) as [o|] eqn:E; [|done].
  destruct (sort_items b items) as [os'|]; [|done]. intros [= <-].
  destruct (IH os' eq_refl) as [HF HL]. split; [|cbn; lia].
  constructor; [by eapply sort_item_trusted|done].
Qed.

Lemma extractSort_trusted b p os :
  extractSort b p = Ok os ->
  Forall (fun o => trusted_sort b (o_column o)) os /\ Z.of_nat (length os) <= maxSortFields.
Proof.
  unfold extractSort. case_bool_decide.
  - case_bool_decide; intros [= <-]; (split; [|done]); repeat constructor.
  - destruct (Z.ltb_spec maxSortFields (Z.of_nat (length (split ";" p)))); [done|].
    intros [HF HL]%sort_items_trusted. split; [done|lia].
Qed.

Lemma extractTemporal_trusted b q ts :
  extractTemporal range b q = Ok ts ->
  Forall (fun t => t_field t = defaultTimeField b \/ is_Some (allowedTimeFields b !! t_field t)) ts.
Proof.
  unfold extractTemporal. set (per := omap _ _).
  assert (Forall (fun t => t_field t = defaultTimeField b \/ is_Some (allowedTimeFields b !! t_field t)) per)
    as Hper.
  { apply Forall_forall. intros t Ht. apply list_elem_of_omap in Ht as ([f []] & Hin & Hf).
    cbn in Hf. case_bool_decide; [|done]. injection Hf as <-. right. apply range_lookup in Hin. by eexists. }
  case_bool_decide; [|by intros [= <-]].
  destruct (_ && _); [done|]. destruct (_ && _); [done|]. intros [= <-].
  apply Forall_app. split; [|done]. case_bool_decide; [|constructor]. constructor; [by left|constructor].
Qed.

Lemma FromTemporal_columns ts :
  Forall (fun c => exists t, t ∈ ts /\ c_column c = t_field t) (FromTemporal ts).
Proof.
  apply Forall_forall. intros c Hc. apply list_elem_of_omap in Hc as (t & Hin & Hf).
  exists t. split; [done|]. repeat case_bool_decide; by simplify_eq.
Qed.

Lemma Build_inv b p :
  Build range b = Ok p ->
  1 <= Page p /\ 1 <= Size p <= maxSize /\ Filters p = build_filters range b (url_query (raw_query b))
  /\ FuzzyFilters p = build_fuzzy range b (url_query (raw_query b))
  /\ extractSort b (rawQueryParam (raw_query b) "sort") = Ok (pr_OrderBy p)
  /\ extractTemporal range b (url_query (raw_query b)) = Ok (Temporal p)
  /\ unknown_param range b (url_query (raw_query b)) = None.
Proof.
  unfold Build. destruct (unknown_param range b _); [done|].
  destruct (extractSort b _) as [os|]; [|done]. destruct (extractTemporal range b _) as [ts|]; [|done].
  intros [= <-]. cbn. unfold defaultPage, defaultSize, maxSize.
  set (pg := parseIntOrDefault _ 1). set (sz := parseIntOrDefault _ 10).
  split; [destruct (Z.ltb_spec pg 1); lia|]. split; [|done].
  destruct (Z.ltb_spec sz 1); [cbn; lia|]. destruct (Z.ltb_spec 100 sz); lia.
Qed.

(** C29. No client-controlled text becomes an SQL identifier: for every query
    string that Build accepts, each condition's column and each ORDER BY column
    is one the service configured (an allow-listed filter, fuzzy, time or sort
    column, or a default), there are at most three sort columns, and every
    query parameter is on the allow list. *)
Theorem Build_trusted_identifiers b p :
  Build range b = Ok p ->
  Forall (fun c => trusted_column b (c_column c)) (Conditions range p)
  /\ Forall (fun o => trusted_sort b (o_column o)) (pr_OrderBy p)
  /\ Z.of_nat (length (pr_OrderBy p)) <= 3
  /\ (forall k, is_Some (url_query (raw_query b) !! k) -> is_Some (allowedQueryParams range b !! k)).
Proof.
  intros (_ & _ & Hf & Hz & Hs & Ht & Hu)%Build_inv.
  destruct (extractSort_trusted _ _ _ Hs) as [HF HL].
  split; [|split; [done|split; [done|]]].
  - unfold Conditions. apply Forall_app. split; [|apply Forall_app; split].
    + apply Forall_forall. intros c Hc. apply FromFilters_elem in Hc as (v & Hv & _).
      rewrite Hf in Hv. destruct (build_filters_keys b (url_query (raw_query b)) (c_column c)) as [?|?];
        [by eexists|by left|by right; left].
    + apply Forall_forall. intros c Hc. apply list_elem_of_fmap in Hc as ([k v] & -> & Hin).
      apply range_lookup in Hin. rewrite Hz in Hin. right; right; left. cbn.
      eapply build_fuzzy_keys. by eexists.
    + pose proof (extractTemporal_trusted _ _ _ Ht) as HT. rewrite Forall_forall in HT.
      eapply Forall_impl; [apply FromTemporal_columns|]. intros c (t & Hin & ->).
      destruct (HT t Hin) as [?|?]; right; right; right; [by left|by right].
  - intros k [v Hk]. unfold unknown_param in Hu.
    destruct (List.find _ (range _ _)) eqn:E; [done|].
    eapply List.find_none in E; [|apply list_elem_of_In; by apply range_lookup].
    cbn in E. by destruct (allowedQueryParams range b !! k).
Qed.

(** C10. Service-side constraints cannot be lifted by the client: every filter
    the service injects with AdditionalFilters is in the conditions of every
    request Build accepts, with the service's value, whatever parameters of the
    same column the query string carries. *)
Theorem Build_additional_enforced b p col v c :
  Build range b = Ok p -> additionalFilters b !! col = Some v -> filter_condition col v = Some c ->
  Filters p !! col = Some v /\ c ∈ Conditions range p.
Proof.
  intros (_ & _ & Hf & _)%Build_inv Hv Hc.
  assert (Filters p !! col = Some v) as Hl by (rewrite Hf; by apply build_filters_additional).
  split; [done|]. unfold Conditions. apply elem_of_app. left. apply FromFilters_elem.
  assert (c_column c = col) as ->; [|by exists v].
  destruct v as [| | | | |[|? [|? ?]]|[|? [|? ?]]]; cbn in Hc; try by simplify_eq.
  case_bool_decide; by simplify_eq.
Qed.

(** Page arithmetic: an accepted request has page >= 1 and 1 <= size <= 100,
    and, unless the page number is astronomically large, its OFFSET is exactly
    (page-1)*size, computed without overflow. *)
Theorem Build_page_bounds b p :
  Build range b = Ok p ->
  1 <= Page p /\ 1 <= Limit p <= 100
  /\ (Page p <= max_int64 / 100 -> Offset p = (Page p - 1) * Size p /\ 0 <= Offset p).
Proof.
  intros (Hp & Hs & _)%Build_inv. unfold maxSize in *. split; [done|]. split; [done|]. intros Hb.
  unfold Offset. destruct (Z.ltb_spec (Page p) 1); [lia|].
  assert (100 * (max_int64 / 100) <= max_int64) by (apply Z.mul_div_le; lia).
  rewrite wrap64_id by (unfold min_int64 in *; nia). nia.
Qed.
End build_proofs.

Definition sample_range (A : Type) (m : gmap string A) : list (string * A) := map_to_list m.

Definition sample_builder (raw : string) : Builder :=
  DefaultTimeField "created_at" (APIToDBMap {[ "name" := "item_name" ]}
    (AllowedSortFields ["name"; "id"] (AdditionalFilters {[ "tenant" := AStr "t1" ]}
      (AllowedFiltersDBMap {[ "owner" := "tenant" ]} (From_ raw))))).

Definition sample_raw : string :=
  "page=3&size=500&owner=evil&owner=t2&sort=name:DESC;id:asc&time=a&timerel=after".

Definition sample_parsed : PaginatedRequest :=
  mkPaginated 3 100 {[ "tenant" := AStr "t1" ]} ∅ [mkOrder "item_name" true; mkOrder "id" false]
    [mkTemporal "created_at" "after" (AStr "a") (AStr "")].

Lemma Build_trusted_identifiers_witness :
  Build sample_range (sample_builder sample_raw) = Ok sample_parsed
  /\ Forall (fun o => trusted_sort (sample_builder sample_raw) (o_column o)) (pr_OrderBy sample_parsed).
Proof.
  split; [vm_compute; reflexivity|].
  apply (Build_trusted_identifiers sample_range (fun _ _ => reflexivity _)
           (sample_builder sample_raw) sample_parsed).
  vm_compute. reflexivity.
Defined.

Lemma Build_additional_enforced_witness :
  Eq_ "tenant" (AStr "t1") ∈ Conditions sample_range sample_parsed.
Proof.
  apply (Build_additional_enforced sample_range (fun _ _ => reflexivity _)
           (sample_builder sample_raw) sample_parsed "tenant" (AStr "t1"));
    vm_compute; reflexivity.
Defined.

Lemma Build_page_bounds_witness : Offset sample_parsed = 200 /\ 1 <= Limit sample_parsed <= 100.
Proof.
  destruct (Build_page_bounds sample_range (sample_builder sample_raw) sample_parsed)
    as (_ & Hl & Ho); [vm_compute; reflexivity|].
  destruct Ho as [Ho _]; [vm_compute; discriminate|]. split; [exact Ho|exact Hl].
Defined.

(** A page number that overflows int64 wraps to offset 0: the client gets the
    first page under another number. *)
Example offset_wraps :
  match Build sample_range (From_ "page=4611686018427387905&size=4") with
  | Ok p => Page p = 2 ^ 62 + 1 /\ Offset p = 0
  | Err _ => False
  end.
Proof. vm_compute. split; reflexivity. Qed.

(** The unknown relation "during" is accepted and ignored. *)
Example unknown_timerel_ignored :
  match Build sample_range (sample_builder "time=a&timerel=during") with
  | Ok p => Conditions sample_range p = [Eq_ "tenant" (AStr "t1")]
  | Err _ => False
  end.
Proof. vm_compute. reflexivity. Qed.

(** ** Properties of the page metadata *)

(** NewInfo is exact although it computes in floating point: for fewer than
    2^53 rows, totalPages is the exact ceiling of totalCount/size, hasNext holds
    exactly when rows remain after this page, and hasPrevious exactly when the
    page is not the first. *)
Theorem NewInfo_exact page size totalCount :
  size < 2 ^ 53 -> 0 <= totalCount < 2 ^ 53 ->
  let i := NewInfo page size totalCount in
  1 <= i_page i /\ 1 <= i_size i
  /\ (i_totalPages i - 1) * i_size i < totalCount + (if totalCount =? 0 then i_size i else 0)
  /\ totalCount <= i_totalPages i * i_size i
  /\ (i_hasNext i = true <-> i_page i * i_size i < totalCount)
  /\ (i_hasPrevious i = true <-> 1 < i_page i).
Proof.
  intros Hs Ht. unfold NewInfo. cbn.
  set (p := if page <? 1 then 1 else page). set (s := if size <? 1 then 10 else size).
  assert (1 <= p) by (unfold p; destruct (Z.ltb_spec page 1); lia).
  assert (1 <= s < 2 ^ 53) by (unfold s; destruct (Z.ltb_spec size 1); lia).
  rewrite ceil_quotient by lia.
  pose proof (Z.div_mod (- totalCount) s ltac:(lia)).
  pose proof (Z.mod_pos_bound (- totalCount) s ltac:(lia)).
  set (q := - totalCount / s) in *. rewrite !Z.ltb_lt.
  split; [done|]. split; [lia|]. split; [destruct (Z.eqb_spec totalCount 0); nia|].
  split; [nia|]. split; [|done]. nia.
Qed.

Lemma NewInfo_exact_witness :
  i_hasNext (NewInfo 2 10 21) = true /\ 2 * 10 < 21.
Proof.
  destruct (NewInfo_exact 2 10 21) as (_ & _ & _ & _ & H & _); [reflexivity | split; [discriminate|reflexivity] |].
  split; [apply H; reflexivity | reflexivity].
Defined.

Lemma ParsePaginationParams_bounds p s :
  1 <= p_page (ParsePaginationParams p s) /\ 1 <= p_pageSize (ParsePaginationParams p s) <= 100.
Proof.
  unfold ParsePaginationParams, Validate. cbn.
  set (a := match atoi p with Some _ => _ | None => _ end).
  set (c := match atoi s with Some _ => _ | None => _ end).
  split; [destruct (Z.ltb_spec a 1); lia|].
  destruct (Z.ltb_spec c 1); [cbn; lia|]. destruct (Z.ltb_spec 100 c); lia.
Qed.

Lemma ParsePagination_bounds raw :
  1 <= m_limit (ParsePagination raw) <= 100 /\ 0 <= m_offset (ParsePagination raw).
Proof.
  unfold ParsePagination, maxLimit, defaultLimit, defaultOffset. cbn. split.
  - match goal with |- context [100 <? ?x] => set (l := x); assert (1 <= l) end.
    { unfold l. case_bool_decide; [|lia]. destruct (atoi _) as [v|]; [|lia].
      destruct (Z.leb_spec 1 v); lia. }
    destruct (Z.ltb_spec 100 l); lia.
  - case_bool_decide; [|lia]. destruct (atoi _) as [v|]; [|lia]. destruct (Z.leb_spec 0 v); lia.
Qed.
