(* ===== verification/Transaction.v ===== *)
(** * Transaction: database/postgres/transaction — transactions, propagation, retry, locks

    The pool is an interface: [PgPool] gives the operations the code calls and
    what a caller can observe (the committed store, the store a transaction
    sees, the open transactions); [PgPoolLaws] states what pgx documents of
    them.  A concrete pool discharges the laws.  The ambient transaction a
    context carries is an explicit argument. *)

From S2P Require Import Prelude GoStrings Errors GoFloat Backoff Breaker Retry.

Definition txid := nat.

Class PgPool (W Store : Type) := {
  pool_begin : W -> res txid * W;
  tx_commit : txid -> W -> error * W;
  tx_rollback : txid -> W -> error * W;
  committed : W -> Store;                 (* what other sessions see *)
  pending : txid -> W -> Store;           (* what the transaction sees *)
  open_txs : W -> gset txid
}.

(** The answer to a COMMIT with which the server says that it rolled the
    transaction back: serialization_failure and deadlock_detected (class 40). *)
Definition rolled_back (e : goerr) : Prop :=
  exists pg, as_pg e = Some pg /\ (pg_code pg = "40001" \/ pg_code pg = "40P01").

(** Begin, Commit and Rollback on their own.  A commit or rollback, successful
    or not, ends the transaction; what a commit has done is known only when it
    reports success or the server reports that it rolled back: any other error
    (an answer that is lost, a context that ends during the commit) leaves both
    outcomes open.  No other session commits meanwhile. *)
Class PgPoolLaws (W Store : Type) `{PgPool W Store} := {
  begin_ok w tx w' : pool_begin w = (Ok tx, w') ->
    (tx ∉ open_txs w) /\ open_txs w' = open_txs w ∪ {[ tx ]}
    /\ committed w' = committed w /\ pending tx w' = committed w;
  begin_err w e w' : pool_begin w = (Err e, w') ->
    open_txs w' = open_txs w /\ committed w' = committed w;
  commit_ends tx w err w' : tx_commit tx w = (err, w') ->
    open_txs w' = open_txs w ∖ {[ tx ]}
    /\ match err with
       | None => committed w' = pending tx w
       | Some e => committed w' = committed w \/ (~ rolled_back e /\ committed w' = pending tx w)
       end;
  rollback_ends tx w err w' : tx_rollback tx w = (err, w') ->
    open_txs w' = open_txs w ∖ {[ tx ]} /\ committed w' = committed w
}.

(** ** manager.go *)

Section transaction.
Context {W Store : Type} `{PgPool W Store}.

(** How a transaction ends once fn has returned. *)
Definition finish_tx (tx : txid) (r : fnres) (w : W) : fnres * W :=
  match r with
  | FnPanic => (FnPanic, w)
  | FnRet (Some fnErr) =>
      let '(rbErr, w) := tx_rollback tx w in
      match rbErr with
      | Some rb => (FnRet (Some (WrapErr ("transaction fn error: " +:+ error_text fnErr
                                          +:+ "; rollback error: " +:+ error_text rb) fnErr)), w)
      | None => (FnRet (Some fnErr), w)
      end
  | FnRet None =>
      let '(err, w) := tx_commit tx w in
      (FnRet (match err with
              | Some e => Some (WrapErr ("committing transaction: " +:+ error_text e) e)
              | None => None
              end), w)
  end.

Definition WithTransaction (fn : txid -> W -> fnres * W) (w : W) : fnres * W :=
  match pool_begin w with
  | (Err e, w) => (FnRet (Some (WrapErr ("beginning transaction: " +:+ error_text e) e)), w)
  | (Ok tx, w) => let '(r, w) := fn tx w in finish_tx tx r w
  end.

(** What a context carries of this package: TxFromContext. *)
Definition txctx := option txid.
Definition TxFromContext (ctx : txctx) : option txid := ctx.

Definition InTransaction (ctx : txctx) (fn : txctx -> txid -> W -> fnres * W) (w : W) : fnres * W :=
  match TxFromContext ctx with
  | Some tx => fn ctx tx w
  | None =>
      match pool_begin w with
      | (Err e, w) => (FnRet (Some (WrapErr ("beginning transaction: " +:+ error_text e) e)), w)
      | (Ok tx, w) => let '(r, w) := fn (Some tx) tx w in finish_tx tx r w
      end
  end.
End transaction.

(** ** options.go *)

Definition pgErrSerialization : string := "40001".
Definition pgErrDeadlock : string := "40P01".

Record RetryConfig := mkRetryConf { rc_maxAttempts : Z; rc_baseDelay : Z }.

Definition resolveRetryConfig (cfg : list RetryConfig) : RetryConfig :=
  let rc := mkRetryConf 3 (20 * Millisecond) in
  match cfg with
  | [] => rc
  | c :: _ =>
      mkRetryConf (if 0 <? rc_maxAttempts c then rc_maxAttempts c else rc_maxAttempts rc)
                  (if 0 <? rc_baseDelay c then rc_baseDelay c else rc_baseDelay rc)
  end.

Definition isRetryablePgError (err : error) : bool :=
  match err with
  | None => false
  | Some e => match as_pg e with
              | Some pg => bool_decide (pg_code pg = pgErrSerialization)
                           || bool_decide (pg_code pg = pgErrDeadlock)
              | None => false
              end
  end.

Section retry_tx.
Context {W Store : Type} `{World W} `{PgPool W Store}.

Definition tx_policy (rc : RetryConfig) : Policy :=
  NewPolicy [WithMaxAttempts (rc_maxAttempts rc); WithBaseDelay (rc_baseDelay rc); WithMultiplier (Fin 2 0)].

Definition retryTx (label : string) (rc : RetryConfig) (run : W -> fnres * W) (w : W)
  : fnres * W * list action :=
  let '(r, w, tr) := Retry (tx_policy rc) run [WithRetryable (Some isRetryablePgError)] w in
  let r := match r with
           | FnRet (Some e) =>
               if isRetryablePgError (Some e)
               then FnRet (Some (WrapErr ("transaction." +:+ label +:+ ": giving up after "
                      +:+ itoa (rc_maxAttempts rc) +:+ " attempts: " +:+ error_text e) e))
               else r
           | _ => r
           end in
  (r, w, tr).

Definition WithRetryableTx (fn : txid -> W -> fnres * W) (cfg : list RetryConfig) (w : W)
  : fnres * W * list action :=
  retryTx "WithRetryableTx" (resolveRetryConfig cfg) (WithTransaction fn) w.

Definition InRetryableTransaction (ctx : txctx) (fn : txctx -> txid -> W -> fnres * W)
    (cfg : list RetryConfig) (w : W) : fnres * W * list action :=
  match TxFromContext ctx with
  | Some _ => let '(r, w) := InTransaction ctx fn w in (r, w, [])
  | None => retryTx "InRetryableTransaction" (resolveRetryConfig cfg) (InTransaction ctx fn) w
  end.
End retry_tx.

(** ** WithAdvisoryLock *)

(** What the function does to its connection, in order. *)
Inductive lock_action :=
  | Acquired | Locked | RanFn | Unlocked (err : error) | Released.

(** [acquire], [exec_lock] and [exec_unlock] are the results of the three calls. *)
Definition WithAdvisoryLock {W} (acquire exec_lock exec_unlock : error) (fn : W -> fnres * W) (w : W)
  : fnres * W * list lock_action :=
  match acquire with
  | Some e => (FnRet (Some (WrapErr ("transaction.WithAdvisoryLock: acquire connection: " +:+ error_text e) e)),
               w, [])
  | None =>
      match exec_lock with
      | Some e => (FnRet (Some (WrapErr ("transaction.WithAdvisoryLock: lock: " +:+ error_text e) e)),
                   w, [Acquired; Released])
      | None => let '(r, w) := fn w in
                (r, w, [Acquired; Locked; RanFn; Unlocked exec_unlock; Released])
      end
  end.

(** ** Atomicity *)

Section atomic.
Context {W Store : Type} `{PgPoolLaws W Store}.

(** A transaction body: it works inside its transaction only. *)
Definition body_ok (fn : txid -> W -> fnres * W) : Prop :=
  forall tx w r w', tx ∈ open_txs w -> fn tx w = (r, w') ->
    open_txs w' = open_txs w /\ committed w' = committed w.

(** The commit of fn's transaction answered with an error that leaves its
    outcome open, and it had taken effect. *)
Definition commit_unknown (fn : txid -> W -> fnres * W) (w : W) (e : goerr) (w' : W) : Prop :=
  exists tx w1 w2 ce, pool_begin w = (Ok tx, w1) /\ fn tx w1 = (FnRet None, w2)
    /\ tx_commit tx w2 = (Some ce, w') /\ ~ rolled_back ce
    /\ e = WrapErr ("committing transaction: " +:+ error_text ce) ce
    /\ committed w' = pending tx w2.

(** What one transaction may do to the pool. *)
Definition atomic_run (fn : txid -> W -> fnres * W) (w : W) (r : fnres) (w' : W) : Prop :=
  match r with
  | FnRet None =>
      exists tx w1 w2, pool_begin w = (Ok tx, w1) /\ fn tx w1 = (FnRet None, w2)
        /\ committed w' = pending tx w2 /\ open_txs w' = open_txs w
  | FnRet (Some e) =>
      open_txs w' = open_txs w /\ (committed w' = committed w \/ commit_unknown fn w e w')
  | FnPanic => committed w' = committed w /\ exists tx, (tx ∉ open_txs w) /\ open_txs w' = open_txs w ∪ {[ tx ]}
  end.

Lemma finish_tx_spec fn (w : W) tx w1 r0 w2 r w' :
  body_ok fn -> pool_begin w = (Ok tx, w1) -> fn tx w1 = (r0, w2) -> finish_tx tx r0 w2 = (r, w') ->
  atomic_run fn w r w'.
Proof.
  intros Hfn Hb Hf Hfin. destruct (begin_ok _ _ _ Hb) as (Hfresh & Ho1 & Hc1 & _).
  destruct (Hfn tx w1 _ _ ltac:(set_solver) Hf) as [Ho2 Hc2].
  unfold finish_tx in Hfin. destruct r0 as [[e|]|].
  - destruct (tx_rollback tx w2) as [rb w3] eqn:Er. apply rollback_ends in Er as [Ho3 Hc3].
    assert (open_txs w3 = open_txs w /\ (committed w3 = committed w))
      as [? ?] by (split; [set_solver|congruence]).
    destruct rb; simplify_eq; cbn; auto.
  - destruct (tx_commit tx w2) as [ce w3] eqn:Ec. destruct (commit_ends _ _ _ _ Ec) as [Ho3 Hc3].
    assert (open_txs w3 = open_txs w) by set_solver.
    destruct ce as [ce|]; simplify_eq; cbn; [|by exists tx, w1, w2]. split; [done|].
    destruct Hc3 as [Hc3|[Hk Hc3]]; [left; congruence|]. right. by exists tx, w1, w2, ce.
  - simplify_eq. cbn. split; [congruence|]. exists tx. split; [done|congruence].
Qed.

Lemma WithTransaction_run fn (w : W) r w' :
  body_ok fn -> WithTransaction fn w = (r, w') -> atomic_run fn w r w'.
Proof.
  intros Hfn. unfold WithTransaction. destruct (pool_begin w) as [[tx|e] w1] eqn:Hb.
  - destruct (fn tx w1) as [r0 w2] eqn:Hf. by eapply finish_tx_spec.
  - intros [= <- <-]. apply begin_err in Hb as [? ?]. cbn. auto.
Qed.

Lemma InTransaction_run fn (w : W) r w' :
  body_ok (fun tx => fn (Some tx) tx) -> InTransaction None fn w = (r, w') ->
  atomic_run (fun tx => fn (Some tx) tx) w r w'.
Proof. intros Hfn. by apply (WithTransaction_run (fun tx => fn (Some tx) tx)). Qed.

Lemma isRetryable_rolled_back e : isRetryablePgError (Some e) = true <-> rolled_back e.
Proof.
  cbn. unfold rolled_back. destruct (as_pg e) as [pg|]; [|by split; [|intros (? & ? & _)]].
  rewrite orb_true_iff, !bool_decide_eq_true. split; [by exists pg|]. by intros (? & [= <-] & ?).
Qed.

(** An attempt that is retried has changed nothing. *)
Lemma retried_attempt fn (w : W) e w' :
  atomic_run fn w (FnRet (Some e)) w' -> isRetryablePgError (Some e) = true ->
  committed w' = committed w /\ open_txs w' = open_txs w.
Proof.
  intros [Ho [Hc|(tx & w1 & w2 & ce & _ & _ & _ & Hk & -> & _)]] Hr; [done|].
  apply isRetryable_rolled_back in Hr as (pg & Hpg & Hcode). destruct Hk. by exists pg.
Qed.
End atomic.

(** ** A concrete pool *)

(** Keys inserted so far, the open transactions with what they see, and the
    results the next commits will have: a commit that fails with anything but a
    serialization failure or deadlock takes effect and loses its answer. *)
Record pgw := mkPgw {
  pg_clock : clockw; pg_rows : list string; pg_open : gmap txid (list string);
  pg_next : txid; pg_commits : list error
}.

#[export] Instance pgw_world : World pgw := {
  ctx_err w := ctx_err (pg_clock w);
  time_now w := time_now (pg_clock w);
  rand63n w := rand63n (pg_clock w);
  wait d w := let '(b, c) := wait d (pg_clock w) in
              (b, mkPgw c (pg_rows w) (pg_open w) (pg_next w) (pg_commits w))
}.

Lemma pgw_wait d (w : pgw) :
  wait d w = ((wait d (pg_clock w)).1,
              mkPgw (wait d (pg_clock w)).2 (pg_rows w) (pg_open w) (pg_next w) (pg_commits w)).
Proof. cbn. by destruct (_ <? _). Qed.

#[export] Instance pgw_world_laws : WorldLaws pgw.
Proof.
  split.
  - intros w n. apply (rand63n_range (pg_clock w)).
  - intros d w e He. rewrite pgw_wait. apply (wait_ctx d (pg_clock w) e He).
  - intros d w. rewrite pgw_wait. apply (wait_done d (pg_clock w)).
Qed.

Definition fresh_tx (w : pgw) : txid := fresh (dom (pg_open w)).

#[export] Instance pgw_pool : PgPool pgw (list string) := {
  pool_begin w :=
    let tx := fresh_tx w in
    (Ok tx, mkPgw (pg_clock w) (pg_rows w) (<[tx := pg_rows w]> (pg_open w)) (pg_next w) (pg_commits w));
  tx_commit tx w :=
    let rows := match head (pg_commits w) with
                | Some (Some e) => if isRetryablePgError (Some e) then pg_rows w
                                   else default [] (pg_open w !! tx)
                | _ => default [] (pg_open w !! tx)
                end in
    (default None (head (pg_commits w)),
     mkPgw (pg_clock w) rows (delete tx (pg_open w)) (pg_next w) (tail (pg_commits w)));
  tx_rollback tx w :=
    (None, mkPgw (pg_clock w) (pg_rows w) (delete tx (pg_open w)) (pg_next w) (pg_commits w));
  committed w := pg_rows w;
  pending tx w := default [] (pg_open w !! tx);
  open_txs w := dom (pg_open w)
}.

#[export] Instance pgw_pool_laws : PgPoolLaws pgw (list string).
Proof.
  split.
  - intros w tx w' [= <- <-]. cbn. rewrite lookup_insert_eq, dom_insert_L. repeat split.
    + unfold fresh_tx. apply is_fresh.
    + set_solver.
  - done.
  - intros tx w err w' [= <- <-]. cbn -[isRetryablePgError]. rewrite dom_delete_L. split; [done|].
    destruct (pg_commits w) as [|[e|] cs]; [done| |done]. cbn.
    change (match as_pg e with Some _ => _ | None => false end) with (isRetryablePgError (Some e)).
    destruct (isRetryablePgError (Some e)) eqn:Er; [by left|]. right. split; [|reflexivity].
    rewrite <- isRetryable_rolled_back. congruence.
  - intros tx w err w' [= <- <-]. cbn. by rewrite dom_delete_L.
Qed.

(** INSERT of a key inside a transaction; a duplicate key is error 23505. *)
Definition insert_key (k : string) (tx : txid) (w : pgw) : fnres * pgw :=
  let rows := default [] (pg_open w !! tx) in
  if bool_decide (k ∈ rows)
  then (FnRet (Some (PgErr (mkPg "23505" "duplicate key" "" ""))), w)
  else match pg_open w !! tx with
       | Some rows =>
           (FnRet None,
            mkPgw (pg_clock w) (pg_rows w) (<[tx := rows ++ [k]]> (pg_open w)) (pg_next w) (pg_commits w))
       | None => (FnRet (Some (NewErr "tx is closed")), w)
       end.

Lemma insert_key_ok k : body_ok (insert_key k).
Proof.
  intros tx w r w' Htx. unfold insert_key. case_bool_decide; [by intros [= <- <-]|].
  destruct (pg_open w !! tx) as [rows|] eqn:E; intros [= <- <-]; cbn in *; [|done].
  split; [|done]. rewrite dom_insert_L. set_solver.
Qed.

(** ** Theorems *)

Section theorems.
Context {W Store : Type} `{World W} `{!WorldLaws W} `{PgPoolLaws W Store}.

(** C2. Transactions are atomic and leave nothing open: when WithTransaction
    returns nil, the committed store is exactly what fn's transaction saw when
    fn returned; when it returns an error (of begin, fn, rollback or commit),
    the committed store is unchanged, except that when fn returned nil and the
    commit itself answered with an error other than a serialization failure or a
    deadlock (its answer may have been lost) all of fn's writes may have taken
    effect, never a part of them, and the error wraps that answer.  In all these
    cases the set of open transactions is as before.  When fn panics nothing is
    committed but the transaction stays open. *)
Theorem WithTransaction_atomic fn (w : W) r w' :
  body_ok fn -> WithTransaction fn w = (r, w') -> atomic_run fn w r w'.
Proof. apply WithTransaction_run. Qed.

(** Bodies compose: calls that join the ambient transaction make a body. *)
Lemma body_ok_seq (f g : txid -> W -> fnres * W) :
  body_ok f -> body_ok g ->
  body_ok (fun tx w => match f tx w with (FnRet None, w) => g tx w | r => r end).
Proof.
  intros Hf Hg tx w r w' Htx. destruct (f tx w) as [[[e|]|] w1] eqn:E.
  - intros [= <- <-]. by eapply Hf.
  - intros Hr. destruct (Hf tx w _ _ Htx E) as [Ho1 Hc1]. rewrite <- Ho1 in Htx.
    destruct (Hg tx w1 _ _ Htx Hr) as [Ho2 Hc2]. split; congruence.
  - intros [= <- <-]. by eapply Hf.
Qed.

(** C31. Nested InTransaction calls form one atomic unit: a service that runs
    two operations, each wrapped in its own InTransaction, inside one outer
    InTransaction commits both or neither, through a single transaction; when it
    returns an error nothing is committed, unless both operations returned nil
    and the commit's own answer is an error that leaves its outcome open. *)
Theorem InTransaction_nested_atomic (f g : txid -> W -> fnres * W) (w : W) r w' :
  body_ok f -> body_ok g ->
  InTransaction None (fun ctx _ w =>
    match InTransaction ctx (fun _ => f) w with
    | (FnRet None, w) => InTransaction ctx (fun _ => g) w
    | r => r
    end) w = (r, w') ->
  atomic_run (fun tx w => match f tx w with (FnRet None, w) => g tx w | r => r end) w r w'.
Proof.
  intros Hf Hg Hr. apply (InTransaction_run (fun ctx _ w => _)) in Hr; [exact Hr|].
  by apply (body_ok_seq f g).
Qed.

Lemma tx_policy_ok rc : policy_ok (tx_policy rc).
Proof. split; [split; reflexivity|done]. Qed.

(** C32. Retrying does not break atomicity: if WithRetryableTx returns nil,
    exactly one attempt took effect — the last one, begun on the store the
    caller started from; if it returns an error, no attempt took effect, unless
    the last attempt's fn returned nil and its commit answered with an error that
    leaves the outcome open (which is never retried): then that one attempt may
    have taken effect, on the store the caller started from.  No transaction is
    left open unless fn panics.  (Waiting between attempts does not touch the
    database.) *)
Theorem WithRetryableTx_atomic fn cfg (w : W) r w' tr :
  (forall d w, committed (wait d w).2 = committed w /\ open_txs (wait d w).2 = open_txs w) ->
  body_ok fn -> WithRetryableTx fn cfg w = (r, w', tr) ->
  match r with
  | FnRet (Some e) =>
      open_txs w' = open_txs w
      /\ (committed w' = committed w
          \/ exists w0, committed w0 = committed w /\ open_txs w0 = open_txs w /\ commit_unknown fn w0 e w')
  | _ => exists w0, committed w0 = committed w /\ open_txs w0 = open_txs w /\ atomic_run fn w0 r w'
  end.
Proof.
  intros Hwait Hfn. unfold WithRetryableTx, retryTx.
  destruct (Retry _ _ _ w) as [[r1 w1] tr1] eqn:El.
  apply Retry_run in El; [|apply tx_policy_ok|done]. cbn [fold_left WithRetryable retryable onRetry] in El.
  apply (retry_run_inv _ _ _ _ _ _ _ _ _
    (fun w1 => committed w1 = committed w /\ open_txs w1 = open_txs w)
    (fun e w1 => open_txs w1 = open_txs w
       /\ (committed w1 = committed w
           \/ exists w0, committed w0 = committed w /\ open_txs w0 = open_txs w /\ commit_unknown fn w0 e w1))
    (fun r1 w1 => exists w0, committed w0 = committed w /\ open_txs w0 = open_txs w
                             /\ atomic_run fn w0 r1 w1)) in El;
    [| | |by intros w2 e [? ?] _; auto|done].
  - intros E. destruct r1 as [[e|]|]; [|by injection E as <- <- <-..].
    destruct (isRetryablePgError (Some e)) eqn:Hr; injection E as <- <- <-; [|done].
    destruct El as [Ho [Hc|(w0 & _ & _ & Hu)]]; [auto|].
    exfalso. destruct Hu as (tx & wa & wb & ce & _ & _ & _ & Hk & -> & _).
    by apply isRetryable_rolled_back in Hr.
  - intros w2 r2 w3 [Hc Ho] Hr. apply WithTransaction_run in Hr; [|done].
    destruct r2 as [[e|]|]; [|by exists w2..]. split.
    + destruct Hr as [Ho' [Hc'|Hu]]; (split; [congruence|]); [left; congruence|right; by exists w2].
    + intros Hre. destruct (retried_attempt _ _ _ _ Hr Hre). split; congruence.
  - intros d w2 [Hc Ho]. destruct (Hwait d w2). split; congruence.
Qed.
End theorems.

Definition pgw0 (commits : list error) : pgw := mkPgw (mkClock 0 Second) ["a"] ∅ O commits.
Definition serialization : error := Some (PgErr (mkPg "40001" "could not serialize" "" "")).

Definition conn_reset : error := Some (NewErr "connection reset by peer").

(** A commit that succeeds; one whose answer is lost is reported as an error and
    has taken effect. *)
Lemma WithTransaction_atomic_witness :
  atomic_run (insert_key "b") (pgw0 []) (FnRet None) (WithTransaction (insert_key "b") (pgw0 [])).2
  /\ committed (WithTransaction (insert_key "b") (pgw0 [])).2 = ["a"; "b"]
  /\ committed (WithTransaction (insert_key "b") (pgw0 [serialization])).2 = ["a"]
  /\ committed (WithTransaction (insert_key "b") (pgw0 [conn_reset])).2 = ["a"; "b"].
Proof.
  split; [|vm_compute; repeat split].
  apply (WithTransaction_atomic (insert_key "b") (pgw0 [])); [apply insert_key_ok | vm_compute; reflexivity].
Defined.

Lemma InTransaction_nested_atomic_witness :
  exists w', committed w' = ["a"] /\
    atomic_run (fun tx w => match insert_key "b" tx w with
                            | (FnRet None, w) => insert_key "a" tx w | r => r end)
      (pgw0 []) (FnRet (Some (PgErr (mkPg "23505" "duplicate key" "" "")))) w'.
Proof.
  eexists. split; cycle 1.
  - apply (InTransaction_nested_atomic (insert_key "b") (insert_key "a") (pgw0 []));
      [apply insert_key_ok | apply insert_key_ok | vm_compute; reflexivity].
  - reflexivity.
Defined.

(** The first commit fails to serialize, the second attempt commits. *)
Lemma WithRetryableTx_atomic_witness :
  let out := WithRetryableTx (insert_key "b") [] (pgw0 [serialization]) in
  out.1.1 = FnRet None /\ committed out.1.2 = ["a"; "b"]
  /\ exists w0, committed w0 = committed (pgw0 [serialization]) /\ open_txs w0 = open_txs (pgw0 [serialization])
      /\ atomic_run (insert_key "b") w0 (FnRet None) out.1.2.
Proof.
  split; [vm_compute; reflexivity|]. split; [vm_compute; reflexivity|].
  apply (WithRetryableTx_atomic (insert_key "b") [] (pgw0 [serialization]) (FnRet None)
    (WithRetryableTx (insert_key "b") [] (pgw0 [serialization])).1.2
    (WithRetryableTx (insert_key "b") [] (pgw0 [serialization])).2).
  - intros d w0. cbn. destruct (_ <? _); split; reflexivity.
  - apply insert_key_ok.
  - vm_compute. reflexivity.
Defined.

(** A panicking body leaves its transaction (and its pooled connection) open. *)
Example panic_leaks_tx :
  open_txs (WithTransaction (fun _ w => (FnPanic, w)) (pgw0 [])).2 = {[ O ]}.
Proof. vm_compute. reflexivity. Qed.

(** After a failed unlock the connection goes back to the pool, not closed. *)
Example advisory_unlock_failure :
  (WithAdvisoryLock None None (Some context_Canceled) (fun w : unit => (FnRet None, w)) tt).2
  = [Acquired; Locked; RanFn; Unlocked (Some context_Canceled); Released].
Proof. reflexivity. Qed.
