(* ===== verification/Dao.v ===== *)
(** * Dao: database/postgres/dao and database/postgres/repository

    The generic data-access layer, over the [Querier] interface it is written
    against.  A statement handed to the database is kept as the query structure
    the DAO filled in; [stmt_sql] is the text and the arguments that reach
    pgx.  An operation is a computation [M W A]: a result or an error, and the
    world after it. *)

From S2P Require Import Prelude GoStrings Errors SqlQuery Transaction.

(** ** The error-state monad *)

Definition M (W A : Type) : Type := W -> res A * W.

#[export] Instance M_ret {W} : MRet (M W) := fun A x w => (Ok x, w).
#[export] Instance M_bind {W} : MBind (M W) := fun A B f m w =>
  match m w with
  | (Ok x, w) => f x w
  | (Err e, w) => (Err e, w)
  end.

Definition fail {W A} (e : goerr) : M W A := fun w => (Err e, w).

(** dao/errors.go *)
Definition MapPgError (e : goerr) : goerr :=
  match MapPostgresError (Some e) with Some e' => e' | None => e end.

Definition ErrStaleVersion : goerr :=
  DxErr (NewConflict "resource was modified by another update (stale version)" []).

(** Translate the error of a computation. *)
Definition mapping_error {W A} (m : M W A) : M W A := fun w =>
  match m w with (Err e, w) => (Err (MapPgError e), w) | r => r end.

(** ** The database *)

(** A DAO is bound to the pool or to a transaction. *)
Inductive conn := OnPool | OnTx (tx : txid).

Inductive stmt :=
  | StSelect (q : SelectQuery)
  | StInsert (q : InsertQuery)
  | StUpdate (q : UpdateQuery)
  | StDelete (q : DeleteQuery)
  | StUpsert (q : UpsertQuery)
  | StRaw (sql : string) (args : list goany).

(** The SQL text and arguments; [order] is how BuildUpdate's loop visits Set. *)
Definition stmt_sql (order : gmap string goany -> list (string * goany)) (s : stmt)
  : string * list goany :=
  match s with
  | StSelect q => BuildSelect q
  | StInsert q => BuildInsert q
  | StUpdate q => BuildUpdate (order (u_set q)) q
  | StDelete q => BuildDelete q
  | StUpsert q => BuildUpsert q
  | StRaw sql args => (sql, args)
  end.

(** Query/QueryRow/Exec of pgx.  The result of Query is itself fallible: reading
    the rows can fail after Query succeeded. *)
Class Querier (W T : Type) := {
  q_query : conn -> stmt -> M W (res (list T));
  q_count : conn -> stmt -> M W Z;         (* QueryRow(...).Scan(&int64) *)
  q_scan : conn -> stmt -> M W unit;       (* QueryRow(...).Scan(dest...) *)
  q_exec : conn -> stmt -> M W Z;          (* RowsAffected *)
  q_copy : option (conn -> string -> list string -> list (list goany) -> M W Z)
}.

Record Page (T : Type) := mkPage {
  pg_data : list T; pg_total : Z; pg_limit : Z; pg_offset : Z; pg_hasNext : bool
}.
Arguments mkPage {T}.
Arguments pg_data {T}.
Arguments pg_total {T}.
Arguments pg_limit {T}.
Arguments pg_offset {T}.
Arguments pg_hasNext {T}.

Record BaseDAO := mkDAO {
  DB : conn;
  TableName : string;
  IDColumn : string;
  softDeleteColumn : string;
  softDeleteDeleted : string;
  softDeleteActive : string;
  unscoped : bool;
  auditCreatedBy : string;
  auditUpdatedBy : string
}.

Definition Option_ := BaseDAO -> BaseDAO.

Definition NewBaseDAO (db : conn) (tableName : string) : BaseDAO :=
  mkDAO db tableName "id" "" "" "" false "" "".

Definition WithSoftDeleteFilter (column : string) : Option_ := fun d =>
  mkDAO (DB d) (TableName d) (IDColumn d) column (softDeleteDeleted d) (softDeleteActive d)
        (unscoped d) (auditCreatedBy d) (auditUpdatedBy d).
Definition WithIDColumn (column : string) : Option_ := fun d =>
  mkDAO (DB d) (TableName d) column (softDeleteColumn d) (softDeleteDeleted d) (softDeleteActive d)
        (unscoped d) (auditCreatedBy d) (auditUpdatedBy d).
Definition WithSoftDeleteValues (deleted active : string) : Option_ := fun d =>
  mkDAO (DB d) (TableName d) (IDColumn d) (softDeleteColumn d) deleted active
        (unscoped d) (auditCreatedBy d) (auditUpdatedBy d).
Definition WithAuditColumns (createdBy updatedBy : string) : Option_ := fun d =>
  mkDAO (DB d) (TableName d) (IDColumn d) (softDeleteColumn d) (softDeleteDeleted d)
        (softDeleteActive d) (unscoped d) createdBy updatedBy.

Definition NewBaseDAOWith (db : conn) (tableName : string) (opts : list Option_) : BaseDAO :=
  fold_left (fun d o => o d) opts (NewBaseDAO db tableName).

(** [describer] is what T's TableName()/IDColumn() return when T (or its pointer)
    implements TableDescriber; [None] as the result is the panic. *)
Definition NewBaseDAOFromEntity (describer : option (string * string)) (db : conn)
    (opts : list Option_) : option BaseDAO :=
  match describer with
  | Some (table, idcol) =>
      Some (fold_left (fun d o => o d) opts (WithIDColumn idcol (NewBaseDAO db table)))
  | None => None
  end.

Definition WithTx (tx : txid) (d : BaseDAO) : BaseDAO :=
  mkDAO (OnTx tx) (TableName d) (IDColumn d) (softDeleteColumn d) (softDeleteDeleted d)
        (softDeleteActive d) (unscoped d) (auditCreatedBy d) (auditUpdatedBy d).
Definition Unscoped (d : BaseDAO) : BaseDAO :=
  mkDAO (DB d) (TableName d) (IDColumn d) (softDeleteColumn d) (softDeleteDeleted d)
        (softDeleteActive d) true (auditCreatedBy d) (auditUpdatedBy d).

Definition deletedValue (d : BaseDAO) : string :=
  if bool_decide (softDeleteDeleted d <> "") then softDeleteDeleted d else "DELETED".
Definition activeValue (d : BaseDAO) : string :=
  if bool_decide (softDeleteActive d <> "") then softDeleteActive d else "ACTIVE".

Definition withSoftDeleteFilter (d : BaseDAO) (cs : list Condition) : list Condition :=
  if bool_decide (softDeleteColumn d = "") || unscoped d then cs
  else cs ++ [cond (softDeleteColumn d) OpNotEq (AStr (deletedValue d))].

(** The actor a context carries (WithActor / ActorFromContext). *)
Definition actorctx := option string.
Definition WithActor (ctx : actorctx) (actor : string) : actorctx := Some actor.
Definition ActorFromContext (ctx : actorctx) : option string :=
  match ctx with Some a => if bool_decide (a <> "") then Some a else None | None => None end.

Definition set_default (col actor : string) (m : gmap string goany) : gmap string goany :=
  match m !! col with Some _ => m | None => <[col := AStr actor]> m end.

Definition auditInsert (d : BaseDAO) (ctx : actorctx) (m : gmap string goany) : gmap string goany :=
  match ActorFromContext ctx with
  | None => m
  | Some actor =>
      if bool_decide (auditCreatedBy d = "") && bool_decide (auditUpdatedBy d = "") then m
      else
        let m := if bool_decide (auditCreatedBy d <> "") then set_default (auditCreatedBy d) actor m else m in
        if bool_decide (auditUpdatedBy d <> "") then set_default (auditUpdatedBy d) actor m else m
  end.

Definition auditUpdate (d : BaseDAO) (ctx : actorctx) (set : gmap string goany) : gmap string goany :=
  match ActorFromContext ctx with
  | None => set
  | Some actor => if bool_decide (auditUpdatedBy d = "") then set
                  else set_default (auditUpdatedBy d) actor set
  end.

Definition auditUpdateColumns (d : BaseDAO) (cols : list string) : list string :=
  if bool_decide (auditUpdatedBy d = "") then cols
  else if bool_decide (auditUpdatedBy d ∈ cols) then cols
  else cols ++ [auditUpdatedBy d].

Definition splitMap (m : gmap string goany) : list string * list goany :=
  let columns := sort_strings (map fst (map_to_list m)) in
  (columns, map (fun col => default ANil (m !! col)) columns).

(** A select with only the listed parts set. *)
Definition select_from (table : string) (cs : list Condition) (os : list OrderBy) (limit offset : Z)
  : SelectQuery :=
  mkSelect table false [] [] cs [] [] os limit offset false.
Definition count_from (table : string) (joins : list Join) (cs : list Condition) : SelectQuery :=
  mkSelect table false ["COUNT(*) AS count"] joins cs [] [] [] 0 0 false.

(** pgx.CollectOneRow / pgx.CollectRows *)
Definition collect_one {T} (r : res (list T)) : res T :=
  match r with
  | Ok (x :: _) => Ok x
  | Ok [] => Err pgx_ErrNoRows
  | Err e => Err e
  end.

Section dao.
Context {W T : Type} `{Querier W T}.

Definition lift {A} (r : res A) : M W A := fun w => (r, w).

Definition selectOne (d : BaseDAO) (s : stmt) : M W T :=
  mapping_error (rows ← q_query (DB d) s; lift (collect_one rows)).
Definition selectMany (d : BaseDAO) (s : stmt) : M W (list T) :=
  mapping_error (rows ← q_query (DB d) s; lift rows).

(** *** base.go *)
Definition FindByID (d : BaseDAO) (id : string) : M W T :=
  selectOne d (StSelect (select_from (TableName d)
    (withSoftDeleteFilter d [cond (IDColumn d) OpEq (AStr id)]) [] 1 0)).
Definition FindOne (d : BaseDAO) (cs : list Condition) : M W T :=
  selectOne d (StSelect (select_from (TableName d) (withSoftDeleteFilter d cs) [] 1 0)).
Definition FindAll (d : BaseDAO) (cs : list Condition) : M W (list T) :=
  selectMany d (StSelect (select_from (TableName d) (withSoftDeleteFilter d cs) [] 0 0)).
Definition FindAllOrdered (d : BaseDAO) (cs : list Condition) (os : list OrderBy) : M W (list T) :=
  selectMany d (StSelect (select_from (TableName d) (withSoftDeleteFilter d cs) os 0 0)).
Definition dao_Select (d : BaseDAO) (sql : string) (args : list goany) : M W (list T) :=
  selectMany d (StRaw sql args).
Definition dao_SelectOne (d : BaseDAO) (sql : string) (args : list goany) : M W T :=
  selectOne d (StRaw sql args).
Definition dao_Exec (d : BaseDAO) (sql : string) (args : list goany) : M W Z :=
  mapping_error (q_exec (DB d) (StRaw sql args)).

(** *** extras.go *)
Definition FindByIDs (d : BaseDAO) (ids : list string) : M W (list T) :=
  match ids with
  | [] => mret []
  | _ => FindAll d [cond (IDColumn d) OpIn (AStrs ids)]
  end.

(** *** count.go, exists.go *)
Definition dao_Count (d : BaseDAO) (cs : list Condition) : M W Z :=
  mapping_error (q_count (DB d) (StSelect (count_from (TableName d) [] (withSoftDeleteFilter d cs)))).

Definition page_of (data : list T) (total limit offset : Z) : Page T :=
  mkPage data total limit offset (wrap64 (offset + Z.of_nat (length data)) <? total).

Definition FindPage (d : BaseDAO) (cs : list Condition) (os : list OrderBy) (limit offset : Z)
  : M W (Page T) :=
  let limit := if limit <=? 0 then 10 else limit in
  let offset := if offset <? 0 then 0 else offset in
  total ← dao_Count d cs;
  if offset <? total
  then data ← selectMany d (StSelect (select_from (TableName d) (withSoftDeleteFilter d cs) os limit offset));
       mret (page_of data total limit offset)
  else mret (page_of [] total limit offset).

(** CountBy: [scan] reads a (key, count) row. *)
Definition CountBy (scan : T -> res (string * Z)) (d : BaseDAO) (column : string) (cs : list Condition)
  : M W (gmap string Z) :=
  mapping_error (
    rows ← q_query (DB d) (StSelect (mkSelect (TableName d) false [column; "COUNT(*) AS count"] []
             (withSoftDeleteFilter d cs) [column] [] [] 0 0 false));
    rows ← lift rows;
    lift (fold_left (fun acc row =>
      match acc, scan row with
      | Ok m, Ok (k, n) => Ok (<[k := n]> m)
      | Err e, _ => Err e
      | _, Err e => Err e
      end) rows (Ok ∅))).

(** A NotFound error means "no". *)
Definition found {A} (m : M W A) : M W bool := fun w =>
  match m w with
  | (Ok _, w) => (Ok true, w)
  | (Err e, w) => if IsNotFoundError (Some e) then (Ok false, w) else (Err e, w)
  end.

Definition dao_Exists (d : BaseDAO) (cs : list Condition) : M W bool := found (FindOne d cs).

(** *** insert.go *)
Definition dao_Insert (d : BaseDAO) (columns : list string) (values : list goany) : M W unit :=
  mapping_error (_ ← q_exec (DB d) (StInsert (mkInsert (TableName d) columns values [])); mret tt).

Definition InsertIgnore (d : BaseDAO) (columns : list string) (values : list goany) (conflictColumn : string)
  : M W bool :=
  if negb (bool_decide (length columns = length values))
  then fail (NewErr ("dao.InsertIgnore: " +:+ itoa (Z.of_nat (length columns)) +:+ " columns but "
                     +:+ itoa (Z.of_nat (length values)) +:+ " values"))
  else
    let placeholders := imap (fun i _ => placeholder (Z.of_nat i + 1)) values in
    let sql := "INSERT INTO " +:+ TableName d +:+ " (" +:+ join ", " columns +:+ ") VALUES ("
               +:+ join ", " placeholders +:+ ") ON CONFLICT (" +:+ conflictColumn +:+ ") DO NOTHING" in
    mapping_error (n ← q_exec (DB d) (StRaw sql values); mret (0 <? n)).

Definition InsertMap (d : BaseDAO) (ctx : actorctx) (m : gmap string goany) : M W T :=
  let '(columns, values) := splitMap (auditInsert d ctx m) in
  selectOne d (StInsert (mkInsert (TableName d) columns values ["*"])).

Definition InsertReturning (d : BaseDAO) (columns : list string) (values : list goany)
    (returning : list string) : M W unit := fun w =>
  match q_scan (DB d) (StInsert (mkInsert (TableName d) columns values returning)) w with
  | (Err e, w) => let e' := MapPgError e in
                  (Err (WrapErr ("InsertReturning: " +:+ error_text e') e'), w)
  | r => r
  end.

(** *** batch.go *)
Definition CopyFrom (d : BaseDAO) (columns : list string) (rows : list (list goany)) : M W Z :=
  match q_copy with
  | None => fail (NewErr "dao.CopyFrom: underlying connection does not support CopyFrom")
  | Some copy => mapping_error (copy (DB d) (TableName d) columns rows)
  end.

Fixpoint values_rows (i : Z) (ncols : nat) (rows : list (list goany)) (st : binding)
  : res (list string * binding) :=
  match rows with
  | [] => Ok ([], st)
  | row :: rows' =>
      if negb (bool_decide (length row = ncols))
      then Err (NewErr ("dao.InsertMany: row " +:+ itoa i +:+ " has " +:+ itoa (Z.of_nat (length row))
                        +:+ " values, want " +:+ itoa (Z.of_nat ncols)))
      else
        let '(ps, st) := render_list bind_arg row st in
        match values_rows (i + 1) ncols rows' st with
        | Ok (gs, st) => Ok (("(" +:+ join "," ps +:+ ")") :: gs, st)
        | Err e => Err e
        end
  end.

Definition InsertMany (d : BaseDAO) (columns : list string) (rows : list (list goany)) : M W unit :=
  match rows with
  | [] => mret tt
  | _ =>
      match values_rows 0 (length columns) rows ([], 1) with
      | Err e => fail e
      | Ok (groups, (args, _)) =>
          let sql := "INSERT INTO " +:+ TableName d +:+ " (" +:+ join ", " columns +:+ ") VALUES "
                     +:+ join ", " groups in
          mapping_error (_ ← q_exec (DB d) (StRaw sql args); mret tt)
      end
  end.

(** *** update.go *)
Definition dao_Update (d : BaseDAO) (ctx : actorctx) (set : gmap string goany) (cs : list Condition)
  : M W unit :=
  mapping_error (_ ← q_exec (DB d) (StUpdate (mkUpdate (TableName d) (auditUpdate d ctx set) [] cs []));
                 mret tt).
Definition UpdateReturning (d : BaseDAO) (ctx : actorctx) (set : gmap string goany) (cs : list Condition)
  : M W T :=
  selectOne d (StUpdate (mkUpdate (TableName d) (auditUpdate d ctx set) [] cs ["*"])).
Definition dao_Upsert (d : BaseDAO) (ctx : actorctx) (m : gmap string goany) (conflictColumn : string)
    (updateColumns : list string) : M W T :=
  let '(columns, values) := splitMap (auditInsert d ctx m) in
  selectOne d (StUpsert (mkUpsert (TableName d) columns values conflictColumn
                           (auditUpdateColumns d updateColumns) ["*"])).
Definition UpdateVersioned (d : BaseDAO) (set : gmap string goany) (cs : list Condition)
    (versionCol : string) (expected : Z) : M W T := fun w =>
  let q := mkUpdate (TableName d) set [versionCol] (cs ++ [cond versionCol OpEq (AInt expected)]) ["*"] in
  match q_query (DB d) (StUpdate q) w with
  | (Err e, w) => (Err (MapPgError e), w)
  | (Ok rows, w) =>
      match collect_one rows with
      | Ok x => (Ok x, w)
      | Err e => if errors_is e "pgx.ErrNoRows" then (Err ErrStaleVersion, w) else (Err (MapPgError e), w)
      end
  end.
Definition UpdateByIDs (d : BaseDAO) (ctx : actorctx) (ids : list string) (set : gmap string goany)
  : M W unit :=
  match ids with
  | [] => mret tt
  | _ => dao_Update d ctx set [cond (IDColumn d) OpIn (AStrs ids)]
  end.

(** *** delete.go *)
Definition SoftDelete (d : BaseDAO) (id : string) : M W unit := fun w =>
  match q_exec (DB d) (StDelete (mkDelete (TableName d) [cond (IDColumn d) OpEq (AStr id)] true)) w with
  | (Err e, w) => (Err (MapPgError e), w)
  | (Ok n, w) => if n =? 0 then (Err (MapPgError pgx_ErrNoRows), w) else (Ok tt, w)
  end.
Definition HardDelete (d : BaseDAO) (cs : list Condition) : M W unit :=
  mapping_error (_ ← q_exec (DB d) (StDelete (mkDelete (TableName d) cs false)); mret tt).
Definition DeleteByIDs (d : BaseDAO) (ids : list string) : M W unit :=
  match ids with
  | [] => mret tt
  | _ => HardDelete d [cond (IDColumn d) OpIn (AStrs ids)]
  end.
Definition Restore (d : BaseDAO) (ctx : actorctx) (id : string) : M W unit :=
  if bool_decide (softDeleteColumn d = "")
  then fail (NewErr "dao: Restore requires WithSoftDeleteFilter configuration")
  else dao_Update (Unscoped d) ctx {[ softDeleteColumn d := AStr (activeValue d) ]}
         [cond (IDColumn d) OpEq (AStr id)].
End dao.

(** ** finder.go *)

Record Finder := mkFinder {
  f_dao : BaseDAO; f_conditions : list Condition; f_orderBy : list OrderBy; f_limit : Z; f_offset : Z;
  f_joins : list Join; f_columns : list string; f_groupBy : list string; f_having : list Condition;
  f_distinct : bool
}.

Definition Query (d : BaseDAO) : Finder := mkFinder d [] [] 0 0 [] [] [] [] false.
Definition Finder_Where (cs : list Condition) (f : Finder) : Finder :=
  mkFinder (f_dao f) (f_conditions f ++ cs) (f_orderBy f) (f_limit f) (f_offset f) (f_joins f)
    (f_columns f) (f_groupBy f) (f_having f) (f_distinct f).
Definition add_order (o : OrderBy) (f : Finder) : Finder :=
  mkFinder (f_dao f) (f_conditions f) (f_orderBy f ++ [o]) (f_limit f) (f_offset f) (f_joins f)
    (f_columns f) (f_groupBy f) (f_having f) (f_distinct f).
Definition Finder_OrderBy (column : string) : Finder -> Finder := add_order (mkOrder column false).
Definition Finder_OrderByDesc (column : string) : Finder -> Finder := add_order (mkOrder column true).
Definition Finder_Limit (n : Z) (f : Finder) : Finder :=
  mkFinder (f_dao f) (f_conditions f) (f_orderBy f) n (f_offset f) (f_joins f)
    (f_columns f) (f_groupBy f) (f_having f) (f_distinct f).
Definition Finder_Offset (n : Z) (f : Finder) : Finder :=
  mkFinder (f_dao f) (f_conditions f) (f_orderBy f) (f_limit f) n (f_joins f)
    (f_columns f) (f_groupBy f) (f_having f) (f_distinct f).
Definition Finder_Join (j : Join) (f : Finder) : Finder :=
  mkFinder (f_dao f) (f_conditions f) (f_orderBy f) (f_limit f) (f_offset f) (f_joins f ++ [j])
    (f_columns f) (f_groupBy f) (f_having f) (f_distinct f).
Definition Finder_Select (cols : list string) (f : Finder) : Finder :=
  mkFinder (f_dao f) (f_conditions f) (f_orderBy f) (f_limit f) (f_offset f) (f_joins f)
    (f_columns f ++ cols) (f_groupBy f) (f_having f) (f_distinct f).
Definition Finder_Distinct (f : Finder) : Finder :=
  mkFinder (f_dao f) (f_conditions f) (f_orderBy f) (f_limit f) (f_offset f) (f_joins f)
    (f_columns f) (f_groupBy f) (f_having f) true.
Definition Finder_GroupBy (cols : list string) (f : Finder) : Finder :=
  mkFinder (f_dao f) (f_conditions f) (f_orderBy f) (f_limit f) (f_offset f) (f_joins f)
    (f_columns f) (f_groupBy f ++ cols) (f_having f) (f_distinct f).
Definition Finder_Having (cs : list Condition) (f : Finder) : Finder :=
  mkFinder (f_dao f) (f_conditions f) (f_orderBy f) (f_limit f) (f_offset f) (f_joins f)
    (f_columns f) (f_groupBy f) (f_having f ++ cs) (f_distinct f).

Definition finder_query (f : Finder) (limit offset : Z) : SelectQuery :=
  mkSelect (TableName (f_dao f)) (f_distinct f) (f_columns f) (f_joins f)
    (withSoftDeleteFilter (f_dao f) (f_conditions f)) (f_groupBy f) (f_having f) (f_orderBy f)
    limit offset false.

Definition is_nil {A} (l : list A) : bool := match l with [] => true | _ => false end.

Section finder.
Context {W T : Type} `{Querier W T}.

Definition Finder_Find (f : Finder) : M W (list T) :=
  selectMany (f_dao f) (StSelect (finder_query f (f_limit f) (f_offset f))).
Definition Finder_One (f : Finder) : M W T :=
  selectOne (f_dao f) (StSelect (finder_query f 1 (f_offset f))).
Definition Finder_Count (f : Finder) : M W Z :=
  if is_nil (f_joins f) then dao_Count (f_dao f) (f_conditions f)
  else mapping_error (q_count (DB (f_dao f)) (StSelect (count_from (TableName (f_dao f)) (f_joins f)
         (withSoftDeleteFilter (f_dao f) (f_conditions f))))).
Definition Finder_Exists (f : Finder) : M W bool :=
  if is_nil (f_joins f) && is_nil (f_columns f) then dao_Exists (f_dao f) (f_conditions f)
  else found (selectOne (f_dao f) (StSelect (mkSelect (TableName (f_dao f)) false (f_columns f) (f_joins f)
         (withSoftDeleteFilter (f_dao f) (f_conditions f)) [] [] [] 1 0 false))).
Definition Finder_Page (f : Finder) : M W (Page T) :=
  if negb (f_distinct f) && is_nil (f_joins f) && is_nil (f_columns f) && is_nil (f_groupBy f)
     && is_nil (f_having f)
  then FindPage (f_dao f) (f_conditions f) (f_orderBy f) (f_limit f) (f_offset f)
  else
    let limit := if f_limit f <=? 0 then 10 else f_limit f in
    let offset := if f_offset f <? 0 then 0 else f_offset f in
    total ← Finder_Count f;
    if offset <? total
    then data ← selectMany (f_dao f) (StSelect (finder_query f limit offset));
         mret (page_of data total limit offset)
    else mret (page_of [] total limit offset).
End finder.

(** ** repository: the same operations on the ambient transaction *)

Record Base := mkBase { base_dao : BaseDAO }.

Record repo_config := mkRepoConfig { cfg_table : string; cfg_idCol : string; cfg_daoOpts : list Option_ }.
Definition RepoOption := repo_config -> repo_config.
Definition WithTable (table : string) : RepoOption := fun c =>
  mkRepoConfig table (cfg_idCol c) (cfg_daoOpts c).
Definition WithID (column : string) : RepoOption := fun c =>
  mkRepoConfig (cfg_table c) column (cfg_daoOpts c).
Definition WithDAOOption (opt : Option_) : RepoOption := fun c =>
  mkRepoConfig (cfg_table c) (cfg_idCol c) (cfg_daoOpts c ++ [opt]).

(** [None]: New panics (no table and R describes none). *)
Definition New_ (describer : option (string * string)) (opts : list RepoOption) : option Base :=
  let cfg := fold_left (fun c o => o c) opts (mkRepoConfig "" "" []) in
  let daoOpts := if bool_decide (cfg_idCol cfg <> "") then cfg_daoOpts cfg ++ [WithIDColumn (cfg_idCol cfg)]
                 else cfg_daoOpts cfg in
  if bool_decide (cfg_table cfg <> "")
  then Some (mkBase (NewBaseDAOWith OnPool (cfg_table cfg) daoOpts))
  else match NewBaseDAOFromEntity describer OnPool daoOpts with
       | Some d => Some (mkBase d)
       | None => None
       end.

Definition DAO (b : Base) (ctx : txctx) : BaseDAO :=
  match TxFromContext ctx with Some tx => WithTx tx (base_dao b) | None => base_dao b end.
Definition Base_Unscoped (b : Base) : Base := mkBase (Unscoped (base_dao b)).
Definition Base_Query (b : Base) (ctx : txctx) : Finder := Query (DAO b ctx).

(** sqlcx.DB *)
Definition sqlcx_DB (ctx : txctx) : conn :=
  match TxFromContext ctx with Some tx => OnTx tx | None => OnPool end.

(** repository/sql.go: a Base with a service's generated queries, which are built over a connection. *)
Record BaseWithSQL (Q : Type) := mkBaseSQL { bws_base : Base; bws_sql : Q }.
Arguments mkBaseSQL {Q}. Arguments bws_base {Q}. Arguments bws_sql {Q}.
Definition NewWithSQL {Q} (describer : option (string * string)) (sql : Q) (opts : list RepoOption) : option (BaseWithSQL Q) :=
  match New_ describer opts with Some b => Some (mkBaseSQL b sql) | None => None end.
Definition SQL {Q} (b : BaseWithSQL Q) : Q := bws_sql b.

Section repository.
Context {W T : Type} `{Querier W T}.
Variables (b : Base) (ctx : txctx) (actor : actorctx).

Definition repo_FindByID (id : string) : M W T := FindByID (DAO b ctx) id.
Definition repo_FindOne (cs : list Condition) : M W T := FindOne (DAO b ctx) cs.
Definition repo_FindAll (cs : list Condition) : M W (list T) := FindAll (DAO b ctx) cs.
Definition repo_FindAllOrdered (cs : list Condition) (os : list OrderBy) : M W (list T) :=
  FindAllOrdered (DAO b ctx) cs os.
Definition repo_InsertMap (m : gmap string goany) : M W T := InsertMap (DAO b ctx) actor m.
Definition repo_Insert (cols : list string) (vs : list goany) : M W unit := dao_Insert (DAO b ctx) cols vs.
Definition repo_InsertIgnore (cols : list string) (vs : list goany) (c : string) : M W bool :=
  InsertIgnore (DAO b ctx) cols vs c.
Definition repo_InsertReturning (cols : list string) (vs : list goany) (ret : list string) : M W unit :=
  InsertReturning (DAO b ctx) cols vs ret.
Definition repo_Update (set : gmap string goany) (cs : list Condition) : M W unit :=
  dao_Update (DAO b ctx) actor set cs.
Definition repo_UpdateReturning (set : gmap string goany) (cs : list Condition) : M W T :=
  UpdateReturning (DAO b ctx) actor set cs.
Definition repo_Upsert (m : gmap string goany) (c : string) (cols : list string) : M W T :=
  dao_Upsert (DAO b ctx) actor m c cols.
Definition repo_UpdateVersioned (set : gmap string goany) (cs : list Condition) (v : string) (n : Z) : M W T :=
  UpdateVersioned (DAO b ctx) set cs v n.
Definition repo_SoftDelete (id : string) : M W unit := SoftDelete (DAO b ctx) id.
Definition repo_Restore (id : string) : M W unit := Restore (DAO b ctx) actor id.
Definition repo_HardDelete (cs : list Condition) : M W unit := HardDelete (DAO b ctx) cs.
Definition repo_Select (sql : string) (args : list goany) : M W (list T) := dao_Select (DAO b ctx) sql args.
Definition repo_SelectOne (sql : string) (args : list goany) : M W T := dao_SelectOne (DAO b ctx) sql args.
Definition repo_Exec (sql : string) (args : list goany) : M W Z := dao_Exec (DAO b ctx) sql args.
Definition repo_FindPage (cs : list Condition) (os : list OrderBy) (limit offset : Z) : M W (Page T) :=
  FindPage (DAO b ctx) cs os limit offset.
Definition repo_Count (cs : list Condition) : M W Z := dao_Count (DAO b ctx) cs.
Definition repo_Exists (cs : list Condition) : M W bool := dao_Exists (DAO b ctx) cs.
Definition repo_InsertMany (cols : list string) (rows : list (list goany)) : M W unit :=
  InsertMany (DAO b ctx) cols rows.
Definition repo_CopyFrom (cols : list string) (rows : list (list goany)) : M W Z := CopyFrom (DAO b ctx) cols rows.
Definition repo_UpdateByIDs (ids : list string) (set : gmap string goany) : M W unit :=
  UpdateByIDs (DAO b ctx) actor ids set.
Definition repo_DeleteByIDs (ids : list string) : M W unit := DeleteByIDs (DAO b ctx) ids.
Definition repo_FindByIDs (ids : list string) : M W (list T) := FindByIDs (DAO b ctx) ids.
End repository.
