(* ===== verification/DaoSpec.v ===== *)
(** * DaoSpec: what the data-access layer promises, over the laws of a table

    [TableLaws] states what SELECT, COUNT and UPDATE ... RETURNING do to a
    table, as PostgreSQL documents it for the statements the DAO builds, with
    other sessions committing between and during them; the theorems use nothing
    else of the database.  The last part is a small table engine that discharges
    the laws. *)

From S2P Require Import Prelude GoStrings Errors SqlQuery Transaction Dao.

(** OFFSET and LIMIT as BuildSelect renders them (absent when not positive). *)
Definition window {T} (limit offset : Z) (l : list T) : list T :=
  let l := if 0 <? offset then skipn (Z.to_nat offset) l else l in
  if 0 <? limit then firstn (Z.to_nat limit) l else l.

(** A row satisfies a list of conditions. *)
Abbreviation all_sat sat cs := (fun r => forallb (sat r) cs).

(** [others c w w'] says that [w'] may be [w] after what other sessions have
    committed meanwhile, as connection [c] sees it.  A statement works on the
    table of one moment between its start and its end: a SELECT on a snapshot of
    it; an UPDATE that concerns at most one row, on the row it has locked and
    checked again.  The rows of a SELECT come in some order that ORDER BY allows,
    chosen anew by every statement. *)
Class TableLaws (W T : Type) `{Querier W T} := {
  rows_at : conn -> W -> string -> list T;
  field : T -> string -> goany;                        (* ANil for NULL *)
  sat : T -> Condition -> bool;                        (* the condition is true of the row *)
  before : list OrderBy -> T -> T -> Prop;             (* ORDER BY lets the first precede the second *)
  apply_update : UpdateQuery -> T -> T;
  others : conn -> W -> W -> Prop;
  others_preorder c :: PreOrder (others c);
  select_ok c w t cs os lim off rows w' :
    q_query c (StSelect (select_from t cs os lim off)) w = (Ok (Ok rows), w') ->
    exists w0 l, others c w w0 /\ others c w0 w'
      /\ l ≡ₚ List.filter (all_sat sat cs) (rows_at c w0 t) /\ StronglySorted (before os) l
      /\ rows = window lim off l;
  count_ok c w t cs n w' :
    q_count c (StSelect (count_from t [] cs)) w = (Ok n, w') ->
    exists w0, others c w w0 /\ others c w0 w'
      /\ n = Z.of_nat (length (List.filter (all_sat sat cs) (rows_at c w0 t)));
  update_ok c w q rows w' :
    u_returning q = ["*"] -> q_query c (StUpdate q) w = (Ok (Ok rows), w') ->
    (forall a, others c w a -> (length (List.filter (all_sat sat (u_conditions q)) (rows_at c a (u_table q))) <= 1)%nat) ->
    exists w0 w1, others c w w0 /\ others c w1 w'
      /\ rows = map (apply_update q) (List.filter (all_sat sat (u_conditions q)) (rows_at c w0 (u_table q)))
      /\ rows_at c w1 (u_table q) ≡ₚ
         map (fun r => if forallb (sat r) (u_conditions q) then apply_update q r else r) (rows_at c w0 (u_table q));
  (* a failure to read the rows is not the absence of rows *)
  rows_err c s w e w' : q_query c s w = (Ok (Err e), w') -> errors_is e "pgx.ErrNoRows" = false;
  sat_noteq r col v : sat r (cond col OpNotEq (AStr v)) = true -> field r col <> AStr v;
  sat_eq_int r col n : sat r (cond col OpEq (AInt n)) = true <-> field r col = AInt n;
  increment_field q r col n :
    col ∈ u_increment q -> u_set q !! col = None -> field r col = AInt n ->
    field (apply_update q r) col = AInt (n + 1)
}.

Section spec.
Context {W T : Type} `{TableLaws W T}.

Lemma selectMany_ok d s (w : W) (rows : list T) w' :
  selectMany d s w = (Ok rows, w') -> q_query (DB d) s w = (Ok (Ok rows), w').
Proof.
  unfold selectMany, mapping_error, mbind, M_bind, lift.
  destruct (q_query (DB d) s w) as [[[r|e]|e] w1]; intros [=]; by subst.
Qed.

Lemma selectOne_ok d s (w : W) (x : T) w' :
  selectOne d s w = (Ok x, w') -> exists rows, q_query (DB d) s w = (Ok (Ok rows), w') /\ x ∈ rows.
Proof.
  unfold selectOne, mapping_error, mbind, M_bind, lift.
  destruct (q_query (DB d) s w) as [[[[|r rows]|e]|e] w1]; cbn; intros [=]; subst.
  exists (x :: rows). split; [done|]. by left.
Qed.

(** The rows of the DAO's table that match, as they are in [w]. *)
Definition matching_rows (d : BaseDAO) (cs : list Condition) (w : W) : list T :=
  List.filter (all_sat sat (withSoftDeleteFilter d cs)) (rows_at (DB d) w (TableName d)).

Lemma dao_Count_ok d cs (w : W) n w' :
  dao_Count d cs w = (Ok n, w') ->
  exists w0, others (DB d) w w0 /\ others (DB d) w0 w' /\ n = Z.of_nat (length (matching_rows d cs w0)).
Proof.
  unfold dao_Count, mapping_error.
  destruct (q_count _ _ w) as [[m|e] w1] eqn:E; intros [=]; subst. by apply count_ok in E.
Qed.

Lemma window_elem {A} lim off (l : list A) x : x ∈ window lim off l -> x ∈ l.
Proof.
  unfold window. intros Hx.
  assert (x ∈ (if 0 <? off then skipn (Z.to_nat off) l else l)) as Hx'.
  { destruct (0 <? lim); [|done]. eapply (elem_of_sublist _ _ _ Hx), sublist_take. }
  destruct (0 <? off); [|done]. eapply (elem_of_sublist _ _ _ Hx'), sublist_drop.
Qed.

(** Rows the soft-delete filter admits. *)
Definition visible (d : BaseDAO) (r : T) : Prop :=
  softDeleteColumn d = "" \/ unscoped d = true
  \/ field r (softDeleteColumn d) <> AStr (deletedValue d).

Lemma selected_visible d c (w : W) cs os lim off (rows : list T) w' :
  q_query c (StSelect (select_from (TableName d) (withSoftDeleteFilter d cs) os lim off)) w = (Ok (Ok rows), w') ->
  Forall (visible d) rows.
Proof.
  intros (w0 & l & _ & _ & Hl & _ & ->)%select_ok. apply Forall_forall. intros r Hr%window_elem.
  rewrite Hl, list_elem_of_In, List.filter_In in Hr. destruct Hr as [_ Hf].
  unfold withSoftDeleteFilter, visible in *.
  destruct (decide (softDeleteColumn d = "")); [by left|]. rewrite bool_decide_eq_false_2 in Hf by done.
  destruct (unscoped d); [by right; left|]. cbn in Hf. rewrite forallb_app in Hf. cbn in Hf.
  rewrite andb_true_r, andb_true_iff in Hf. right; right. apply sat_noteq. apply Hf.
Qed.

(** Soft-deleted rows stay hidden: no row that FindByID, FindAllOrdered or
    FindPage returns carries the deleted sentinel in the soft-delete column,
    unless the DAO has no soft-delete column or is Unscoped. *)
Theorem reads_hide_deleted d (w : W) w' :
  (forall id (x : T), FindByID d id w = (Ok x, w') -> visible d x)
  /\ (forall cs os (rows : list T), FindAllOrdered d cs os w = (Ok rows, w') -> Forall (visible d) rows)
  /\ (forall cs os limit offset (p : Page T), FindPage d cs os limit offset w = (Ok p, w') ->
        Forall (visible d) (pg_data p)).
Proof.
  split; [|split].
  - intros id x Hx. apply selectOne_ok in Hx as (rows & Hq & Hx).
    apply selected_visible in Hq. rewrite Forall_forall in Hq. by apply Hq.
  - intros cs os rows Hq%selectMany_ok. by eapply selected_visible.
  - intros cs os limit offset p. unfold FindPage, mbind, M_bind.
    destruct (dao_Count d cs w) as [[n|] w1]; [|done]. destruct (_ <? n); [|by intros [= <- <-]].
    destruct (selectMany _ _ w1) as [[rows|] w2] eqn:E; [|done]. intros [= <- <-]. cbn.
    apply selectMany_ok in E. by eapply selected_visible.
Qed.

(** The slice a page shows of the matching rows in one order. *)
Definition page_slice (lim off : Z) (l : list T) : list T := firstn (Z.to_nat lim) (skipn (Z.to_nat off) l).

Lemma window_slice lim off (l : list T) : 0 < lim -> 0 <= off -> window lim off l = page_slice lim off l.
Proof.
  intros Hl Ho. unfold window, page_slice. destruct (Z.ltb_spec 0 lim); [|lia].
  destruct (Z.ltb_spec 0 off); [done|]. by replace off with 0 by lia.
Qed.

Lemma page_slice_length lim off (l : list T) :
  0 < lim -> 0 <= off -> Z.of_nat (length (page_slice lim off l)) = Z.min lim (Z.max 0 (Z.of_nat (length l) - off)).
Proof. intros Hl Ho. unfold page_slice. rewrite length_take, length_drop. lia. Qed.

(** What a successful FindPage has done. *)
Lemma FindPage_ok d cs os limit offset (w : W) (p : Page T) w' :
  let lim := if limit <=? 0 then 10 else limit in
  let off := if offset <? 0 then 0 else offset in
  FindPage d cs os limit offset w = (Ok p, w') ->
  exists w1 w2, others (DB d) w w1 /\ others (DB d) w1 w2 /\ others (DB d) w2 w'
    /\ p = page_of (pg_data p) (Z.of_nat (length (matching_rows d cs w1))) lim off
    /\ (if off <? Z.of_nat (length (matching_rows d cs w1))
        then exists all, all ≡ₚ matching_rows d cs w2 /\ StronglySorted (before os) all /\ pg_data p = page_slice lim off all
        else pg_data p = []).
Proof.
  intros lim off. unfold FindPage, mbind, M_bind. fold lim off.
  destruct (dao_Count d cs w) as [[n|] w1] eqn:Ec; [|done].
  apply dao_Count_ok in Ec as (wc & Ho1 & Ho2 & ->).
  assert (0 <= off) by (unfold off; destruct (Z.ltb_spec offset 0); lia).
  assert (0 < lim) by (unfold lim; destruct (Z.leb_spec limit 0); lia).
  destruct (off <? _) eqn:E.
  - destruct (selectMany _ _ w1) as [[rows|] w2] eqn:Es; [|done]. intros [= <- <-].
    apply selectMany_ok, select_ok in Es as (ws & all & Hs1 & Hs2 & Hp & Hsort & ->).
    rewrite window_slice by done. exists wc, ws. rewrite E. split; [done|].
    split; [by etrans|]. split; [done|]. split; [done|]. exists all. by split_and!.
  - intros [= <- <-]. exists wc, wc. rewrite E. by split_and!.
Qed.

(** C30. Pages are exact for the two moments they are read at, and for one when nothing changes
    between them: when FindPage succeeds, its total is the number of matching rows at one moment of
    the call and, when the offset is below it, its data is the slice [offset, offset+limit) (with the
    documented defaults for out-of-range arguments) of the rows matching at a later moment, in an
    order ORDER BY allows; hasNext says whether the offset plus the rows returned is below the
    total.  If the matching rows are the same at both moments, hasNext says exactly whether rows
    remain after the page; and if moreover ORDER BY leaves no ties among them, the data is the slice
    of the one sorted list of the matching rows, so that the pages of successive offsets partition it. *)
Theorem FindPage_exact d cs os limit offset (w : W) (p : Page T) w' :
  let lim := if limit <=? 0 then 10 else limit in
  let off := if offset <? 0 then 0 else offset in
  off + lim <= max_int64 ->
  FindPage d cs os limit offset w = (Ok p, w') ->
  exists w1 w2, others (DB d) w w1 /\ others (DB d) w1 w2 /\ others (DB d) w2 w'
    /\ pg_total p = Z.of_nat (length (matching_rows d cs w1)) /\ pg_limit p = lim /\ pg_offset p = off
    /\ (if off <? pg_total p
        then exists all, all ≡ₚ matching_rows d cs w2 /\ StronglySorted (before os) all /\ pg_data p = page_slice lim off all
        else pg_data p = [])
    /\ (pg_hasNext p = true <-> off + Z.of_nat (length (pg_data p)) < pg_total p)
    /\ (matching_rows d cs w1 ≡ₚ matching_rows d cs w2 ->
        (pg_hasNext p = true <-> off + lim < pg_total p)
        /\ forall l, l ≡ₚ matching_rows d cs w1 -> StronglySorted (before os) l ->
             (forall x y, x ∈ l -> y ∈ l -> before os x y -> before os y x -> x = y) ->
             pg_data p = page_slice lim off l).
Proof.
  intros lim off Hfit Hp. destruct (FindPage_ok d cs os limit offset w p w' Hp)
    as (w1 & w2 & Ho1 & Ho2 & Ho3 & Ep & Hd). fold lim off in Ep, Hd.
  assert (0 <= off) by (unfold off; destruct (Z.ltb_spec offset 0); lia).
  assert (0 < lim) by (unfold lim; destruct (Z.leb_spec limit 0); lia).
  assert (Ht : pg_total p = Z.of_nat (length (matching_rows d cs w1))) by (by rewrite Ep).
  assert (Hlen : Z.of_nat (length (pg_data p)) <= lim).
  { destruct (off <? _); [destruct Hd as (all & _ & _ & ->); rewrite page_slice_length by done; lia|].
    rewrite Hd. cbn. lia. }
  assert (Hnext : pg_hasNext p = true <-> off + Z.of_nat (length (pg_data p)) < pg_total p).
  { rewrite Ht. rewrite Ep at 1. cbn. rewrite wrap64_id, Z.ltb_lt by (unfold min_int64; lia). done. }
  exists w1, w2. rewrite <- Ht in *. split; [done|]. split; [done|]. split; [done|].
  split; [done|]. split; [by rewrite Ep|]. split; [by rewrite Ep|]. split; [done|]. split; [done|].
  intros Hsame. destruct (Z.ltb_spec off (pg_total p)) as [Hlt|Hge].
  - destruct Hd as (all & Hall & Hsort & Ed).
    assert (length all = length (matching_rows d cs w1)) as El by (by rewrite Hall, Hsame).
    split.
    + rewrite Hnext, Ed, page_slice_length, El by done. rewrite Ht. lia.
    + intros l Hl Hls Hanti. rewrite Ed. f_equal.
      apply (StronglySorted_unique_strong (before os)); try done; [|by rewrite Hall, Hl, Hsame].
      intros x y Hx Hy. apply Hanti; [|done]. by rewrite Hl, Hsame, <- Hall.
  - rewrite Hd. split; [rewrite Hnext, Hd; cbn; lia|]. intros l Hl _ _. unfold page_slice.
    rewrite skipn_all2; [by rewrite firstn_nil|].
    apply Permutation_length in Hl. lia.
Qed.

#[export] Instance List_filter_Permutation {A} (p : A -> bool) : Proper (Permutation ==> Permutation) (List.filter p).
Proof.
  intros l l'. induction 1 as [|x l l' _ IH|x y l|l1 l2 l3 _ IH1 _ IH2]; cbn.
  - done.
  - destruct (p x); [by constructor|done].
  - destruct (p x), (p y); try done. constructor.
  - by etrans.
Qed.

Lemma filter_le {A} (p q : A -> bool) l :
  (forall x, p x = true -> q x = true) -> (length (List.filter p l) <= length (List.filter q l))%nat.
Proof.
  intros Hpq. induction l as [|x l IH]; [done|]. cbn. specialize (Hpq x).
  destruct (p x); [rewrite Hpq by done; cbn; lia|]. destruct (q x); cbn; lia.
Qed.

Lemma filter_one {A} (p : A -> bool) l x rest :
  List.filter p l = x :: rest -> (length (List.filter p l) <= 1)%nat ->
  exists l1 l2, l = l1 ++ x :: l2 /\ p x = true /\ forallb (fun y => negb (p y)) (l1 ++ l2) = true.
Proof.
  revert x rest. induction l as [|y l IH]; intros x rest; cbn; [done|].
  destruct (p y) eqn:Ey.
  - intros [= -> <-] Hle. exists [], l. split; [done|]. split; [done|]. cbn in Hle |- *.
    destruct (List.filter p l) eqn:E; [|cbn in Hle; lia]. apply forallb_forall. intros z Hz.
    destruct (p z) eqn:Ez; [|done]. assert (In z (List.filter p l)) by (by apply List.filter_In). by rewrite E in H1.
  - intros Hf Hle. destruct (IH x rest Hf Hle) as (l1 & l2 & -> & Hx & Hn). exists (y :: l1), l2.
    split; [done|]. split; [done|]. cbn. by rewrite Ey.
Qed.

Lemma map_unmatched (p : T -> bool) (f : T -> T) l :
  forallb (fun y => negb (p y)) l = true -> map (fun r => if p r then f r else r) l = l.
Proof.
  intros Hl. rewrite <- map_id. apply map_ext_in. intros y Hy. rewrite forallb_forall in Hl.
  specialize (Hl y Hy). by destruct (p y).
Qed.

(** The statement UpdateVersioned sends, and the row it picks. *)
Definition versioned_update (d : BaseDAO) (set : gmap string goany) (cs : list Condition) (v : string) (n : Z) : UpdateQuery :=
  mkUpdate (TableName d) set [v] (cs ++ [cond v OpEq (AInt n)]) ["*"].

Lemma versioned_sat cs v n (x : T) :
  forallb (sat x) (cs ++ [cond v OpEq (AInt n)]) = true <-> forallb (sat x) cs = true /\ field x v = AInt n.
Proof. rewrite forallb_app. cbn. by rewrite andb_true_r, andb_true_iff, sat_eq_int. Qed.

Section key.
Variables (d : BaseDAO) (key : Condition) (v : string) (n : Z).

(** At most one row has the key; a row with the key has left version [n] behind. *)
Definition keyed (w : W) : Prop :=
  (length (List.filter (fun r => sat r key) (rows_at (DB d) w (TableName d))) <= 1)%nat.
Definition past (w : W) : Prop :=
  forall x, x ∈ rows_at (DB d) w (TableName d) -> sat x key = true -> exists m, field x v = AInt m /\ n < m.

(** No other session breaks the uniqueness of the key, or sets the version back. *)
Definition others_keep (P : W -> Prop) : Prop := forall a b, others (DB d) a b -> P a -> P b.

(** What an UpdateVersioned by key does: a compare-and-set of one row at one moment, or nothing. *)
Definition compare_and_set (set : gmap string goany) (cs : list Condition) (w : W) (r : res T) (w' : W) : Prop :=
  let table a := rows_at (DB d) a (TableName d) in
  match r with
  | Ok x' => exists w0 w1 x rest, others (DB d) w w0 /\ others (DB d) w1 w'
      /\ table w0 ≡ₚ x :: rest /\ table w1 ≡ₚ x' :: rest
      /\ forallb (sat x) cs = true /\ field x v = AInt n
      /\ x' = apply_update (versioned_update d set cs v n) x /\ field x' v = AInt (n + 1)
  | Err e => (e = ErrStaleVersion /\ exists w0 w1, others (DB d) w w0 /\ others (DB d) w1 w' /\ table w1 ≡ₚ table w0
                /\ forall x, x ∈ table w0 -> forallb (sat x) cs = true -> field x v <> AInt n)
             \/ exists e0, e = MapPgError e0
  end.

Lemma UpdateVersioned_cas set cs (w : W) r w' :
  set !! v = None -> key ∈ cs -> keyed w -> others_keep keyed ->
  UpdateVersioned d set cs v n w = (r, w') -> compare_and_set set cs w r w'.
Proof.
  intros Hset Hkey Hk Hok. unfold UpdateVersioned. fold (versioned_update d set cs v n).
  destruct (q_query (DB d) (StUpdate (versioned_update d set cs v n)) w) as [[[rows|e]|e] w1] eqn:Eq.
  - apply update_ok in Eq; [|done|]. 2: { intros a Ha. apply (Hok _ _ Ha) in Hk. unfold keyed in Hk.
      etrans; [|exact Hk]. apply filter_le. intros x [Hx _]%versioned_sat.
      rewrite forallb_forall in Hx. by apply Hx, list_elem_of_In. }
    destruct Eq as (w0 & w2 & Ho1 & Ho2 & Er & Et). cbn [u_table u_conditions versioned_update] in *.
    apply (Hok _ _ Ho1) in Hk.
    set (p := all_sat sat (cs ++ [cond v OpEq (AInt n)])) in *.
    assert (Hone : (length (List.filter p (rows_at (DB d) w0 (TableName d))) <= 1)%nat).
    { etrans; [|exact Hk]. apply filter_le. intros x [Hx _]%versioned_sat.
      rewrite forallb_forall in Hx. by apply Hx, list_elem_of_In. }
    destruct (List.filter p _) as [|x rest] eqn:Ef; cbn in Er; subst rows; intros [= <- <-].
    + left. split; [done|]. exists w0, w2. split; [done|]. split; [done|].
      assert (Hno : forall x, x ∈ rows_at (DB d) w0 (TableName d) -> p x = false).
      { intros x Hx. destruct (p x) eqn:Ex; [|done]. apply list_elem_of_In in Hx.
        assert (In x (List.filter p (rows_at (DB d) w0 (TableName d)))) as Hin by (by apply List.filter_In).
        by rewrite Ef in Hin. }
      split.
      * rewrite Et, (map_unmatched p); [done|]. apply forallb_forall. intros x Hx%list_elem_of_In. by rewrite Hno.
      * intros x Hx Hcs Hv. specialize (Hno x Hx). apply not_true_iff_false in Hno. by apply Hno, versioned_sat.
    + rewrite <- Ef in Hone. destruct (filter_one p _ _ _ Ef Hone) as (l1 & l2 & El & Hx & Hn).
      apply versioned_sat in Hx as Hx'. destruct Hx' as [Hcs Hv].
      exists w0, w2, x, (l1 ++ l2). split; [done|]. split; [done|].
      split; [by rewrite El, Permutation_middle|].
      split; [|split_and!; try done; by apply (increment_field _ _ _ n); [left| |]].
      rewrite forallb_app in Hn. apply andb_true_iff in Hn as [Hn1 Hn2].
      rewrite Et, El, map_app. cbn [map]. rewrite (map_unmatched p), (map_unmatched p) by done. unfold p in Hx. rewrite Hx.
      by rewrite Permutation_middle.
  - apply rows_err in Eq. cbn. rewrite Eq. intros [= <- <-]. right. by exists e.
  - intros [= <- <-]. right. by exists e.
Qed.

(** A success leaves the version behind for good. *)
Lemma compare_and_set_past set cs (w : W) x w' :
  key ∈ cs -> keyed w -> others_keep keyed -> others_keep past ->
  compare_and_set set cs w (Ok x) w' -> past w' /\ keyed w'.
Proof.
  intros Hkey Hk Hok Hpast (w0 & w1 & y & rest & Ho1 & Ho2 & Ht0 & Ht1 & Hcs & Hv & -> & Hv').
  apply (Hok _ _ Ho1) in Hk. unfold keyed in Hk.
  assert (Hy : sat y key = true) by (rewrite forallb_forall in Hcs; by apply Hcs, list_elem_of_In).
  assert (Hrest : List.filter (fun r => sat r key) rest = []).
  { assert (Hlen : length (List.filter (fun r => sat r key) (rows_at (DB d) w0 (TableName d)))
                   = length (List.filter (fun r => sat r key) (y :: rest))) by (by rewrite Ht0).
    rewrite Hlen in Hk. cbn in Hk. rewrite Hy in Hk. cbn in Hk.
    by destruct (List.filter _ rest); [|cbn in Hk; lia]. }
  split; [apply (Hpast _ _ Ho2)|apply (Hok _ _ Ho2)].
  - intros z Hz Hkz. rewrite Ht1 in Hz. apply elem_of_cons in Hz as [->|Hz]; [exists (n + 1); split; [done|lia]|].
    assert (In z (List.filter (fun r => sat r key) rest)) as Hin by (apply List.filter_In; split; [by apply list_elem_of_In|done]).
    by rewrite Hrest in Hin.
  - unfold keyed. rewrite Ht1. cbn [List.filter]. rewrite Hrest. case_match; cbn; lia.
Qed.
End key.

(** C11. Optimistic locking loses no update.  For a row singled out by a unique key that is among the
    conditions, with the version column not itself in the set of values: UpdateVersioned is an
    atomic compare-and-set, whatever other sessions commit before, during and after it.  When it
    returns a row, then at one moment the row with that key met the conditions and had the expected
    version n, and it was replaced there and then by the updated row with version n+1, nothing else
    changing; when it returns ErrStaleVersion, then at one moment no row met the conditions with
    version n, and nothing was changed; every other error comes from the database.  And once it
    has returned a row, no later UpdateVersioned on that key that expects n too returns one,
    whatever it sets and whatever its other conditions are, as long as other sessions keep the
    key unique and never set the version of the row back. *)
Theorem UpdateVersioned_exclusive d key set cs v n (w : W) r w' :
  set !! v = None -> key ∈ cs -> keyed d key w -> others_keep d (keyed d key) ->
  UpdateVersioned d set cs v n w = (r, w') ->
  compare_and_set d v n set cs w r w'
  /\ forall x set' cs' w2 x' w3, r = Ok x -> others_keep d (past d key v n) -> others (DB d) w' w2 ->
       set' !! v = None -> key ∈ cs' -> UpdateVersioned d set' cs' v n w2 <> (Ok x', w3).
Proof.
  intros Hset Hkey Hk Hok Hu. pose proof (UpdateVersioned_cas d key v n set cs w r w' Hset Hkey Hk Hok Hu) as Hc.
  split; [done|]. intros x set' cs' w2 x' w3 -> Hpast Ho Hset' Hkey' Hu'.
  destruct (compare_and_set_past d key v n set cs w x w' Hkey Hk Hok Hpast Hc) as [Hp Hk'].
  apply (UpdateVersioned_cas d key v n set' cs') in Hu'; [|done|done|by apply (Hok _ _ Ho)|done].
  destruct Hu' as (w0 & w1 & y & rest & Ho1 & _ & Ht0 & _ & Hcs & Hv & _).
  destruct (Hpast _ _ Ho1 (Hpast _ _ Ho Hp) y) as (m & Hm & Hlt).
  - rewrite Ht0. by left.
  - rewrite forallb_forall in Hcs. by apply Hcs, list_elem_of_In.
  - rewrite Hv in Hm. injection Hm as Hm. lia.
Qed.
End spec.

(** ** A table engine *)

Definition row := list (string * goany).

Definition col_of (r : row) (col : string) : goany := default ANil (alookup r col).

(** SQL's comparison of two non-NULL values of one type. *)
Definition any_lt (a b : goany) : bool :=
  match a, b with
  | AInt x, AInt y | ATime x, ATime y => x <? y
  | AStr x, AStr y => bool_decide (String.le x y) && negb (bool_decide (x = y))
  | _, _ => false
  end.

Definition elements_of (v : goany) : list goany :=
  match v with AStrs l => map AStr l | ASlice l => l | _ => [] end.

(** The truth of a condition on a row; NULL comparisons are not true. *)
Fixpoint row_sat (r : row) (c : Condition) : bool :=
  let '(mkCond col op v sub) := c in
  let x := col_of r col in
  let known := negb (bool_decide (x = ANil)) in
  if bool_decide (op = OpIsNull) then bool_decide (x = ANil)
  else if bool_decide (op = OpNotNull) then known
  else if bool_decide (op = OpAnd) then forallb (row_sat r) sub
  else if bool_decide (op = OpOr) then existsb (row_sat r) sub
  else known &&
    if bool_decide (op = OpEq) then bool_decide (x = v)
    else if bool_decide (op = OpNotEq) then negb (bool_decide (x = v)) && negb (bool_decide (v = ANil))
    else if bool_decide (op = OpGt) then any_lt v x
    else if bool_decide (op = OpGte) then any_lt v x || bool_decide (x = v)
    else if bool_decide (op = OpLt) then any_lt x v
    else if bool_decide (op = OpLte) then any_lt x v || bool_decide (x = v)
    else if bool_decide (op = OpIn) then bool_decide (x ∈ elements_of v)
    else if bool_decide (op = OpNotIn) then negb (bool_decide (x ∈ elements_of v))
    else if bool_decide (op = OpBetween)
    then match v with ASlice [lo; hi] => negb (any_lt x lo) && negb (any_lt hi x) | _ => false end
    else false.

Lemma row_sat_eq r col v :
  row_sat r (cond col OpEq v) = negb (bool_decide (col_of r col = ANil)) && bool_decide (col_of r col = v).
Proof. reflexivity. Qed.
Lemma row_sat_noteq r col v :
  row_sat r (cond col OpNotEq v) = negb (bool_decide (col_of r col = ANil))
    && (negb (bool_decide (col_of r col = v)) && negb (bool_decide (v = ANil))).
Proof. reflexivity. Qed.

Definition row_increment (r : row) (col : string) : row :=
  match col_of r col with AInt n => aset col (AInt (n + 1)) r | _ => r end.

Definition row_update (q : UpdateQuery) (r : row) : row :=
  fold_left (fun r kv => aset (fst kv) (snd kv) r) (map_to_list (u_set q))
    (fold_left row_increment (remove_dups (u_increment q)) r).

Definition tables := list (string * list row).
Definition rows_in (w : tables) (t : string) : list row := default [] (alookup w t).
Lemma rows_in_insert w t l : rows_in (aset t l w) t = l.
Proof. unfold rows_in. by rewrite alookup_aset_eq. Qed.

Definition matching (w : tables) (t : string) (cs : list Condition) : list row :=
  List.filter (fun r => forallb (row_sat r) cs) (rows_in w t).

(** ORDER BY on integer columns. *)
Definition order_key (r : row) (o : OrderBy) : Z :=
  let n := match col_of r (o_column o) with AInt n => n | _ => 0 end in if o_desc o then - n else n.
Fixpoint lex_le (a b : list Z) : bool :=
  match a, b with
  | [], _ => true
  | _, [] => false
  | x :: a, y :: b => (x <? y) || ((x =? y) && lex_le a b)
  end.
Definition row_before (os : list OrderBy) (r r' : row) : Prop := lex_le (map (order_key r) os) (map (order_key r') os) = true.
#[export] Instance row_before_dec os : RelDecision (row_before os).
Proof. unfold RelDecision, row_before. solve_decision. Defined.

Lemma lex_le_trans a b c : lex_le a b = true -> lex_le b c = true -> lex_le a c = true.
Proof.
  revert b c. induction a as [|x a IH]; intros [|y b] [|z c]; cbn; try done.
  rewrite !orb_true_iff, !andb_true_iff, !Z.ltb_lt, !Z.eqb_eq. intros [?|[-> ?]] [?|[-> ?]]; [left; lia..|].
  right. split; [done|]. by eapply IH.
Qed.
Lemma lex_le_total a b : lex_le a b = true \/ lex_le b a = true.
Proof.
  revert b. induction a as [|x a IH]; intros [|y b]; cbn; auto.
  destruct (Z.lt_trichotomy x y) as [Hxy|[->|Hxy]].
  - left. by rewrite (proj2 (Z.ltb_lt x y)).
  - rewrite Z.ltb_irrefl, Z.eqb_refl. apply IH.
  - right. by rewrite (proj2 (Z.ltb_lt y x)).
Qed.
#[export] Instance row_before_trans os : Transitive (row_before os).
Proof. intros x y z. apply lex_le_trans. Qed.
#[export] Instance row_before_total os : Total (row_before os).
Proof. intros x y. apply lex_le_total. Qed.

Definition sorted_rows (os : list OrderBy) (l : list row) : list row := merge_sort (row_before os) l.

Definition unsupported : goerr := NewErr "statement not supported by the engine".

Definition engine_query (s : stmt) : M tables (res (list row)) := fun w =>
  match s with
  | StSelect q =>
      if is_nil (s_columns q) && is_nil (s_joins q) && is_nil (s_groupBy q) && is_nil (s_having q)
         && negb (s_distinct q)
      then (Ok (Ok (window (s_limit q) (s_offset q) (sorted_rows (s_orderBy q) (matching w (s_table q) (s_conditions q))))), w)
      else (Err unsupported, w)
  | StUpdate q =>
      (Ok (Ok (map (row_update q) (matching w (u_table q) (u_conditions q)))),
       aset (u_table q) (map (fun r => if forallb (row_sat r) (u_conditions q) then row_update q r else r)
                             (rows_in w (u_table q))) w)
  | StInsert q =>
      let r := zip (i_columns q) (i_values q) in
      (Ok (Ok [r]), aset (i_table q) (rows_in w (i_table q) ++ [r]) w)
  | _ => (Err unsupported, w)
  end.

#[export] Instance engine : Querier tables row := {
  q_query c s := engine_query s;
  q_count c s := fun w =>
    match s with
    | StSelect q => (Ok (Z.of_nat (length (matching w (s_table q) (s_conditions q)))), w)
    | _ => (Err unsupported, w)
    end;
  q_scan c s := fun w => (Err unsupported, w);
  q_exec c s := fun w =>
    match engine_query s w with
    | (Ok (Ok rows), w) => (Ok (Z.of_nat (length rows)), w)
    | (_, w) => (Err unsupported, w)
    end;
  q_copy := None
}.

Lemma row_increment_other l r (col : string) : (col ∉ l) -> alookup (fold_left row_increment l r) col = alookup r col.
Proof.
  revert r. induction l as [|c l IH]; intros r Hc; [done|]. cbn.
  apply not_elem_of_cons in Hc as [Hne Hc]. rewrite IH by done. unfold row_increment.
  destruct (col_of r c); try done. by rewrite alookup_aset_ne.
Qed.

Lemma row_increment_once l r col n :
  NoDup l -> col ∈ l -> col_of r col = AInt n -> alookup (fold_left row_increment l r) col = Some (AInt (n + 1)).
Proof.
  revert r. induction l as [|c l IH]; intros r Hnd Hin Hr; [by apply not_elem_of_nil in Hin|]. cbn.
  apply NoDup_cons in Hnd as [Hc Hnd]. destruct (decide (c = col)) as [->|Hne].
  - rewrite row_increment_other by done. unfold row_increment. rewrite Hr. apply alookup_aset_eq.
  - apply elem_of_cons in Hin as [?|Hin]; [done|]. apply IH; [done|done|].
    unfold row_increment, col_of in *. destruct (default ANil (alookup r c)); try done.
    by rewrite alookup_aset_ne.
Qed.

Lemma row_sets_other (l : list (string * goany)) r col :
  (col ∉ map fst l) -> alookup (fold_left (fun r kv => aset (fst kv) (snd kv) r) l r) col = alookup r col.
Proof.
  revert r. induction l as [|[k v] l IH]; intros r Hc; [done|]. cbn in *.
  apply not_elem_of_cons in Hc as [Hne Hc]. rewrite IH by done. by rewrite alookup_aset_ne.
Qed.

#[export] Program Instance engine_laws : TableLaws tables row := {
  rows_at c w t := rows_in w t;
  field := col_of;
  sat := row_sat;
  before := row_before;
  apply_update := row_update;
  others c := eq
}.
Next Obligation.
  cbn. intros c w t cs os lim off rows w' [= <- <-]. exists w, (sorted_rows os (matching w t cs)).
  split; [done|]. split; [done|]. split; [apply merge_sort_Permutation|]. split; [|done].
  apply StronglySorted_merge_sort; apply _.
Qed.
Next Obligation. cbn. intros c w t cs n w' [= <- <-]. by exists w. Qed.
Next Obligation.
  cbn. intros c w q rows w' Hr [= <- <-] _. eexists w, _. split; [done|]. split; [done|]. split; [done|].
  by rewrite rows_in_insert.
Qed.
Next Obligation. cbn. intros c s w e w'. destruct s; cbn; [destruct (_ && _)|..]; by intros [=]. Qed.
Next Obligation.
  intros r col v. rewrite row_sat_noteq, !andb_true_iff, !negb_true_iff, !bool_decide_eq_false.
  by intros (_ & H & _).
Qed.
Next Obligation.
  intros r col n. rewrite row_sat_eq, andb_true_iff, negb_true_iff, bool_decide_eq_false, bool_decide_eq_true.
  split; [by intros [_ ?]|]. intros ->. done.
Qed.
Next Obligation.
  cbn. intros q r col n Hin Hset Hr. unfold col_of at 1, row_update.
  rewrite row_sets_other.
  2: { intros Hc. apply list_elem_of_fmap in Hc as ([k v] & -> & Hc). cbn in Hset.
       by apply elem_of_map_to_list in Hc; rewrite Hc in Hset. }
  rewrite (row_increment_once _ _ _ n); [done|apply NoDup_remove_dups| |done].
  by apply elem_of_remove_dups.
Qed.

(** ** Witnesses *)

Definition item (id status : string) (version : Z) : row :=
  [("id", AStr id); ("status", AStr status); ("version", AInt version)].

Definition items : tables :=
  [("items", [item "a" "ACTIVE" 1; item "b" "DELETED" 1; item "c" "ACTIVE" 4])].

Definition items_dao : BaseDAO := NewBaseDAOWith OnPool "items" [WithSoftDeleteFilter "status"].

Lemma reads_hide_deleted_witness :
  FindAllOrdered items_dao [] [] items = (Ok [item "a" "ACTIVE" 1; item "c" "ACTIVE" 4], items)
  /\ Forall (visible items_dao) [item "a" "ACTIVE" 1; item "c" "ACTIVE" 4].
Proof.
  split; [vm_compute; reflexivity|].
  apply (proj1 (proj2 (reads_hide_deleted items_dao items items)) [] []). vm_compute. reflexivity.
Defined.

Definition by_version : list OrderBy := [mkOrder "version" true].

Lemma FindPage_exact_witness :
  exists p, FindPage items_dao [] by_version 1 0 items = (Ok p, items)
            /\ pg_data p = [item "c" "ACTIVE" 4] /\ pg_total p = 2 /\ pg_hasNext p = true.
Proof.
  exists (mkPage [item "c" "ACTIVE" 4] 2 1 0 true).
  assert (E : FindPage items_dao [] by_version 1 0 items = (Ok (mkPage [item "c" "ACTIVE" 4] 2 1 0 true), items))
    by (vm_compute; reflexivity).
  split; [exact E|].
  destruct (FindPage_exact items_dao [] by_version 1 0 items (mkPage [item "c" "ACTIVE" 4] 2 1 0 true) items)
    as (w1 & w2 & Ho1 & Ho2 & _ & Ht & _ & _ & _ & _ & Hx); [vm_compute; discriminate|exact E|].
  change (items = w1) in Ho1. change (w1 = w2) in Ho2. subst w2 w1.
  destruct (Hx (Permutation_refl _)) as [Hn Hl]. split; [|split; [exact Ht|apply Hn; vm_compute; reflexivity]].
  rewrite (Hl [item "c" "ACTIVE" 4; item "a" "ACTIVE" 1]).
  - reflexivity.
  - apply Permutation_swap.
  - repeat constructor.
  - intros x y Hx' Hy. rewrite !elem_of_cons in Hx', Hy.
    destruct Hx' as [->|[->|Hx']]; [| |by apply elem_of_nil in Hx'];
      (destruct Hy as [->|[->|Hy]]; [| |by apply elem_of_nil in Hy]); try done;
      intros Hb Hb'; by vm_compute in Hb, Hb'.
Defined.

Definition set_status (x : string) : gmap string goany := {[ "status" := AStr x ]}.
Definition item_a : Condition := cond "id" OpEq (AStr "a").
Definition items_after : tables := (UpdateVersioned items_dao (set_status "X") [item_a] "version" 1 items).2.

Lemma UpdateVersioned_exclusive_witness :
  UpdateVersioned items_dao (set_status "X") [item_a] "version" 1 items = (Ok (item "a" "X" 2), items_after)
  /\ UpdateVersioned items_dao (set_status "Y") [cond "status" OpNotEq (AStr "DELETED"); item_a] "version" 1 items_after
     <> (Ok (item "a" "Y" 2), items_after).
Proof.
  assert (E : UpdateVersioned items_dao (set_status "X") [item_a] "version" 1 items = (Ok (item "a" "X" 2), items_after))
    by (vm_compute; reflexivity).
  split; [exact E|].
  destruct (UpdateVersioned_exclusive items_dao item_a (set_status "X") [item_a] "version" 1 items
    (Ok (item "a" "X" 2)) items_after) as [_ H].
  - vm_compute. reflexivity.
  - by left.
  - vm_compute. lia.
  - intros a b Hab. change (a = b) in Hab. by subst.
  - exact E.
  - apply (H (item "a" "X" 2)); [reflexivity| |reflexivity|vm_compute; reflexivity|right; by left].
    intros a b Hab. change (a = b) in Hab. by subst.
Defined.

(** A row whose status is NULL is hidden too, although it is not deleted. *)
Example null_status_hidden :
  (FindAll items_dao [] ([("items", [[("id", AStr "n")]])] : tables)).1 = Ok ([] : list row).
Proof. vm_compute. reflexivity. Qed.

(** SoftDelete writes status = 'DELETED' whatever column and sentinel the filter uses. *)
Example soft_delete_ignores_options :
  fst (stmt_sql map_to_list (StDelete (mkDelete "items" [cond "id" OpEq (AStr "a")] true)))
  = "UPDATE items SET status = 'DELETED' WHERE id = $1"
  /\ withSoftDeleteFilter
       (NewBaseDAOWith OnPool "items" [WithSoftDeleteFilter "state"; WithSoftDeleteValues "GONE" "LIVE"]) []
     = [cond "state" OpNotEq (AStr "GONE")].
Proof. split; vm_compute; reflexivity. Qed.

(** repository/sql.go: the queries attached when the repository is made keep the connection of
    that moment. Inside a transaction the repository's own operations join it and the
    attached queries still run on the pool. *)
Theorem attached_queries_stay_outside describer opts r tx :
  NewWithSQL describer (sqlcx_DB None) opts = Some r ->
  DB (DAO (bws_base r) (Some tx)) = OnTx tx /\ sqlcx_DB (Some tx) = OnTx tx /\ SQL r = OnPool.
Proof. unfold NewWithSQL, SQL. intros E. destruct (New_ describer opts) as [b|]; [|done]. by injection E as <-. Qed.
