(* ===== verification/Cache.v ===== *)
(** * Cache: cache/cache.go and cache/getorload.go

    [CacheOps] is the Cache interface; MemoryCache and the Redis caches
    implement it.  encoding/json on the stored type is a pair of parameters.
    Each operation of MemoryCache runs under its mutex, so it is one atomic
    step; the clock reading it takes is an argument. *)

From S2P Require Import Prelude GoStrings Errors Backoff Breaker.

Definition redis_Nil : goerr := Sentinel "redis.Nil" "redis: nil".

(** A value handed to Set: a string, or something that is marshalled. *)
Inductive cvalue := VStr (s : string) | VJson (marshalled : res string).

(** The Cache interface, on a state [S]; [now] is the clock at the call. *)
Record CacheOps (S : Type) := mkCacheOps {
  cache_get : Z -> string -> S -> res string * S;
  cache_set : Z -> string -> cvalue -> Z -> S -> error * S;
  cache_delete : Z -> string -> S -> error * S;
  cache_exists : Z -> string -> S -> res bool * S;
  cache_clear : Z -> S -> error * S
}.
Arguments mkCacheOps {S}.
Arguments cache_get {S}.
Arguments cache_set {S}.
Arguments cache_delete {S}.
Arguments cache_exists {S}.
Arguments cache_clear {S}.

(** ** MemoryCache *)

Record MemoryCache := mkMem { mc_data : gmap string string; mc_ttl : gmap string Z }.

Definition NewMemoryCache : MemoryCache := mkMem ∅ ∅.

(** The expired branch of Get and Exists; [After] is strict. *)
Definition expired (now : Z) (key : string) (mc : MemoryCache) : bool :=
  match mc_ttl mc !! key with Some expiry => expiry <? now | None => false end.
Definition evict (key : string) (mc : MemoryCache) : MemoryCache :=
  mkMem (delete key (mc_data mc)) (delete key (mc_ttl mc)).

Definition mem_Get (now : Z) (key : string) (mc : MemoryCache) : res string * MemoryCache :=
  if expired now key mc then (Ok "", evict key mc)
  else (Ok (default "" (mc_data mc !! key)), mc).

Definition mem_Set (now : Z) (key : string) (value : cvalue) (ttl : Z) (mc : MemoryCache)
  : error * MemoryCache :=
  match (match value with VStr s => Ok s | VJson r => r end) with
  | Err e => (Some (WrapErr ("memory cache: marshal value for " +:+ quoted key +:+ ": " +:+ error_text e) e), mc)
  | Ok val =>
      (None, mkMem (<[key := val]> (mc_data mc))
                   (if 0 <? ttl then <[key := now + ttl]> (mc_ttl mc) else delete key (mc_ttl mc)))
  end.

Definition mem_Delete (now : Z) (key : string) (mc : MemoryCache) : error * MemoryCache :=
  (None, evict key mc).

Definition mem_Exists (now : Z) (key : string) (mc : MemoryCache) : res bool * MemoryCache :=
  if expired now key mc then (Ok false, evict key mc)
  else (Ok (match mc_data mc !! key with Some _ => true | None => false end), mc).

Definition mem_Clear (now : Z) (mc : MemoryCache) : error * MemoryCache := (None, NewMemoryCache).

Definition memory_cache : CacheOps MemoryCache :=
  mkCacheOps mem_Get mem_Set mem_Delete mem_Exists mem_Clear.

(** ** Clients of the interface *)

Section clients.
Context {S T : Type}.
Variable c : CacheOps S.
Variable marshal : T -> res string.         (* json.Marshal *)
Variable unmarshal : string -> res T.       (* json.Unmarshal into a T *)

(** GetJSON of MemoryCache and RedisCache: an empty value is redis.Nil. *)
Definition GetJSON (now : Z) (key : string) (s : S) : res T * S :=
  match cache_get c now key s with
  | (Err e, s) => (Err e, s)
  | (Ok val, s) => if bool_decide (val = "") then (Err redis_Nil, s) else (unmarshal val, s)
  end.

(** CacheHelper.GetOrFetch: the cached text, or the fetched value. *)
Definition GetOrFetch (ttl now now' : Z) (key : string) (fetch : res T) (s : S)
  : res (string + T) * S :=
  match cache_get c now key s with
  | (Ok val, s') =>
      if bool_decide (val <> "") then (Ok (inl val), s')
      else match fetch with
           | Err e => (Err e, s')
           | Ok v => (Ok (inr v), snd (cache_set c now' key (VJson (marshal v)) ttl s'))
           end
  | (Err _, s') =>
      match fetch with
      | Err e => (Err e, s')
      | Ok v => (Ok (inr v), snd (cache_set c now' key (VJson (marshal v)) ttl s'))
      end
  end.

(** CacheHelper.GetJSONOrFetch: what dest holds, or the error. *)
Definition GetJSONOrFetch (ttl now now' : Z) (key : string) (fetch : res T) (s : S) : res T * S :=
  match GetJSON now key s with
  | (Ok v, s) => (Ok v, s)
  | (Err _, s) =>
      match fetch with
      | Err e => (Err e, s)
      | Ok v =>
          match marshal v with
          | Err e => (Err e, s)
          | Ok b => match unmarshal b with
                    | Err e => (Err e, s)
                    | Ok v' => match cache_set c now' key (VStr b) ttl s with
                               | (Some e, s) => (Err e, s)
                               | (None, s) => (Ok v', s)
                               end
                    end
          end
      end
  end.

(** cached: any error or decode failure is a miss. *)
Definition cached (now : Z) (key : string) (s : S) : option T * S :=
  match cache_get c now key s with
  | (Err _, s) => (None, s)
  | (Ok val, s) =>
      if bool_decide (val = "") then (None, s)
      else match unmarshal val with Ok v => (Some v, s) | Err _ => (None, s) end
  end.

(** The function GetOrLoad gives to singleflight: the result and whether it
    called load.  [t1], [t2] are the clock at the second look and at Set. *)
Definition load_once (t1 t2 : Z) (key : string) (ttl : Z) (load : res T) (s : S)
  : res T * bool * S :=
  match cached t1 key s with
  | (Some v, s) => (Ok v, false, s)
  | (None, s) =>
      match load with
      | Err e => (Err e, true, s)
      | Ok v => (Ok v, true,
                 match marshal v with
                 | Ok b => snd (cache_set c t2 key (VStr b) ttl s)
                 | Err _ => s
                 end)
      end
  end.

(** GetOrLoad of one caller, alone in its singleflight group. *)
Definition GetOrLoad (t0 t1 t2 : Z) (key : string) (ttl : Z) (load : res T) (s : S)
  : res T * bool * S :=
  match cached t0 key s with
  | (Some v, s) => (Ok v, false, s)
  | (None, s) => load_once t1 t2 key ttl load s
  end.
End clients.

Definition CacheKey (prefix : string) (parts : list string) : string :=
  fold_left (fun key part => key +:+ ":" +:+ part) parts prefix.

(** ** MemoryCache refines a map with deadlines *)

Abbreviation tstore := (gmap string (string * option Z)).

(** What a key is worth at an instant. *)
Definition live (now : Z) (e : string * option Z) : bool :=
  match snd e with Some d => now <=? d | None => true end.

(** One operation of the abstract store, with its answer. *)
Inductive cop :=
  | OpGet (key : string) | OpSet (key : string) (v : string) (ttl : Z)
  | OpDelete (key : string) | OpExists (key : string) | OpClear.
Inductive answer := Value (s : string) | Bool (b : bool) | Done.

Definition spec_op (now : Z) (o : cop) (st : tstore) : answer * tstore :=
  let look k := match st !! k with Some e => if live now e then Some (fst e) else None | None => None end in
  match o with
  | OpGet k => (Value (default "" (look k)), st)
  | OpSet k v ttl => (Done, <[k := (v, if 0 <? ttl then Some (now + ttl) else None)]> st)
  | OpDelete k => (Done, delete k st)
  | OpExists k => (Bool (match look k with Some _ => true | None => false end), st)
  | OpClear => (Done, ∅)
  end.

Definition mem_op (now : Z) (o : cop) (mc : MemoryCache) : answer * MemoryCache :=
  match o with
  | OpGet k => match mem_Get now k mc with (Ok s, mc) => (Value s, mc) | (Err _, mc) => (Done, mc) end
  | OpSet k v ttl => (Done, snd (mem_Set now k (VStr v) ttl mc))
  | OpDelete k => (Done, snd (mem_Delete now k mc))
  | OpExists k => match mem_Exists now k mc with (Ok b, mc) => (Bool b, mc) | (Err _, mc) => (Done, mc) end
  | OpClear => (Done, snd (mem_Clear now mc))
  end.

Fixpoint mem_run (ops : list (Z * cop)) (mc : MemoryCache) : list answer :=
  match ops with [] => [] | (t, o) :: ops' => let '(a, mc) := mem_op t o mc in a :: mem_run ops' mc end.
Fixpoint spec_run_ops (ops : list (Z * cop)) (st : tstore) : list answer :=
  match ops with [] => [] | (t, o) :: ops' => let '(a, st) := spec_op t o st in a :: spec_run_ops ops' st end.

Fixpoint times_sorted (now : Z) (ops : list (Z * cop)) : bool :=
  match ops with [] => true | (t, _) :: ops' => (now <=? t) && times_sorted t ops' end.

(** The concrete cache and the abstract store agree on everything not yet expired. *)
Definition agree (now : Z) (mc : MemoryCache) (st : tstore) : Prop :=
  forall k,
    (mc_data mc !! k = None -> mc_ttl mc !! k = None)
    /\ match st !! k with
       | Some (v, d) =>
           (mc_data mc !! k = Some v /\ mc_ttl mc !! k = d)
           \/ (mc_data mc !! k = None /\ live now (v, d) = false)
       | None => mc_data mc !! k = None
       end.

Lemma live_mono now now' e : now <= now' -> live now e = false -> live now' e = false.
Proof.
  unfold live. destruct (snd e) as [d|]; [|done]. rewrite !Z.leb_gt. lia.
Qed.

Lemma agree_mono now now' mc st : now <= now' -> agree now mc st -> agree now' mc st.
Proof.
  intros Hle Ha k. destruct (Ha k) as [H1 H2]. split; [done|].
  destruct (st !! k) as [[v d]|]; [|done]. destruct H2 as [H2|[H2 H3]]; [by left|right].
  split; [done|]. by eapply live_mono.
Qed.

(** What the abstract store answers for a key is what the concrete one holds. *)
Lemma agree_look now mc st k :
  agree now mc st ->
  (if expired now k mc then None else mc_data mc !! k)
  = match st !! k with Some e => if live now e then Some (fst e) else None | None => None end.
Proof.
  intros Ha. destruct (Ha k) as [H1 H2]. unfold expired, live.
  destruct (st !! k) as [[v d]|]; cbn.
  - destruct H2 as [[-> ->]|[Hd Hl]].
    + destruct d as [d|]; cbn; [|done]. destruct (Z.ltb_spec d now), (Z.leb_spec now d); (done || lia).
    + rewrite Hd, (H1 Hd). unfold live in Hl. cbn in Hl. by rewrite Hl.
  - by rewrite H2, (H1 H2).
Qed.

Lemma agree_evict now mc st k :
  agree now mc st -> expired now k mc = true -> agree now (evict k mc) st.
Proof.
  intros Ha He k'. destruct (decide (k = k')) as [<-|Hne].
  - pose proof (Ha k) as [H1 H2]. unfold evict. cbn. rewrite !lookup_delete_eq. split; [done|].
    destruct (st !! k) as [[v d]|]; [|done]. right. split; [done|].
    unfold expired in He. destruct H2 as [[_ Ht]|[Hd Hl]]; [|done]. rewrite Ht in He.
    unfold live. cbn. destruct d as [d|]; [|done]. apply Z.leb_gt. by apply Z.ltb_lt.
  - unfold evict. cbn. rewrite !lookup_delete_ne by done. apply Ha.
Qed.

Lemma mem_op_refines now o mc st :
  agree now mc st ->
  fst (mem_op now o mc) = fst (spec_op now o st)
  /\ agree now (snd (mem_op now o mc)) (snd (spec_op now o st)).
Proof.
  intros Ha. destruct o as [k|k v ttl|k|k|]; cbn.
  - pose proof (agree_look now mc st k Ha) as Hl. unfold mem_Get.
    destruct (expired now k mc) eqn:He; cbn; rewrite <- Hl; split; try done. by apply agree_evict.
  - split; [done|]. intros k'. cbn. destruct (decide (k = k')) as [<-|Hne].
    + rewrite (lookup_insert_eq (mc_data mc)), (lookup_insert_eq st). split; [done|].
      left. split; [done|]. destruct (0 <? ttl); [by rewrite lookup_insert_eq|by rewrite lookup_delete_eq].
    + rewrite (lookup_insert_ne (mc_data mc)), (lookup_insert_ne st) by done. destruct (Ha k') as [H1 H2].
      destruct (0 <? ttl); [rewrite lookup_insert_ne by done|rewrite lookup_delete_ne by done]; done.
  - split; [done|]. intros k'. cbn. destruct (decide (k = k')) as [<-|Hne].
    + by rewrite !lookup_delete_eq.
    + rewrite !lookup_delete_ne by done. apply Ha.
  - pose proof (agree_look now mc st k Ha) as Hl. unfold mem_Exists.
    destruct (expired now k mc) eqn:He; cbn; rewrite <- Hl; split; try done. by apply agree_evict.
  - split; [done|]. intros k. cbn. by rewrite !lookup_empty.
Qed.

Lemma mem_run_refines ops now mc st :
  times_sorted now ops = true -> agree now mc st -> mem_run ops mc = spec_run_ops ops st.
Proof.
  revert now mc st. induction ops as [|[t o] ops IH]; intros now mc st Ht Ha; [done|].
  cbn in Ht. apply andb_true_iff in Ht as [Hle Ht]. apply Z.leb_le in Hle.
  apply (agree_mono _ t) in Ha; [|done]. destruct (mem_op_refines t o mc st Ha) as [H1 H2]. cbn.
  destruct (mem_op t o mc) as [a mc'], (spec_op t o st) as [a' st']. cbn in *. subst a'.
  f_equal. by apply (IH t).
Qed.

(** C12. MemoryCache implements a map with deadlines: any sequence of Get, Set,
    Delete, Exists and Clear with a clock that does not go back gets, call by
    call, the answers of a store in which a Set with a positive ttl makes the
    value readable up to and including now+ttl, one with a non-positive ttl
    makes it readable forever; the lazy eviction of expired entries is never
    observable. *)
Theorem MemoryCache_refines now ops :
  times_sorted now ops = true -> mem_run ops NewMemoryCache = spec_run_ops ops ∅.
Proof.
  intros Ht. apply (mem_run_refines ops now); [done|]. intros k. cbn. by rewrite !lookup_empty.
Qed.

Definition sample_ops : list (Z * cop) :=
  [(0, OpSet "k" "v" 10); (5, OpGet "k"); (10, OpGet "k"); (11, OpExists "k"); (12, OpGet "k");
   (13, OpSet "k" "w" 0); (99, OpGet "k"); (100, OpClear); (101, OpGet "k")].

Lemma MemoryCache_refines_witness :
  mem_run sample_ops NewMemoryCache
  = [Done; Value "v"; Value "v"; Bool false; Value ""; Done; Value "w"; Done; Value ""]
  /\ mem_run sample_ops NewMemoryCache = spec_run_ops sample_ops ∅.
Proof. split; [reflexivity|]. apply (MemoryCache_refines 0 sample_ops). reflexivity. Defined.

(** ** GetOrLoad *)

(** What GetOrLoad relies on of a cache: a stored value is read back until its
    deadline, and reading does not lose it. *)
Record CacheLaws {S} (c : CacheOps S) (holds : string -> string -> Z -> S -> Prop) : Prop := {
  set_holds now k v ttl s s' :
    0 < ttl -> cache_set c now k (VStr v) ttl s = (None, s') -> holds k v (now + ttl) s';
  holds_get k v d now s :
    holds k v d s -> now <= d -> exists s', cache_get c now k s = (Ok v, s') /\ holds k v d s'
}.

Definition mem_holds (k v : string) (d : Z) (mc : MemoryCache) : Prop :=
  mc_data mc !! k = Some v /\ mc_ttl mc !! k = Some d.

Lemma memory_cache_laws : CacheLaws memory_cache mem_holds.
Proof.
  split.
  - intros now k v ttl s s' Ht. cbn. unfold mem_Set. intros [= <-].
    destruct (Z.ltb_spec 0 ttl); [|lia]. split; cbn; apply lookup_insert_eq.
  - intros k v d now s [Hd Ht] Hn. exists s. split; [|done]. cbn. unfold mem_Get, expired.
    rewrite Ht. destruct (Z.ltb_spec d now); [lia|]. by rewrite Hd.
Qed.

Section getorload.
Context {S T : Type} (c : CacheOps S) (holds : string -> string -> Z -> S -> Prop).
Variable marshal : T -> res string.
Variable unmarshal : string -> res T.
Hypothesis laws : CacheLaws c holds.

(** [v] survives encoding/json, and its encoding is not empty. *)
Definition json_roundtrip (v : T) (b : string) : Prop :=
  marshal v = Ok b /\ b <> "" /\ unmarshal b = Ok v.

Lemma cached_holds k v b d now s :
  json_roundtrip v b -> holds k b d s -> now <= d ->
  exists s', cached c unmarshal now k s = (Some v, s') /\ holds k b d s'.
Proof.
  intros (_ & Hne & Hu) Hh Hn. destruct (holds_get _ _ laws _ _ _ _ _ Hh Hn) as (s' & Hg & Hh').
  exists s'. split; [|done]. unfold cached. by rewrite Hg, bool_decide_eq_false_2, Hu.
Qed.

(** *** Concurrent callers of one key

    golang.org/x/sync/singleflight: at most one execution per key is in
    flight, and a caller that arrives meanwhile waits for its result. *)
Inductive pc :=
  | PStart                (* before the first look at the cache *)
  | PMissed               (* missed, about to call loadGroup.Do *)
  | PJoined               (* waiting for the execution in flight *)
  | PLook                 (* in flight: before the second look *)
  | PLoad                 (* in flight: missed again, about to load *)
  | PStore (b : string)   (* in flight: loaded and marshalled, about to Set *)
  | PDone.

Definition leading (p : pc) : bool :=
  match p with PLook | PLoad | PStore _ => true | _ => false end.
(** The execution ends: its caller and everyone who joined it return. *)
Definition finished (p : pc) : pc :=
  match p with PJoined | PLook | PLoad | PStore _ => PDone | p => p end.

Record calls := mkCalls { store_ : S; pcs : nat -> pc; loads : nat; now_ : Z }.

Inductive call_step (key : string) (ttl : Z) (v : T) : calls -> calls -> Prop :=
  | cs_tick s f n t t' : t <= t' -> call_step key ttl v (mkCalls s f n t) (mkCalls s f n t')
  | cs_first s f n t i r s' : f i = PStart -> cached c unmarshal t key s = (r, s') ->
      call_step key ttl v (mkCalls s f n t)
        (mkCalls s' (upd f i (match r with Some _ => PDone | None => PMissed end)) n t)
  | cs_lead s f n t i : f i = PMissed -> (forall j, leading (f j) = false) ->
      call_step key ttl v (mkCalls s f n t) (mkCalls s (upd f i PLook) n t)
  | cs_join s f n t i j : f i = PMissed -> leading (f j) = true ->
      call_step key ttl v (mkCalls s f n t) (mkCalls s (upd f i PJoined) n t)
  | cs_second_hit s f n t i x s' : f i = PLook -> cached c unmarshal t key s = (Some x, s') ->
      call_step key ttl v (mkCalls s f n t) (mkCalls s' (finished ∘ f) n t)
  | cs_second_miss s f n t i s' : f i = PLook -> cached c unmarshal t key s = (None, s') ->
      call_step key ttl v (mkCalls s f n t) (mkCalls s' (upd f i PLoad) n t)
  | cs_load s f n t i b : f i = PLoad -> marshal v = Ok b ->
      call_step key ttl v (mkCalls s f n t) (mkCalls s (upd f i (PStore b)) (Datatypes.S n) t)
  | cs_store s f n t i b s' : f i = PStore b -> cache_set c t key (VStr b) ttl s = (None, s') ->
      call_step key ttl v (mkCalls s f n t) (mkCalls s' (finished ∘ f) n t).

Inductive call_steps (key : string) (ttl : Z) (v : T) : calls -> calls -> Prop :=
  | css_nil x : call_steps key ttl v x x
  | css_cons x y z : call_step key ttl v x y -> call_steps key ttl v y z -> call_steps key ttl v x z.

(** The part of the invariant about the leader and its progress, as a predicate
    of the program counters, the number of loads and "the value is stored". *)
Definition pcs_ok (b : string) (f : nat -> pc) (n : nat) (stored : Prop) : Prop :=
  (forall i j, leading (f i) = true -> leading (f j) = true -> i = j)
  /\ ((n = 0%nat /\ (forall i b', f i <> PStore b'))
      \/ (n = 1%nat /\ (forall i, f i <> PLoad) /\ (forall i b', f i = PStore b' -> b' = b)
          /\ ((exists i, f i = PStore b) \/ stored))).

(** Moving caller [i] to a state that leads no execution. *)
Lemma pcs_ok_idle b f n P i p :
  pcs_ok b f n P -> leading (f i) = false -> leading p = false -> pcs_ok b (upd f i p) n P.
Proof.
  intros [H1 H2] Hi Hp. split.
  - intros j k. destruct (decide (j = i)) as [->|Hj]; [rewrite upd_eq; congruence|].
    destruct (decide (k = i)) as [->|Hk]; [rewrite upd_eq; congruence|].
    rewrite !upd_ne by done. apply H1.
  - destruct H2 as [[Hn H2]|(Hn & H2 & H4 & H3)]; [left|right]; (split; [done|]).
    + intros j b'. destruct (decide (j = i)) as [->|Hj]; [rewrite upd_eq; by intros ->|].
      by rewrite upd_ne.
    + split; [|split].
      * intros j. destruct (decide (j = i)) as [->|Hj]; [rewrite upd_eq; by intros ->|].
        by rewrite upd_ne.
      * intros j b'. destruct (decide (j = i)) as [->|Hj]; [rewrite upd_eq; by intros ->|].
        rewrite upd_ne by done. apply H4.
      * destruct H3 as [[j Hj]|HP]; [left; exists j|by right].
        rewrite upd_ne; [done|]. intros ->. by rewrite Hj in Hi.
Qed.

(** The leader moves on within its execution. *)
Lemma pcs_ok_lead b f n P n' i p :
  (forall j, leading (f j) = true -> j = i) -> leading p = true ->
  (n' = 0%nat /\ (forall b', p <> PStore b')
   \/ n' = 1%nat /\ p <> PLoad /\ (p = PStore b \/ (forall b', p <> PStore b') /\ P)) ->
  (n' = 0%nat -> n = 0%nat) -> pcs_ok b f n P -> pcs_ok b (upd f i p) n' P.
Proof.
  intros Hl Hp Hn' Hnn [H1 H2]. split.
  - intros j k. destruct (decide (j = i)) as [->|Hj], (decide (k = i)) as [->|Hk]; try done.
    + rewrite (upd_ne f i p k) by done. intros _ ?. by destruct Hk; apply Hl.
    + rewrite (upd_ne f i p j) by done. intros ? _. by destruct Hj; apply Hl.
    + rewrite !upd_ne by done. apply H1.
  - assert (forall j, j <> i -> leading (f j) = false) as Hf.
    { intros j Hj. apply not_true_iff_false. intros ?. by apply Hj, Hl. }
    destruct Hn' as [[-> Hp']|(-> & Hp' & Hs)]; [left|right]; (split; [done|]).
    + intros j b'. destruct (decide (j = i)) as [->|Hj]; [by rewrite upd_eq|].
      rewrite upd_ne by done. intros E. specialize (Hf j Hj). by rewrite E in Hf.
    + split; [|split].
      * intros j. destruct (decide (j = i)) as [->|Hj]; [by rewrite upd_eq|].
        rewrite upd_ne by done. intros E. specialize (Hf j Hj). by rewrite E in Hf.
      * intros j b'. destruct (decide (j = i)) as [->|Hj].
        { rewrite upd_eq. destruct Hs as [->|[Hno _]]; [by intros [= ->]|]. intros E. by destruct (Hno b'). }
        rewrite upd_ne by done. intros E. specialize (Hf j Hj). by rewrite E in Hf.
      * destruct Hs as [->|[_ HP]]; [left; exists i; apply upd_eq|by right].
Qed.

(** The execution ends. *)
Lemma pcs_ok_finish b f n P (P' : Prop) :
  pcs_ok b f n P -> (n = 1%nat -> P') -> pcs_ok b (finished ∘ f) n P'.
Proof.
  intros [_ H2] HP.
  assert (forall j, leading (finished (f j)) = false) as Hf by (intros j; by destruct (f j)).
  split; [intros j k Hj; cbn in Hj; by rewrite Hf in Hj|].
  destruct H2 as [[Hn H2]|(Hn & H2 & _)]; [left|right]; (split; [done|]).
  - intros j b' E. specialize (Hf j). cbn in E. by rewrite E in Hf.
  - split; [|split; [|by right; apply HP]].
    + intros j E. specialize (Hf j). cbn in E. by rewrite E in Hf.
    + intros j b' E. specialize (Hf j). cbn in E. by rewrite E in Hf.
Qed.

Definition stored (key b : string) (until : Z) (s : S) : Prop := exists d, until <= d /\ holds key b d s.

Lemma call_step_inv key ttl v b until x y :
  json_roundtrip v b -> 0 < ttl -> until <= now_ x + ttl -> now_ y <= until ->
  call_step key ttl v x y ->
  pcs_ok b (pcs x) (loads x) (stored key b until (store_ x)) ->
  pcs_ok b (pcs y) (loads y) (stored key b until (store_ y)).
Proof.
  intros Hj Httl Hu Hy Hst Hi.
  (* looking keeps what is stored, and hits it *)
  assert (forall t s r s', t <= until -> cached c unmarshal t key s = (r, s') ->
    stored key b until s -> stored key b until s' /\ r = Some v) as Hlook.
  { intros t s r s' Ht Hc (d & Hd & Hh). destruct (cached_holds key v b d t s Hj Hh ltac:(lia))
      as (s'' & Hc' & Hh'). rewrite Hc in Hc'. injection Hc' as -> ->. split; [by exists d|done]. }
  assert (forall f n s s', pcs_ok b f n (stored key b until s) ->
    (stored key b until s -> stored key b until s') -> pcs_ok b f n (stored key b until s')) as Hmono.
  { intros f n s s' [H1 H2] Hs. split; [done|]. destruct H2 as [H2|(Hn & H2 & H4 & [H3|H3])];
      [by left|right..]; (do 3 (split; [done|])); [by left|right; auto]. }
  destruct Hst as [s f n t t' Hle|s f n t i r s' Hf Hc|s f n t i Hf Hl|s f n t i j Hf Hl
    |s f n t i z s' Hf Hc|s f n t i s' Hf Hc|s f n t i b0 Hf Hm|s f n t i b0 s' Hf Hset]; cbn in *.
  - done.
  - apply pcs_ok_idle; [|by rewrite Hf|by destruct r].
    eapply Hmono; [done|]. intros Hs. by eapply (Hlook t).
  - eapply (pcs_ok_lead b f n _ n); [|done| |done|done].
    { intros j Hlj. by rewrite Hl in Hlj. }
    destruct Hi as [_ [[-> _]|(-> & _ & _ & [[j Hj']|Hs])]]; [by left| |by right; auto].
    specialize (Hl j). by rewrite Hj' in Hl.
  - apply pcs_ok_idle; [done|by rewrite Hf|done].
  - eapply pcs_ok_finish; [done|]. intros ->.
    destruct Hi as [H1 [[? _]|(_ & _ & Hb & [[j Hj']|Hs])]]; [done| |by eapply (Hlook t)].
    assert (i = j) as -> by (apply H1; [by rewrite Hf|by rewrite Hj']). congruence.
  - assert (n = 0%nat) as ->.
    { destruct Hi as [H1 [[? _]|(_ & _ & Hb & [[j Hj']|Hs])]]; [done| |].
      - assert (i = j) as -> by (apply H1; [by rewrite Hf|by rewrite Hj']). congruence.
      - by destruct (Hlook t _ _ _ Hy Hc Hs) as [_ ?]. }
    eapply (pcs_ok_lead b f 0); [|done|by left|done|].
    + intros j Hlj. destruct Hi as [H1 _]. apply H1; [done|by rewrite Hf].
    + eapply Hmono; [done|]. intros Hs. by eapply (Hlook t).
  - destruct Hj as (Hm' & _). rewrite Hm in Hm'. injection Hm' as ->.
    assert (n = 0%nat) as ->.
    { destruct Hi as [_ [[? _]|(_ & Hno & _)]]; [done|]. by destruct (Hno i). }
    eapply (pcs_ok_lead b f 0); [|done| |done|done].
    + intros j Hlj. destruct Hi as [H1 _]. apply H1; [done|by rewrite Hf].
    + right. split; [done|]. split; [done|by left].
  - eapply pcs_ok_finish; [done|]. intros ->.
    destruct Hi as [H1 [[? _]|(_ & _ & Hb & [[j Hj']|Hs])]]; [done| |].
    all: rewrite (Hb _ _ Hf) in Hset; exists (t + ttl); split; [done|]; by eapply (set_holds _ _ laws).
Qed.

Lemma call_step_now key ttl v x y : call_step key ttl v x y -> now_ x <= now_ y.
Proof. by destruct 1. Qed.

Lemma call_steps_now key ttl v x y : call_steps key ttl v x y -> now_ x <= now_ y.
Proof. induction 1 as [|x y z H1%call_step_now _ IH]; lia. Qed.

(** GetOrLoad protects against stampedes: however many callers miss the same
    key and however their looks at the cache, their waits for the execution in
    flight and the clock interleave, load runs at most once for the lifetime of
    the entry — the second look inside the execution catches callers that
    missed before an earlier execution stored the value. *)
Theorem GetOrLoad_loads_once key ttl v b x y :
  json_roundtrip v b -> 0 < ttl -> loads x = 0%nat -> (forall i, pcs x i = PStart) ->
  call_steps key ttl v x y -> now_ y <= now_ x + ttl ->
  (loads y <= 1)%nat.
Proof.
  intros Hj Httl Hn Hp Hst Hy.
  assert (pcs_ok b (pcs x) (loads x) (stored key b (now_ x + ttl) (store_ x))) as Hi.
  { split; [intros i j; by rewrite Hp|]. left. split; [done|]. intros i b'. by rewrite Hp. }
  set (until := now_ x + ttl) in *. assert (until <= now_ x + ttl) as Hu by lia. clearbody until.
  clear Hn Hp. induction Hst as [x|x y z H1 H2 IH].
  - destruct Hi as [_ [[-> _]|(-> & _)]]; lia.
  - pose proof (call_step_now _ _ _ _ _ H1). pose proof (call_steps_now _ _ _ _ _ H2).
    apply IH; [lia| |lia]. by apply (call_step_inv key ttl v b until x y); [..|lia| |].
Qed.
End getorload.

(** Two callers miss; the second leads only after the first has stored. *)
Definition sample_marshal (v : string) : res string := Ok ("j" +:+ v).
Definition sample_unmarshal (s : string) : res string :=
  match s with String "j" v => Ok v | _ => Err (NewErr "bad json") end.

Lemma GetOrLoad_loads_once_witness :
  exists y, call_steps memory_cache sample_marshal sample_unmarshal "k" 10 "v"
              (mkCalls NewMemoryCache (fun _ => PStart) 0 0) y
            /\ pcs y 0%nat = PDone /\ pcs y 1%nat = PDone /\ (loads y <= 1)%nat.
Proof.
  assert (forall P : calls (S := MemoryCache) -> Prop, (forall y,
    call_steps memory_cache sample_marshal sample_unmarshal "k" 10 "v"
      (mkCalls NewMemoryCache (fun _ => PStart) 0 0) y -> pcs y 0%nat = PDone -> pcs y 1%nat = PDone ->
    now_ y <= 10 -> P y) -> exists y, P y) as Hrun.
  { intros P HP. eexists. eapply HP.
    - eapply css_cons; [eapply (cs_first _ _ _ _ _ _ _ _ _ _ 0%nat); reflexivity|].
      eapply css_cons; [eapply (cs_first _ _ _ _ _ _ _ _ _ _ 1%nat); reflexivity|].
      eapply css_cons; [eapply (cs_lead _ _ _ _ _ _ _ _ _ _ 0%nat); [reflexivity|by intros [|[|?]]]|].
      eapply css_cons; [eapply (cs_second_miss _ _ _ _ _ _ _ _ _ _ 0%nat); reflexivity|].
      eapply css_cons; [eapply (cs_load _ _ _ _ _ _ _ _ _ _ 0%nat); reflexivity|].
      eapply css_cons; [eapply (cs_store _ _ _ _ _ _ _ _ _ _ 0%nat); reflexivity|].
      eapply css_cons; [eapply (cs_tick _ _ _ _ _ _ _ _ _ _ 3); discriminate|].
      eapply css_cons; [eapply (cs_lead _ _ _ _ _ _ _ _ _ _ 1%nat); [reflexivity|by intros [|[|?]]]|].
      eapply css_cons; [eapply (cs_second_hit _ _ _ _ _ _ _ _ _ _ 1%nat); reflexivity|].
      apply css_nil.
    - reflexivity.
    - reflexivity.
    - discriminate. }
  destruct (Hrun (fun y => call_steps memory_cache sample_marshal sample_unmarshal "k" 10 "v"
      (mkCalls NewMemoryCache (fun _ => PStart) 0 0) y
    /\ pcs y 0%nat = PDone /\ pcs y 1%nat = PDone /\ now_ y <= 10)) as (y & Hst & H0 & H1 & Hy); [by auto|].
  exists y. do 3 (split; [assumption|]).
  apply (GetOrLoad_loads_once memory_cache mem_holds sample_marshal sample_unmarshal memory_cache_laws
    "k" 10 "v" "jv" (mkCalls NewMemoryCache (fun _ => PStart) 0 0));
    [split; [reflexivity|split; [discriminate|reflexivity]] | reflexivity | reflexivity | reflexivity
    | exact Hst | exact Hy].
Defined.

(** CacheKey does not escape its separator: different parts can share a key. *)
Example CacheKey_collides : CacheKey "u" ["a:b"; "c"] = CacheKey "u" ["a"; "b:c"].
Proof. reflexivity. Qed.
