(* ===== verification/Redis.v ===== *)
(** * Redis: database/redis (and the RedisCache of cache/cache.go)

    The client library is an interface: [RedisOps] are the commands the code
    issues; [RedisLaws] is what Redis documents of the ones the lock and the
    rate limiter depend on, in terms of what a key is worth now.  Time passes
    between commands, and a key with a ttl may vanish. *)

From S2P Require Import Prelude GoStrings Errors Backoff Cache.

Class RedisOps (R : Type) := {
  r_get : string -> R -> res string * R;               (* redis.Nil when absent *)
  r_set : string -> string -> Z -> R -> error * R;
  r_setnx : string -> string -> Z -> R -> res bool * R;
  r_del : list string -> R -> res Z * R;
  r_exists : string -> R -> res Z * R;
  r_ttl : string -> R -> res Z * R;
  r_incr : string -> R -> res Z * R;
  r_expire : string -> Z -> R -> error * R;
  r_unlock : string -> string -> R -> res Z * R;       (* Eval of unlockScript *)
  r_scan : string -> R -> list string * error * R;     (* SCAN with a pattern: keys, then Err() *)
  r_flushdb : R -> error * R;
  r_live : string -> R -> option string                (* what the key is worth now *)
}.

(** ** cache.go *)

Section json.
Context {R T : Type} `{RedisOps R}.
Variable marshal : T -> res string.
Variable unmarshal : string -> res T.

Definition SetJSON (key : string) (v : T) (ttl : Z) (r : R) : error * R :=
  match marshal v with
  | Err e => (Some (wrapf "redis.SetJSON: marshal" e), r)
  | Ok data => match r_set key data ttl r with
               | (Some e, r) => (Some (wrapf "redis.SetJSON: set" e), r)
               | (None, r) => (None, r)
               end
  end.

(** Some dest on a hit, None when the key does not exist. *)
Definition redis_GetJSON (key : string) (r : R) : res (option T) * R :=
  match r_get key r with
  | (Err e, r) => if errors_is e "redis.Nil" then (Ok None, r) else (Err (wrapf "redis.GetJSON: get" e), r)
  | (Ok data, r) => match unmarshal data with
                    | Err e => (Err (wrapf "redis.GetJSON: unmarshal" e), r)
                    | Ok v => (Ok (Some v), r)
                    end
  end.

(** An error after a successful load also carries the loaded value in Go; the model keeps the
    error. *)
Definition GetOrSet (key : string) (ttl : Z) (loader : R -> res T * R) (r : R) : res T * R :=
  match redis_GetJSON key r with
  | (Err e, r) => (Err (wrapf "redis.GetOrSet" e), r)
  | (Ok (Some v), r) => (Ok v, r)
  | (Ok None, r) =>
      match loader r with
      | (Err e, r) => (Err e, r)
      | (Ok v, r) => match SetJSON key v ttl r with
                     | (Some e, r) => (Err (wrapf "redis.GetOrSet" e), r)
                     | (None, r) => (Ok v, r)
                     end
      end
  end.
End json.

Section commands.
Context {R : Type} `{RedisOps R}.

Definition redis_Delete (keys : list string) (r : R) : error * R :=
  match r_del keys r with (Err e, r) => (Some (wrapf "redis.Delete" e), r) | (Ok _, r) => (None, r) end.
Definition redis_Exists (key : string) (r : R) : res bool * R :=
  match r_exists key r with (Err e, r) => (Err (wrapf "redis.Exists" e), r) | (Ok n, r) => (Ok (0 <? n), r) end.
Definition TTL (key : string) (r : R) : res Z * R :=
  match r_ttl key r with (Err e, r) => (Err (wrapf "redis.TTL" e), r) | (Ok d, r) => (Ok d, r) end.
Definition Increment (key : string) (r : R) : res Z * R :=
  match r_incr key r with (Err e, r) => (Err (wrapf "redis.Increment" e), r) | (Ok n, r) => (Ok n, r) end.

(** ** ratelimit.go *)
Definition Allow (key : string) (limit window : Z) (r : R) : res bool * R :=
  match r_incr key r with
  | (Err e, r) => (Err (wrapf "redis.Allow: incr" e), r)
  | (Ok n, r) =>
      if n =? 1 then
        match r_expire key window r with
        | (Some e, r) => (Err (wrapf "redis.Allow: expire" e), r)
        | (None, r) => (Ok (n <=? limit), r)
        end
      else (Ok (n <=? limit), r)
  end.

(** ** lock.go *)
Definition ErrLockNotHeld : goerr := Sentinel "redis.ErrLockNotHeld" "redis: lock not held".

Record Mutex := mkMutex { mu_key : string; mu_ttl : Z; mu_token : string }.

Definition NewMutex (key : string) (ttl : Z) : Mutex := mkMutex ("lock:" +:+ key) ttl "".

(** [token] is the fresh uuid. *)
Definition Lock (token : string) (m : Mutex) (r : R) : res bool * Mutex * R :=
  match r_setnx (mu_key m) token (mu_ttl m) r with
  | (Err e, r) => (Err (wrapf "redis.Mutex.Lock" e), m, r)
  | (Ok ok, r) => (Ok ok, if ok then mkMutex (mu_key m) (mu_ttl m) token else m, r)
  end.

Definition Unlock (m : Mutex) (r : R) : error * Mutex * R :=
  if bool_decide (mu_token m = "") then (Some ErrLockNotHeld, m, r)
  else match r_unlock (mu_key m) (mu_token m) r with
       | (Err e, r) => (Some (wrapf "redis.Mutex.Unlock" e), m, r)
       | (Ok n, r) => (if n =? 0 then Some ErrLockNotHeld else None, mkMutex (mu_key m) (mu_ttl m) "", r)
       end.

(** ** cacheimpl.go *)
Record redisCache := mkRedisCache { rc_prefix : string; rc_ttl : Z }.
Definition CacheOption := redisCache -> redisCache.
Definition WithKeyPrefix (p : string) : CacheOption := fun c => mkRedisCache p (rc_ttl c).
Definition WithDefaultTTL (d : Z) : CacheOption := fun c => mkRedisCache (rc_prefix c) d.
Definition rc_key (c : redisCache) (k : string) : string := rc_prefix c +:+ k.

Definition rc_Get (c : redisCache) (key : string) (r : R) : res string * R := r_get (rc_key c key) r.

Definition rc_Set (c : redisCache) (key : string) (value : cvalue) (ttl : Z) (r : R) : error * R :=
  let ttl := if ttl <=? 0 then rc_ttl c else ttl in
  match (match value with VStr s => Ok s | VJson m => m end) with
  | Err e => (Some (wrapf ("redis cache set " +:+ quoted key +:+ ": marshal") e), r)
  | Ok payload => r_set (rc_key c key) payload ttl r
  end.

Definition rc_Delete (c : redisCache) (key : string) (r : R) : error * R :=
  match r_del [rc_key c key] r with (Err e, r) => (Some e, r) | (Ok _, r) => (None, r) end.
Definition rc_Exists (c : redisCache) (key : string) (r : R) : res bool * R :=
  match r_exists (rc_key c key) r with (Err e, r) => (Err e, r) | (Ok n, r) => (Ok (0 <? n), r) end.

Fixpoint del_each (keys : list string) (r : R) : error * R :=
  match keys with
  | [] => (None, r)
  | k :: ks => match r_del [k] r with (Err e, r) => (Some e, r) | (Ok _, r) => del_each ks r end
  end.

Definition rc_Clear (c : redisCache) (r : R) : error * R :=
  if bool_decide (rc_prefix c = "")
  then (Some (NewErr "redis cache: Clear requires WithKeyPrefix (refusing to flush a shared DB)"), r)
  else let '(keys, iterErr, r) := r_scan (rc_prefix c +:+ "*") r in
       match del_each keys r with
       | (Some e, r) => (Some e, r)
       | (None, r) => (iterErr, r)
       end.

(** GetJSON of the adapter: unlike the other caches it does not treat an empty payload as a
    miss, so a stored empty string is a decode error. *)
Definition rc_GetJSON {T} (unmarshal : string -> res T) (c : redisCache) (key : string) (r : R)
  : res T * R :=
  match rc_Get c key r with
  | (Err e, r) => (Err e, r)
  | (Ok s, r) => (unmarshal s, r)
  end.

(** NewCache: the adapter as a cache.Cache (its clock is the server's). *)
Definition NewCache (opts : list CacheOption) : CacheOps R :=
  let c := fold_left (fun c o => o c) opts (mkRedisCache "" 0) in
  mkCacheOps (fun _ => rc_Get c) (fun _ => rc_Set c) (fun _ => rc_Delete c) (fun _ => rc_Exists c)
             (fun _ => rc_Clear c).

(** err == redis.Nil *)
Definition is_redis_nil (e : goerr) : bool :=
  match e with Sentinel id _ => bool_decide (id = "redis.Nil") | _ => false end.

(** cache.RedisCache: a missing key reads as the empty string. *)
Definition RedisCache : CacheOps R :=
  mkCacheOps
    (fun _ key r => match r_get key r with
                    | (Err e, r) => if is_redis_nil e then (Ok "", r) else (Err e, r)
                    | ok => ok
                    end)
    (fun _ key value ttl r => match (match value with VStr s => Ok s | VJson m => m end) with
                              | Err e => (Some e, r)
                              | Ok val => r_set key val ttl r
                              end)
    (fun _ key r => match r_del [key] r with (Err e, r) => (Some e, r) | (Ok _, r) => (None, r) end)
    (fun _ key r => match r_exists key r with (Err e, r) => (Err e, r) | (Ok n, r) => (Ok (0 <? n), r) end)
    (fun _ r => r_flushdb r).
End commands.

(** ** Mutual exclusion *)

Class RedisLaws (R : Type) `{RedisOps R} := {
  (* SET NX PX: an error may come back after the command took effect *)
  setnx_ok k v ttl r b r' : r_setnx k v ttl r = (Ok b, r') ->
    if b then r_live k r = None /\ r_live k r' = Some v else r_live k r' = r_live k r;
  setnx_err k v ttl r e r' : r_setnx k v ttl r = (Err e, r') ->
    r_live k r' = r_live k r \/ (r_live k r = None /\ r_live k r' = Some v);
  (* the script: compare and delete *)
  unlock_ok k tok r n r' : r_unlock k tok r = (Ok n, r') ->
    if bool_decide (r_live k r = Some tok) then n = 1 /\ r_live k r' = None
    else n = 0 /\ r_live k r' = r_live k r;
  unlock_err k tok r e r' : r_unlock k tok r = (Err e, r') ->
    r_live k r' = r_live k r \/ (r_live k r = Some tok /\ r_live k r' = None)
}.

Section mutex.
Context {R : Type} `{RedisLaws R}.
Variable key : string.                      (* the namespaced key all instances share *)

(** The server, the Mutex instances, and every token drawn so far. *)
Record locks := mkLocks { server : R; holders : nat -> Mutex; drawn : gset string }.

Inductive lock_event := Locks (i : nat) (ok : res bool) | Unlocks (i : nat) (err : error) | Expires.

Inductive lock_step : locks -> lock_event -> locks -> Prop :=
  | ls_lock r f d i tok ok m' r' : tok <> "" -> (tok ∉ d) -> Lock tok (f i) r = (ok, m', r') ->
      lock_step (mkLocks r f d) (Locks i ok) (mkLocks r' (upd f i m') (d ∪ {[ tok ]}))
  | ls_unlock r f d i err m' r' : Unlock (f i) r = (err, m', r') ->
      lock_step (mkLocks r f d) (Unlocks i err) (mkLocks r' (upd f i m') d)
  | ls_expire r f d r' : r_live key r' = None ->
      lock_step (mkLocks r f d) Expires (mkLocks r' f d).

Inductive lock_steps : locks -> list lock_event -> locks -> Prop :=
  | lss_nil x : lock_steps x [] x
  | lss_snoc x es y e z : lock_steps x es y -> lock_step y e z -> lock_steps x (es ++ [e]) z.

(** Instance [i] owns the lock: the live value is its token. *)
Definition owns (x : locks) (i : nat) : Prop :=
  mu_token (holders x i) <> "" /\ r_live key (server x) = Some (mu_token (holders x i)).

Record lock_inv (x : locks) : Prop := {
  li_key i : mu_key (holders x i) = key;
  li_live v : r_live key (server x) = Some v -> v ∈ drawn x;
  li_drawn i : mu_token (holders x i) <> "" -> mu_token (holders x i) ∈ drawn x;
  li_inj i j : mu_token (holders x i) <> "" -> mu_token (holders x i) = mu_token (holders x j) -> i = j
}.

(** An instance whose token is dropped, or replaced by a fresh one. *)
Lemma lock_inv_set x r' i m' d' :
  lock_inv x -> mu_key m' = key -> drawn x ⊆ d' ->
  (forall v, r_live key r' = Some v -> v ∈ d') ->
  (mu_token m' = "" \/ mu_token m' = mu_token (holders x i)
   \/ ((mu_token m' ∉ drawn x) /\ mu_token m' ∈ d')) ->
  lock_inv (mkLocks r' (upd (holders x) i m') d').
Proof.
  intros [I1 I2 I3 I4] Hk Hd Hl Ht. split; cbn.
  - intros j. destruct (decide (j = i)) as [->|Hj]; [by rewrite upd_eq|by rewrite upd_ne].
  - done.
  - intros j. destruct (decide (j = i)) as [->|Hj].
    + rewrite upd_eq. intros Hne. destruct Ht as [?|[E|[_ ?]]]; [done| |done].
      rewrite E in *. by apply Hd, I3.
    + rewrite upd_ne by done. intros ?. by apply Hd, I3.
  - assert (forall k, k <> i -> mu_token m' <> "" -> mu_token m' = mu_token (holders x k) -> False) as Hclash.
    { intros k Hk' Hne E. destruct Ht as [?|[E'|[Hfr _]]]; [done| |].
      - apply Hk'. symmetry. apply I4; congruence.
      - apply Hfr. rewrite E. apply I3. congruence. }
    intros j k. destruct (decide (j = i)) as [->|Hj], (decide (k = i)) as [->|Hk']; try done.
    + rewrite upd_eq, upd_ne by done. intros ? ?. exfalso. by eapply (Hclash k).
    + rewrite upd_eq, upd_ne by done. intros ? E. exfalso. eapply (Hclash j); congruence.
    + rewrite !upd_ne by done. apply I4.
Qed.

(** What one step does to the live value. *)
Lemma lock_step_inv x e y : lock_step x e y -> lock_inv x -> lock_inv y.
Proof.
  intros Hst Hi. destruct Hst as [r f d i tok ok m' r' Hne Hfr HL|r f d i err m' r' HU|r f d r' Hl].
  - pose proof (li_key _ Hi i) as Hk. cbn in Hk. unfold Lock in HL. rewrite Hk in HL.
    destruct (r_setnx key tok (mu_ttl (f i)) r) as [[b|e] r1] eqn:E; injection HL as <- <- <-.
    + apply setnx_ok in E. apply (lock_inv_set (mkLocks r f d)); cbn; [done|by destruct b|set_solver| |].
      * intros v. destruct b; [destruct E as [_ ->]; intros [= <-]; set_solver|].
        rewrite E. intros Hv. apply (li_live _ Hi) in Hv. cbn in Hv. set_solver.
      * destruct b; [right; right; cbn; set_solver|by right; left].
    + apply setnx_err in E. apply (lock_inv_set (mkLocks r f d)); cbn; [done|done|set_solver| |by right; left].
      intros v Hv. destruct E as [E|[_ E]]; rewrite E in Hv;
        [apply (li_live _ Hi) in Hv; cbn in Hv|injection Hv as <-]; set_solver.
  - pose proof (li_key _ Hi i) as Hk. cbn in Hk. unfold Unlock in HU. rewrite Hk in HU.
    case_bool_decide as Ht.
    { injection HU as <- <- <-. apply (lock_inv_set (mkLocks r f d)); cbn; [done|done|done| |by left].
      intros v. apply (li_live _ Hi). }
    destruct (r_unlock key (mu_token (f i)) r) as [[n|e] r1] eqn:E; injection HU as <- <- <-.
    + apply unlock_ok in E. apply (lock_inv_set (mkLocks r f d)); cbn; [done|done|done| |by left].
      intros v. case_bool_decide; destruct E as [_ E]; rewrite E; [done|]. apply (li_live _ Hi).
    + apply unlock_err in E. apply (lock_inv_set (mkLocks r f d)); cbn; [done|done|done| |by right; left].
      intros v. destruct E as [->|[_ ->]]; [|done]. apply (li_live _ Hi).
  - destruct Hi as [I1 I2 I3 I4]. split; cbn in *; try done. by rewrite Hl.
Qed.

Lemma lock_steps_inv x es y : lock_steps x es y -> lock_inv x -> lock_inv y.
Proof. induction 1 as [|x es y e z _ IH Hst]; [done|]. intros Hi. eapply lock_step_inv; eauto. Qed.

(** A system of instances none of which holds a token. *)
Lemma lock_inv_init r ttls d :
  (forall v, r_live key r = Some v -> v ∈ d) ->
  lock_inv (mkLocks r (fun i => mkMutex key (ttls i) "") d).
Proof. intros Hl. by split. Qed.

(** C13. The lock is exclusive: whatever Lock and Unlock calls any number of Mutex
    instances make, in any interleaving with expiries and with replies lost
    after the command took effect, at most one instance ever owns the key; a
    Lock that succeeds found the key free; an Unlock never takes the lock away
    from another owner; and an Unlock that returns nil released a lock its
    caller owned. *)
Theorem Mutex_exclusive r ttls d es x e y :
  (forall v, r_live key r = Some v -> v ∈ d) ->
  lock_steps (mkLocks r (fun i => mkMutex key (ttls i) "") d) es x -> lock_step x e y ->
  (forall i j, owns x i -> owns x j -> i = j)
  /\ match e with
     | Locks i (Ok true) => (forall j, ~ owns x j) /\ owns y i
     | Unlocks i err => (forall j, j <> i -> owns x j -> owns y j) /\ (err = None -> owns x i)
     | _ => True
     end.
Proof.
  intros Hd Hsteps Hst. apply lock_steps_inv in Hsteps as Hi; [|by apply lock_inv_init]. split.
  { intros i j [Hi1 Hi2] [Hj1 Hj2]. apply (li_inj _ Hi); [done|congruence]. }
  destruct Hst as [r0 f d0 i tok ok m' r' Hne Hfr HL|r0 f d0 i err m' r' HU|]; [| |done].
  - pose proof (li_key _ Hi i) as Hk. cbn in Hk. unfold Lock in HL. rewrite Hk in HL.
    destruct (r_setnx key tok (mu_ttl (f i)) r0) as [[b|e] r1] eqn:E; injection HL as <- <- <-; [|done].
    destruct b; [|done]. apply setnx_ok in E as [E1 E2]. unfold owns. cbn. split.
    + intros j [_ ?]. congruence.
    + rewrite upd_eq. done.
  - pose proof (li_key _ Hi i) as Hk. cbn in Hk. unfold Unlock in HU. rewrite Hk in HU.
    assert (forall j, j <> i -> owns (mkLocks r0 f d0) j -> r_live key r0 <> Some (mu_token (f i))) as Hoth.
    { intros j Hj [Hj1 Hj2] E. cbn in *. apply Hj, (li_inj _ Hi); cbn; congruence. }
    unfold owns. cbn. case_bool_decide as Ht.
    { injection HU as <- <- <-. split; [|done]. intros j Hj Ho. by rewrite upd_ne. }
    destruct (r_unlock key (mu_token (f i)) r0) as [[n|e] r1] eqn:E; injection HU as <- <- <-.
    + apply unlock_ok in E. case_bool_decide as Hown.
      * split; [|done]. intros j Hj Ho. by destruct (Hoth j Hj Ho).
      * destruct E as [-> E]. split; [|done]. intros j Hj Ho. rewrite upd_ne by done. by rewrite E.
    + split; [|done]. apply unlock_err in E. intros j Hj Ho. rewrite upd_ne by done.
      destruct E as [->|[E _]]; [done|]. by destruct (Hoth j Hj Ho).
Qed.
End mutex.

(** ** A concrete server *)

Record rstore := mkRS { rs_now : Z; rs_keys : list (string * (string * option Z)) }.

Definition rs_live (k : string) (r : rstore) : option string :=
  match alookup (rs_keys r) k with
  | Some (v, Some d) => if rs_now r <? d then Some v else None
  | Some (v, None) => Some v
  | None => None
  end.
Definition rs_put (k v : string) (ttl : Z) (r : rstore) : rstore :=
  mkRS (rs_now r) (aset k (v, if 0 <? ttl then Some (rs_now r + ttl) else None) (rs_keys r)).
(** A deleted key is left behind as an entry that has expired. *)
Definition rs_drop (k : string) (r : rstore) : rstore :=
  mkRS (rs_now r) (aset k ("", Some (rs_now r)) (rs_keys r)).

#[export] Instance rstore_ops : RedisOps rstore := {
  r_live := rs_live;
  r_get k r := (match rs_live k r with Some v => Ok v | None => Err redis_Nil end, r);
  r_set k v ttl r := (None, rs_put k v ttl r);
  r_setnx k v ttl r := match rs_live k r with
                       | Some _ => (Ok false, r)
                       | None => (Ok true, rs_put k v ttl r)
                       end;
  r_del ks r := (Ok (Z.of_nat (length (List.filter (fun k => match rs_live k r with Some _ => true | None => false end) ks))),
                 fold_left (fun r k => rs_drop k r) ks r);
  r_exists k r := (Ok (match rs_live k r with Some _ => 1 | None => 0 end), r);
  r_ttl k r := (Ok (match alookup (rs_keys r) k with
                    | Some (_, Some d) => if rs_now r <? d then d - rs_now r else -2
                    | Some (_, None) => -1
                    | None => -2
                    end), r);
  r_incr k r := match rs_live k r with
                | None => (Ok 1, rs_put k "1" 0 r)
                | Some v => match atoi v with
                            | Some n => (Ok (n + 1), mkRS (rs_now r) (aset k (itoa (n + 1),
                                match alookup (rs_keys r) k with Some (_, d) => d | None => None end) (rs_keys r)))
                            | None => (Err (NewErr "ERR value is not an integer or out of range"), r)
                            end
                end;
  r_expire k ttl r := (None, match rs_live k r with Some v => rs_put k v ttl r | None => r end);
  r_unlock k tok r := if bool_decide (rs_live k r = Some tok) then (Ok 1, rs_drop k r) else (Ok 0, r);
  r_scan p r := (map fst (rs_keys r), None, r);
  r_flushdb r := (None, mkRS (rs_now r) [])
}.

Lemma rs_live_put k v ttl r : rs_live k (rs_put k v ttl r) = Some v.
Proof.
  unfold rs_live, rs_put. cbn. rewrite alookup_aset_eq. destruct (Z.ltb_spec 0 ttl); [|done].
  by destruct (Z.ltb_spec (rs_now r) (rs_now r + ttl)); [|lia].
Qed.
Lemma rs_live_drop k r : rs_live k (rs_drop k r) = None.
Proof. unfold rs_live, rs_drop. cbn. rewrite alookup_aset_eq. by rewrite Z.ltb_irrefl. Qed.

#[export] Instance rstore_laws : RedisLaws rstore.
Proof.
  split; cbn.
  - intros k v ttl r b r'. destruct (rs_live k r) eqn:E; intros [= <- <-]; [done|].
    split; [done|apply rs_live_put].
  - intros k v ttl r e r'. by destruct (rs_live k r).
  - intros k tok r n r'. case_bool_decide; intros [= <- <-]; [|done]. split; [done|apply rs_live_drop].
  - intros k tok r e r'. by case_bool_decide.
Qed.

(** Instance 0 locks, its lease expires, instance 1 locks; instance 0's late
    Unlock is refused and instance 1 still owns the lock. *)
Lemma Mutex_exclusive_witness :
  let x0 := mkLocks (mkRS 0 []) (fun i => mkMutex "lock:k" 10 "") ∅ in
  exists es x y, lock_steps "lock:k" x0 es x /\ lock_step "lock:k" x (Unlocks 0%nat (Some ErrLockNotHeld)) y
    /\ owns "lock:k" x 1%nat /\ owns "lock:k" y 1%nat.
Proof.
  intros x0.
  assert (exists es x, lock_steps "lock:k" x0 es x /\ owns "lock:k" x 1%nat
            /\ exists y, lock_step "lock:k" x (Unlocks 0%nat (Some ErrLockNotHeld)) y) as (es & x & Hx & Ho & y & Hy).
  { eexists _, _. split; [|split].
    - eapply lss_snoc; [eapply lss_snoc; [eapply lss_snoc; [apply lss_nil|]|]|].
      + eapply (ls_lock _ _ _ _ 0%nat "t0"); [discriminate|apply not_elem_of_empty|reflexivity].
      + apply (ls_expire _ _ _ _ (mkRS 11 [])). reflexivity.
      + eapply (ls_lock _ _ _ _ 1%nat "t1"); [discriminate|set_solver|reflexivity].
    - split; [discriminate|reflexivity].
    - eexists. apply ls_unlock. reflexivity. }
  exists es, x, y. split; [exact Hx|]. split; [exact Hy|]. split; [exact Ho|].
  apply (Mutex_exclusive "lock:k" (mkRS 0 []) (fun _ => 10) ∅ es x (Unlocks 0%nat (Some ErrLockNotHeld)) y);
    [intros v Hv; discriminate Hv | exact Hx | exact Hy | discriminate | exact Ho].
Defined.
