(* ===== verification/Amqp.v ===== *)
(** * Amqp: messaging/rabbitmq — the client, the topology and the reliable publisher

    The amqp091 driver is an interface, [Amqp]: connections, channels and
    deferred confirms are numbers, an operation takes and returns the world.
    [AmqpLaws] states what the driver documents and the theorems use.  The trace
    headers of a message (otel.go) are in Tracing. *)

From S2P Require Import Prelude GoStrings Errors Backoff Breaker Retry.

Record Publishing := mkPub { ContentType : string; pub_MessageId : string; pub_Body : string }.

Record Delivery := mkDelivery { MessageId : string; RoutingKey : string; Body : string }.

(** How the wait for a publisher confirm ends. *)
Inductive confirm := ConfirmAcked | ConfirmNacked | ConfirmCtx (e : goerr).

(** What the select of a consumer loop receives. *)
Inductive received :=
  | CtxDone
  | ChannelClosed (err : error)
  | Received (d : Delivery)
  | DeliveriesClosed.

Class Amqp (W : Type) := {
  amqp_Dial : string -> W -> res nat * W;
  conn_Channel : nat -> W -> res nat * W;
  conn_Close : nat -> W -> error * W;
  conn_lost : nat -> W -> bool * W;       (* wait on NotifyClose and done: true = the connection dropped *)
  ch_Close : nat -> W -> W;
  ch_IsClosed : nat -> W -> bool;
  ch_Confirm : nat -> W -> error * W;
  ch_Qos : nat -> Z -> W -> error * W;
  ch_ExchangeDeclare : nat -> string -> string -> bool -> W -> error * W;
  ch_QueueDeclare : nat -> string -> bool -> list (string * string) -> W -> res string * W;
  ch_QueueDelete : nat -> string -> W -> error * W;
  ch_QueueBind : nat -> string -> string -> string -> W -> error * W;  (* queue, key, exchange *)
  ch_Publish : nat -> string -> string -> Publishing -> W -> error * W;
  ch_PublishDeferred : nat -> string -> string -> Publishing -> W -> res nat * W;
  dc_wait : nat -> W -> confirm * W;
  ch_Consume : nat -> string -> string -> W -> error * W;
  ch_receive : nat -> W -> received * W;
  d_Ack : Delivery -> W -> error * W;
  d_Nack : bool -> Delivery -> W -> error * W                          (* requeue *)
}.

(** amqp.ErrClosed *)
Definition amqp_ErrClosed : goerr :=
  Sentinel "amqp.ErrClosed"
    ("Exception (504) Reason: " +:+ quoted "channel/connection is not open").

(** ** reliable_publisher.go *)

Record PublisherConfig := mkPubCfg {
  pc_URL : string; pc_Exchange : string; pc_ExchangeType : string; Confirms : bool
}.

(** The connection and channel the publisher holds, swapped under its mutex. *)
Record ReliablePublisher := mkPublisher {
  p_cfg : PublisherConfig; p_conn : option nat; p_ch : option nat
}.

Definition isChannelClosedErr (err : error) : bool :=
  match err with
  | None => false
  | Some e =>
      bool_decide (error_text e = "channel/connection is not open")
      || bool_decide (error_text e = "Exception (504) Reason: " +:+ quoted "channel/connection is not open")
  end.

Section publisher.
Context {W : Type} `{Amqp W}.

(** Undo of a half-made dial: close the channel and the connection. *)
Definition drop_conn (ch conn : nat) (w : W) : W := (conn_Close conn (ch_Close ch w)).2.

Definition dial (p : ReliablePublisher) (w : W) : error * ReliablePublisher * W :=
  let cfg := p_cfg p in
  match amqp_Dial (pc_URL cfg) w with
  | (Err e, w) => (Some (wrapf "dial rabbitmq" e), p, w)
  | (Ok conn, w) =>
      match conn_Channel conn w with
      | (Err e, w) => (Some (wrapf "open channel" e), p, (conn_Close conn w).2)
      | (Ok ch, w) =>
          match (if Confirms cfg then ch_Confirm ch w else (None, w)) with
          | (Some e, w) => (Some (wrapf "enable publisher confirms" e), p, drop_conn ch conn w)
          | (None, w) =>
              let kind := if bool_decide (pc_ExchangeType cfg = "") then "topic" else pc_ExchangeType cfg in
              match (if bool_decide (pc_Exchange cfg = "") then (None, w)
                     else ch_ExchangeDeclare ch (pc_Exchange cfg) kind true w) with
              | (Some e, w) =>
                  (Some (wrapf ("declare exchange " +:+ quoted (pc_Exchange cfg)) e), p, drop_conn ch conn w)
              | (None, w) =>
                  let old := p_conn p in
                  let p := mkPublisher cfg (Some conn) (Some ch) in
                  (None, p, match old with Some c => (conn_Close c w).2 | None => w end)
              end
          end
      end
  end.

(** The failed first dial is only logged. *)
Definition NewReliablePublisher (cfg : PublisherConfig) (w : W) : res ReliablePublisher * W :=
  if bool_decide (pc_URL cfg = "") then (Err (NewErr "rabbitmq publisher: URL is required"), w)
  else let '(_, p, w) := dial (mkPublisher cfg None None) w in (Ok p, w).

Definition publishOnce (exchange key : string) (pub : Publishing) (p : ReliablePublisher) (w : W)
  : error * W :=
  match p_ch p with
  | None => (Some amqp_ErrClosed, w)
  | Some ch =>
      if negb (Confirms (p_cfg p)) then ch_Publish ch exchange key pub w
      else match ch_PublishDeferred ch exchange key pub w with
           | (Err e, w) => (Some e, w)
           | (Ok dc, w) =>
               match dc_wait dc w with
               | (ConfirmAcked, w) => (None, w)
               | (ConfirmNacked, w) =>
                   (Some (NewErr ("rabbitmq publisher: broker nacked message (exchange="
                                  +:+ quoted exchange +:+ " key=" +:+ quoted key +:+ ")")), w)
               | (ConfirmCtx e, w) => (Some (wrapf "rabbitmq publisher: confirm wait" e), w)
               end
           end
  end.

Definition closed_error (e : goerr) : bool :=
  errors_is e "amqp.ErrClosed" || isChannelClosedErr (Some e).

Definition publishWithRetry (exchange key : string) (pub : Publishing) (p : ReliablePublisher) (w : W)
  : error * ReliablePublisher * W :=
  match publishOnce exchange key pub p w with
  | (None, w) => (None, p, w)
  | (Some e, w) =>
      if closed_error e then
        match dial p w with
        | (Some derr, p, w) => (Some (wrapf "redial after publish failure" derr), p, w)
        | (None, p, w) =>
            match publishOnce exchange key pub p w with
            | (Some err2, w) => (Some (wrapf "publish after redial" err2), p, w)
            | (None, w) => (None, p, w)
            end
        end
      else (Some e, p, w)
  end.

Definition rp_Publish (exchange key body messageID : string) (p : ReliablePublisher) (w : W)
  : error * ReliablePublisher * W :=
  publishWithRetry exchange key (mkPub "application/json" messageID body) p w.

Definition rp_PublishJSON (exchange key : string) (v : res string) (p : ReliablePublisher) (w : W)
  : error * ReliablePublisher * W :=
  match v with
  | Err e => (Some (wrapf "rabbitmq publisher: marshal" e), p, w)
  | Ok body => rp_Publish exchange key body "" p w
  end.

Definition rp_IsConnected (p : ReliablePublisher) (w : W) : bool :=
  match p_ch p with Some ch => negb (ch_IsClosed ch w) | None => false end.

Definition rp_Close (p : ReliablePublisher) (w : W) : W :=
  let w := match p_ch p with Some ch => ch_Close ch w | None => w end in
  match p_conn p with Some c => (conn_Close c w).2 | None => w end.
End publisher.

(** ** client.go, publisher.go, topology.go *)

Record Config := mkConfig { URL : string; ReconnectDelay : Z }.

(** Channel and connection are set together by connect. *)
Record Client := mkClient { c_cfg : Config; c_conn : nat; c_channel : nat }.

Section client.
Context {W : Type} `{World W} `{Amqp W}.

Definition connect (cfg : Config) (w : W) : res Client * W :=
  match amqp_Dial (URL cfg) w with
  | (Err e, w) => (Err (wrapf "dial" e), w)
  | (Ok conn, w) =>
      match conn_Channel conn w with
      | (Err e, w) => (Err (wrapf "open channel" e), (conn_Close conn w).2)
      | (Ok ch, w) => (Ok (mkClient cfg conn ch), w)
      end
  end.

Definition NewClient (cfg : Config) (w : W) : res Client * W :=
  let cfg := if ReconnectDelay cfg =? 0 then mkConfig (URL cfg) (5 * Second) else cfg in
  match connect cfg w with
  | (Err e, w) => (Err (wrapf "rabbitmq.NewClient: initial connect" e), w)
  | ok => ok
  end.

(** The inner loop of reconnectLoop: wait, connect, double the delay up to a
    minute; None = the client was closed.  [fuel] bounds the connection attempts. *)
Fixpoint reconnect (fuel : nat) (delay : Z) (c : Client) (w : W) : option (option Client * W) :=
  match fuel with
  | O => None
  | S fuel =>
      let '(fired, w) := wait delay w in
      if negb fired then Some (None, w)
      else match connect (c_cfg c) w with
           | (Ok c, w) => Some (Some c, w)
           | (Err _, w) =>
               let delay := wrap64 (delay * 2) in
               let delay := if 60 * Second <? delay then 60 * Second else delay in
               reconnect fuel delay c w
           end
  end.

(** reconnectLoop; [fuel] also bounds the number of dropped connections. *)
Fixpoint reconnectLoop (fuel : nat) (c : Client) (w : W) : option (Client * W) :=
  match fuel with
  | O => None
  | S fuel' =>
      let '(dropped, w) := conn_lost (c_conn c) w in
      if negb dropped then Some (c, w)
      else match reconnect fuel (ReconnectDelay (c_cfg c)) c w with
           | Some (Some c, w) => reconnectLoop fuel' c w
           | Some (None, w) => Some (c, w)
           | None => None
           end
  end.

Definition Channel (c : Client) : nat := c_channel c.
Definition IsConnected (c : Client) (w : W) : bool := negb (ch_IsClosed (c_channel c) w).
Definition Close (c : Client) (w : W) : error * W := conn_Close (c_conn c) (ch_Close (c_channel c) w).

Definition Publish (exchange key body : string) (c : Client) (w : W) : error * W :=
  match ch_Publish (Channel c) exchange key (mkPub "application/octet-stream" "" body) w with
  | (Some e, w) => (Some (wrapf "rabbitmq.Publish" e), w)
  | (None, w) => (None, w)
  end.

Definition PublishJSON (exchange key : string) (v : res string) (c : Client) (w : W) : error * W :=
  match v with
  | Err e => (Some (wrapf "rabbitmq.PublishJSON: marshal" e), w)
  | Ok data =>
      match ch_Publish (Channel c) exchange key (mkPub "application/json" "" data) w with
      | (Some e, w) => (Some (wrapf "rabbitmq.PublishJSON: publish" e), w)
      | (None, w) => (None, w)
      end
  end.

Definition DeclareExchange (name kind : string) (durable : bool) (c : Client) (w : W) : error * W :=
  match ch_ExchangeDeclare (Channel c) name kind durable w with
  | (Some e, w) => (Some (wrapf ("rabbitmq.DeclareExchange " +:+ quoted name) e), w)
  | (None, w) => (None, w)
  end.

Definition DeclareQueueWithArgs (name : string) (durable : bool) (args : list (string * string))
    (c : Client) (w : W) : res string * W :=
  match ch_QueueDeclare (Channel c) name durable args w with
  | (Err e, w) => (Err (wrapf ("rabbitmq.DeclareQueue " +:+ quoted name) e), w)
  | ok => ok
  end.

Definition DeclareQueue (name : string) (durable : bool) (c : Client) (w : W) : res string * W :=
  DeclareQueueWithArgs name durable [] c w.

Definition DeleteQueue (name : string) (c : Client) (w : W) : error * W :=
  match ch_QueueDelete (Channel c) name w with
  | (Some e, w) => (Some (wrapf ("rabbitmq.DeleteQueue " +:+ quoted name) e), w)
  | (None, w) => (None, w)
  end.

Definition BindQueue (queue exchange key : string) (c : Client) (w : W) : error * W :=
  match ch_QueueBind (Channel c) queue key exchange w with
  | (Some e, w) =>
      (Some (wrapf ("rabbitmq.BindQueue " +:+ quoted queue +:+ utf8 [226; 134; 146] +:+ quoted exchange
                    +:+ " (key=" +:+ quoted key +:+ ")") e), w)
  | (None, w) => (None, w)
  end.

(** Five declarations in a row, each with its own message on failure. *)
Definition DeclareQueueWithDLQ (ch : nat) (exchange exchangeKind queue bindingKey : string)
    (durable : bool) (w : W) : res string * W :=
  let failed what name e := Err (wrapf ("rabbitmq.DeclareQueueWithDLQ: " +:+ what +:+ " " +:+ quoted name) e) in
  match ch_ExchangeDeclare ch exchange exchangeKind durable w with
  | (Some e, w) => (failed "declare exchange" exchange e, w)
  | (None, w) =>
  let dlx := exchange +:+ ".dlx" in
  match ch_ExchangeDeclare ch dlx "topic" durable w with
  | (Some e, w) => (failed "declare dlx" dlx e, w)
  | (None, w) =>
  let dlq := queue +:+ ".dlq" in
  match ch_QueueDeclare ch dlq durable [] w with
  | (Err e, w) => (failed "declare dlq" dlq e, w)
  | (Ok _, w) =>
  match ch_QueueBind ch dlq "#" dlx w with
  | (Some e, w) => (failed "bind dlq" dlq e, w)
  | (None, w) =>
  match ch_QueueDeclare ch queue durable [("x-dead-letter-exchange", dlx)] w with
  | (Err e, w) => (failed "declare queue" queue e, w)
  | (Ok q, w) =>
  match ch_QueueBind ch queue bindingKey exchange w with
  | (Some e, w) => (failed "bind queue" queue e, w)
  | (None, w) => (Ok q, w)
  end end end end end end.

(** consumer.go: one delivery of Client.Consume's goroutine; the errors of Ack
    and Nack are only logged. *)
Definition consume_one (handler : string -> W -> error * W) (d : Delivery) (w : W) : W :=
  match handler (Body d) w with
  | (Some _, w) => (d_Nack false d w).2
  | (None, w) => (d_Ack d w).2
  end.

(** The goroutine: until the delivery channel is closed; [fuel] bounds the deliveries. *)
Fixpoint consume_deliveries (fuel : nat) (handler : string -> W -> error * W) (ch : nat) (w : W) : W :=
  match fuel with
  | O => w
  | S fuel =>
      match ch_receive ch w with
      | (Received d, w) => consume_deliveries fuel handler ch (consume_one handler d w)
      | (_, w) => w
      end
  end.

Definition Consume (fuel : nat) (queue : string) (handler : string -> W -> error * W) (c : Client) (w : W)
  : error * W :=
  match ch_Consume (Channel c) queue "" w with
  | (Some e, w) => (Some (wrapf "rabbitmq.Consume: register consumer" e), w)
  | (None, w) => (None, consume_deliveries fuel handler (Channel c) w)
  end.
End client.

(** ** What the driver documents *)

(** Open connections, channels in confirm mode, and the messages the broker has
    taken responsibility for. *)
Class AmqpView (W : Type) := {
  open_conns : W -> gset nat;
  confirming : nat -> W -> Prop;
  taken : W -> list (string * string * Publishing)
}.

(** Confirm mode is never left, and a message once taken stays so. *)
Definition grows {W} `{AmqpView W} (w w' : W) : Prop :=
  (forall ch, confirming ch w -> confirming ch w') /\ taken w ⊆ taken w'.
Definition keeps {W} `{AmqpView W} (w w' : W) : Prop := grows w w' /\ open_conns w' = open_conns w.

Class AmqpLaws (W : Type) `{Amqp W} `{AmqpView W} := {
  law_dial u w : match amqp_Dial u w with
    | (Ok c, w') => grows w w' /\ (c ∉ open_conns w) /\ open_conns w' = {[ c ]} ∪ open_conns w
    | (Err _, w') => keeps w w'
    end;
  law_conn_close c w : grows w (conn_Close c w).2 /\ open_conns (conn_Close c w).2 = open_conns w ∖ {[ c ]};
  law_channel c w : keeps w (conn_Channel c w).2;
  law_ch_close ch w : keeps w (ch_Close ch w);
  law_confirm ch w : keeps w (ch_Confirm ch w).2 /\ ((ch_Confirm ch w).1 = None -> confirming ch (ch_Confirm ch w).2);
  law_declare ch x k d w : keeps w (ch_ExchangeDeclare ch x k d w).2;
  law_publish ch x k m w : keeps w (ch_Publish ch x k m w).2;
  law_deferred ch x k m w : keeps w (ch_PublishDeferred ch x k m w).2;
  law_wait dc w : keeps w (dc_wait dc w).2;
  (* an ack confirms the message the deferred confirmation belongs to *)
  law_acked ch x k m w dc w1 w2 :
    confirming ch w -> ch_PublishDeferred ch x k m w = (Ok dc, w1) -> dc_wait dc w1 = (ConfirmAcked, w2) ->
    (x, k, m) ∈ taken w2
}.

Section publisher_spec.
Context {W : Type} `{Amqp W} `{!AmqpView W} `{!AmqpLaws W}.

Lemma grows_trans (w1 w2 w3 : W) : grows w1 w2 -> grows w2 w3 -> grows w1 w3.
Proof. intros [H1 H2] [H3 H4]. split; [naive_solver|]. etrans; eassumption. Qed.

Lemma keeps_trans (w1 w2 w3 : W) : keeps w1 w2 -> keeps w2 w3 -> keeps w1 w3.
Proof. intros [H1 E1] [H2 E2]. split; [by eapply grows_trans|congruence]. Qed.

Lemma keeps_refl (w : W) : keeps w w.
Proof. by repeat split. Qed.

(** What the publisher owns: one open connection, and in confirm mode its channel is too. *)
Record owns_conn (base : gset nat) (p : ReliablePublisher) (w : W) : Prop := {
  oc_fresh c : p_conn p = Some c -> c ∉ base;
  oc_open : open_conns w = base ∪ from_option (fun c => {[ c ]}) ∅ (p_conn p);
  oc_confirm ch : Confirms (p_cfg p) = true -> p_ch p = Some ch -> confirming ch w
}.

Lemma owns_keeps base p w w' : owns_conn base p w -> keeps w w' -> owns_conn base p w'.
Proof. intros [F O C] [[G _] E]. split; [done|by rewrite E|naive_solver]. Qed.

(** A dial in progress that started in [w0] holds one connection more. *)
Definition dialling (w0 : W) (conn : nat) (w : W) : Prop :=
  (conn ∉ open_conns w0) /\ grows w0 w /\ open_conns w = {[ conn ]} ∪ open_conns w0.

Lemma dialling_keeps w0 conn w w' : dialling w0 conn w -> keeps w w' -> dialling w0 conn w'.
Proof. intros (Hn & G & E) [G' E']. split_and!; [done|by eapply grows_trans|congruence]. Qed.

Lemma dialling_close w0 conn w : dialling w0 conn w -> keeps w0 (conn_Close conn w).2.
Proof.
  intros (Hn & G & E). destruct (law_conn_close conn w) as [G' E'].
  split; [by eapply grows_trans|]. set_solver.
Qed.

Lemma dialling_drop w0 conn ch w : dialling w0 conn w -> keeps w0 (drop_conn ch conn w).
Proof. intros D. apply dialling_close. eapply dialling_keeps; [done|apply law_ch_close]. Qed.

(** The swap: the new connection is held, the old one closed. *)
Lemma dialling_swap base p conn ch w0 w :
  owns_conn base p w0 -> dialling w0 conn w -> (Confirms (p_cfg p) = true -> confirming ch w) ->
  let w' := match p_conn p with Some c => (conn_Close c w).2 | None => w end in
  owns_conn base (mkPublisher (p_cfg p) (Some conn) (Some ch)) w' /\ grows w0 w'.
Proof.
  intros [F O C] (Hn & G & E) Hc. cbn. destruct (p_conn p) as [c|] eqn:Ep; cbn in *.
  - destruct (law_conn_close c w) as [G' E']. specialize (F c eq_refl).
    split; [|by eapply grows_trans]. rewrite O in Hn. split; cbn; [intros ? [= <-]; clear - Hn; set_solver| |].
    + rewrite E', E, O. clear - Hn F. set_solver.
    + intros ch' Hcf [= <-]. destruct G' as [G' _]. eauto.
  - split; [|done]. rewrite O in Hn. split; cbn; [|rewrite E, O; clear; set_solver|naive_solver].
    intros ? [= <-]. clear - Hn. set_solver.
Qed.

(** A dial replaces the connection or leaves everything as it was: nothing leaks. *)
Lemma dial_spec base p w err p' w' :
  owns_conn base p w -> dial p w = (err, p', w') ->
  owns_conn base p' w' /\ grows w w' /\ p_cfg p' = p_cfg p.
Proof.
  intros O. unfold dial.
  assert (keep : forall w1, keeps w w1 -> owns_conn base p w1 /\ grows w w1 /\ p_cfg p = p_cfg p).
  { intros w1 K. split_and!; [by eapply owns_keeps|apply K|done]. }
  pose proof (law_dial (pc_URL (p_cfg p)) w) as L.
  destruct (amqp_Dial _ w) as [[conn|e] w1]; [|intros [= <- <- <-]; by apply keep].
  destruct L as (G & Hn & E). assert (D : dialling w conn w1) by done. clear G Hn E.
  pose proof (law_channel conn w1) as L. destruct (conn_Channel conn w1) as [[ch|e] w2]; cbn in L;
    (eapply dialling_keeps in D; [|exact L]); [|intros [= <- <- <-]; by apply keep, dialling_close].
  set (cfm := if Confirms (p_cfg p) then _ else _).
  assert (Lc : keeps w2 cfm.2 /\ (cfm.1 = None -> Confirms (p_cfg p) = true -> confirming ch cfm.2)).
  { subst cfm. destruct (Confirms _); [|by split; [apply keeps_refl|]].
    destruct (law_confirm ch w2) as [K Hc]. split; [done|]. auto. }
  destruct cfm as [[e|] w3], Lc as [Lk Lc]; cbn in Lk, Lc;
    (eapply dialling_keeps in D; [|exact Lk]); [intros [= <- <- <-]; by apply keep, dialling_drop|].
  specialize (Lc eq_refl).
  set (kind := if bool_decide (pc_ExchangeType _ = _) then _ else _).
  set (decl := if bool_decide (pc_Exchange _ = _) then _ else _).
  assert (Ld : keeps w3 decl.2) by (subst decl; case_bool_decide; [apply keeps_refl|apply law_declare]).
  destruct decl as [[e|] w4]; cbn in Ld;
    (eapply dialling_keeps in D; [|exact Ld]); [intros [= <- <- <-]; by apply keep, dialling_drop|].
  intros [= <- <- <-].
  destruct (dialling_swap base p conn ch w w4 O D) as [O' G']; [|done].
  intros Hc. destruct Ld as [[Ld _] _]. auto.
Qed.

Lemma publishOnce_spec x k m p (w : W) err w' :
  publishOnce x k m p w = (err, w') ->
  keeps w w' /\
  (err = None -> Confirms (p_cfg p) = true ->
   (forall ch, p_ch p = Some ch -> confirming ch w) -> (x, k, m) ∈ taken w').
Proof.
  unfold publishOnce. destruct (p_ch p) as [ch|]; [|intros [= <- <-]; by split; [apply keeps_refl|]].
  destruct (Confirms (p_cfg p)) eqn:Ec; cbn.
  - pose proof (law_deferred ch x k m w) as Kd. pose proof (law_acked ch x k m w) as Ka.
    destruct (ch_PublishDeferred ch x k m w) as [[dc|e] w1]; [|intros [= <- <-]; by split].
    specialize (Ka dc w1). pose proof (law_wait dc w1) as Kw. cbn in Kd.
    destruct (dc_wait dc w1) as [[| |e] w2]; intros [= <- <-]; cbn in Kw;
      (split; [by eapply keeps_trans|]); try done.
    intros _ _ Hch. eapply Ka; [by apply Hch|done|done].
  - intros Hp. pose proof (law_publish ch x k m w) as K. rewrite Hp in K. by split.
Qed.

Lemma owns_publish base p w x k m err w' :
  owns_conn base p w -> publishOnce x k m p w = (err, w') ->
  owns_conn base p w' /\ grows w w' /\ (err = None -> Confirms (p_cfg p) = true -> (x, k, m) ∈ taken w').
Proof.
  intros O Hp. apply publishOnce_spec in Hp as [K Hm].
  split_and!; [by eapply owns_keeps|apply K|]. intros He Hc. apply Hm; [done..|].
  intros ch. by apply (oc_confirm _ _ _ O).
Qed.

Lemma publishWithRetry_spec base p w x k m err p' w' :
  owns_conn base p w -> publishWithRetry x k m p w = (err, p', w') ->
  owns_conn base p' w' /\ grows w w' /\ p_cfg p' = p_cfg p
  /\ (err = None -> Confirms (p_cfg p) = true -> (x, k, m) ∈ taken w').
Proof.
  intros O. unfold publishWithRetry. destruct (publishOnce x k m p w) as [[e|] w1] eqn:E1;
    eapply owns_publish in E1 as (O1 & G1 & Hm); try exact O; [|intros [= <- <- <-]; by split_and!].
  destruct (closed_error e); [|intros [= <- <- <-]; by split_and!].
  destruct (dial p w1) as [[[de|] p1] w2] eqn:E2;
    eapply dial_spec in E2 as (O2 & G2 & Ecfg); try exact O1.
  { intros [= <- <- <-]. split_and!; [done|eauto using grows_trans|done|done]. }
  destruct (publishOnce x k m p1 w2) as [[e2|] w3] eqn:E3;
    eapply owns_publish in E3 as (O3 & G3 & Hm3); try exact O2;
    intros [= <- <- <-]; (split_and!; [done|eauto using grows_trans|done|]); [done|].
  rewrite <- Ecfg. auto.
Qed.

(** A sequence of Publish calls on one publisher, with what each returned. *)
Fixpoint publish_all (reqs : list (string * string * string * string)) (p : ReliablePublisher) (w : W)
  : list error * ReliablePublisher * W :=
  match reqs with
  | [] => ([], p, w)
  | (x, k, body, id) :: reqs =>
      let '(err, p, w) := rp_Publish x k body id p w in
      let '(errs, p, w) := publish_all reqs p w in (err :: errs, p, w)
  end.

Lemma publish_all_spec base reqs p w errs p' w' :
  owns_conn base p w -> Confirms (p_cfg p) = true -> publish_all reqs p w = (errs, p', w') ->
  owns_conn base p' w' /\ grows w w'
  /\ forall i x k body id, reqs !! i = Some (x, k, body, id) -> errs !! i = Some None ->
       (x, k, mkPub "application/json" id body) ∈ taken w'.
Proof.
  revert p w errs p' w'. induction reqs as [|[[[x k] body] id] reqs IH]; intros p w errs p' w' O Hc.
  { cbn. intros [= <- <- <-]. split_and!; [done|apply keeps_refl|done]. }
  cbn. destruct (rp_Publish x k body id p w) as [[err p1] w1] eqn:E1.
  destruct (publish_all reqs p1 w1) as [[errs1 p2] w2] eqn:E2. intros [= <- <- <-].
  eapply publishWithRetry_spec in E1 as (O1 & G1 & Ecfg & Hm); [|exact O].
  eapply IH in E2 as (O2 & G2 & Hall); [|done|congruence].
  split_and!; [done|by eapply grows_trans|].
  intros [|i] x' k' body' id'; cbn; [|eauto].
  intros [= <- <- <- <-] [= ->]. apply G2. auto.
Qed.

(** A new publisher owns its connection. *)
Lemma NewReliablePublisher_owns cfg (w : W) p w1 :
  NewReliablePublisher cfg w = (Ok p, w1) -> owns_conn (open_conns w) p w1 /\ p_cfg p = cfg.
Proof.
  intros Hnew. unfold NewReliablePublisher in Hnew. case_bool_decide; [done|].
  destruct (dial (mkPublisher cfg None None) w) as [[e p0] w0] eqn:E. injection Hnew as -> ->.
  apply (dial_spec (open_conns w)) in E as (O & _ & Ecfg); [done|]. by split; cbn; [|set_solver|].
Qed.

(** With publisher confirms, whatever the broker and the network do, every Publish that
    returned nil has left its message with the broker: the confirm mode that makes this
    true is set again on each of the redials.  And the publisher never holds more than one
    connection: whatever failed on the way, the connections open at the end are those open
    before it was created plus the one it holds. *)
Theorem Publish_confirmed cfg reqs (w : W) p w1 errs p' w' :
  Confirms cfg = true ->
  NewReliablePublisher cfg w = (Ok p, w1) -> publish_all reqs p w1 = (errs, p', w') ->
  (forall i x k body id, reqs !! i = Some (x, k, body, id) -> errs !! i = Some None ->
     (x, k, mkPub "application/json" id body) ∈ taken w')
  /\ open_conns w' = open_conns w ∪ from_option (fun c => {[ c ]}) ∅ (p_conn p').
Proof.
  intros Hc Hnew Hrun. apply NewReliablePublisher_owns in Hnew as (O & Ecfg).
  apply (publish_all_spec (open_conns w)) in Hrun as (O' & _ & Hm); [|done|by rewrite Ecfg].
  split; [done|]. apply O'.
Qed.
End publisher_spec.

(** ** A broker that discharges the laws *)

Record broker := mkBroker {
  b_next : nat; b_open : list nat; b_confirm : list nat; b_dead : list nat;
  b_sent : list (string * string * Publishing); b_taken : list (string * string * Publishing)
}.

Definition b_send (ch : nat) (m : string * string * Publishing) (b : broker) : res nat * broker :=
  if bool_decide (ch ∈ b_dead b) then (Err amqp_ErrClosed, b)
  else (Ok (length (b_sent b)),
        mkBroker (b_next b) (b_open b) (b_confirm b) (b_dead b) (b_sent b ++ [m]) (b_taken b)).

#[export] Instance broker_amqp : Amqp broker := {
  amqp_Dial u b := (Ok (b_next b), mkBroker (S (b_next b)) (b_next b :: b_open b) (b_confirm b) (b_dead b)
                                            (b_sent b) (b_taken b));
  conn_Channel c b := (Ok c, b);
  conn_Close c b := (None, mkBroker (b_next b) (List.filter (fun c' => negb (Nat.eqb c' c)) (b_open b))
                                    (b_confirm b) (b_dead b) (b_sent b) (b_taken b));
  conn_lost c b := (false, b);
  ch_Close ch b := b;
  ch_IsClosed ch b := bool_decide (ch ∈ b_dead b);
  ch_Confirm ch b := (None, mkBroker (b_next b) (b_open b) (ch :: b_confirm b) (b_dead b) (b_sent b) (b_taken b));
  ch_Qos ch n b := (None, b);
  ch_ExchangeDeclare ch x k d b := (None, b);
  ch_QueueDeclare ch q d args b := (Ok q, b);
  ch_QueueDelete ch q b := (None, b);
  ch_QueueBind ch q k x b := (None, b);
  ch_Publish ch x k m b := match b_send ch (x, k, m) b with (Err e, b) => (Some e, b) | (Ok _, b) => (None, b) end;
  ch_PublishDeferred ch x k m b := b_send ch (x, k, m) b;
  dc_wait dc b := match b_sent b !! dc with
                  | Some m => (ConfirmAcked, mkBroker (b_next b) (b_open b) (b_confirm b) (b_dead b)
                                                      (b_sent b) (m :: b_taken b))
                  | None => (ConfirmNacked, b)
                  end;
  ch_Consume ch q tag b := (None, b);
  ch_receive ch b := (DeliveriesClosed, b);
  d_Ack d b := (None, b);
  d_Nack r d b := (None, b)
}.

(** Connection numbers are drawn in order, so a number not yet drawn is not open. *)
#[export] Instance broker_view : AmqpView broker := {
  open_conns b := list_to_set (List.filter (fun c => Nat.ltb c (b_next b)) (b_open b));
  confirming ch b := ch ∈ b_confirm b;
  taken b := b_taken b
}.

Lemma broker_send_keeps ch m b : keeps b (b_send ch m b).2.
Proof. unfold b_send. case_bool_decide; apply keeps_refl || by repeat split. Qed.

#[export] Instance broker_laws : AmqpLaws broker.
Proof.
  split; intros; cbn -[Nat.ltb].
  - split_and!; [done|set_unfold; intros H; apply filter_in in H as [H%Nat.ltb_lt _]; lia|].
    rewrite (proj2 (Nat.ltb_lt _ _)) by lia. set_unfold. intros c. rewrite !filter_in, !Nat.ltb_lt.
    destruct (decide (c = b_next w)); [tauto|].
    split; (intros [?|[? ?]]; [by left|right; split; [lia|done]]).
  - split; [done|]. set_unfold. intros c'. rewrite !filter_in, negb_true_iff, Nat.eqb_neq. tauto.
  - apply keeps_refl.
  - apply keeps_refl.
  - split; [|intros; cbn; set_solver]. repeat split; cbn; set_solver.
  - apply keeps_refl.
  - pose proof (broker_send_keeps ch (x, k, m) w). by destruct (b_send ch (x, k, m) w) as [[?|?] ?].
  - apply broker_send_keeps.
  - destruct (b_sent w !! dc); [|apply keeps_refl]. repeat split; cbn; set_solver.
  - revert H0 H1. cbn. unfold b_send. case_bool_decide; [done|]. intros [= <- <-]. cbn.
    rewrite list_lookup_middle by done. intros [= <-]. cbn. set_solver.
Qed.

Definition sample_cfg : PublisherConfig := mkPubCfg "amqp://broker" "events" "" true.
(** A broker that has already lost the publisher's first channel. *)
Definition flaky : broker := mkBroker 0 [] [] [0%nat] [] [].

Lemma Publish_confirmed_witness :
  exists p w1 p' w',
    NewReliablePublisher sample_cfg flaky = (Ok p, w1)
    /\ publish_all [("events", "user.created", "{}", "m1")] p w1 = ([None], p', w')
    /\ ("events", "user.created", mkPub "application/json" "m1" "{}") ∈ taken w'
    /\ open_conns w' = open_conns flaky ∪ from_option (fun c => {[ c ]}) ∅ (p_conn p').
Proof.
  eexists _, _, _, _. split; [vm_compute; reflexivity|]. split; [vm_compute; reflexivity|].
  edestruct (Publish_confirmed sample_cfg [("events", "user.created", "{}", "m1")] flaky) as [Hm Ho];
    [reflexivity|vm_compute; reflexivity|vm_compute; reflexivity|].
  split; [by apply (Hm 0%nat)|exact Ho].
Defined.
