(* ===== verification/Consumer.v ===== *)
(** * Consumer: messaging/rabbitmq/runner.go — ConsumerRunner and Dedup

    The runner is a function of the world and of its own state (the attempt
    counters and the dedup set).  What it does with deliveries is recorded as a
    list of [raction]s, which the theorems talk about.  Logging is left out. *)

From S2P Require Import Prelude GoStrings Errors Backoff Breaker Retry Amqp.

(** Outcome is an int in Go: a handler can return a value that is none of the
    three constants, and dispatch then settles nothing. *)
Inductive Outcome := Ack | Requeue | DeadLetter | OtherOutcome (n : Z).

(** ** Dedup *)

Record Dedup := mkDedup { dd_cap : Z; dd_order : list string; dd_set : gset string }.

Definition NewDedup (capacity : Z) : Dedup :=
  mkDedup (if capacity <=? 0 then 1024 else capacity) [] ∅.

Definition Seen (id : string) (d : Dedup) : bool :=
  if bool_decide (id = "") then false else bool_decide (id ∈ dd_set d).

Definition Mark (id : string) (d : Dedup) : Dedup :=
  if bool_decide (id = "") then d
  else if bool_decide (id ∈ dd_set d) then d
  else
    let d := if dd_cap d <=? Z.of_nat (length (dd_order d)) then
               match dd_order d with
               | oldest :: rest => mkDedup (dd_cap d) rest (dd_set d ∖ {[ oldest ]})
               | [] => d
               end
             else d in
    mkDedup (dd_cap d) (dd_order d ++ [id]) (dd_set d ∪ {[ id ]}).

(** ** ConsumerRunner *)

Record ConsumerConfig := mkConsumerCfg {
  cc_URL : string; cc_Queue : string; cc_ConsumerTag : string; PrefetchCount : Z; MaxAttempts : Z
}.

Record ConsumerRunner := mkRunner { attempts : gmap string Z; r_dedup : option Dedup }.

Definition NewConsumerRunner (dedup : option Dedup) : ConsumerRunner := mkRunner ∅ dedup.

Definition attempts_of (id : string) (r : ConsumerRunner) : Z := default 0 (attempts r !! id).

Definition attemptExceeded (cfg : ConsumerConfig) (id : string) (r : ConsumerRunner)
  : bool * ConsumerRunner :=
  if (MaxAttempts cfg <=? 0) || bool_decide (id = "") then (false, r)
  else
    let r := mkRunner (<[ id := attempts_of id r + 1 ]> (attempts r)) (r_dedup r) in
    (MaxAttempts cfg <=? attempts_of id r, r).

Definition forgetAttempts (id : string) (r : ConsumerRunner) : ConsumerRunner :=
  if bool_decide (id = "") then r else mkRunner (delete id (attempts r)) (r_dedup r).

Inductive raction :=
  | Handled (d : Delivery) (o : Outcome)            (* the handler ran and returned o *)
  | Acked (d : Delivery) (err : error)
  | Nacked (d : Delivery) (requeue : bool) (err : error).

Section runner.
Context {W : Type} `{World W} `{Amqp W}.
Variable cfg : ConsumerConfig.
Variable handler : Delivery -> W -> Outcome * W.

Definition settle (outcome : Outcome) (d : Delivery) (r : ConsumerRunner) (w : W)
  : ConsumerRunner * W * list raction :=
  match outcome with
  | Ack =>
      let '(err, w) := d_Ack d w in
      let r := match r_dedup r with
               | Some dd => mkRunner (attempts r) (Some (Mark (MessageId d) dd))
               | None => r
               end in
      (forgetAttempts (MessageId d) r, w, [Acked d err])
  | Requeue => let '(err, w) := d_Nack true d w in (r, w, [Nacked d true err])
  | DeadLetter =>
      let '(err, w) := d_Nack false d w in (forgetAttempts (MessageId d) r, w, [Nacked d false err])
  | OtherOutcome _ => (r, w, [])
  end.

Definition is_requeue (o : Outcome) : bool := match o with Requeue => true | _ => false end.

(** Dead-letter a message whose attempts are used up. *)
Definition cap_attempts (o : Outcome) (id : string) (r : ConsumerRunner) : Outcome * ConsumerRunner :=
  if is_requeue o then
    let '(exceeded, r) := attemptExceeded cfg id r in (if exceeded then DeadLetter else o, r)
  else (o, r).

Definition duplicate (id : string) (r : ConsumerRunner) : bool :=
  match r_dedup r with Some dd => Seen id dd | None => false end.

Definition dispatch (d : Delivery) (r : ConsumerRunner) (w : W) : ConsumerRunner * W * list raction :=
  if duplicate (MessageId d) r then
    let '(err, w) := d_Ack d w in (r, w, [Acked d err])
  else
    let '(o, w) := handler d w in
    let '(o', r) := cap_attempts o (MessageId d) r in
    let '(r, w, tr) := settle o' d r w in
    (r, w, Handled d o :: tr).

(** The receive loop; Blocked = still waiting when the fuel is used up. *)
Inductive loop_end := Blocked | Ended (err : error).

Fixpoint receive_loop (fuel : nat) (ch : nat) (r : ConsumerRunner) (w : W)
  : loop_end * ConsumerRunner * W * list raction :=
  match fuel with
  | O => (Blocked, r, w, [])
  | S fuel =>
      match ch_receive ch w with
      | (CtxDone, w) => (Ended None, r, w, [])
      | (ChannelClosed None, w) => (Ended (Some (NewErr "amqp channel closed cleanly")), r, w, [])
      | (ChannelClosed (Some e), w) => (Ended (Some (wrapf "amqp channel closed" e)), r, w, [])
      | (DeliveriesClosed, w) => (Ended (Some (NewErr "delivery channel closed")), r, w, [])
      | (Received d, w) =>
          let '(r, w, tr) := dispatch d r w in
          let '(end_, r, w, tr') := receive_loop fuel ch r w in
          (end_, r, w, tr ++ tr')
      end
  end.

Variable Setup : option (nat -> W -> error * W).

(** The channel is closed before the connection (deferred calls). *)
Definition runOnce (fuel : nat) (r : ConsumerRunner) (w : W)
  : loop_end * ConsumerRunner * W * list raction :=
  match amqp_Dial (cc_URL cfg) w with
  | (Err e, w) => (Ended (Some (wrapf "dial rabbitmq" e)), r, w, [])
  | (Ok conn, w) =>
      match conn_Channel conn w with
      | (Err e, w) => (Ended (Some (wrapf "open channel" e)), r, (conn_Close conn w).2, [])
      | (Ok ch, w) =>
          let close w := drop_conn ch conn w in
          match (match Setup with Some f => f ch w | None => (None, w) end) with
          | (Some e, w) => (Ended (Some (wrapf "topology setup" e)), r, close w, [])
          | (None, w) =>
              match (if 0 <? PrefetchCount cfg then ch_Qos ch (PrefetchCount cfg) w else (None, w)) with
              | (Some e, w) => (Ended (Some (wrapf "set qos" e)), r, close w, [])
              | (None, w) =>
                  match ch_Consume ch (cc_Queue cfg) (cc_ConsumerTag cfg) w with
                  | (Some e, w) => (Ended (Some (wrapf "start consuming" e)), r, close w, [])
                  | (None, w) =>
                      match receive_loop fuel ch r w with
                      | (Blocked, r, w, tr) => (Blocked, r, w, tr)
                      | (end_, r, w, tr) => (end_, r, close w, tr)
                      end
                  end
              end
          end
      end
  end.

Definition maxBackoff : Z := 30 * Second.
Definition next_backoff (backoff : Z) : Z :=
  if backoff <? maxBackoff then
    let backoff := wrap64 (backoff * 2) in if maxBackoff <? backoff then maxBackoff else backoff
  else backoff.

(** Run: [fuel] bounds the connections made and the deliveries of each; the result says
    whether Run returned, and lists the waits between connections. *)
Fixpoint Run_from (fuel : nat) (backoff : Z) (r : ConsumerRunner) (w : W)
  : bool * list Z * ConsumerRunner * W * list raction :=
  match fuel with
  | O => (false, [], r, w, [])
  | S fuel' =>
      match runOnce fuel r w with
      | (Blocked, r, w, tr) => (false, [], r, w, tr)
      | (Ended _, r, w, tr) =>
          match ctx_err w with
          | Some _ => (true, [], r, w, tr)
          | None =>
              let '(fired, w) := wait backoff w in
              if negb fired then (true, [backoff], r, w, tr)
              else
                let '(ret, ws, r, w, tr') := Run_from fuel' (next_backoff backoff) r w in
                (ret, backoff :: ws, r, w, tr ++ tr')
          end
      end
  end.

Definition Run (fuel : nat) (r : ConsumerRunner) (w : W) := Run_from fuel Second r w.
End runner.

(** Stop waits until Run has returned or its own context is done; [None] while it waits,
    [prefer_done] is the choice when both are ready. *)
Definition consumer_Stop (run_returned : bool) (ctx : error) (prefer_done : bool) : option error :=
  match run_returned, ctx with
  | true, None => Some None
  | false, Some e => Some (Some e)
  | true, Some e => Some (if prefer_done then None else Some e)
  | false, None => None
  end.

(** ** Runs as sequences of dispatches *)

(** Requeues of a message since it was last acked or dead-lettered, [n] of them before the trace. *)
Definition streak_step (m : string) (n : Z) (a : raction) : Z :=
  match a with
  | Nacked d true _ => if bool_decide (MessageId d = m) then n + 1 else n
  | Acked d _ | Nacked d false _ => if bool_decide (MessageId d = m) then 0 else n
  | Handled _ _ => n
  end.
Definition streak_from (m : string) (n : Z) (tr : list raction) : Z := fold_left (streak_step m) tr n.
Definition streak (m : string) (tr : list raction) : Z := streak_from m 0 tr.

(** The ids processed successfully in a trace. *)
Definition acked_id (a : raction) : gset string :=
  match a with Handled d Ack => {[ MessageId d ]} | _ => ∅ end.
Definition acked_ids (tr : list raction) : gset string := ⋃ (acked_id <$> tr).

(** The other ids processed since [m] last was; None = [m] never was. *)
Definition since_step (m : string) (S : option (gset string)) (a : raction) : option (gset string) :=
  match a with
  | Handled d Ack =>
      if bool_decide (MessageId d = m) then Some ∅ else (fun s => s ∪ {[ MessageId d ]}) <$> S
  | _ => S
  end.
Definition since_ack (m : string) (tr : list raction) : option (gset string) :=
  fold_left (since_step m) tr None.

Section traces.
Context {W : Type} `{World W} `{Amqp W}.
Variable cfg : ConsumerConfig.
Variable handler : Delivery -> W -> Outcome * W.

Inductive dispatches (r : ConsumerRunner) : list raction -> ConsumerRunner -> Prop :=
  | D_nil : dispatches r [] r
  | D_snoc tr r1 d w r2 w' tr' :
      dispatches r tr r1 -> dispatch cfg handler d r1 w = (r2, w', tr') ->
      dispatches r (tr ++ tr') r2.

Lemma dispatches_app r tr1 r1 tr2 r2 :
  dispatches r tr1 r1 -> dispatches r1 tr2 r2 -> dispatches r (tr1 ++ tr2) r2.
Proof.
  intros H1. induction 1; [by rewrite app_nil_r|]. rewrite (assoc_L (++)). by eapply D_snoc.
Qed.

Lemma receive_loop_dispatches fuel ch r w e r' w' tr :
  receive_loop cfg handler fuel ch r w = (e, r', w', tr) -> dispatches r tr r'.
Proof.
  revert r w e r' w' tr. induction fuel as [|fuel IH]; intros r w e r' w' tr; cbn.
  { intros [= <- <- <- <-]. constructor. }
  destruct (ch_receive ch w) as [[|[?|]|d|] w1]; try (intros [= <- <- <- <-]; constructor).
  destruct (dispatch cfg handler d r w1) as [[r1 w2] tr1] eqn:Ed.
  destruct (receive_loop cfg handler fuel ch r1 w2) as [[[e2 r2] w3] tr2] eqn:El. intros [= <- <- <- <-].
  eapply dispatches_app; [|by eapply IH]. apply (D_snoc _ [] r d w1 r1 w2 tr1); [constructor|done].
Qed.

Lemma runOnce_dispatches setup fuel r w e r' w' tr :
  runOnce cfg handler setup fuel r w = (e, r', w', tr) -> dispatches r tr r'.
Proof.
  unfold runOnce. intros Hrun. repeat case_match; simplify_eq; try constructor;
    by eapply receive_loop_dispatches.
Qed.

Lemma Run_dispatches setup fuel b r w ret ws r' w' tr :
  Run_from cfg handler setup fuel b r w = (ret, ws, r', w', tr) -> dispatches r tr r'.
Proof.
  revert b r w ret ws r' w' tr. induction fuel as [|fuel IH]; intros b r w ret ws r' w' tr.
  { intros [= <- <- <- <- <-]. constructor. }
  cbn [Run_from]. destruct (runOnce _ _ _ _ r w) as [[[[|e] r1] w1] tr1] eqn:E1;
    apply runOnce_dispatches in E1; [by intros [= <- <- <- <- <-]|].
  destruct (ctx_err w1); [by intros [= <- <- <- <- <-]|].
  destruct (wait b w1) as [[|] w2]; cbn; [|by intros [= <- <- <- <- <-]].
  destruct (Run_from _ _ _ fuel _ r1 w2) as [[[[ret2 ws2] r2] w3] tr2] eqn:E2. intros [= <- <- <- <- <-].
  eapply dispatches_app; [done|by eapply IH].
Qed.

(** What one dispatch can have done. *)
Inductive dispatched (d : Delivery) (r : ConsumerRunner) : list raction -> ConsumerRunner -> Prop :=
  | Disp_dup err : duplicate (MessageId d) r = true -> dispatched d r [Acked d err] r
  | Disp_ack err : duplicate (MessageId d) r = false ->
      dispatched d r [Handled d Ack; Acked d err]
        (forgetAttempts (MessageId d) (mkRunner (attempts r) (Mark (MessageId d) <$> r_dedup r)))
  | Disp_requeue err r' : duplicate (MessageId d) r = false ->
      attemptExceeded cfg (MessageId d) r = (false, r') ->
      dispatched d r [Handled d Requeue; Nacked d true err] r'
  | Disp_capped err r' : duplicate (MessageId d) r = false ->
      attemptExceeded cfg (MessageId d) r = (true, r') ->
      dispatched d r [Handled d Requeue; Nacked d false err] (forgetAttempts (MessageId d) r')
  | Disp_dead err : duplicate (MessageId d) r = false ->
      dispatched d r [Handled d DeadLetter; Nacked d false err] (forgetAttempts (MessageId d) r)
  | Disp_other n : duplicate (MessageId d) r = false -> dispatched d r [Handled d (OtherOutcome n)] r.

Lemma dispatch_dispatched d r w r' w' tr :
  dispatch cfg handler d r w = (r', w', tr) -> dispatched d r tr r'.
Proof.
  unfold dispatch. destruct (duplicate (MessageId d) r) eqn:Ed.
  { destruct (d_Ack d w) as [err w1]. intros [= <- <- <-]. by constructor. }
  destruct (handler d w) as [[| | |n] w1]; unfold cap_attempts; cbn [is_requeue].
  - cbn. destruct (d_Ack d w1) as [err w2]. intros [= <- <- <-].
    replace (match r_dedup r with Some dd => _ | None => _ end)
      with (mkRunner (attempts r) (Mark (MessageId d) <$> r_dedup r)); [by constructor|].
    by destruct r as [a [dd|]].
  - destruct (attemptExceeded cfg (MessageId d) r) as [[|] r1] eqn:Ee; cbn;
      destruct (d_Nack _ d w1) as [err w2]; intros [= <- <- <-]; by constructor.
  - cbn. destruct (d_Nack _ d w1) as [err w2]. intros [= <- <- <-]. by constructor.
  - cbn. intros [= <- <- <-]. by constructor.
Qed.
End traces.

(** ** The attempt cap *)

Section attempts.
Context {W : Type} `{World W} `{Amqp W}.
Variable cfg : ConsumerConfig.
Variable handler : Delivery -> W -> Outcome * W.
Variable m : string.
Hypothesis capped : 0 < MaxAttempts cfg.
Hypothesis named : m <> "".

Lemma streak_from_app n tr1 tr2 :
  streak_from m n (tr1 ++ tr2) = streak_from m (streak_from m n tr1) tr2.
Proof. apply fold_left_app. Qed.

(** A counter below the cap, and 0 for a message the dedup set holds. *)
Definition counter_ok (r : ConsumerRunner) : Prop :=
  0 <= attempts_of m r < MaxAttempts cfg /\ (duplicate m r = true -> attempts_of m r = 0).

Lemma NewConsumerRunner_counter cap : counter_ok (NewConsumerRunner (NewDedup <$> cap)).
Proof. unfold counter_ok, attempts_of. cbn. rewrite lookup_empty. cbn. split; [lia|done]. Qed.

Lemma forget_attempts_of id r :
  attempts_of m (forgetAttempts id r) = if bool_decide (id = m) then 0 else attempts_of m r.
Proof.
  unfold forgetAttempts, attempts_of. destruct (decide (id = m)) as [->|Hne].
  - rewrite (bool_decide_eq_false_2 (m = "")), (bool_decide_eq_true_2 (m = m)) by done.
    cbn. by rewrite lookup_delete_eq.
  - rewrite (bool_decide_eq_false_2 (id = m)) by done. case_bool_decide; [done|]. cbn.
    by rewrite lookup_delete_ne.
Qed.

Lemma exceeded_attempts_of id r b r' :
  attemptExceeded cfg id r = (b, r') ->
  if bool_decide (id = m)
  then attempts_of m r' = attempts_of m r + 1 /\ b = (MaxAttempts cfg <=? attempts_of m r + 1)
  else attempts_of m r' = attempts_of m r.
Proof.
  unfold attemptExceeded. rewrite (proj2 (Z.leb_gt _ _)) by lia. cbn.
  destruct (decide (id = m)) as [->|Hne].
  - rewrite (bool_decide_eq_false_2 (m = "")), (bool_decide_eq_true_2 (m = m)) by done.
    intros [= <- <-]. unfold attempts_of. cbn. by rewrite lookup_insert_eq.
  - rewrite (bool_decide_eq_false_2 (id = m)) by done. case_bool_decide; intros [= <- <-]; [done|].
    unfold attempts_of. cbn. by rewrite lookup_insert_ne.
Qed.

Lemma duplicate_Mark id r :
  duplicate m (mkRunner (attempts r) (Mark id <$> r_dedup r)) = true -> id = m \/ duplicate m r = true.
Proof.
  unfold duplicate, Seen, Mark. cbn. destruct (r_dedup r) as [dd|]; [cbn|done].
  rewrite (bool_decide_eq_false_2 (m = "")), !bool_decide_eq_true by done.
  repeat case_bool_decide; try by right.
  destruct (dd_cap dd <=? _), (dd_order dd); cbn; set_solver.
Qed.

Lemma duplicate_exceeded id r b r' : attemptExceeded cfg id r = (b, r') -> duplicate m r' = duplicate m r.
Proof. unfold attemptExceeded. destruct (_ || _); by intros [= <- <-]. Qed.

Lemma duplicate_forget id r : duplicate m (forgetAttempts id r) = duplicate m r.
Proof. unfold forgetAttempts. by case_bool_decide. Qed.

(** One dispatch counts exactly what its trace shows. *)
Lemma dispatched_counts d r tr r' :
  counter_ok r -> dispatched cfg d r tr r' ->
  counter_ok r' /\ attempts_of m r' = streak_from m (attempts_of m r) tr.
Proof.
  intros [Hr Hd0] Hd. unfold counter_ok.
  destruct Hd as [err Ed|err Ed|err r' Ed E|err r' Ed E|err Ed|n Ed]; cbn;
    rewrite ?forget_attempts_of, ?duplicate_forget.
  - case_bool_decide; [|done]. subst. by rewrite Hd0.
  - unfold attempts_of in *. cbn. case_bool_decide; [split; [split; [lia|done]|done]|].
    split; [split; [done|]|done]. intros Hs. apply Hd0. apply duplicate_Mark in Hs as [|]; done.
  - rewrite (duplicate_exceeded _ _ _ _ E). apply exceeded_attempts_of in E.
    case_bool_decide as Hm; [|by rewrite E]. destruct E as [-> E]. symmetry in E. apply Z.leb_gt in E.
    split; [split; [lia|]|done]. subst. by rewrite Ed.
  - rewrite (duplicate_exceeded _ _ _ _ E). apply exceeded_attempts_of in E.
    case_bool_decide; [split; [split; [lia|done]|done]|]. by rewrite E.
  - case_bool_decide; [split; [split; [lia|done]|done]|done].
  - done.
Qed.

Lemma dispatches_count r tr r' :
  counter_ok r -> dispatches cfg handler r tr r' ->
  counter_ok r' /\ attempts_of m r' = streak_from m (attempts_of m r) tr.
Proof.
  intros Hr. induction 1 as [|tr r1 d w r2 w' tr' _ [IH1 IH2] Hd]; [done|].
  apply dispatch_dispatched in Hd. destruct (dispatched_counts _ _ _ _ IH1 Hd) as [H1 H2].
  split; [done|]. by rewrite streak_from_app, <- IH2.
Qed.
End attempts.

(** A prefix of a run ends inside one of its dispatches. *)
Lemma dispatches_prefix {W} `{World W} `{Amqp W} cfg (handler : Delivery -> W -> Outcome * W) r0 tr r pre suf :
  dispatches cfg handler r0 tr r -> tr = pre ++ suf ->
  (pre = tr /\ suf = []) \/
  exists tr0 r1 d w r2 w' mid last rest, dispatches cfg handler r0 tr0 r1
    /\ dispatch cfg handler d r1 w = (r2, w', mid ++ last) /\ last <> []
    /\ pre = tr0 ++ mid /\ suf = last ++ rest.
Proof.
  intros Hd. revert pre suf. induction Hd as [|tr r1 d w r2 w' tr' Htr IH Hdisp]; intros pre suf E.
  { left. symmetry in E. by apply app_eq_nil in E as [-> ->]. }
  apply app_eq_app in E as [l [[E1 E2]|[E1 E2]]].
  - destruct (IH _ _ E1) as [[-> ->]|(tr0 & r1' & d' & w0 & r2' & w1 & mid & last & rest & Ht & Hd' & Hl & -> & ->)].
    + destruct tr' as [|a tr'].
      * left. cbn in E2. subst. by rewrite app_nil_r.
      * right. cbn in E2. exists tr, r1, d, w, r2, w', [], (a :: tr'), [].
        rewrite !app_nil_r. by split_and!.
    + right. exists tr0, r1', d', w0, r2', w1, mid, last, (rest ++ tr').
      split_and!; [done..|]. by rewrite E2, <- (assoc_L (++)).
  - destruct suf as [|a suf].
    + left. rewrite app_nil_r in E2. by subst.
    + right. exists tr, r1, d, w, r2, w', l, (a :: suf), []. rewrite app_nil_r. subst. by split_and!.
Qed.

(** Nothing is settled before the last action of a dispatch. *)
Lemma dispatched_mid cfg d r mid last r' :
  dispatched cfg d r (mid ++ last) r' -> last <> [] ->
  mid = [] \/ exists o, mid = [Handled d o].
Proof.
  intros Hd Hl. remember (mid ++ last) as tr eqn:E.
  destruct Hd; destruct mid as [|a [|b mid]]; simplify_eq/=; eauto;
    destruct mid; simplify_eq/=.
Qed.

(** The handler runs first. *)
Lemma dispatched_handled cfg d r mid d' o rest r' :
  dispatched cfg d r (mid ++ Handled d' o :: rest) r' ->
  mid = [] /\ d' = d /\ duplicate (MessageId d) r = false.
Proof.
  intros Hd. remember (mid ++ Handled d' o :: rest) as tr eqn:E.
  destruct Hd; destruct mid as [|a [|b mid]]; simplify_eq/=; try done; destruct mid; simplify_eq/=.
Qed.

(** C9. The attempt cap, on one connection of the runner and for any handler and broker: with
    MaxAttempts = n > 0 and the count of a message (with an id) starting at what the runner
    holds for it, every requeue adds one to the count and every ack or dead-lettering sets it to
    0; the count stays below n at every moment; and a handler's request to requeue is answered
    with a requeue while the count is below n-1 and with a dead-lettering when it is n-1, so that
    a message that always fails is requeued n-1 times and dead-lettered at its n-th failure.
    What the runner holds at the end is that count again. *)
Theorem requeue_bounded {W} `{World W} `{Amqp W} cfg (handler : Delivery -> W -> Outcome * W)
    setup fuel r w m e r' w' tr :
  0 < MaxAttempts cfg -> m <> "" -> counter_ok cfg m r ->
  runOnce cfg handler setup fuel r w = (e, r', w', tr) ->
  (forall pre suf, tr = pre ++ suf -> 0 <= streak_from m (attempts_of m r) pre < MaxAttempts cfg)
  /\ (forall pre d suf, tr = pre ++ Handled d Requeue :: suf -> MessageId d = m ->
        exists err suf', suf = Nacked d (streak_from m (attempts_of m r) pre <? MaxAttempts cfg - 1) err :: suf')
  /\ counter_ok cfg m r' /\ attempts_of m r' = streak_from m (attempts_of m r) tr.
Proof.
  intros Hmax Hm Hr Hrun. apply runOnce_dispatches in Hrun.
  split; [|split; [|by apply (dispatches_count cfg handler m Hmax Hm)]].
  - intros pre suf E.
    destruct (dispatches_prefix _ _ _ _ _ _ _ Hrun E)
      as [[-> _]|(tr0 & r1 & d & w0 & r2 & w1 & mid & last & rest & Ht & Hd & Hl & -> & _)].
    + destruct (dispatches_count _ _ _ Hmax Hm _ _ _ Hr Hrun) as [[? _] <-]. done.
    + destruct (dispatches_count _ _ _ Hmax Hm _ _ _ Hr Ht) as [[? _] Hc].
      apply dispatch_dispatched in Hd. rewrite streak_from_app, <- Hc.
      by apply dispatched_mid in Hd as [->|[o ->]].
  - intros pre d suf E Hid.
    destruct (dispatches_prefix _ _ _ _ _ _ _ Hrun E)
      as [[_ ?]|(tr0 & r1 & d0 & w0 & r2 & w1 & mid & last & rest & Ht & Hd & Hl & -> & El)]; [done|].
    destruct last as [|a last]; [done|]. injection El as <- ->.
    apply dispatch_dispatched in Hd. pose proof Hd as Hd'.
    apply dispatched_handled in Hd' as (-> & <- & _). rewrite app_nil_r. cbn in Hd.
    destruct (dispatches_count _ _ _ Hmax Hm _ _ _ Hr Ht) as [[Hc _] <-].
    inversion Hd as [| |err r0 _ E1 E2|err r0 _ E1 E2| |]; subst;
      apply (exceeded_attempts_of _ _ Hmax Hm) in E1; rewrite bool_decide_eq_true_2 in E1 by done;
      destruct E1 as [_ E1].
    + replace (_ <? _) with true by lia. by eexists _, _.
    + replace (_ <? _) with false by lia. by eexists _, _.
Qed.

(** ** Deduplication *)

(** The order list and the set agree, and hold at most the capacity. *)
Record dedup_ok (d : Dedup) : Prop := {
  do_cap : 0 < dd_cap d;
  do_nodup : NoDup (dd_order d);
  do_set : dd_set d = list_to_set (dd_order d);
  do_len : Z.of_nat (length (dd_order d)) <= dd_cap d
}.

Lemma NewDedup_ok c : dedup_ok (NewDedup c).
Proof. unfold NewDedup. split; cbn; [|constructor|done|]; destruct (Z.leb_spec c 0); lia. Qed.

(** Marking a new id appends it, dropping the head when the list is full. *)
Lemma Mark_new id d :
  dedup_ok d -> id <> "" -> (id ∉ dd_order d) ->
  exists kept, dd_order (Mark id d) = kept ++ [id] /\ dd_cap (Mark id d) = dd_cap d /\ dedup_ok (Mark id d)
    /\ (kept = dd_order d
        \/ exists oldest, dd_order d = oldest :: kept /\ dd_cap d = Z.of_nat (length (dd_order d))).
Proof.
  intros [Hc Hn Hs Hl] Hid Hnew. unfold Mark. rewrite (bool_decide_eq_false_2 (id = "")) by done.
  rewrite (bool_decide_eq_false_2 (id ∈ dd_set d)) by (rewrite Hs; set_solver).
  destruct (Z.leb_spec (dd_cap d) (Z.of_nat (length (dd_order d)))) as [Hle|Hlt].
  - destruct (dd_order d) as [|o rest] eqn:Eo; [cbn in Hle; lia|]. exists rest. cbn.
    apply NoDup_cons in Hn as [Hno Hn]. apply not_elem_of_cons in Hnew as [Hne Hnew].
    split_and!; [done..| |right; exists o; split; [done|cbn in *; lia]].
    split; cbn; [done| | |].
    + apply NoDup_app. split_and!; [done|set_solver|apply NoDup_singleton].
    + rewrite Hs, list_to_set_app_L. cbn. set_solver.
    + rewrite length_app. cbn in *. lia.
  - exists (dd_order d). cbn. split_and!; [done..| |by left]. split; cbn; [done| | |].
    + apply NoDup_app. split_and!; [done|set_solver|apply NoDup_singleton].
    + rewrite Hs, list_to_set_app_L. cbn. set_solver.
    + rewrite length_app. cbn. lia.
Qed.

(** Either [m] is still in the set and everything behind it was processed since, or a full
    capacity of other ids was. *)
Definition remembers (m : string) (since : gset string) (d : Dedup) : Prop :=
  (exists l1 l2, dd_order d = l1 ++ m :: l2 /\ list_to_set l2 ⊆ since)
  \/ dd_cap d <= Z.of_nat (size (since ∖ {[ m ]})).

Lemma remembers_mono m s s' d : s ⊆ s' -> remembers m s d -> remembers m s' d.
Proof.
  intros Hs [(l1 & l2 & E & Hl)|Hc]; [left; exists l1, l2; split; [done|set_solver]|right].
  assert (size (s ∖ {[ m ]}) ≤ size (s' ∖ {[ m ]}))%nat by (apply subseteq_size; set_solver). lia.
Qed.

Lemma remembers_Mark m s id d :
  dedup_ok d -> id <> "" -> id <> m -> (id ∉ dd_order d) -> remembers m s d ->
  remembers m (s ∪ {[ id ]}) (Mark id d).
Proof.
  intros Hok Hid Hne Hnew HR. destruct (Mark_new id d Hok Hid Hnew) as (kept & Eo & Ec & _ & Hk).
  destruct HR as [(l1 & l2 & E & Hl)|Hc].
  2:{ right. rewrite Ec. etrans; [exact Hc|]. apply inj_le, subseteq_size. set_solver. }
  rewrite E in Hk. destruct Hk as [->|(o & Ek & Hcap)].
  - left. exists l1, (l2 ++ [id]). rewrite Eo, <- (assoc_L (++)). split; [done|].
    rewrite list_to_set_app_L. set_solver.
  - destruct l1 as [|o' l1]; injection Ek as -> <-.
    + right. rewrite Ec, Hcap. destruct Hok as [_ Hn _ _]. rewrite E in Hn, Hnew.
      apply NoDup_cons in Hn as [Hm Hn].
      assert (HN : NoDup (l2 ++ [id])) by (apply NoDup_app; split_and!; [done|set_solver|apply NoDup_singleton]).
      assert (Hsz : length (l2 ++ [id]) = size (list_to_set (l2 ++ [id]) : gset string))
        by (by rewrite size_list_to_set).
      assert (size (list_to_set (l2 ++ [id]) : gset string) ≤ size ((s ∪ {[ id ]}) ∖ {[ o ]}))%nat.
      { apply subseteq_size. rewrite list_to_set_app_L. set_solver. }
      rewrite length_app in Hsz. cbn in *. lia.
    + left. exists l1, (l2 ++ [id]). rewrite Eo, <- (assoc_L (++)). split; [done|].
      rewrite list_to_set_app_L. set_solver.
Qed.

Definition dedup_inv (cap : Z) (tr : list raction) (r : ConsumerRunner) : Prop :=
  exists dd, r_dedup r = Some dd /\ dd_cap dd = cap /\ dedup_ok dd
    /\ forall m s, m <> "" -> since_ack m tr = Some s -> remembers m s dd.

Lemma attemptExceeded_dedup cfg id r b r' : attemptExceeded cfg id r = (b, r') -> r_dedup r' = r_dedup r.
Proof. unfold attemptExceeded. by destruct (_ || _); intros [= <- <-]. Qed.

Lemma forgetAttempts_dedup id r : r_dedup (forgetAttempts id r) = r_dedup r.
Proof. unfold forgetAttempts. by case_bool_decide. Qed.

Lemma since_ack_app m tr1 tr2 : since_ack m (tr1 ++ tr2) = fold_left (since_step m) tr2 (since_ack m tr1).
Proof. apply fold_left_app. Qed.

(** An ack of an id the set does not hold. *)
Lemma dedup_inv_ack cap tr dd id err d :
  MessageId d = id -> dd_cap dd = cap -> dedup_ok dd -> Seen id dd = false ->
  (forall m s, m <> "" -> since_ack m tr = Some s -> remembers m s dd) ->
  dd_cap (Mark id dd) = cap /\ dedup_ok (Mark id dd)
  /\ forall m s, m <> "" -> since_ack m (tr ++ [Handled d Ack; Acked d err]) = Some s -> remembers m s (Mark id dd).
Proof.
  intros Hd Hc Hok Hseen HR. unfold Seen in Hseen. destruct (decide (id = "")) as [He|He].
  { assert (Em : Mark id dd = dd) by (unfold Mark; by rewrite bool_decide_eq_true_2). rewrite Em.
    split_and!; [done..|]. intros m s Hm. rewrite since_ack_app. cbn.
    rewrite bool_decide_eq_false_2 by congruence. destruct (since_ack m tr) as [s0|] eqn:E; [|done].
    intros [= <-]. eapply remembers_mono; [|by apply HR]. set_solver. }
  rewrite (bool_decide_eq_false_2 (id = "")) in Hseen by done. apply bool_decide_eq_false in Hseen.
  assert (Hnew : id ∉ dd_order dd) by (destruct Hok as [_ _ Hs _]; rewrite Hs in Hseen; set_solver).
  destruct (Mark_new id dd Hok He Hnew) as (kept & Eo & Ec & Hok' & _).
  split_and!; [congruence|done|]. intros m s Hm. rewrite since_ack_app. cbn. rewrite Hd.
  case_bool_decide as Eid.
  - intros [= <-]. left. exists kept, []. rewrite Eo, Eid. split; [done|set_solver].
  - destruct (since_ack m tr) as [s0|] eqn:E; [|done]. intros [= <-].
    apply remembers_Mark; auto.
Qed.

Lemma dedup_inv_step cap cfg tr r d tr' r' :
  dedup_inv cap tr r -> dispatched cfg d r tr' r' -> dedup_inv cap (tr ++ tr') r'.
Proof.
  intros (dd & Er & Ec & Hok & HR) Hd.
  assert (same : forall r1, r_dedup r1 = r_dedup r -> (forall m, since_ack m (tr ++ tr') = since_ack m tr) ->
    dedup_inv cap (tr ++ tr') r1).
  { intros r1 E1 E2. exists dd. split_and!; [congruence|done..|]. intros m s Hm. rewrite E2. auto. }
  destruct Hd as [err|err Hdup|err r' _ E|err r' _ E|err|n];
    try (apply same; [rewrite ?forgetAttempts_dedup; eauto using attemptExceeded_dedup|
                      intros m; rewrite since_ack_app; done]).
  unfold duplicate in Hdup. rewrite Er in Hdup.
  destruct (dedup_inv_ack cap tr dd (MessageId d) err d) as (Ec' & Hok' & HR'); try done.
  exists (Mark (MessageId d) dd). split_and!; [|done..]. rewrite forgetAttempts_dedup. cbn. by rewrite Er.
Qed.

Lemma dedup_dispatches {W} `{World W} `{Amqp W} cfg (handler : Delivery -> W -> Outcome * W) c tr r :
  dispatches cfg handler (NewConsumerRunner (Some (NewDedup c))) tr r ->
  dedup_inv (dd_cap (NewDedup c)) tr r.
Proof.
  induction 1 as [|tr r1 d w r2 w' tr' _ IH Hd].
  - exists (NewDedup c). split_and!; [done|done|apply NewDedup_ok|done].
  - apply dispatch_dispatched in Hd. by eapply dedup_inv_step.
Qed.

(** An id the set remembers is handed to the handler again only when enough others came since. *)
Lemma remembers_unseen m s d : dedup_ok d -> m <> "" -> remembers m s d -> Seen m d = false ->
  dd_cap d <= Z.of_nat (size (s ∖ {[ m ]})).
Proof.
  intros [_ _ Hs _] Hm [(l1 & l2 & E & _)|Hc]; [|done]. unfold Seen.
  rewrite (bool_decide_eq_false_2 (m = "")) by done. rewrite Hs, E, list_to_set_app_L. cbn.
  rewrite bool_decide_eq_true_2; [done|set_solver].
Qed.

Lemma since_ack_sub m tr s0 s :
  fold_left (since_step m) tr (Some s0) = Some s -> s ⊆ s0 ∪ acked_ids tr.
Proof.
  unfold acked_ids. revert s0. induction tr as [|a tr IH]; intros s0; cbn.
  { intros [= <-]. set_solver. }
  destruct a as [d o|d err|d b err]; [destruct o as [| | |n]|..]; cbn; try (intros E%IH; set_solver).
  case_bool_decide; intros E%IH; set_solver.
Qed.

Lemma since_ack_after m pre d mid :
  MessageId d = m -> exists s, since_ack m (pre ++ Handled d Ack :: mid) = Some s /\ s ⊆ acked_ids mid.
Proof.
  intros Hd. rewrite since_ack_app. cbn. rewrite bool_decide_eq_true_2 by done.
  assert (exists s, fold_left (since_step m) mid (Some ∅) = Some s) as [s Hs].
  { generalize (∅ : gset string). induction mid as [|a mid IH]; intros s0; cbn; [eauto|].
    destruct a as [d' [| | |n]|d' err|d' b err]; cbn; try apply IH. case_bool_decide; apply IH. }
  exists s. split; [done|]. apply since_ack_sub in Hs. set_solver.
Qed.

(** C33. Deduplication, over a whole Run: once the handler has acknowledged a message, a
    redelivery of it (a lost ack, a reconnect) is not handed to the handler again before at
    least as many other messages have been acknowledged as the set has capacity: the FIFO
    eviction forgets no id earlier. *)
Theorem dedup_absorbs {W} `{World W} `{Amqp W} cfg (handler : Delivery -> W -> Outcome * W)
    setup fuel capacity w m ret ws r w' pre d1 mid d2 o suf :
  m <> "" ->
  Run cfg handler setup fuel (NewConsumerRunner (Some (NewDedup capacity))) w
    = (ret, ws, r, w', pre ++ Handled d1 Ack :: mid ++ Handled d2 o :: suf) ->
  MessageId d1 = m -> MessageId d2 = m ->
  dd_cap (NewDedup capacity) <= Z.of_nat (size (acked_ids mid ∖ {[ m ]})).
Proof.
  intros Hm Hrun H1 H2. apply Run_dispatches in Hrun.
  destruct (dispatches_prefix _ _ _ _ _ (pre ++ Handled d1 Ack :: mid) (Handled d2 o :: suf) Hrun)
    as [[_ ?]|(tr0 & r1 & d & w0 & r2 & w1 & mid' & last & rest & Ht & Hd & Hl & Epre & El)];
    [by rewrite <- (assoc_L (++))|done|].
  destruct last as [|a last]; [done|]. injection El as <- ->.
  apply dispatch_dispatched, dispatched_handled in Hd as (-> & <- & Hdup).
  rewrite app_nil_r in Epre. apply dedup_dispatches in Ht as (dd & Er & <- & Hok & HR).
  destruct (since_ack_after m pre d1 mid H1) as (s & Hs & Hsub). rewrite Epre in Hs.
  unfold duplicate in Hdup. rewrite Er, H2 in Hdup.
  etrans; [exact (remembers_unseen m s dd Hok Hm (HR m s Hm Hs) Hdup)|].
  apply inj_le, subseteq_size. set_solver.
Qed.

(** ** A broker that plays a script, and runs on it *)

Record script := mkScript { sc_events : list received }.

Definition sc_next (s : script) : received * script :=
  match sc_events s with [] => (CtxDone, s) | e :: es => (e, mkScript es) end.

#[export] Instance script_world : World script := {
  ctx_err s := match sc_events s with [] => Some context_Canceled | _ => None end;
  time_now s := 0;
  rand63n s n := 0;
  wait d s := (true, s)
}.

#[export] Instance script_amqp : Amqp script := {
  amqp_Dial u s := (Ok 0%nat, s); conn_Channel c s := (Ok 0%nat, s); conn_Close c s := (None, s);
  conn_lost c s := (false, s); ch_Close ch s := s; ch_IsClosed ch s := false; ch_Confirm ch s := (None, s);
  ch_Qos ch n s := (None, s); ch_ExchangeDeclare ch x k d s := (None, s); ch_QueueDeclare ch q d a s := (Ok q, s);
  ch_QueueDelete ch q s := (None, s); ch_QueueBind ch q k x s := (None, s); ch_Publish ch x k m s := (None, s);
  ch_PublishDeferred ch x k m s := (Ok 0%nat, s); dc_wait dc s := (ConfirmAcked, s);
  ch_Consume ch q t s := (None, s); ch_receive ch s := sc_next s;
  d_Ack d s := (None, s); d_Nack r d s := (None, s)
}.

Definition msg (id : string) : Delivery := mkDelivery id "user.created" "{}".
Definition sample_consumer (n : Z) : ConsumerConfig := mkConsumerCfg "amqp://broker" "users" "" 1 n.

(** A message that always fails, delivered twice on a connection that drops and once after. *)
Definition failing_run :=
  Run (sample_consumer 3) (fun d s => (Requeue, s)) None 9 (NewConsumerRunner None)
    (mkScript [Received (msg "a"); Received (msg "a"); ChannelClosed None; Received (msg "a")]).

Lemma quint_eta {A B C D E} (x : A * B * C * D * E) :
  x = (x.1.1.1.1, x.1.1.1.2, x.1.1.2, x.1.2, x.2).
Proof. by destruct x as [[[[? ?] ?] ?] ?]. Qed.

(** The same message, three times on one connection. *)
Definition failing_connection :=
  runOnce (sample_consumer 3) (fun d s => (Requeue, s)) None 9 (NewConsumerRunner None)
    (mkScript [Received (msg "a"); Received (msg "a"); Received (msg "a")]).

Lemma requeue_bounded_witness :
  exists suf,
    failing_connection.2 = [Handled (msg "a") Requeue; Nacked (msg "a") true None;
                            Handled (msg "a") Requeue; Nacked (msg "a") true None]
                           ++ Handled (msg "a") Requeue :: suf
    /\ exists err suf', suf = Nacked (msg "a") false err :: suf'.
Proof.
  exists [Nacked (msg "a") false None].
  assert (E : failing_connection.2 = [Handled (msg "a") Requeue; Nacked (msg "a") true None;
          Handled (msg "a") Requeue; Nacked (msg "a") true None; Handled (msg "a") Requeue;
          Nacked (msg "a") false None]) by (vm_compute; reflexivity).
  split; [exact E|].
  destruct (requeue_bounded (sample_consumer 3) (fun d s => (Requeue, s)) None 9 (NewConsumerRunner None)
    (mkScript [Received (msg "a"); Received (msg "a"); Received (msg "a")]) "a"
    failing_connection.1.1.1 failing_connection.1.1.2 failing_connection.1.2 failing_connection.2
    eq_refl ltac:(discriminate) (NewConsumerRunner_counter (sample_consumer 3) "a" eq_refl None)
    ltac:(vm_compute; reflexivity)) as [_ [H _]].
  exact (H [Handled (msg "a") Requeue; Nacked (msg "a") true None;
            Handled (msg "a") Requeue; Nacked (msg "a") true None] (msg "a") _ E eq_refl).
Defined.

(** MaxAttempts = 3 allows two requeues; the doc comment speaks of a cap on requeues. *)
Example cap_counts_failures :
  length (List.filter (fun a => match a with Nacked _ true _ => true | _ => false end) failing_connection.2) = 2%nat.
Proof. vm_compute. reflexivity. Qed.

(** Capacity 1: "a" is processed, redelivered (absorbed), then "b" takes its place. *)
Definition dedup_script : script :=
  mkScript [Received (msg "a"); ChannelClosed None; Received (msg "a"); Received (msg "b"); Received (msg "a")].
Definition dedup_run :=
  Run (sample_consumer 3) (fun d s => (Ack, s)) None 9 (NewConsumerRunner (Some (NewDedup 1))) dedup_script.

Lemma dedup_absorbs_witness :
  dedup_run.2 = [] ++ Handled (msg "a") Ack ::
    [Acked (msg "a") None; Acked (msg "a") None; Handled (msg "b") Ack; Acked (msg "b") None]
    ++ Handled (msg "a") Ack :: [Acked (msg "a") None]
  /\ 1 <= Z.of_nat (size (acked_ids [Acked (msg "a") None; Acked (msg "a") None;
                                     Handled (msg "b") Ack; Acked (msg "b") None] ∖ {[ "a" ]})).
Proof.
  assert (E : dedup_run.2 = [] ++ Handled (msg "a") Ack ::
    [Acked (msg "a") None; Acked (msg "a") None; Handled (msg "b") Ack; Acked (msg "b") None]
    ++ Handled (msg "a") Ack :: [Acked (msg "a") None]) by (vm_compute; reflexivity).
  split; [exact E|].
  refine (dedup_absorbs (sample_consumer 3) (fun d s => (Ack, s)) None 9 1 dedup_script "a"
    (dedup_run.1.1.1.1) (dedup_run.1.1.1.2) (dedup_run.1.1.2) (dedup_run.1.2) [] (msg "a") _ (msg "a") Ack
    [Acked (msg "a") None] ltac:(discriminate) _ eq_refl eq_refl).
  rewrite <- E. apply quint_eta.
Defined.

(** The counters survive a reconnect: the doc comment of MaxAttempts says they reset. *)
Example attempts_survive_reconnect :
  failing_run.1.1.1.2 = [Second]
  /\ List.filter (fun a => match a with Nacked _ false _ => true | _ => false end) failing_run.2
     = [Nacked (msg "a") false None].
Proof. split; vm_compute; reflexivity. Qed.
