(* ===== verification/Outbox.v ===== *)
(** * Outbox: messaging/outbox — the transactional outbox and its dispatcher

    The Store interface is the class [Store]; PGStore implements it with three
    statements.  [StoreLaws] is what a dispatcher relies on; the laws of PGStore
    follow from what PostgreSQL does with the statements ([OutboxTable]). *)

From S2P Require Import Prelude GoStrings Errors Backoff SqlQuery Transaction Dao.

Record Row := mkRow {
  ID : string; Action : string; Payload : string; RequestID : string; CreatedAt : Z; Attempts : Z
}.

(** ** outbox.go *)

Class Store (W : Type) := {
  store_Insert : txid -> string -> string -> string -> M W unit;
  store_FetchUnsent : Z -> M W (list Row);
  store_MarkSent : string -> M W unit
}.

Definition insert_sql (table : string) : string :=
  "INSERT INTO " +:+ table +:+ " (id, action, payload, request_id) VALUES ($1, $2, $3, $4)".

(** The layout of the statement's lines is left out. *)
Definition fetch_sql (table : string) : string :=
  "WITH claimed AS ( SELECT id FROM " +:+ table
  +:+ " WHERE sent_at IS NULL ORDER BY created_at LIMIT $1 FOR UPDATE SKIP LOCKED ) UPDATE " +:+ table
  +:+ " o SET attempts = o.attempts + 1 FROM claimed c WHERE o.id = c.id"
  +:+ " RETURNING o.id, o.action, o.payload, o.request_id, o.created_at, o.attempts".

Definition mark_sql (table : string) : string :=
  "UPDATE " +:+ table +:+ " SET sent_at = NOW() WHERE id = $1".

(** How reading the rows of a query can fail. *)
Inductive rows_error := ScanFailed (e : goerr) | RowsErr (e : goerr).

Class OutboxDb (W : Type) := {
  ob_exec : conn -> stmt -> M W Z;
  ob_query : stmt -> M W (list Row * option rows_error)     (* on the pool *)
}.

Section pgstore.
Context {W : Type} `{OutboxDb W}.
Variable table : string.

(** [id] is the uuid.New() of the call. *)
Definition pg_Insert (id : string) (tx : txid) (action payload requestID : string) : M W unit := fun w =>
  match ob_exec (OnTx tx) (StRaw (insert_sql table) [AStr id; AStr action; AStr payload; AStr requestID]) w with
  | (Err e, w) => (Err (wrapf "outbox: insert" e), w)
  | (Ok _, w) => (Ok tt, w)
  end.

Definition pg_FetchUnsent (limit : Z) : M W (list Row) := fun w =>
  match ob_query (StRaw (fetch_sql table) [AInt limit]) w with
  | (Err e, w) => (Err (wrapf "outbox: fetch unsent" e), w)
  | (Ok (_, Some (ScanFailed e)), w) => (Err (wrapf "outbox: scan row" e), w)
  | (Ok (_, Some (RowsErr e)), w) => (Err e, w)
  | (Ok (rows, None), w) => (Ok rows, w)
  end.

Definition pg_MarkSent (id : string) : M W unit := fun w =>
  match ob_exec OnPool (StRaw (mark_sql table) [AStr id]) w with
  | (Err e, w) => (Err (wrapf "outbox: mark sent" e), w)
  | (Ok _, w) => (Ok tt, w)
  end.

Definition PGStore (fresh : W -> string) : Store W := {|
  store_Insert tx action payload requestID := fun w => pg_Insert (fresh w) tx action payload requestID w;
  store_FetchUnsent := pg_FetchUnsent;
  store_MarkSent := pg_MarkSent
|}.
End pgstore.

(** ** dispatcher.go *)

Record Dispatcher := mkDispatcher { interval : Z; batch : Z; kick : bool (* a kick is pending *) }.
Definition DispatcherOption := Dispatcher -> Dispatcher.
Definition WithInterval (d : Z) : DispatcherOption := fun x => mkDispatcher d (batch x) (kick x).
Definition WithBatchSize (n : Z) : DispatcherOption := fun x => mkDispatcher (interval x) n (kick x).
Definition NewDispatcher (opts : list DispatcherOption) : Dispatcher :=
  fold_left (fun d o => o d) opts (mkDispatcher (5 * Second) 100 false).

(** A nil dispatcher ignores the kick; the channel holds one. *)
Definition Kick (d : option Dispatcher) : option Dispatcher :=
  match d with None => None | Some d => Some (mkDispatcher (interval d) (batch d) true) end.

Inductive oevent :=
  | Fetched (rows : list Row)
  | FetchFailed (e : goerr)
  | Published (r : Row) (err : error)
  | MarkedSent (r : Row) (err : error).

Section drain.
Context {W : Type} `{Store W}.
Variable publish : Row -> W -> error * W.

(** The rows of one batch in order; false = an error ended the drain. *)
Fixpoint drain_rows (rows : list Row) (w : W) : bool * W * list oevent :=
  match rows with
  | [] => (true, w, [])
  | row :: rows =>
      match publish row w with
      | (Some e, w) => (false, w, [Published row (Some e)])
      | (None, w) =>
          match store_MarkSent (ID row) w with
          | (Err e, w) => (false, w, [Published row None; MarkedSent row (Some e)])
          | (Ok _, w) =>
              let '(ok, w, tr) := drain_rows rows w in
              (ok, w, Published row None :: MarkedSent row None :: tr)
          end
      end
  end.

(** drain; [fuel] bounds the batches, None = it is used up. *)
Fixpoint drain (fuel : nat) (d : Dispatcher) (w : W) : option (W * list oevent) :=
  match fuel with
  | O => None
  | S fuel =>
      match store_FetchUnsent (batch d) w with
      | (Err e, w) => Some (w, [FetchFailed e])
      | (Ok [], w) => Some (w, [Fetched []])
      | (Ok rows, w) =>
          let '(ok, w, tr) := drain_rows rows w in
          if negb ok || (Z.of_nat (length rows) <? batch d) then Some (w, Fetched rows :: tr)
          else match drain fuel d w with
               | Some (w, tr') => Some (w, Fetched rows :: tr ++ tr')
               | None => None
               end
      end
  end.
End drain.

(** ** What a dispatcher relies on *)

(** The ids of the unsent rows other sessions can see. *)
Class StoreView (W : Type) := unsent : W -> gset string.

Class StoreLaws (W : Type) `{Store W} `{StoreView W} := {
  (* no row is locked by another session: the oldest [limit] unsent rows are claimed *)
  fetch_ok limit w rows w' : store_FetchUnsent limit w = (Ok rows, w') ->
    unsent w' = unsent w /\ NoDup (ID <$> rows) /\ list_to_set (ID <$> rows) ⊆ unsent w
    /\ Z.of_nat (length rows) = Z.max 0 (Z.min limit (Z.of_nat (size (unsent w))));
  fetch_err limit w e w' : store_FetchUnsent limit w = (Err e, w') -> unsent w' = unsent w;
  mark_ok id w w' : store_MarkSent id w = (Ok tt, w') -> unsent w' = unsent w ∖ {[ id ]};
  (* after an error the mark may or may not have been applied *)
  mark_err id w e w' : store_MarkSent id w = (Err e, w') ->
    unsent w' = unsent w \/ unsent w' = unsent w ∖ {[ id ]}
}.

(** The rows the broker accepted, in order. *)
Definition accepted (tr : list oevent) : list string :=
  omap (fun e => match e with Published r None => Some (ID r) | _ => None end) tr.

Definition failed (e : oevent) : bool :=
  match e with
  | FetchFailed _ | Published _ (Some _) | MarkedSent _ (Some _) => true
  | _ => false
  end.

Section drain_spec.
Context {W : Type} `{Store W} `{!StoreView W} `{!StoreLaws W}.
Variable publish : Row -> W -> error * W.
Hypothesis publish_keeps : forall r w, unsent (publish r w).2 = unsent w.

(** What a stretch of a drain achieves: rows leave the outbox only after the broker took
    them, and each is handed over once. *)
Definition delivered (w w' : W) (tr : list oevent) : Prop :=
  unsent w' ⊆ unsent w /\ unsent w ∖ unsent w' ⊆ list_to_set (accepted tr)
  /\ NoDup (accepted tr) /\ list_to_set (accepted tr) ⊆ unsent w.

Lemma drain_rows_spec rows w ok w' tr :
  NoDup (ID <$> rows) -> list_to_set (ID <$> rows) ⊆ unsent w ->
  drain_rows publish rows w = (ok, w', tr) ->
  delivered w w' tr /\ list_to_set (accepted tr) ⊆ (list_to_set (ID <$> rows) : gset string)
  /\ (ok = true -> unsent w' = unsent w ∖ list_to_set (ID <$> rows)
                   /\ accepted tr = ID <$> rows /\ forallb (fun e => negb (failed e)) tr = true)
  /\ (ok = false -> existsb failed tr = true).
Proof.
  revert w ok w' tr. induction rows as [|row rows IH]; intros w ok w' tr Hn Hsub; cbn.
  { intros [= <- <- <-]. unfold delivered. cbn. split_and!; try done; try constructor; set_solver. }
  apply NoDup_cons in Hn as [Hrow Hn]. cbn in Hsub.
  pose proof (publish_keeps row w) as Hp. destruct (publish row w) as [[e|] w1]; cbn in Hp.
  { intros [= <- <- <-]. unfold delivered. cbn. rewrite Hp.
    split_and!; try done; try constructor; set_solver. }
  destruct (store_MarkSent (ID row) w1) as [[[]|e] w2] eqn:Em.
  - apply mark_ok in Em. rewrite Hp in Em.
    destruct (drain_rows publish rows w2) as [[ok2 w3] tr2] eqn:Er. intros [= <- <- <-].
    assert (Hsub2 : list_to_set (ID <$> rows) ⊆ unsent w2) by (rewrite Em; clear - Hsub Hrow; set_solver).
    destruct (IH w2 ok2 w3 tr2 Hn Hsub2 Er) as ((D1 & D2 & D3 & D4) & Ha & Hok & Hko).
    rewrite Em in *. unfold delivered. cbn. split_and!.
    + clear - D1. set_solver.
    + intros x Hx. destruct (decide (x = ID row)) as [->|Hne]; [set_solver|].
      assert (x ∈ (list_to_set (accepted tr2) : gset string)) by (apply D2; set_solver). set_solver.
    + constructor; [clear - D4; set_solver|done].
    + clear - Hsub D4. set_solver.
    + clear - Ha. set_solver.
    + intros Ht. destruct (Hok Ht) as (E1 & E2 & E3). rewrite E1. split_and!; [clear; set_solver|by f_equal|done].
    + intros Hf. by apply Hko.
  - apply mark_err in Em. rewrite Hp in Em. intros [= <- <- <-]. unfold delivered. cbn. split_and!; try done.
    + clear - Em. destruct Em as [->| ->]; set_solver.
    + clear - Em. destruct Em as [->| ->]; intros x Hx; [set_solver|].
      destruct (decide (x = ID row)); set_solver.
    + apply NoDup_singleton.
    + clear - Hsub. set_solver.
    + clear. set_solver.
Qed.

Lemma delivered_trans w1 w2 w3 tr1 tr2 :
  delivered w1 w2 tr1 -> delivered w2 w3 tr2 -> unsent w2 ## list_to_set (accepted tr1) ->
  delivered w1 w3 (tr1 ++ tr2).
Proof.
  unfold delivered, accepted. rewrite omap_app, list_to_set_app_L.
  intros (A1 & A2 & A3 & A4) (B1 & B2 & B3 & B4) Hd. split_and!.
  - by etrans.
  - intros x Hx. destruct (decide (x ∈ unsent w2)); set_solver.
  - apply NoDup_app. split_and!; [done| |done]. intros x H1 H2.
    assert (x ∈ unsent w2) by (apply B4; set_solver). set_solver.
  - set_solver.
Qed.

Lemma delivered_fetched w w1 w' rows tr :
  unsent w1 = unsent w -> delivered w1 w' tr -> delivered w w' (Fetched rows :: tr).
Proof. intros E. unfold delivered. cbn. by rewrite E. Qed.

Lemma drain_spec fuel d w :
  (size (unsent w) < fuel)%nat ->
  exists w' tr, drain publish fuel d w = Some (w', tr) /\ delivered w w' tr
    /\ (existsb failed tr = false -> 0 < batch d -> unsent w' = ∅).
Proof.
  revert w. induction fuel as [|fuel IH]; intros w Hf; [lia|]. cbn [drain].
  destruct (store_FetchUnsent (batch d) w) as [[rows|e] w1] eqn:Ef.
  2:{ apply fetch_err in Ef. eexists _, _. split; [done|]. split; [|done].
      unfold delivered. cbn. rewrite Ef. split_and!; [done|set_solver|constructor|set_solver]. }
  apply fetch_ok in Ef as (Eu & Hn & Hsub & Hlen). destruct rows as [|row rows].
  { eexists _, _. split; [done|]. split.
    - unfold delivered. cbn. rewrite Eu. split_and!; [done|set_solver|constructor|set_solver].
    - intros _ Hb. rewrite Eu. cbn in Hlen. apply leibniz_equiv, size_empty_inv. lia. }
  set (rs := row :: rows) in *. rewrite <- Eu in Hsub.
  destruct (drain_rows publish rs w1) as [[ok w2] tr] eqn:Er.
  destruct (drain_rows_spec _ _ _ _ _ Hn Hsub Er) as (D & Ha & Hok & Hko).
  assert (Hset : size (list_to_set (ID <$> rs) : gset string) = length rs)
    by (by rewrite size_list_to_set, length_fmap).
  destruct ok; cbn [negb orb].
  2:{ eexists _, _. split; [done|]. split; [by eapply delivered_fetched|]. cbn. by rewrite Hko. }
  destruct (Hok eq_refl) as (E2 & Eacc & _).
  destruct (Z.ltb_spec (Z.of_nat (length rs)) (batch d)) as [Hlt|Hge].
  { eexists _, _. split; [done|]. split; [by eapply delivered_fetched|]. intros _ Hb. rewrite E2.
    assert (HE : list_to_set (ID <$> rs) = unsent w1)
      by (apply set_subseteq_size_eq; [done|rewrite Hset, Eu; lia]).
    rewrite HE. set_solver. }
  destruct (IH w2) as (w3 & tr2 & Ed & D2 & Hall).
  { rewrite E2, size_difference by done. rewrite Hset, Eu. subst rs. rewrite length_cons in *. lia. }
  rewrite Ed. eexists _, _. split; [done|]. split.
  - eapply delivered_fetched; [done|]. eapply delivered_trans; [done..|]. rewrite Eacc, E2. set_solver.
  - cbn. rewrite existsb_app. intros [_ Hx]%orb_false_iff. by apply Hall.
Qed.
End drain_spec.

(** ** PGStore keeps the laws *)

(** The table: each row with whether sent_at is set. *)
Abbreviation outbox_table := (list (Row * bool)).

Definition earlier (r s : Row) : Prop := CreatedAt r <= CreatedAt s.
#[export] Instance earlier_dec r s : Decision (earlier r s).
Proof. unfold earlier. apply _. Defined.

Definition unsent_rows (t : outbox_table) : list Row := (List.filter (fun rb => negb rb.2) t).*1.
Definition claimed (limit : Z) (t : outbox_table) : list Row :=
  firstn (Z.to_nat limit) (merge_sort earlier (unsent_rows t)).
Definition bump (r : Row) : Row :=
  mkRow (ID r) (Action r) (Payload r) (RequestID r) (CreatedAt r) (Attempts r + 1).
(** The UPDATE of the claimed rows, and of the row that was sent. *)
Definition claim (limit : Z) (t : outbox_table) : outbox_table :=
  map (fun rb => if bool_decide (ID rb.1 ∈ ID <$> claimed limit t) then (bump rb.1, rb.2) else rb) t.
Definition mark (id : string) (t : outbox_table) : outbox_table :=
  map (fun rb => if bool_decide (ID rb.1 = id) then (rb.1, true) else rb) t.

(** What PostgreSQL does with the statements, no row being locked by another session. *)
Class OutboxTable (W : Type) `{OutboxDb W} (table : string) := {
  otable : W -> outbox_table;
  otable_key w : NoDup ((fun rb => ID rb.1) <$> otable w);
  fetch_runs n w rows w' : ob_query (StRaw (fetch_sql table) [AInt n]) w = (Ok (rows, None), w') ->
    otable w' = claim n (otable w) /\ rows ≡ₚ bump <$> claimed n (otable w);
  (* a failure to read the rows can come after the update *)
  fetch_fails n w r w' : ob_query (StRaw (fetch_sql table) [AInt n]) w = (r, w') ->
    otable w' = otable w \/ otable w' = claim n (otable w);
  mark_runs id w n w' : ob_exec OnPool (StRaw (mark_sql table) [AStr id]) w = (Ok n, w') ->
    otable w' = mark id (otable w);
  mark_fails id w e w' : ob_exec OnPool (StRaw (mark_sql table) [AStr id]) w = (Err e, w') ->
    otable w' = otable w \/ otable w' = mark id (otable w)
}.

Definition unsent_ids (t : outbox_table) : gset string := list_to_set (ID <$> unsent_rows t).

Lemma unsent_ids_elem t x : x ∈ unsent_ids t <-> exists r, (r, false) ∈ t /\ ID r = x.
Proof.
  unfold unsent_ids, unsent_rows. rewrite elem_of_list_to_set, list_elem_of_fmap. split.
  - intros (r & -> & Hr). apply list_elem_of_fmap in Hr as ([r' b] & -> & Hr).
    apply filter_in in Hr as [Hb Hr]. destruct b; [done|]. eauto.
  - intros (r & Hr & <-). exists r. split; [done|]. apply list_elem_of_fmap. exists (r, false). split; [done|].
    by apply filter_in.
Qed.

Lemma unsent_claim n t : unsent_ids (claim n t) = unsent_ids t.
Proof.
  apply set_eq. intros x. rewrite !unsent_ids_elem. unfold claim. split.
  - intros (r & Hr & <-). apply list_elem_of_fmap in Hr as ([r' b] & E & Hr). revert E.
    cbn. case_bool_decide; intros [= -> ->]; eauto.
  - intros (r & Hr & <-). destruct (decide (ID r ∈ ID <$> claimed n t)).
    + exists (bump r). split; [|done]. apply list_elem_of_fmap. exists (r, false). cbn.
      by rewrite bool_decide_eq_true_2.
    + exists r. split; [|done]. apply list_elem_of_fmap. exists (r, false). cbn.
      by rewrite bool_decide_eq_false_2.
Qed.

Lemma unsent_mark id t : unsent_ids (mark id t) = unsent_ids t ∖ {[ id ]}.
Proof.
  apply set_eq. intros x. rewrite elem_of_difference, elem_of_singleton, !unsent_ids_elem. unfold mark. split.
  - intros (r & Hr & <-). apply list_elem_of_fmap in Hr as ([r' b] & E & Hr). revert E.
    cbn. case_bool_decide; intros [= -> ->]; eauto.
  - intros [(r & Hr & <-) Hne]. exists r. split; [|done]. apply list_elem_of_fmap. exists (r, false). cbn.
    by rewrite bool_decide_eq_false_2.
Qed.

Lemma unsent_rows_nodup t : NoDup ((fun rb => ID rb.1) <$> t) -> NoDup (ID <$> unsent_rows t).
Proof.
  unfold unsent_rows. induction t as [|[r b] t IH]; cbn; [done|]. rewrite NoDup_cons. intros [Hr Hn].
  destruct b; cbn; [by apply IH|]. constructor; [|by apply IH]. intros Hin. apply Hr.
  apply list_elem_of_fmap in Hin as (r' & E & Hin). apply list_elem_of_fmap in Hin as ([r'' b] & -> & Hin).
  apply filter_in in Hin as [_ Hin].
  apply list_elem_of_fmap. by exists (r'', b).
Qed.

Lemma claimed_sub n t : claimed n t ⊆+ unsent_rows t.
Proof.
  unfold claimed. rewrite <- (merge_sort_Permutation earlier (unsent_rows t)) at 2.
  apply sublist_submseteq, sublist_take.
Qed.

Lemma NoDup_sub {A} (l k : list A) : l ⊆+ k -> NoDup k -> NoDup l.
Proof. intros [l' ->]%submseteq_Permutation [? _]%NoDup_app. done. Qed.

Lemma bump_ids (rs : list Row) : ID <$> (bump <$> rs) = ID <$> rs.
Proof. rewrite <- list_fmap_compose. by apply list_fmap_ext. Qed.

Section pgstore_laws.
Context {W : Type} `{OutboxDb W} (table : string) `{!OutboxTable W table} (fresh : W -> string).

#[export] Instance pgstore_view : StoreView W := fun w => unsent_ids (otable w).

Lemma fetch_claims n w rows w' :
  pg_FetchUnsent table n w = (Ok rows, w') ->
  otable w' = claim n (otable w) /\ rows ≡ₚ bump <$> claimed n (otable w).
Proof.
  unfold pg_FetchUnsent. destruct (ob_query _ w) as [[[rs [[e|e]|]]|e] w1] eqn:E; intros [=]; subst.
  by apply fetch_runs in E.
Qed.

Lemma PGStore_laws : @StoreLaws W (PGStore table fresh) pgstore_view.
Proof.
  split; cbn; unfold unsent, pgstore_view.
  - intros n w rows w' E. apply fetch_claims in E as [E P]. rewrite E, unsent_claim.
    pose proof (claimed_sub n (otable w)) as Hsub. pose proof (unsent_rows_nodup _ (otable_key w)) as Hnd.
    rewrite P, bump_ids. split_and!; [done| | |].
    + apply (NoDup_sub _ (ID <$> unsent_rows (otable w))); [by apply fmap_submseteq|done].
    + unfold unsent_ids. intros x. rewrite !elem_of_list_to_set. intros Hx.
      eapply elem_of_submseteq; [exact Hx|]. by apply fmap_submseteq.
    + rewrite length_fmap. unfold claimed, unsent_ids. rewrite size_list_to_set by done.
      rewrite length_firstn, merge_sort_Permutation, length_fmap. lia.
  - intros n w e w'. unfold pg_FetchUnsent. destruct (ob_query _ w) as [r w1] eqn:E. intros Hr.
    assert (w1 = w') as <- by (by destruct r as [[rs [[?|?]|]]|?]; injection Hr).
    apply fetch_fails in E as [->| ->]; [done|apply unsent_claim].
  - intros id w w'. unfold pg_MarkSent. destruct (ob_exec _ _ w) as [[k|e] w1] eqn:E; intros [=]; subst.
    apply mark_runs in E as ->. apply unsent_mark.
  - intros id w e w'. unfold pg_MarkSent. destruct (ob_exec _ _ w) as [[k|e'] w1] eqn:E; intros [=]; subst.
    apply mark_fails in E as [->| ->]; [by left|right; apply unsent_mark].
Qed.
End pgstore_laws.

(** ** Delivery *)

Section delivery.
Context {W : Type} `{Store W} `{!StoreView W} `{!StoreLaws W}.
Variable publish : Row -> W -> error * W.

(** C8. A drain always ends (in fewer batches than there are unsent rows, plus one), and the
    outbox never loses or repeats an event: a row stops being unsent only if the broker
    accepted it during the drain, a row is accepted at most once by one drain, and a drain
    in which nothing failed leaves no unsent row, whatever the batch size. *)
Theorem drain_delivers fuel d w :
  (forall r w, unsent (publish r w).2 = unsent w) ->
  (size (unsent w) < fuel)%nat ->
  exists w' tr, drain publish fuel d w = Some (w', tr)
    /\ unsent w' ⊆ unsent w
    /\ unsent w ∖ unsent w' ⊆ list_to_set (accepted tr)
    /\ NoDup (accepted tr) /\ list_to_set (accepted tr) ⊆ unsent w
    /\ (existsb failed tr = false -> 0 < batch d -> unsent w' = ∅).
Proof.
  intros Hp Hf. destruct (drain_spec publish Hp fuel d w Hf) as (w' & tr & Hd & (D1 & D2 & D3 & D4) & Hall).
  exists w', tr. by split_and!.
Qed.
End delivery.

(** ** A database and a broker *)

Record obw := mkObw { ow_rows : outbox_table; ow_broker : list string; ow_up : bool }.

(** The primary key: a row whose id is already in the table is not there. *)
Definition keyed (t : outbox_table) : outbox_table :=
  foldr (fun rb t => if bool_decide (ID rb.1 ∈ (fun rb => ID rb.1) <$> t) then t else rb :: t) [] t.

Definition unknown_statement : goerr := NewErr "syntax error".

#[export] Instance obw_db : OutboxDb obw := {
  ob_exec c s w :=
    match s with
    | StRaw sql [AStr id] =>
        if bool_decide (sql = mark_sql "outbox")
        then (Ok 1, mkObw (mark id (keyed (ow_rows w))) (ow_broker w) (ow_up w))
        else (Err unknown_statement, w)
    | StRaw sql [AStr id; AStr action; AStr payload; AStr rid] =>
        if bool_decide (sql = insert_sql "outbox")
        then (Ok 1, mkObw (ow_rows w ++ [(mkRow id action payload rid 0 0, false)]) (ow_broker w) (ow_up w))
        else (Err unknown_statement, w)
    | _ => (Err unknown_statement, w)
    end;
  ob_query s w :=
    match s with
    | StRaw sql [AInt n] =>
        if bool_decide (sql = fetch_sql "outbox")
        then (Ok (bump <$> claimed n (keyed (ow_rows w)), None),
              mkObw (claim n (keyed (ow_rows w))) (ow_broker w) (ow_up w))
        else (Err unknown_statement, w)
    | _ => (Err unknown_statement, w)
    end
}.

Lemma keyed_nodup t : NoDup ((fun rb => ID rb.1) <$> keyed t).
Proof.
  induction t as [|rb t IH]; cbn; [constructor|]. case_bool_decide; [done|]. cbn. by constructor.
Qed.

Lemma keyed_id t : NoDup ((fun rb => ID rb.1) <$> t) -> keyed t = t.
Proof.
  induction t as [|rb t IH]; cbn; [done|]. rewrite NoDup_cons. intros [Hn Ht].
  change (foldr _ [] t) with (keyed t). rewrite IH by done. by rewrite bool_decide_eq_false_2.
Qed.

Lemma keyed_map (f : Row * bool -> Row * bool) t :
  (forall rb, ID (f rb).1 = ID rb.1) -> keyed (map f (keyed t)) = map f (keyed t).
Proof.
  intros Hf. apply keyed_id. change (map f (keyed t)) with (f <$> keyed t).
  rewrite <- list_fmap_compose. erewrite list_fmap_ext; [apply (keyed_nodup t)|].
  intros i rb _. apply Hf.
Qed.

#[export] Instance obw_table : OutboxTable obw "outbox".
Proof.
  refine (Build_OutboxTable obw _ "outbox" (fun w => keyed (ow_rows w)) (fun w => keyed_nodup (ow_rows w)) _ _ _ _).
  - intros n w rows w' [= <- <-]. cbn. unfold claim. rewrite keyed_map; [done|]. intros rb. by case_bool_decide.
  - intros n w r w' [= <- <-]. right. cbn. unfold claim. rewrite keyed_map; [done|]. intros rb.
    by case_bool_decide.
  - intros id w n w' [= <- <-]. cbn. unfold mark. rewrite keyed_map; [done|]. intros rb. by case_bool_decide.
  - intros id w e w' [=].
Defined.

#[export] Instance obw_store : Store obw := PGStore "outbox" (fun _ => "new").
#[export] Instance obw_view : StoreView obw := pgstore_view "outbox".
#[export] Instance obw_laws : StoreLaws obw := PGStore_laws "outbox" (fun _ => "new").

Definition obw_publish (r : Row) (w : obw) : error * obw :=
  if ow_up w then (None, mkObw (ow_rows w) (ow_broker w ++ [ID r]) true) else (Some (NewErr "broker down"), w).

Definition event (id : string) (t : Z) : Row * bool := (mkRow id "create" "{}" "req" t 0, false).
Definition sample_outbox : obw := mkObw [event "b" 2; event "a" 1; event "c" 3] [] true.

Lemma sample_outbox_size : (size (unsent sample_outbox) < 4)%nat.
Proof.
  unfold unsent, obw_view, pgstore_view, unsent_ids. rewrite size_list_to_set; [vm_compute; lia|].
  apply unsent_rows_nodup, otable_key.
Qed.

Lemma drain_delivers_witness :
  (size (unsent sample_outbox) < 4)%nat
  /\ exists w' tr, drain obw_publish 4 (NewDispatcher [WithBatchSize 2]) sample_outbox = Some (w', tr)
     /\ accepted tr = ["a"; "b"; "c"] /\ unsent w' = ∅.
Proof.
  split; [exact sample_outbox_size|].
  destruct (drain_delivers obw_publish 4 (NewDispatcher [WithBatchSize 2]) sample_outbox)
    as (w' & tr & Hd & _ & _ & _ & _ & Hall); [|exact sample_outbox_size|].
  { intros r w. unfold obw_publish. by destruct (ow_up w). }
  assert (Ht : snd <$> drain obw_publish 4 (NewDispatcher [WithBatchSize 2]) sample_outbox = Some tr) by (by rewrite Hd).
  vm_compute in Ht. injection Ht as <-.
  eexists w', _. split; [exact Hd|]. split; [vm_compute; reflexivity|]. apply Hall; vm_compute; reflexivity.
Defined.

(** FetchUnsent keeps no claim: the row locks end with the statement, so a second dispatcher
    that fetches before the first has marked its rows gets the same rows. *)
Example concurrent_fetch_overlaps :
  match pg_FetchUnsent "outbox" 2 sample_outbox with
  | (Ok rows, w) => match pg_FetchUnsent "outbox" 2 w with
                    | (Ok rows', _) => ID <$> rows = ["a"; "b"] /\ ID <$> rows' = ["a"; "b"]
                    | _ => False
                    end
  | _ => False
  end.
Proof. vm_compute. done. Qed.

(** A non-positive LIMIT fetches nothing, so such a batch size silently publishes nothing. *)
Example zero_batch_publishes_nothing :
  snd <$> drain obw_publish 4 (NewDispatcher [WithBatchSize 0]) sample_outbox = Some [Fetched []].
Proof. vm_compute. done. Qed.
