(* ===== verification/Scheduler.v ===== *)
(** * Scheduler: scheduler/ — periodic jobs, and singleton jobs across replicas

    One run of a job talks to the pool, to PostgreSQL and to the job; it is
    written as a resumption ([io]), so that the runs of many loops and replicas
    can be interleaved call by call.  Contexts and timeouts only decide what
    those calls return. *)

From S2P Require Import Prelude GoStrings Errors GoFloat Backoff Breaker Retry.

(** ** job.go, runner.go: registration *)

Record Job := mkJob { Name : string; Every : Z; Jitter : Z; Timeout : Z }.

(** The job's Run function is a call of the run; [rj_kick] says whether a kick waits in the channel. *)
Record registeredJob := mkRJob { rj_job : Job; singleton : bool; rj_kick : bool }.
Definition JobOption := registeredJob -> registeredJob.
Definition WithSingleton : JobOption := fun rj => mkRJob (rj_job rj) true (rj_kick rj).

Abbreviation Runner := (list registeredJob).

(** Register panics on programmer errors. *)
Inductive outcome (A : Type) := Fine (a : A) | Panics (msg : string).
Arguments Fine {A}.
Arguments Panics {A}.

Definition Register (j : Job) (opts : list JobOption) (r : Runner) : outcome Runner :=
  if Every j <=? 0 then Panics ("scheduler: Job.Every must be positive: " +:+ Name j)
  else if existsb (fun e => bool_decide (Name (rj_job e) = Name j)) r
  then Panics ("scheduler: duplicate job name: " +:+ Name j)
  else Fine (r ++ [fold_left (fun rj o => o rj) opts (mkRJob j false false)]).

(** The first job with the name gets the kick; a waiting kick absorbs it. *)
Fixpoint Kick (name : string) (r : Runner) : Runner :=
  match r with
  | [] => []
  | rj :: r => if bool_decide (Name (rj_job rj) = name) then mkRJob (rj_job rj) (singleton rj) true :: r
               else rj :: Kick name r
  end.

(** ** advisorylock.go *)

Definition fnv_offset : Z := 14695981039346656037.
Definition fnv_prime : Z := 1099511628211.

(** hash/fnv, 64-bit FNV-1a. *)
Fixpoint fnv1a (h : Z) (s : string) : Z :=
  match s with
  | EmptyString => h
  | String c s => fnv1a ((Z.lxor h (byte_of c) * fnv_prime) mod 2 ^ 64) s
  end.

Definition lockKey (name : string) : Z := wrap64 (fnv1a fnv_offset name).

Inductive metric := RunsTotal | FailuresTotal | DurationSeconds | SkippedSingletonTotal.

(** Calls of a run, with what it does with each answer. *)
Inductive io :=
  | Done
  | Acquire (k : res nat -> io)                          (* pool.Acquire: a session *)
  | TryLock (s : nat) (key : Z) (k : res bool -> io)     (* SELECT pg_try_advisory_lock *)
  | RunJob (k : fnres -> io)                             (* job.Run *)
  | UnlockKey (s : nat) (key : Z) (k : error -> io)      (* SELECT pg_advisory_unlock *)
  | Release (s : nat) (k : io)                           (* conn.Release *)
  | Count (m : metric) (k : io).

(** The unlock closure it hands out runs before what follows; None = not acquired. *)
Definition tryAdvisoryLock (key : Z) (k : res (option (io -> io)) -> io) : io :=
  Acquire (fun r =>
    match r with
    | Err e => k (Err (wrapf "scheduler: acquire connection" e))
    | Ok s =>
        TryLock s key (fun r =>
          match r with
          | Err e => Release s (k (Err (wrapf "scheduler: pg_try_advisory_lock" e)))
          | Ok false => Release s (k (Ok None))
          | Ok true => k (Ok (Some (fun rest => UnlockKey s key (fun _ => Release s rest))))
          end)
    end).

Definition runProtected (j : Job) (r : fnres) : error :=
  match r with
  | FnRet err => err
  | FnPanic => Some (NewErr ("scheduler: job " +:+ quoted (Name j) +:+ " panicked"))
  end.

Definition run_job (j : Job) (deferred : io) : io :=
  RunJob (fun r =>
    Count RunsTotal (Count DurationSeconds
      (match runProtected j r with
       | Some _ => Count FailuresTotal deferred
       | None => deferred
       end))).

Definition runOnce (rj : registeredJob) : io :=
  if singleton rj then
    tryAdvisoryLock (lockKey (Name (rj_job rj))) (fun r =>
      match r with
      | Err _ => Done
      | Ok None => Count SkippedSingletonTotal Done
      | Ok (Some unlock) => run_job (rj_job rj) (unlock Done)
      end)
  else run_job (rj_job rj) Done.

(** runLoop between two runs: wait for ctx.Done(), the ticker or a kick, which it takes. *)
Inductive wakeup := WakeCtx | WakeTick | WakeKick.
Definition after_wait (u : wakeup) (rj : registeredJob) : option registeredJob :=
  match u with
  | WakeCtx => None
  | WakeTick => Some rj
  | WakeKick => Some (mkRJob (rj_job rj) (singleton rj) false)
  end.
(** The jittered wait before the first run. *)
Definition first_delay (int63n : Z -> Z) (j : Job) : option Z :=
  if 0 <? Jitter j then Some (int63n (Jitter j)) else None.

(** ** Interleaved runs *)

(** Loop [i] (of some replica) runs [jobs i] over and over.  [locks] is PostgreSQL's lock
    table: the session that holds a key, and how often (advisory locks are reentrant). *)
Record sys := mkSys { procs : nat -> io; sessions : gset nat; locks : Z -> option (nat * nat) }.

Definition may_lock (s : nat) (key : Z) (l : Z -> option (nat * nat)) : bool :=
  match l key with None => true | Some (s', _) => bool_decide (s' = s) end.
Definition take_lock (s : nat) (key : Z) (l : Z -> option (nat * nat)) : Z -> option (nat * nat) :=
  upd l key (Some (s, match l key with Some (_, n) => S n | None => O end)).
Definition drop_lock (s : nat) (key : Z) (l : Z -> option (nat * nat)) : Z -> option (nat * nat) :=
  match l key with
  | Some (s', n) => if bool_decide (s' = s)
                    then upd l key (match n with O => None | S n => Some (s', n) end) else l
  | None => l
  end.
(** The server releases what a closed session holds. *)
Definition close_session (s : nat) (l : Z -> option (nat * nat)) : Z -> option (nat * nat) :=
  fun key => match l key with Some (s', _) => if bool_decide (s' = s) then None else l key | None => None end.

Section runs.
Variable jobs : nat -> registeredJob.

Inductive step : sys -> sys -> Prop :=
  | S_start i x : procs x i = Done -> step x (mkSys (upd (procs x) i (runOnce (jobs i))) (sessions x) (locks x))
  | S_acquire i x k s : procs x i = Acquire k -> (s ∉ sessions x) ->
      step x (mkSys (upd (procs x) i (k (Ok s))) ({[ s ]} ∪ sessions x) (locks x))
  | S_acquire_fails i x k e : procs x i = Acquire k ->
      step x (mkSys (upd (procs x) i (k (Err e))) (sessions x) (locks x))
  | S_locks i x s key k : procs x i = TryLock s key k -> may_lock s key (locks x) = true ->
      step x (mkSys (upd (procs x) i (k (Ok true))) (sessions x) (take_lock s key (locks x)))
  | S_busy i x s key k : procs x i = TryLock s key k -> may_lock s key (locks x) = false ->
      step x (mkSys (upd (procs x) i (k (Ok false))) (sessions x) (locks x))
  | S_lock_fails i x s key k e : procs x i = TryLock s key k ->
      step x (mkSys (upd (procs x) i (k (Err e))) (sessions x) (locks x))
  | S_job i x k r : procs x i = RunJob k -> step x (mkSys (upd (procs x) i (k r)) (sessions x) (locks x))
  | S_unlock i x s key k : procs x i = UnlockKey s key k ->
      step x (mkSys (upd (procs x) i (k None)) (sessions x) (drop_lock s key (locks x)))
  | S_unlock_fails i x s key k e : procs x i = UnlockKey s key k ->
      step x (mkSys (upd (procs x) i (k (Some e))) (sessions x) (locks x))
  | S_release i x s k : procs x i = Release s k ->
      step x (mkSys (upd (procs x) i k) (sessions x ∖ {[ s ]}) (locks x))
  | S_count i x m k : procs x i = Count m k -> step x (mkSys (upd (procs x) i k) (sessions x) (locks x))
  (* the pool closes an idle connection *)
  | S_close s x : (s ∉ sessions x) -> step x (mkSys (procs x) (sessions x) (close_session s (locks x))).

Inductive steps : sys -> sys -> Prop :=
  | Steps_nil x : steps x x
  | Steps_snoc x y z : steps x y -> step y z -> steps x z.

(** The discipline a run follows: it locks with the session it acquired, runs a singleton's
    job only under the lock, and unlocks and releases exactly what it holds. *)
Fixpoint disciplined (rj : registeredJob) (own : option nat) (locked : bool) (p : io) : Prop :=
  match p with
  | Done => own = None /\ locked = false
  | Acquire k => own = None /\ locked = false /\ (forall s, disciplined rj (Some s) false (k (Ok s)))
                 /\ forall e, disciplined rj None false (k (Err e))
  | TryLock s key k => own = Some s /\ locked = false /\ key = lockKey (Name (rj_job rj))
      /\ disciplined rj own true (k (Ok true)) /\ disciplined rj own false (k (Ok false))
      /\ forall e, disciplined rj own false (k (Err e))
  | RunJob k => (singleton rj = true -> locked = true) /\ forall r, disciplined rj own locked (k r)
  | UnlockKey s key k => own = Some s /\ locked = true /\ key = lockKey (Name (rj_job rj))
      /\ forall e, disciplined rj own false (k e)
  | Release s k => own = Some s /\ locked = false /\ disciplined rj None false k
  | Count _ k => disciplined rj own locked k
  end.

Lemma run_job_disciplined rj own locked rest :
  (singleton rj = true -> locked = true) -> disciplined rj own locked rest ->
  disciplined rj own locked (run_job (rj_job rj) rest).
Proof. intros Hl Hr. cbn. split; [done|]. intros r. cbn. by destruct (runProtected _ r). Qed.

Lemma runOnce_disciplined rj : disciplined rj None false (runOnce rj).
Proof.
  unfold runOnce. destruct (singleton rj) eqn:Es; [|by apply run_job_disciplined; [congruence|]].
  cbn. split_and!; try done. intros s. split_and!; try done.
  intros r. cbn. by destruct (runProtected _ r).
Qed.

(** Every loop is in a disciplined state, no session is shared, and a lock a run believes it
    holds is its own. *)
Definition sched_inv (x : sys) : Prop :=
  exists (own : nat -> option nat) (locked : nat -> bool),
    (forall i, disciplined (jobs i) (own i) (locked i) (procs x i))
    /\ (forall i j s, own i = Some s -> own j = Some s -> i = j)
    /\ (forall s, s ∈ sessions x <-> exists i, own i = Some s)
    /\ (forall i, locked i = true -> exists s n, own i = Some s
                   /\ locks x (lockKey (Name (rj_job (jobs i)))) = Some (s, n)).

Abbreviation key_of i := (lockKey (Name (rj_job (jobs i)))).

(** Loop [i] moves on to [p'], holding [o'] and, when [l'], the lock. *)
Lemma sched_inv_upd x own locked i p' o' l' sess' locks' :
  (forall j, disciplined (jobs j) (own j) (locked j) (procs x j)) ->
  (forall j k s, own j = Some s -> own k = Some s -> j = k) ->
  disciplined (jobs i) o' l' p' ->
  (forall s j, o' = Some s -> own j = Some s -> j = i) ->
  (forall s, s ∈ sess' <-> o' = Some s \/ exists j, j <> i /\ own j = Some s) ->
  (l' = true -> exists s n, o' = Some s /\ locks' (key_of i) = Some (s, n)) ->
  (forall j, j <> i -> locked j = true -> exists s n, own j = Some s /\ locks' (key_of j) = Some (s, n)) ->
  sched_inv (mkSys (upd (procs x) i p') sess' locks').
Proof.
  intros Hd Hinj Hd' Hfresh Hsess Hli Hlj. exists (upd own i o'), (upd locked i l'). cbn. split_and!.
  - intros j. by upd_cases j i.
  - intros j k s. upd_cases j i; upd_cases k i; [done| | |].
    + intros E1 E2. symmetry. eauto.
    + intros E1 E2. eauto.
    + apply Hinj.
  - intros s. rewrite Hsess. split.
    + intros [E|(j & Hj & E)]; [exists i; by rewrite upd_eq|exists j; by rewrite upd_ne].
    + intros [j E]. destruct (decide (j = i)) as [->|Hj]; rewrite ?upd_eq, ?upd_ne in E by done; [by left|].
      right. eauto.
  - intros j. upd_cases j i; eauto.
Qed.

Lemma take_lock_other s key l k' s' n :
  may_lock s key l = true -> l k' = Some (s', n) -> s' <> s -> take_lock s key l k' = Some (s', n).
Proof.
  unfold may_lock, take_lock. intros Hm Hk Hne. destruct (decide (k' = key)) as [->|]; [|by rewrite upd_ne].
  rewrite Hk in Hm. by apply bool_decide_eq_true in Hm.
Qed.

Lemma drop_lock_other s key l k' s' n :
  l k' = Some (s', n) -> s' <> s -> drop_lock s key l k' = Some (s', n).
Proof.
  unfold drop_lock. intros Hk Hne. destruct (decide (k' = key)) as [->|].
  - rewrite Hk. by rewrite bool_decide_eq_false_2.
  - destruct (l key) as [[s2 n2]|]; [|done]. case_bool_decide; [|done]. by rewrite upd_ne.
Qed.

(** What loop [i] holds stays what it holds. *)
Lemma sessions_same (own : nat -> option nat) (sess : gset nat) i : (forall s, s ∈ sess <-> exists j, own j = Some s) ->
  forall s : nat, s ∈ sess <-> own i = Some s \/ exists j : nat, j <> i /\ own j = Some s.
Proof.
  intros Hs s. rewrite Hs. split.
  - intros [j E]. destruct (decide (j = i)) as [->|]; eauto.
  - intros [E|(j & _ & E)]; eauto.
Qed.

Lemma sched_step_inv x y : step x y -> sched_inv x -> sched_inv y.
Proof.
  intros Hst (own & locked & Hd & Hinj & Hs & Hl).
  assert (others : forall i s, own i = Some s -> forall j, j <> i -> locked j = true ->
    exists s' n, own j = Some s' /\ s' <> s /\ locks x (key_of j) = Some (s', n)).
  { intros i s Ei j Hj Hlj. destruct (Hl j Hlj) as (s' & n & Ej & Hk). exists s', n. split_and!; try done.
    intros ->. by apply Hj, (Hinj j i s). }
  destruct Hst as [i x E|i x k s E Hfree|i x k e E|i x s key k E Hm|i x s key k E Hm|i x s key k e E
                  |i x k r E|i x s key k E|i x s key k e E|i x s k E|i x m k E|s x Hfree];
    [pose proof (Hd i) as Hi; rewrite E in Hi; cbn in Hi..|].
  - destruct Hi as [Eo El]. eapply (sched_inv_upd x own locked i _ (own i) (locked i)); eauto using sessions_same.
    rewrite Eo, El. apply runOnce_disciplined.
  - destruct Hi as (Eo & El & Hk & _). eapply (sched_inv_upd x own locked i _ (Some s) false); eauto; try done.
    + intros s' j [= <-] Ej. destruct Hfree. apply Hs. eauto.
    + intros s'. rewrite elem_of_union, elem_of_singleton, (sessions_same own _ i Hs s'), Eo. naive_solver.
  - destruct Hi as (Eo & El & _ & Hk).
    eapply (sched_inv_upd x own locked i _ (own i) (locked i)); eauto using sessions_same.
    rewrite Eo, El. apply Hk.
  - destruct Hi as (Eo & El & -> & Hk & _).
    eapply (sched_inv_upd x own locked i _ (own i) true); eauto using sessions_same.
    + intros _. eexists s, _. split; [done|]. unfold take_lock. by rewrite upd_eq.
    + intros j Hj Hlj. destruct (others i s Eo j Hj Hlj) as (s' & n & Ej & Hne & Hkj).
      exists s', n. split; [done|]. by apply take_lock_other.
  - destruct Hi as (Eo & El & -> & _ & Hk & _).
    eapply (sched_inv_upd x own locked i _ (own i) false); eauto using sessions_same; done.
  - destruct Hi as (Eo & El & -> & _ & _ & Hk).
    eapply (sched_inv_upd x own locked i _ (own i) false); eauto using sessions_same; done.
  - destruct Hi as (_ & Hk). eapply (sched_inv_upd x own locked i _ (own i) (locked i)); eauto using sessions_same.
  - destruct Hi as (Eo & El & -> & Hk).
    eapply (sched_inv_upd x own locked i _ (own i) false); eauto using sessions_same; try done.
    intros j Hj Hlj. destruct (others i s Eo j Hj Hlj) as (s' & n & Ej & Hne & Hkj).
    exists s', n. split; [done|]. by apply drop_lock_other.
  - destruct Hi as (Eo & El & -> & Hk).
    eapply (sched_inv_upd x own locked i _ (own i) false); eauto using sessions_same; done.
  - destruct Hi as (Eo & El & Hk). eapply (sched_inv_upd x own locked i _ None false); eauto; try done.
    intros s'. rewrite elem_of_difference, elem_of_singleton, (sessions_same own _ i Hs s'), Eo.
    split; [naive_solver|]. intros [?|(j & Hj & Ej)]; [done|]. split; [eauto|]. intros ->. by apply Hj, (Hinj j i s).
  - eapply (sched_inv_upd x own locked i _ (own i) (locked i)); eauto using sessions_same.
  - exists own, locked. split_and!; try done. intros i Hli. destruct (Hl i Hli) as (s' & n & Ei & Hk).
    exists s', n. split; [done|]. cbn. unfold close_session. rewrite Hk, bool_decide_eq_false_2; [done|].
    intros ->. apply Hfree, Hs. eauto.
Qed.

(** Nothing runs and no session is in use; locks left by other programs do not matter. *)
Definition idle (l : Z -> option (nat * nat)) : sys := mkSys (fun _ => Done) ∅ l.

Lemma sched_steps_inv l y : steps (idle l) y -> sched_inv y.
Proof.
  remember (idle l) as x eqn:E. induction 1 as [x|x y z _ IH Hst]; subst.
  - exists (fun _ => None), (fun _ => false). split_and!; try done. cbn. set_solver.
  - eapply sched_step_inv; [done|]. by apply IH.
Qed.

Definition running (x : sys) (i : nat) : Prop := exists k, procs x i = RunJob k.
End runs.

(** C7. However the runs of any number of loops and replicas interleave, and whichever calls
    fail, two loops never run singleton jobs of the same name at the same time, a panic of
    the job included; and when every run is over no connection is left checked out.  (The
    database keeps a session's locks while its connection is open: a connection that breaks
    during a run is outside the statement.) *)
Theorem singleton_exclusive jobs l x :
  steps jobs (idle l) x ->
  (forall i j, running x i -> running x j ->
     singleton (jobs i) = true -> singleton (jobs j) = true ->
     Name (rj_job (jobs i)) = Name (rj_job (jobs j)) -> i = j)
  /\ ((forall i, procs x i = Done) -> sessions x = ∅).
Proof.
  intros Hst. apply sched_steps_inv in Hst as (own & locked & Hd & Hinj & Hs & Hl). split.
  - intros i j [ki Ei] [kj Ej] Si Sj En.
    pose proof (Hd i) as Di. pose proof (Hd j) as Dj. rewrite Ei in Di. rewrite Ej in Dj.
    destruct Di as [Li _], Dj as [Lj _].
    destruct (Hl i (Li Si)) as (s & n & Oi & Ki), (Hl j (Lj Sj)) as (s' & n' & Oj & Kj).
    rewrite En, Kj in Ki. injection Ki as -> _. eauto.
  - intros Hdone. apply set_eq. intros s. rewrite Hs. split; [|set_solver].
    intros [i Ei]. pose proof (Hd i) as Di. rewrite Hdone in Di. destruct Di. congruence.
Qed.

(** Two replicas with the same singleton job: the first is running it, the second has tried. *)
Definition outbox_job : registeredJob := mkRJob (mkJob "acl-outbox-dispatch" Second 0 0) true false.
Definition replicas (i : nat) : registeredJob := outbox_job.

Lemma two_replicas :
  exists x, steps replicas (idle (fun _ => None)) x
    /\ running x 0 /\ ~ running x 1 /\ procs x 1%nat <> Done.
Proof.
  eexists. split.
  { eapply Steps_snoc; [eapply Steps_snoc; [eapply Steps_snoc; [eapply Steps_snoc; [eapply Steps_snoc;
      [eapply Steps_snoc; [apply Steps_nil|]|]|]|]|]|].
    - by apply (S_start _ 0).
    - eapply (S_acquire _ 0 _ _ 7%nat); [reflexivity|]. cbn. set_solver.
    - eapply (S_locks _ 0); reflexivity.
    - eapply (S_start _ 1). reflexivity.
    - eapply (S_acquire _ 1 _ _ 8%nat); [reflexivity|]. cbn. set_solver.
    - eapply (S_busy _ 1); [reflexivity|vm_compute; reflexivity]. }
  split; [eexists; reflexivity|]. split; [intros [k Hk]; discriminate Hk|discriminate].
Qed.

Lemma singleton_exclusive_witness :
  exists x, steps replicas (idle (fun _ => None)) x
    /\ running x 0 /\ ~ running x 1 /\ procs x 1%nat <> Done
    /\ forall j, running x j -> 0%nat = j.
Proof.
  destruct two_replicas as (x & Hst & R0 & R1 & Hd). exists x. split_and!; [exact Hst|exact R0|exact R1|exact Hd|].
  intros j Hj. exact (proj1 (singleton_exclusive replicas _ _ Hst) 0%nat j R0 Hj eq_refl eq_refl eq_refl).
Defined.

(** A failed unlock is not a leak only as long as the connection is closed: Release returns it
    to the pool, the session keeps the lock, and other replicas skip every tick until then. *)
Example failed_unlock_keeps_lock :
  exists x, steps replicas (idle (fun _ => None)) x
    /\ procs x 0%nat = Done /\ (7%nat ∉ sessions x)
    /\ may_lock 8 (lockKey "acl-outbox-dispatch") (locks x) = false.
Proof.
  eexists. split.
  { eapply Steps_snoc; [eapply Steps_snoc; [eapply Steps_snoc; [eapply Steps_snoc; [eapply Steps_snoc;
      [eapply Steps_snoc; [eapply Steps_snoc; [eapply Steps_snoc; [apply Steps_nil|]|]|]|]|]|]|]|].
    - by apply (S_start _ 0).
    - eapply (S_acquire _ 0 _ _ 7%nat); [reflexivity|]. cbn. set_solver.
    - eapply (S_locks _ 0); reflexivity.
    - eapply (S_job _ 0 _ _ (FnRet None)). reflexivity.
    - eapply (S_count _ 0). reflexivity.
    - eapply (S_count _ 0). reflexivity.
    - eapply (S_unlock_fails _ 0 _ _ _ _ (NewErr "timeout")). reflexivity.
    - eapply (S_release _ 0). reflexivity. }
  split; [reflexivity|]. split; [cbn; set_solver|].
  unfold may_lock. cbn [locks]. unfold take_lock. rewrite upd_eq. reflexivity.
Qed.

(** The published test vector of FNV-1a, and the sign of the 64-bit conversion. *)
Example fnv1a_vector : fnv1a fnv_offset "a" = 12638187200555641996 /\ lockKey "a" = 12638187200555641996 - 2 ^ 64.
Proof. split; vm_compute; reflexivity. Qed.
