(* ===== verification/Auth.v ===== *)
(** * Auth: auth/, auth/authorization, auth/jwt — identities, roles, scopes, bearer tokens

    A request is its headers, the values the packages keep in its context, and
    its route parameters; a handler turns a response writer into another.
    golang-jwt with the key set it fetched is a parameter: a function of the
    parser options and the token. *)

From S2P Require Import Prelude GoStrings Http Errors Backoff Breaker.

(** ** user.go, context.go *)

Record DelegationScopeEntry := mkScopeEntry { se_Scope : string; se_EntityID : string; se_Expiry : string }.

Record DxUser := mkUser {
  user_ID : string; user_Email : string; user_Name : string; user_Roles : list string;
  OrganisationID : string; OrganisationName : string; DelegatorID : string;
  user_Scopes : list DelegationScopeEntry
}.

(** The context keys of auth and auth/resolver. *)
Record context := mkContext { dx_user : option DxUser; dx_auth_origin : option string }.

Record Request := mkRequest { req_Header : headers; req_ctx : context; URLParam : string -> string }.

Definition WithUser (ctx : context) (u : DxUser) : context := mkContext (Some u) (dx_auth_origin ctx).
Definition UserFromCtx (ctx : context) : option DxUser := dx_user ctx.
Definition WithContext (r : Request) (ctx : context) : Request := mkRequest (req_Header r) ctx (URLParam r).

Definition Handler := Request -> ResponseWriter -> ResponseWriter.
Definition Middleware := Handler -> Handler.

(** ** authorization/roles.go, scopes.go *)

Definition DxRole := string.
Definition RoleProvider : DxRole := "provider".
Definition RoleConsumer : DxRole := "consumer".
Definition RoleCosAdmin : DxRole := "cos_admin".
Definition RoleOrgAdmin : DxRole := "org_admin".
Definition RoleDelegate : DxRole := "delegate".

Abbreviation RoleSet := (gset string).
Definition NewRoleSet (roles : list DxRole) : RoleSet := list_to_set roles.
Definition RoleSet_Has (s : RoleSet) (role : DxRole) : bool := bool_decide (role ∈ s).
Definition HasAny (s : RoleSet) (roles : list DxRole) : bool := existsb (RoleSet_Has s) roles.

Definition DelegationScope := string.
Definition ScopeWildcard : DelegationScope := "*".
Definition AllSystemScopes_list : list DelegationScope :=
  ["data-access"; "own-asset-management"; "org-asset-management"; "asset-management";
   "org-user-management"; "user-management"; "org-asset-publish"; "asset-publish";
   "org-publisher-management"; "publisher-management"; "org-management"; "role-management";
   "compute-management"; "credit-management"].
Abbreviation ScopeSet := (gset string).
Definition NewScopeSet (scopes : list DelegationScope) : ScopeSet := list_to_set scopes.
Definition AllSystemScopes : ScopeSet := NewScopeSet AllSystemScopes_list.
Definition ScopeSet_Has (s : ScopeSet) (scope : DelegationScope) : bool :=
  bool_decide (ScopeWildcard ∈ s) || bool_decide (scope ∈ s).

(** ** authorization/middleware.go *)

Fixpoint rolesToString_from (out : string) (first : bool) (roles : list DxRole) : string :=
  match roles with
  | [] => out
  | r :: rs => rolesToString_from ((if first then out else out +:+ ", ") +:+ r) false rs
  end.
Definition rolesToString (roles : list DxRole) : string := rolesToString_from "" true roles.

Definition no_user : BaseDxError := NewUnauthorized "no authenticated user in context" [].

Definition ForRoles (roles : list DxRole) : Middleware := fun next r w =>
  let required := NewRoleSet roles in
  match UserFromCtx (req_ctx r) with
  | None => WriteError no_user w
  | Some user =>
      if negb (HasAny required (user_Roles user))
      then WriteError (NewForbidden ("insufficient role: one of " +:+ rolesToString roles +:+ " required") []) w
      else next r w
  end.

(** One entry of a user's delegation grants the scope on the entity. *)
Definition grants (scope : DelegationScope) (entityID : string) (e : DelegationScopeEntry) : bool :=
  (bool_decide (se_EntityID e = entityID) || bool_decide (se_EntityID e = "*"))
  && (bool_decide (se_Scope e = scope) || bool_decide (se_Scope e = ScopeWildcard)).

Definition ForScope (scope : DelegationScope) (entityIDParam : string) : Middleware := fun next r w =>
  match UserFromCtx (req_ctx r) with
  | None => WriteError no_user w
  | Some user =>
      if existsb (grants scope (URLParam r entityIDParam)) (user_Scopes user) then next r w
      else WriteError (NewForbidden ("delegation scope " +:+ scope +:+ " not granted for this entity") []) w
  end.

(** ** jwt/claims.go *)

(** [ResourceAccess] lists the clients in the order the map is visited. *)
Record DxClaims := mkClaims {
  Subject : string; Email : string; ClaimName : string; RealmAccess : list string;
  ResourceAccess : list (string * list string); ClaimOrgID : string; ClaimOrgName : string;
  ClaimDelegatorID : string; DelegationScopes : list DelegationScopeEntry
}.

Definition add_roles (st : gset string * list string) (rs : list string) : gset string * list string :=
  fold_left (fun '(seen, roles) r =>
    if bool_decide (r ∈ seen) then (seen, roles) else (seen ∪ {[ r ]}, roles ++ [r])) rs st.

Definition AllRoles (c : DxClaims) : list string :=
  (fold_left add_roles (snd <$> ResourceAccess c) (add_roles (∅, []) (RealmAccess c))).2.

Definition HasRole (c : DxClaims) (role : string) : bool :=
  existsb (fun r => bool_decide (r = role)) (AllRoles c).

Definition HasScopeForEntity (c : DxClaims) (scope entityID : string) : bool :=
  existsb (fun ds => bool_decide (se_Scope ds = scope) && bool_decide (se_EntityID ds = entityID))
          (DelegationScopes c).

(** ** jwt/config.go *)

Definition maxLeewaySeconds : Z := 300.

Record JwtConfig := mkJwtConfig {
  JwksURL : string; Issuer : string; Audience : string; LeewaySeconds : Z; Enabled : bool
}.

Definition Validate (c : JwtConfig) : error :=
  if negb (Enabled c) then None
  else if bool_decide (JwksURL c = "") then Some (NewErr "jwt config: jwks_url is required when jwt is enabled")
  else if bool_decide (Issuer c = "") then Some (NewErr "jwt config: issuer is required when jwt is enabled")
  else if bool_decide (Audience c = "") then Some (NewErr "jwt config: audience is required when jwt is enabled")
  else if (LeewaySeconds c <? 0) || (maxLeewaySeconds <? LeewaySeconds c)
  then Some (NewErr ("jwt config: leeway_seconds must be between 0 and " +:+ itoa maxLeewaySeconds))
  else None.

(** ** jwt/validator.go *)

(** What the parser is told to check. *)
Record parser := mkParser {
  p_leeway : Z; p_issuedAt : bool; p_methods : list string; p_issuer : option string; p_audience : option string
}.

Section jwt.
(** ParseWithClaims on the key set of [JwksURL]: the claims and token.Valid; [jwks] is how
    fetching the key set ended. *)
Variable jwks : string -> error.
Variable ParseWithClaims : string -> parser -> string -> res (DxClaims * bool).

Definition Validator := string -> res DxClaims.

Definition make_parser (cfg : JwtConfig) : parser :=
  mkParser (wrap64 (LeewaySeconds cfg * Second)) true ["RS256"]
    (if bool_decide (Issuer cfg = "") then None else Some (Issuer cfg))
    (if bool_decide (Audience cfg = "") then None else Some (Audience cfg)).

Definition validate_token (cfg : JwtConfig) (token : string) : res DxClaims :=
  match ParseWithClaims (JwksURL cfg) (make_parser cfg) token with
  | Err e => Err (wrapf "token validation failed" e)
  | Ok (claims, valid) => if valid then Ok claims else Err (NewErr "token is not valid")
  end.

Definition New (cfg : JwtConfig) : res Validator :=
  match Validate cfg with
  | Some e => Err (wrapf "jwt.New" e)
  | None => match jwks (JwksURL cfg) with
            | Some e => Err (wrapf "jwt.New" e)
            | None => Ok (validate_token cfg)
            end
  end.

(** ** jwt/middleware.go *)

Definition mockUser : DxUser :=
  mkUser "00000000-0000-0000-0000-000000000000" "dev@local" "Dev User" ["consumer"; "provider"] "" "" "" [].

Definition user_of (c : DxClaims) : DxUser :=
  mkUser (Subject c) (Email c) (ClaimName c) (AllRoles c) (ClaimOrgID c) (ClaimOrgName c)
         (ClaimDelegatorID c) (DelegationScopes c).

Definition jwt_handler (validate : Validator) : Middleware := fun next r w =>
  let unauthorized msg := WriteError (NewUnauthorized msg []) w in
  let authHeader := hdr_get (req_Header r) "Authorization" in
  if bool_decide (authHeader = "") then unauthorized "missing Authorization header"
  else match splitn2 " " authHeader with
       | [scheme; token] =>
           if negb (equal_fold scheme "bearer")
           then unauthorized "Authorization header must be 'Bearer <token>'"
           else match validate token with
                | Err _ => unauthorized "invalid or expired token"
                | Ok claims => next (WithContext r (WithUser (req_ctx r) (user_of claims))) w
                end
       | _ => unauthorized "Authorization header must be 'Bearer <token>'"
       end.

(** [DX_ENV] is the environment variable; the middleware is built, or construction panics. *)
Definition jwt_Middleware (DX_ENV : string) (cfg : JwtConfig) : Middleware + string :=
  if negb (Enabled cfg) then
    if equal_fold DX_ENV "production" || equal_fold DX_ENV "prod"
    then inr ("jwt.Middleware: jwt.enabled=false is not allowed when DX_ENV=" +:+ DX_ENV)
    else inl (fun next r w => next (WithContext r (WithUser (req_ctx r) mockUser)) w)
  else match New cfg with
       | Err e => inr ("jwt.Middleware: failed to initialise validator: " +:+ error_text e)
       | Ok validate => inl (jwt_handler validate)
       end.
End jwt.
