(* ===== verification/Headers.v ===== *)
(** * Headers: transport/headers — signed subject headers

    HMAC-SHA256 is a parameter ([hmac]); everything the package does around it
    is here: which strings are signed, how they are encoded, which header sets
    are accepted.  Times are nanoseconds since the Unix epoch. *)

From S2P Require Import Prelude GoStrings Http Errors Backoff Breaker Auth.

(** ** encoding/hex *)

Definition hex_digit (d : Z) : ascii := if d <? 10 then ascii_of_byte (48 + d) else ascii_of_byte (87 + d).

Fixpoint hex_EncodeToString (s : string) : string :=
  match s with
  | EmptyString => EmptyString
  | String c s => String (hex_digit (byte_of c / 16)) (String (hex_digit (byte_of c mod 16)) (hex_EncodeToString s))
  end.

(** None = an odd length or a byte that is no hex digit. *)
Fixpoint hex_DecodeString (s : string) : option string :=
  match s with
  | EmptyString => Some EmptyString
  | String _ EmptyString => None
  | String a (String b s) =>
      match hex_value a, hex_value b, hex_DecodeString s with
      | Some x, Some y, Some t => Some (String (ascii_of_byte (16 * x + y)) t)
      | _, _, _ => None
      end
  end.

(** ** time.Duration.String *)

Fixpoint trim_zeros (l : list ascii) : list ascii :=
  match l with
  | [] => []
  | c :: l => match trim_zeros l with
              | [] => if Ascii.eqb c "0" then [] else [c]
              | t => c :: t
              end
  end.

(** The fraction v/10^prec without trailing zeros. *)
Fixpoint frac_digits (prec : nat) (v : Z) : list ascii :=
  match prec with
  | O => []
  | S p => frac_digits p (v / 10) ++ [digit_char (v mod 10)]
  end.
Definition fmtFrac (v : Z) (prec : nat) : string :=
  match trim_zeros (frac_digits prec (v mod 10 ^ Z.of_nat prec)) with
  | [] => EmptyString
  | ds => String "." (String.string_of_list_ascii ds)
  end.

Definition Duration_String (d : Z) : string :=
  let u := Z.abs d in
  let body :=
    if u =? 0 then "0s"
    else if u <? 1000 then itoa u +:+ "ns"
    else if u <? Millisecond then itoa (u / 1000) +:+ fmtFrac u 3 +:+ utf8 [194; 181] +:+ "s"
    else if u <? Second then itoa (u / Millisecond) +:+ fmtFrac u 6 +:+ "ms"
    else
      let s := u / Second in
      let secs := itoa (s mod 60) +:+ fmtFrac u 9 +:+ "s" in
      let m := s / 60 in
      if m =? 0 then secs
      else let h := m / 60 in
           (if h =? 0 then EmptyString else itoa h +:+ "h") +:+ itoa (m mod 60) +:+ "m" +:+ secs in
  if d <? 0 then "-" +:+ body else body.

(** ** headers.go *)

Definition HdrSubjectID : string := "X-Subject-Id".
Definition HdrSubjectEmail : string := "X-Subject-Email".
Definition HdrSubjectRoles : string := "X-Subject-Roles".
Definition HdrSubjectOrgID : string := "X-Subject-Org-Id".
Definition HdrSubjectIssuedAt : string := "X-Subject-Issued-At".
Definition HdrSubjectSig : string := "X-Subject-Sig".

Definition DefaultMaxAge : Z := 60 * Second.

Record HeadersConfig := mkHeadersCfg { Secret : string; AdditionalSecrets : list string; MaxAge : Z }.

Definition ErrNotSigned : goerr := Sentinel "headers.ErrNotSigned" "request has no subject signature".
Definition ErrInvalidSignature : goerr := Sentinel "headers.ErrInvalidSignature" "invalid subject signature".

Definition canonicalString (id email roles org : string) (issuedAt : Z) : string :=
  join "|" [id; email; roles; org; itoa issuedAt].

Definition joinRoles (roles : list string) : string :=
  match roles with [] => EmptyString | _ => join "," (sort_strings roles) end.

Definition splitRoles (joined : string) : list string :=
  if bool_decide (joined = EmptyString) then [] else split "," joined.

Definition containsSeparator (fields : list string) : bool := existsb (contains_char "|") fields.
Definition rolesContainSeparator (roles : list string) : bool := existsb (fun r => contains_any r "|,") roles.

Definition makeUser (id email roles org : string) : DxUser :=
  mkUser id email "" (splitRoles roles) org "" "" [].

(** time.Unix(sec, 0): the seconds are kept in an int64 counted from year 1. *)
Definition time_Unix (sec : Z) : Z := (wrap64 (sec + 62135596800) - 62135596800) * Second.
(** t.Unix() *)
Definition to_Unix (t : Z) : Z := t / Second.

Section headers.
Variable hmac : string -> string -> string.       (* HMAC-SHA256 of a message under a key *)

Definition hmacHex (key data : string) : string := hex_EncodeToString (hmac key data).

Definition verifyAgainst (key canonical expected : string) : bool :=
  if bool_decide (key = EmptyString) then false
  else match hex_DecodeString expected with
       | None => false
       | Some got => bool_decide (hmac key canonical = got)
       end.

Definition set_if (k v : string) (h : headers) : headers :=
  if bool_decide (v = EmptyString) then h else hdr_set k v h.

Definition Sign (user : DxUser) (cfg : HeadersConfig) (now : Z) : res headers :=
  if bool_decide (Secret cfg = EmptyString) then Err (NewErr "headers.Sign: Secret is required")
  else if bool_decide (trim_space (user_ID user) = EmptyString)
  then Err (NewErr "headers.Sign: user ID is required")
  else if containsSeparator [user_ID user; user_Email user; OrganisationID user]
          || rolesContainSeparator (user_Roles user)
  then Err (NewErr "headers.Sign: subject fields must not contain '|'")
  else
    let now := to_Unix now in
    let rolesJoined := joinRoles (user_Roles user) in
    let canonical := canonicalString (user_ID user) (user_Email user) rolesJoined (OrganisationID user) now in
    let sig := hmacHex (Secret cfg) canonical in
    let h := hdr_set HdrSubjectID (user_ID user) ∅ in
    let h := set_if HdrSubjectEmail (user_Email user) h in
    let h := set_if HdrSubjectRoles rolesJoined h in
    let h := set_if HdrSubjectOrgID (OrganisationID user) h in
    let h := hdr_set HdrSubjectIssuedAt (itoa now) h in
    Ok (hdr_set HdrSubjectSig sig h).

(** Apply; [keys] is the order in which the map is visited. *)
Definition Apply (signed : headers) (keys : list string) (h : headers) : headers :=
  fold_left (fun h k => hdr_set k (hdr_get signed k) h) keys h.

(** The key that accepted the signature is not told apart. *)
Definition accepted_key (cfg : HeadersConfig) (canonical sig : string) : bool :=
  verifyAgainst (Secret cfg) canonical sig
  || existsb (fun alt => verifyAgainst alt canonical sig) (AdditionalSecrets cfg).

Definition max_age (cfg : HeadersConfig) : Z := if MaxAge cfg =? 0 then DefaultMaxAge else MaxAge cfg.

Definition Verify (h : headers) (cfg : HeadersConfig) (now : Z) : res DxUser :=
  let sig := hdr_get h HdrSubjectSig in
  if bool_decide (sig = EmptyString) then Err ErrNotSigned
  else match atoi (hdr_get h HdrSubjectIssuedAt) with
       | None => Err (WrapErr (error_text ErrInvalidSignature +:+ ": bad issued_at") ErrInvalidSignature)
       | Some issuedAt =>
           let age := time_sub now (time_Unix issuedAt) in
           if (age <? - 10 * Second) || (max_age cfg <? age)
           then Err (WrapErr (error_text ErrInvalidSignature +:+ ": outside validity window (age="
                              +:+ Duration_String age +:+ ")") ErrInvalidSignature)
           else
             let id := hdr_get h HdrSubjectID in
             let email := hdr_get h HdrSubjectEmail in
             let roles := hdr_get h HdrSubjectRoles in
             let org := hdr_get h HdrSubjectOrgID in
             if bool_decide (trim_space id = EmptyString)
             then Err (WrapErr (error_text ErrInvalidSignature +:+ ": empty subject id") ErrInvalidSignature)
             else if accepted_key cfg (canonicalString id email roles org issuedAt) sig
             then Ok (makeUser id email roles org)
             else Err ErrInvalidSignature
       end.

Definition headers_Middleware (cfg : HeadersConfig) (now : Z) : Middleware := fun next r w =>
  match Verify (req_Header r) cfg now with
  | Err _ => WriteError (NewUnauthorized "invalid or missing subject headers" []) w
  | Ok user => next (WithContext r (WithUser (req_ctx r) user)) w
  end.
End headers.

Example Duration_String_samples :
  map Duration_String [90 * Second; 1500 * Millisecond; -61 * Second; 3600 * Second; 1500]
  = ["1m30s"; "1.5s"; "-1m1s"; "1h0m0s"; "1.5" +:+ utf8 [194; 181] +:+ "s"].
Proof. vm_compute. reflexivity. Qed.

(** ** Encodings *)

Lemma hex_value_digit d : 0 <= d < 16 -> hex_value (hex_digit d) = Some d.
Proof.
  intros Hd. unfold hex_digit, hex_value. destruct (Z.ltb_spec d 10);
    rewrite byte_of_ascii by lia.
  - by rewrite (proj2 (Z.leb_le 48 _)), (proj2 (Z.leb_le _ 57)) by lia; cbn; f_equal; lia.
  - rewrite (proj2 (Z.leb_gt (87 + d) 57)), andb_false_r by lia.
    rewrite (proj2 (Z.leb_le 97 _)), (proj2 (Z.leb_le _ 102)) by lia. cbn. f_equal. lia.
Qed.

Lemma hex_roundtrip s : hex_DecodeString (hex_EncodeToString s) = Some s.
Proof.
  induction s as [|c s IH]; [done|]. cbn [hex_EncodeToString hex_DecodeString].
  pose proof (byte_of_range c).
  rewrite !hex_value_digit by (apply Z.mod_pos_bound; lia) || (split; [apply Z.div_pos|apply Z.div_lt_upper_bound]; lia).
  rewrite IH. rewrite <- Z.div_mod by lia. by rewrite ascii_of_byte_of.
Qed.

Lemma hex_not_empty s : s <> EmptyString -> hex_EncodeToString s <> EmptyString.
Proof. by destruct s. Qed.

Lemma contains_any_pair r : contains_any r "|," = false ->
  contains_char "|" r = false /\ contains_char "," r = false.
Proof. unfold contains_any. cbn. rewrite orb_false_r. by intros [? ?]%orb_false_iff. Qed.

Definition roles_clean (roles : list string) : Prop :=
  Forall (fun r => contains_char "|" r = false /\ contains_char "," r = false) roles.

Lemma rolesContainSeparator_clean roles : rolesContainSeparator roles = false -> roles_clean roles.
Proof.
  unfold rolesContainSeparator, roles_clean. induction roles as [|r rs IH]; [constructor|]. cbn.
  intros [H1 H2]%orb_false_iff. constructor; [by apply contains_any_pair|by apply IH].
Qed.

Lemma join_contains c sep ps :
  contains_char c sep = false -> Forall (fun p => contains_char c p = false) ps ->
  contains_char c (join sep ps) = false.
Proof.
  intros Hs. induction 1 as [|p ps Hp Hps IH]; [done|]. destruct ps as [|q ps]; [done|].
  change (join sep (p :: q :: ps)) with (p +:+ sep +:+ join sep (q :: ps)).
  by rewrite !contains_char_app, Hp, Hs, IH.
Qed.

Lemma joinRoles_clean roles : roles_clean roles -> contains_char "|" (joinRoles roles) = false.
Proof.
  intros Hr. unfold joinRoles. destruct roles as [|r rs]; [done|]. apply join_contains; [done|].
  rewrite sort_strings_Permutation. eapply Forall_impl; [exact Hr|]. by intros ? [? _].
Qed.

(** The roles as a verifier reads them: sorted; a single empty role reads as no role. *)
Definition carried_roles (roles : list string) : list string :=
  if bool_decide (roles = [EmptyString]) then [] else sort_strings roles.

Lemma join_empty c ps : join (String c EmptyString) ps = EmptyString -> ps = [] \/ ps = [EmptyString].
Proof.
  destruct ps as [|p [|q ps]]; [by left|cbn; intros ->; by right|]. rewrite join_cons by done.
  destruct p; discriminate.
Qed.

Lemma splitRoles_joinRoles roles : roles_clean roles -> splitRoles (joinRoles roles) = carried_roles roles.
Proof.
  intros Hr. unfold splitRoles, joinRoles, carried_roles. destruct roles as [|r rs]; [done|].
  set (l := r :: rs) in *. assert (Hne : sort_strings l <> []).
  { intros E. pose proof (sort_strings_Permutation l) as P. rewrite E in P.
    apply Permutation_nil_l in P. by subst l. }
  case_bool_decide as Ej.
  - apply join_empty in Ej as [?|Ej]; [done|]. pose proof (sort_strings_Permutation l) as P.
    rewrite Ej in P. apply Permutation_singleton_l in P. rewrite P. by rewrite bool_decide_eq_true_2.
  - rewrite (bool_decide_eq_false_2 (l = _)) by (intros E; rewrite E in Ej; by apply Ej).
    apply split_join; [done|]. rewrite sort_strings_Permutation. eapply Forall_impl; [exact Hr|]. by intros ? [_ ?].
Qed.

Lemma itoa_no_bar n : contains_char "|" (itoa n) = false.
Proof. apply (all_chars_no_char is_num_char); [done|apply itoa_chars]. Qed.

(** The fields of a signed string are determined by it: no reading of the string moves a
    separator across a field boundary. *)
Lemma canonicalString_inj id email roles org t id' email' roles' org' t' :
  Forall (fun f => contains_char "|" f = false) [id; email; roles; org] ->
  int64_ok t = true -> int64_ok t' = true ->
  canonicalString id email roles org t = canonicalString id' email' roles' org' t' ->
  id = id' /\ email = email' /\ roles = roles' /\ org = org' /\ t = t'.
Proof.
  intros HF Ht Ht' E. apply join_inj in E; [|done|].
  - injection E as -> -> -> -> E. split_and!; try done.
    apply (f_equal atoi) in E. rewrite !atoi_itoa in E by done. by injection E.
  - rewrite !Forall_cons in HF |- *. destruct HF as (?&?&?&?&_). split_and!; try done.
    repeat constructor. apply itoa_no_bar.
Qed.

(** ** What Sign mints and Verify accepts *)

Section trust.
Variable hmac : string -> string -> string.

(** The identity a header set carries. *)
Definition carried (u : DxUser) : DxUser :=
  mkUser (user_ID u) (user_Email u) "" (carried_roles (user_Roles u)) (OrganisationID u) "" "" [].

Definition minted_string (u : DxUser) (tn : Z) : string :=
  canonicalString (user_ID u) (user_Email u) (joinRoles (user_Roles u)) (OrganisationID u) (to_Unix tn).

(** The fields of a user Sign accepts. *)
Definition signable (u : DxUser) : Prop :=
  trim_space (user_ID u) <> EmptyString
  /\ Forall (fun f => contains_char "|" f = false) [user_ID u; user_Email u; joinRoles (user_Roles u); OrganisationID u]
  /\ roles_clean (user_Roles u).

Lemma Sign_signable u cfg tn h :
  Sign hmac u cfg tn = Ok h -> signable u /\ Secret cfg <> EmptyString.
Proof.
  unfold Sign. case_bool_decide as E1; [done|]. case_bool_decide as E2; [done|].
  destruct (containsSeparator _) eqn:E3; [done|]. cbn [orb].
  destruct (rolesContainSeparator _) eqn:E4; [done|]. intros _.
  apply rolesContainSeparator_clean in E4. cbn in E3. bools.
  split; [|done]. split; [done|]. split; [|done].
  repeat constructor; try done. by apply joinRoles_clean.
Qed.

Lemma set_if_same k v h : hdr_get h k = EmptyString -> hdr_get (set_if k v h) k = v.
Proof. unfold set_if. case_bool_decide as E; [by intros ->|]. intros _. apply hdr_get_set_eq. Qed.

Lemma set_if_other k k' v h : canonical_key k <> canonical_key k' -> hdr_get (set_if k v h) k' = hdr_get h k'.
Proof. unfold set_if. case_bool_decide; [done|]. apply hdr_get_set_ne. Qed.

(** The headers Sign returns hold exactly the fields it signed. *)
Lemma Sign_fields u cfg tn h :
  Sign hmac u cfg tn = Ok h ->
  hdr_get h HdrSubjectID = user_ID u /\ hdr_get h HdrSubjectEmail = user_Email u
  /\ hdr_get h HdrSubjectRoles = joinRoles (user_Roles u) /\ hdr_get h HdrSubjectOrgID = OrganisationID u
  /\ hdr_get h HdrSubjectIssuedAt = itoa (to_Unix tn)
  /\ hdr_get h HdrSubjectSig = hmacHex hmac (Secret cfg) (minted_string u tn).
Proof.
  unfold Sign. case_bool_decide; [done|]. case_bool_decide; [done|].
  destruct (_ || _); [done|]. intros [= <-].
  repeat match goal with
  | |- _ /\ _ => split
  | |- hdr_get (hdr_set ?k _ _) ?k = _ => by rewrite hdr_get_set_eq
  | |- hdr_get (hdr_set ?k _ _) ?k' = _ => rewrite hdr_get_set_ne by (vm_compute; discriminate)
  | |- hdr_get (set_if ?k _ _) ?k = _ => rewrite set_if_same; [done|]
  | |- hdr_get (set_if ?k _ _) ?k' = _ => rewrite set_if_other by (vm_compute; discriminate)
  | |- hdr_get ∅ _ = _ => by rewrite hdr_get_empty
  end.
Qed.

Lemma time_Unix_exact t : 0 <= t -> t * Second <= max_int64 -> time_Unix t = t * Second.
Proof.
  intros H0 H1. unfold time_Unix. rewrite wrap64_id; [lia|].
  revert H1. unfold min_int64, max_int64, Second, Millisecond. lia.
Qed.

Lemma time_sub_exact t u : 0 <= t <= max_int64 -> 0 <= u <= max_int64 -> time_sub t u = t - u.
Proof. unfold time_sub, min_int64, max_int64. lia. Qed.

Lemma to_Unix_bounds tn : 0 <= tn <= max_int64 ->
  0 <= to_Unix tn /\ (0 <= to_Unix tn * Second /\ to_Unix tn * Second <= tn < to_Unix tn * Second + Second) /\ int64_ok (to_Unix tn) = true.
Proof.
  intros Hn. unfold to_Unix. assert (HS : Second = 1000000000) by done. rewrite HS.
  pose proof (Z.div_mod tn 1000000000). pose proof (Z.mod_pos_bound tn 1000000000).
  assert (0 <= tn / 1000000000) by (apply Z.div_pos; lia).
  split; [lia|]. split; [lia|]. apply int64_ok_iff. revert Hn. unfold min_int64, max_int64. lia.
Qed.

(** A signature made with an accepted key is accepted. *)
Lemma accepted_own key cfg c :
  key <> EmptyString -> key ∈ Secret cfg :: AdditionalSecrets cfg ->
  accepted_key hmac cfg c (hmacHex hmac key c) = true.
Proof.
  intros Hk Hin. assert (Hv : verifyAgainst hmac key c (hmacHex hmac key c) = true).
  { unfold verifyAgainst, hmacHex. rewrite bool_decide_eq_false_2, hex_roundtrip by done.
    by apply bool_decide_eq_true. }
  unfold accepted_key. apply elem_of_cons in Hin as [->|Hin]; [by rewrite Hv|].
  apply orb_true_iff. right. apply existsb_exists. exists key. split; [by apply list_elem_of_In|done].
Qed.

Lemma accepted_some_key cfg c sig : accepted_key hmac cfg c sig = true ->
  exists key, key ∈ Secret cfg :: AdditionalSecrets cfg /\ verifyAgainst hmac key c sig = true.
Proof.
  unfold accepted_key. intros [Hv|Hv]%orb_true_iff; [exists (Secret cfg); split; [left|done]|].
  apply existsb_exists in Hv as (key & Hin & Hv). exists key. split; [|done]. right. by apply list_elem_of_In.
Qed.

(** Everything Verify checked when it accepts. *)
Lemma Verify_Ok h cfg now user :
  Verify hmac h cfg now = Ok user ->
  exists t, atoi (hdr_get h HdrSubjectIssuedAt) = Some t
    /\ - 10 * Second <= time_sub now (time_Unix t) <= max_age cfg
    /\ trim_space (hdr_get h HdrSubjectID) <> EmptyString
    /\ accepted_key hmac cfg (canonicalString (hdr_get h HdrSubjectID) (hdr_get h HdrSubjectEmail)
         (hdr_get h HdrSubjectRoles) (hdr_get h HdrSubjectOrgID) t) (hdr_get h HdrSubjectSig) = true
    /\ user = makeUser (hdr_get h HdrSubjectID) (hdr_get h HdrSubjectEmail)
                       (hdr_get h HdrSubjectRoles) (hdr_get h HdrSubjectOrgID).
Proof.
  unfold Verify. case_bool_decide; [done|]. destruct (atoi _) as [t|]; [|done].
  destruct (_ || _) eqn:Ew; [done|]. case_bool_decide as Eid; [done|].
  destruct (accepted_key _ _ _ _) eqn:Ea; [|done]. intros [= <-].
  bools. exists t. by split_and!.
Qed.

(** A request with the six headers of a minted set is accepted as the user they were minted for. *)
Definition subject_headers : list string :=
  [HdrSubjectID; HdrSubjectEmail; HdrSubjectRoles; HdrSubjectOrgID; HdrSubjectIssuedAt; HdrSubjectSig].
Lemma Verify_minted u scfg tn h h' vcfg now :
  Sign hmac u scfg tn = Ok h -> Forall (fun k => hdr_get h' k = hdr_get h k) subject_headers ->
  hmac (Secret scfg) (minted_string u tn) <> EmptyString ->
  Secret scfg ∈ Secret vcfg :: AdditionalSecrets vcfg ->
  0 <= tn <= max_int64 -> 0 <= now <= max_int64 ->
  to_Unix tn * Second - 10 * Second <= now <= to_Unix tn * Second + max_age vcfg ->
  Verify hmac h' vcfg now = Ok (carried u).
Proof.
  intros Hs Hsame Hmac Hkey Htn Hnow Hwin.
  destruct (Sign_signable _ _ _ _ Hs) as ((Hid & _ & Hroles) & Hsec).
  destruct (Sign_fields _ _ _ _ Hs) as (E1 & E2 & E3 & E4 & E5 & E6).
  destruct (to_Unix_bounds tn Htn) as (T0 & T1 & T2).
  unfold subject_headers in Hsame. rewrite !Forall_cons, E1, E2, E3, E4, E5, E6 in Hsame.
  destruct Hsame as (F1 & F2 & F3 & F4 & F5 & F6 & _).
  unfold Verify. rewrite F1, F2, F3, F4, F5, F6, atoi_itoa by done.
  rewrite bool_decide_eq_false_2 by (by apply hex_not_empty).
  rewrite time_Unix_exact by lia.
  rewrite time_sub_exact, (proj2 (Z.ltb_ge _ _)), (proj2 (Z.ltb_ge _ _)) by lia. cbn [orb].
  rewrite bool_decide_eq_false_2 by done. fold (minted_string u tn).
  rewrite accepted_own by done. unfold makeUser, carried. by rewrite splitRoles_joinRoles.
Qed.

(** C38. Round trip with key rotation: headers minted by Sign are accepted by every verifier
    that has the signing key as its active or as an additional key, from ten seconds before
    to max age after the second they were minted in, and yield the signed user: id, email
    and organisation unchanged, the roles sorted (a single empty role reads as none). *)
Theorem Sign_Verify u scfg tn h vcfg now :
  Sign hmac u scfg tn = Ok h ->
  hmac (Secret scfg) (minted_string u tn) <> EmptyString ->
  Secret scfg ∈ Secret vcfg :: AdditionalSecrets vcfg ->
  0 <= tn <= max_int64 -> 0 <= now <= max_int64 ->
  to_Unix tn * Second - 10 * Second <= now <= to_Unix tn * Second + max_age vcfg ->
  Verify hmac h vcfg now = Ok (carried u).
Proof. intros Hs. apply (Verify_minted u scfg tn h); [done|]. by repeat constructor. Qed.

(** C4. Authenticity: if the signature in a request verifies, under the accepted keys, only for
    strings that Sign minted (HMAC unforgeability for that signature), then Verify accepts the
    request only as a user the gateway minted headers for, with exactly that user's id, email,
    organisation and roles, and only within the validity window: a caller who rearranges the
    header fields, shifts separators between them or replays old headers gets nothing. *)
Theorem Verify_authentic (minted : DxUser -> Z -> Prop) h cfg now user :
  (forall key c, key ∈ Secret cfg :: AdditionalSecrets cfg ->
     verifyAgainst hmac key c (hdr_get h HdrSubjectSig) = true ->
     exists u tn scfg h', minted u tn /\ 0 <= tn <= max_int64 /\ Sign hmac u scfg tn = Ok h'
                          /\ c = minted_string u tn) ->
  0 <= now <= max_int64 ->
  Verify hmac h cfg now = Ok user ->
  exists u tn, minted u tn /\ user = carried u
    /\ to_Unix tn * Second - 10 * Second <= now <= to_Unix tn * Second + max_age cfg.
Proof.
  intros Hmac Hnow Hv. destruct (Verify_Ok _ _ _ _ Hv) as (t & Ht & Hwin & _ & Ha & ->).
  apply accepted_some_key in Ha as (key & Hkey & Hk).
  destruct (Hmac _ _ Hkey Hk) as (u & tn & scfg & h' & Hm & Htn & Hs & Hc).
  destruct (Sign_signable _ _ _ _ Hs) as ((_ & Hclean & Hroles) & _).
  destruct (to_Unix_bounds tn Htn) as (T0 & T1 & T2).
  apply atoi_int64 in Ht. symmetry in Hc.
  apply canonicalString_inj in Hc as (<- & <- & <- & <- & <-); [|done..].
  exists u, tn. split; [done|]. split; [by unfold makeUser, carried; rewrite splitRoles_joinRoles|].
  rewrite time_Unix_exact in Hwin by lia.
  rewrite time_sub_exact in Hwin by lia. lia.
Qed.
End trust.

(** ** Witnesses *)

Definition toy_hmac (key data : string) : string := key +:+ "#" +:+ data.
Definition gateway : HeadersConfig := mkHeadersCfg "k2" [] 0.
Definition upstream : HeadersConfig := mkHeadersCfg "k1" ["k2"] 0.
Definition alice : DxUser := mkUser "u1" "a@x" "Alice" ["provider"; "consumer"] "org" "Org" "" [].
Definition minted_headers : headers := match Sign toy_hmac alice gateway (5 * Second) with Ok h => h | Err _ => ∅ end.

Lemma Sign_alice : Sign toy_hmac alice gateway (5 * Second) = Ok minted_headers.
Proof. reflexivity. Qed.

Lemma Sign_Verify_witness :
  Verify toy_hmac minted_headers upstream (30 * Second) = Ok (carried alice)
  /\ user_Roles (carried alice) = ["consumer"; "provider"].
Proof.
  split; [|vm_compute; reflexivity].
  apply (Sign_Verify toy_hmac alice gateway (5 * Second)); [exact Sign_alice|discriminate| | | |];
    try (vm_compute; intuition discriminate). right. left.
Defined.

Lemma toy_hmac_inj key c c' : toy_hmac key c = toy_hmac key c' -> c = c'.
Proof.
  unfold toy_hmac. intros E. induction key as [|a key IH]; [by injection E|].
  rewrite !app_String in E. injection E. exact IH.
Qed.

Lemma Verify_authentic_witness :
  exists u tn, (u = alice /\ tn = 5 * Second) /\ carried alice = carried u
    /\ to_Unix tn * Second - 10 * Second <= 30 * Second <= to_Unix tn * Second + max_age gateway.
Proof.
  apply (Verify_authentic toy_hmac (fun u tn => u = alice /\ tn = 5 * Second) minted_headers gateway (30 * Second)).
  - intros key c Hkey Hk. apply elem_of_cons in Hkey as [->|?%elem_of_nil]; [|done].
    exists alice, (5 * Second), gateway, minted_headers.
    split; [done|]. split; [vm_compute; intuition discriminate|]. split; [exact Sign_alice|].
    destruct (Sign_fields _ _ _ _ _ Sign_alice) as (_ & _ & _ & _ & _ & E). rewrite E in Hk.
    unfold verifyAgainst, hmacHex in Hk. rewrite hex_roundtrip in Hk. cbn in Hk.
    apply bool_decide_eq_true in Hk. by apply toy_hmac_inj in Hk.
  - vm_compute. intuition discriminate.
  - vm_compute. reflexivity.
Defined.
