(* ===== verification/Resolver.v ===== *)
(** * Resolver: auth/resolver — one middleware for gateway and direct callers

    The resolver is proved against what its two verifiers promise
    (transport/headers and auth/jwt); the theorems then follow a request through
    the chain a service installs: resolver, RequireGatewayOrigin, ForRoles and
    ForScope. *)

From S2P Require Import Prelude GoStrings Http Errors Backoff Breaker Auth Headers.

(** ** origin.go *)

Definition Origin := string.
Definition OriginGateway : Origin := "gateway".
Definition OriginDirect : Origin := "direct".

Definition WithOrigin (ctx : context) (o : Origin) : context := mkContext (dx_user ctx) (Some o).
Definition OriginFromCtx (ctx : context) : option Origin := dx_auth_origin ctx.

(** ** config.go, middleware.go *)

Record ResolverConfig := mkResolverCfg { rc_Headers : HeadersConfig; rc_JWT : JwtConfig; AllowDirect : bool }.

(** s[:i] for the first space at i > 0. *)
Definition firstWord (s : string) : string :=
  match cut " " s with
  | Some (a, _) => if bool_decide (a = EmptyString) then s else a
  | None => s
  end.

Section resolver.
Variable hmac : string -> string -> string.
Variable jwks : string -> error.
Variable ParseWithClaims : string -> parser -> string -> res (DxClaims * bool).
Variable DX_ENV : string.

(** The request handler once the JWT middleware is built ([None] = not built). *)
Definition resolver_handler (cfg : ResolverConfig) (jwtMW : option Middleware) (now : Z) : Middleware :=
  fun next r w =>
  let unauthorized msg := WriteError (NewUnauthorized msg []) w in
  let allowHMAC := negb (bool_decide (Secret (rc_Headers cfg) = EmptyString)) in
  if allowHMAC && negb (bool_decide (hdr_get (req_Header r) HdrSubjectSig = EmptyString)) then
    match Verify hmac (req_Header r) (rc_Headers cfg) now with
    | Err _ => unauthorized "invalid subject signature"
    | Ok user => next (WithContext r (WithOrigin (WithUser (req_ctx r) user) OriginGateway)) w
    end
  else match (if AllowDirect cfg then jwtMW else None) with
       | None => unauthorized "gateway-signed subject headers required"
       | Some mw =>
           let authz := hdr_get (req_Header r) "Authorization" in
           if bool_decide (authz = EmptyString) then unauthorized "missing Authorization header"
           else if negb (equal_fold (firstWord authz) "bearer")
           then unauthorized "Authorization header must be 'Bearer <token>'"
           else mw (fun rr ww => next (WithContext rr (WithOrigin (req_ctx rr) OriginDirect)) ww) r w
       end.

(** Construction panics ([inr]) on a configuration that accepts nobody or a JWT middleware that
    cannot be built. *)
Definition resolver_Middleware (cfg : ResolverConfig) : (Z -> Middleware) + string :=
  let allowHMAC := negb (bool_decide (Secret (rc_Headers cfg) = EmptyString)) in
  if negb allowHMAC && negb (AllowDirect cfg)
  then inr "resolver.Middleware: at least one of Headers.Secret or AllowDirect must be set"
  else if AllowDirect cfg then
    match jwt_Middleware jwks ParseWithClaims DX_ENV (rc_JWT cfg) with
    | inr p => inr p
    | inl mw => inl (resolver_handler cfg (Some mw))
    end
  else inl (resolver_handler cfg None).

Definition RequireGatewayOrigin : Middleware := fun next r w =>
  match OriginFromCtx (req_ctx r) with
  | Some o => if bool_decide (o = OriginGateway) then next r w
              else WriteError (NewForbidden "this endpoint is only accessible via the gateway" []) w
  | None => WriteError (NewForbidden "this endpoint is only accessible via the gateway" []) w
  end.

(** ** What reaches a handler *)

(** A denial: an error response with a 401 or a 403, and the next handler not consulted. *)
Definition denied (w w' : ResponseWriter) : Prop :=
  exists e, w' = WriteError e w /\ (HTTPStatus e = 401 \/ HTTPStatus e = 403).

Lemma unauthorized_denied msg w : denied w (WriteError (NewUnauthorized msg []) w).
Proof. eexists. split; [done|]. by left. Qed.
Lemma forbidden_denied msg w : denied w (WriteError (NewForbidden msg []) w).
Proof. eexists. split; [done|]. by right. Qed.

(** Where a resolved identity comes from. *)
Definition gateway_identity (cfg : ResolverConfig) (now : Z) (r : Request) (u : DxUser) : Prop :=
  Secret (rc_Headers cfg) <> EmptyString /\ hdr_get (req_Header r) HdrSubjectSig <> EmptyString
  /\ Verify hmac (req_Header r) (rc_Headers cfg) now = Ok u.

(** A bearer token accepted by a parser that checks RS256, the issued-at time, the configured
    non-empty issuer and audience, with at most 300 s of leeway. *)
Definition direct_identity (cfg : ResolverConfig) (r : Request) (u : DxUser) : Prop :=
  AllowDirect cfg = true
  /\ (Secret (rc_Headers cfg) = EmptyString \/ hdr_get (req_Header r) HdrSubjectSig = EmptyString)
  /\ exists p scheme token claims,
       ParseWithClaims (JwksURL (rc_JWT cfg)) p token = Ok (claims, true) /\ u = user_of claims
       /\ splitn2 " " (hdr_get (req_Header r) "Authorization") = [scheme; token]
       /\ equal_fold scheme "bearer" = true
       /\ p_methods p = ["RS256"] /\ p_issuedAt p = true
       /\ p_issuer p = Some (Issuer (rc_JWT cfg)) /\ Issuer (rc_JWT cfg) <> EmptyString
       /\ p_audience p = Some (Audience (rc_JWT cfg)) /\ Audience (rc_JWT cfg) <> EmptyString
       /\ 0 <= p_leeway p <= 300 * Second.

(** The development user, injected when validation is switched off outside production. *)
Definition development_identity (cfg : ResolverConfig) (u : DxUser) : Prop :=
  AllowDirect cfg = true /\ Enabled (rc_JWT cfg) = false /\ u = mockUser
  /\ equal_fold DX_ENV "production" = false /\ equal_fold DX_ENV "prod" = false.

Lemma Validate_ok cfg : Validate cfg = None -> Enabled cfg = true ->
  Issuer cfg <> EmptyString /\ Audience cfg <> EmptyString /\ 0 <= LeewaySeconds cfg <= 300.
Proof.
  unfold Validate, maxLeewaySeconds. intros Hv He. rewrite He in Hv. cbn in Hv.
  repeat (case_bool_decide; [done|]). destruct (_ || _) eqn:E; [done|].
  bools. split_and!; [done|done|lia|lia].
Qed.

Lemma jwt_handler_cases validate next r w :
  denied w (jwt_handler validate next r w)
  \/ exists scheme token claims, splitn2 " " (hdr_get (req_Header r) "Authorization") = [scheme; token]
       /\ equal_fold scheme "bearer" = true /\ validate token = Ok claims
       /\ jwt_handler validate next r w = next (WithContext r (WithUser (req_ctx r) (user_of claims))) w.
Proof.
  unfold jwt_handler. case_bool_decide; [left; apply unauthorized_denied|].
  destruct (splitn2 _ _) as [|scheme [|token [|]]]; try (left; apply unauthorized_denied).
  destruct (equal_fold scheme "bearer") eqn:Eb; [|left; apply unauthorized_denied].
  cbn [negb]. destruct (validate token) as [claims|e] eqn:Ev; [|left; apply unauthorized_denied].
  right. by exists scheme, token, claims.
Qed.

Lemma New_parser cfg validate token claims :
  Enabled cfg = true -> New jwks ParseWithClaims cfg = Ok validate -> validate token = Ok claims ->
  ParseWithClaims (JwksURL cfg) (make_parser cfg) token = Ok (claims, true)
  /\ p_issuer (make_parser cfg) = Some (Issuer cfg) /\ Issuer cfg <> EmptyString
  /\ p_audience (make_parser cfg) = Some (Audience cfg) /\ Audience cfg <> EmptyString
  /\ 0 <= p_leeway (make_parser cfg) <= 300 * Second.
Proof.
  intros He. unfold New. destruct (Validate cfg) eqn:Ev; [done|]. destruct (jwks _); [done|].
  intros [= <-]. unfold validate_token. destruct (Validate_ok cfg Ev He) as (Hi & Ha & Hl).
  destruct (ParseWithClaims _ _ _) as [[c []]|e]; intros [= <-].
  cbn. rewrite !bool_decide_eq_false_2 by done. split_and!; try done;
    rewrite wrap64_id; unfold min_int64, max_int64, Second, Millisecond; lia.
Qed.

(** The ways the resolver can end. *)
Lemma resolver_cases cfg mw now next r w :
  resolver_Middleware cfg = inl mw ->
  denied w (mw now next r w)
  \/ (exists u, gateway_identity cfg now r u
       /\ mw now next r w = next (WithContext r (WithOrigin (WithUser (req_ctx r) u) OriginGateway)) w)
  \/ (exists u, (direct_identity cfg r u \/ development_identity cfg u)
       /\ mw now next r w = next (WithContext r (WithOrigin (WithUser (req_ctx r) u) OriginDirect)) w).
Proof.
  intros Hmw.
  assert (Hh : exists jwtMW, mw = resolver_handler cfg jwtMW
    /\ forall m, jwtMW = Some m -> jwt_Middleware jwks ParseWithClaims DX_ENV (rc_JWT cfg) = inl m).
  { revert Hmw. unfold resolver_Middleware. destruct (_ && _); [done|]. destruct (AllowDirect cfg).
    - destruct (jwt_Middleware _ _ _ _) as [m|p]; intros [= <-]. exists (Some m). by split; [|intros ? [= <-]].
    - intros [= <-]. by exists None. }
  destruct Hh as (jwtMW & -> & Hjwt). clear Hmw. unfold resolver_handler.
  destruct (negb (bool_decide (Secret _ = _)) && _) eqn:Eh.
  - bools. destruct (Verify _ _ _ _) as [u|e] eqn:Ev; [|left; apply unauthorized_denied].
    right. left. exists u. by repeat split.
  - assert (Hsig : Secret (rc_Headers cfg) = EmptyString \/ hdr_get (req_Header r) HdrSubjectSig = EmptyString).
    { apply andb_false_iff in Eh as [E%negb_false_iff%bool_decide_eq_true|E%negb_false_iff%bool_decide_eq_true]; auto. }
    clear Eh. destruct (AllowDirect cfg) eqn:Ed; [|left; apply unauthorized_denied].
    destruct jwtMW as [m|]; [|left; apply unauthorized_denied]. specialize (Hjwt m eq_refl).
    case_bool_decide; [left; apply unauthorized_denied|]. destruct (negb _); [left; apply unauthorized_denied|].
    revert Hjwt. unfold jwt_Middleware. destruct (Enabled (rc_JWT cfg)) eqn:Ee; cbn [negb].
    + destruct (New _ _ _) as [validate|e] eqn:En; intros [= <-].
      destruct (jwt_handler_cases validate (fun rr ww => next (WithContext rr (WithOrigin (req_ctx rr) OriginDirect)) ww) r w)
        as [Hden|(scheme & token & claims & Es & Eb & Ev & ->)]; [by left|].
      destruct (New_parser _ _ _ _ Ee En Ev) as (Hp & Hi & Hi' & Ha & Ha' & Hl).
      right. right. exists (user_of claims). split; [|done]. left. split; [done|]. split; [done|].
      exists (make_parser (rc_JWT cfg)), scheme, token, claims. split_and!; eauto; lia.
    + destruct (_ || _) eqn:Ep; intros [= <-]. bools.
      right. right. exists mockUser. split; [|done]. by right.
Qed.

Lemma ForRoles_cases roles next r w :
  denied w (ForRoles roles next r w)
  \/ exists u role, UserFromCtx (req_ctx r) = Some u /\ role ∈ user_Roles u /\ role ∈ roles
       /\ ForRoles roles next r w = next r w.
Proof.
  unfold ForRoles. destruct (UserFromCtx _) as [u|]; [|left; apply unauthorized_denied].
  destruct (HasAny _ _) eqn:Eh; cbn [negb]; [|left; apply forbidden_denied].
  right. unfold HasAny in Eh. apply existsb_exists in Eh as (role & Hr & Hh).
  apply bool_decide_eq_true in Hh. exists u, role. split_and!; [done|by apply list_elem_of_In| |done].
  unfold NewRoleSet in Hh. by rewrite elem_of_list_to_set in Hh.
Qed.

(** C3. What reaches a handler behind the resolver, whatever the request carries.  In a
    service that switches JWT validation on when it allows the direct path, the response is a
    401 or 403 written without consulting the handler, or the handler runs exactly once with
    the identity either of verified gateway headers (tagged gateway) or, only when the request
    has no signature to verify, of a bearer token checked with RS256 and the configured
    non-empty issuer and audience (tagged direct).  In every service, behind
    RequireGatewayOrigin and ForRoles the handler runs only for verified gateway headers whose
    user holds one of the roles. *)
Theorem gated_route cfg mw now roles handler r w :
  resolver_Middleware cfg = inl mw ->
  ((AllowDirect cfg = true -> Enabled (rc_JWT cfg) = true) ->
   denied w (mw now handler r w)
   \/ (exists u, gateway_identity cfg now r u
        /\ mw now handler r w = handler (WithContext r (WithOrigin (WithUser (req_ctx r) u) OriginGateway)) w)
   \/ (exists u, direct_identity cfg r u
        /\ mw now handler r w = handler (WithContext r (WithOrigin (WithUser (req_ctx r) u) OriginDirect)) w))
  /\ (denied w (mw now (RequireGatewayOrigin (ForRoles roles handler)) r w)
      \/ exists u role, gateway_identity cfg now r u /\ role ∈ user_Roles u /\ role ∈ roles
           /\ mw now (RequireGatewayOrigin (ForRoles roles handler)) r w
              = handler (WithContext r (WithOrigin (WithUser (req_ctx r) u) OriginGateway)) w).
Proof.
  intros Hmw. split.
  { intros Hen. destruct (resolver_cases cfg mw now handler r w Hmw) as [Hd|[Hg|(u & [Hu|Hu] & E)]]; eauto.
    destruct Hu as (Ha & He & _). rewrite (Hen Ha) in He. done. }
  destruct (resolver_cases cfg mw now (RequireGatewayOrigin (ForRoles roles handler)) r w Hmw)
    as [Hd|[(u & Hu & ->)|(u & _ & ->)]]; [by left| |].
  - unfold RequireGatewayOrigin. cbn [OriginFromCtx WithContext WithOrigin req_ctx dx_auth_origin].
    rewrite bool_decide_eq_true_2 by done.
    destruct (ForRoles_cases roles handler (WithContext r (WithOrigin (WithUser (req_ctx r) u) OriginGateway)) w)
      as [Hd|(u' & role & Eu & Hr & Hin & E)]; [by left|].
    injection Eu as <-. right. exists u, role. by split_and!.
  - left. unfold RequireGatewayOrigin. cbn [OriginFromCtx WithContext WithOrigin req_ctx dx_auth_origin].
    rewrite bool_decide_eq_false_2 by done. apply forbidden_denied.
Qed.
End resolver.

(** ** A service behind a gateway *)

Definition service : ResolverConfig := mkResolverCfg upstream (mkJwtConfig "" "" "" 0 false) false.
Definition gateway_request : Request := mkRequest minted_headers (mkContext None None) (fun _ => "").
Definition service_mw : Z -> Middleware :=
  match resolver_Middleware toy_hmac (fun _ => None) (fun _ _ _ => Err ErrNotSigned) "prod" service with
  | inl mw => mw
  | inr _ => fun _ next => next
  end.
Definition say (text : string) : Handler := fun r w =>
  write_chunk (Raw (text +:+ match UserFromCtx (req_ctx r) with Some u => user_ID u | None => "" end)) w.

Lemma gated_route_witness :
  exists u role, gateway_identity toy_hmac service (30 * Second) gateway_request u
    /\ role ∈ user_Roles u /\ role ∈ [RoleProvider]
    /\ rw_body (service_mw (30 * Second) (RequireGatewayOrigin (ForRoles [RoleProvider] (say "hello ")))
                  gateway_request new_writer) = [Raw "hello u1"].
Proof.
  assert (Hb : rw_body (service_mw (30 * Second) (RequireGatewayOrigin (ForRoles [RoleProvider] (say "hello ")))
                  gateway_request new_writer) = [Raw "hello u1"]) by (vm_compute; reflexivity).
  destruct (gated_route toy_hmac (fun _ => None) (fun _ _ _ => Err ErrNotSigned) "prod" service service_mw
              (30 * Second) [RoleProvider] (say "hello ") gateway_request new_writer eq_refl)
    as [_ [(e & He & _)|(u & role & H1 & H2 & H3 & _)]].
  - rewrite He in Hb. discriminate Hb.
  - exists u, role. split; [exact H1|]. split; [exact H2|]. split; [exact H3|exact Hb].
Defined.

(** With validation switched off and the direct path allowed, any bearer word outside
    production is the development user: the direct path is not disabled. *)
Definition dev_service : ResolverConfig := mkResolverCfg upstream (mkJwtConfig "" "" "" 0 false) true.
Definition any_bearer : Request :=
  mkRequest (hdr_set "Authorization" "Bearer x" ∅) (mkContext None None) (fun _ => "").

Example disabled_jwt_injects_user :
  match resolver_Middleware toy_hmac (fun _ => None) (fun _ _ _ => Err ErrNotSigned) "staging" dev_service with
  | inl mw => rw_body (mw (30 * Second) (say "hello ") any_bearer new_writer)
              = [Raw ("hello " +:+ user_ID mockUser)]
  | inr _ => False
  end.
Proof. vm_compute. reflexivity. Qed.

(** The doc comment of ForScope says a wildcard scope always grants; the entity must match too. *)
Example wildcard_scope_needs_entity :
  grants "data-access" "item-1" (mkScopeEntry "*" "item-2" "") = false.
Proof. vm_compute. reflexivity. Qed.

(** The expiry of a delegation entry is not looked at. *)
Example expired_scope_grants :
  grants "data-access" "item-1" (mkScopeEntry "data-access" "item-1" "1970-01-01T00:00:00Z") = true.
Proof. vm_compute. reflexivity. Qed.
