(* ===== verification/Trust.v ===== *)
(** * Trust: trust and mtls — the hot-swappable trust store and the TLS configurations on it

    Certificates, chains and revocation lists of crypto/x509 are an interface;
    the store, its snapshot swap and its checks are as in the source.  Swaps,
    handshakes and their callbacks are steps on the shared pointer, and the
    handshake calls the configuration's hooks as crypto/tls documents. *)

From S2P Require Import Prelude GoStrings Http Errors.

(** crypto/x509 *)
Class X509 (Cert : Type) := {
  cert_issuer : Cert -> string;                             (* Issuer.String() *)
  cert_serial : Cert -> Z;
  ParseCertificate : string -> res Cert;
  (* leaf.Verify with these roots and intermediates, at this time, any key usage *)
  chain_error : Cert -> list Cert -> list Cert -> Z -> error
}.

Record RevocationList := mkCRL { crl_issuer : string; revoked : list Z }.

Section trust.
Context {Cert : Type} `{X509 Cert}.

Definition PolicyFunc := option (Cert -> error).

(** The pool is the set of the certificates added to it. *)
Record snapshot := mkSnapshot { pool : list Cert; anchors : list Cert; crls : list RevocationList }.
Record Store := mkStore { snap : snapshot; policy : PolicyFunc }.

Definition trust_New (p : PolicyFunc) : Store := mkStore (mkSnapshot [] [] []) p.
Definition Replace (s : Store) (as_ : list Cert) (cs : list RevocationList) : Store :=
  mkStore (mkSnapshot as_ as_ cs) (policy s).
Definition Anchors (s : Store) : list Cert := anchors (snap s).
Definition ClientCAs (s : Store) : list Cert := pool (snap s).

Fixpoint checkRevocation (leaf : Cert) (cs : list RevocationList) : error :=
  match cs with
  | [] => None
  | crl :: cs =>
      if negb (bool_decide (crl_issuer crl = cert_issuer leaf)) then checkRevocation leaf cs
      else if existsb (fun n => n =? cert_serial leaf) (revoked crl)
           then Some (NewErr ("trust: certificate " +:+ itoa (cert_serial leaf) +:+ " is revoked"))
           else checkRevocation leaf cs
  end.

Definition apply_policy (p : PolicyFunc) (leaf : Cert) : error :=
  match p with
  | None => None
  | Some f => match f leaf with Some e => Some (wrapf "trust: policy rejected peer" e) | None => None end
  end.

(** Verify on the snapshot it loaded. *)
Definition verify_snapshot (sn : snapshot) (p : PolicyFunc) (leaf : Cert) (intermediates : list Cert) (now : Z) : error :=
  match anchors sn with
  | [] => Some (NewErr "trust: store is empty (no anchors synced yet)")
  | _ =>
      match chain_error leaf (pool sn) intermediates now with
      | Some e => Some (wrapf "trust: chain verification failed" e)
      | None => match checkRevocation leaf (crls sn) with
                | Some e => Some e
                | None => apply_policy p leaf
                end
      end
  end.
Definition trust_Verify (s : Store) (leaf : Cert) (intermediates : list Cert) (now : Z) : error :=
  verify_snapshot (snap s) (policy s) leaf intermediates now.

Definition parse_all (raws : list string) : list Cert :=
  omap (fun raw => match ParseCertificate raw with Ok c => Some c | Err _ => None end) raws.

(** [verifiedChains]: crypto/tls gives non-empty chains. *)
Definition VerifyPeer (s : Store) (rawCerts : list string) (verifiedChains : list (Cert * list Cert)) (now : Z) : error :=
  match verifiedChains with
  | (leaf, _) :: _ =>
      match checkRevocation leaf (crls (snap s)) with
      | Some e => Some e
      | None => apply_policy (policy s) leaf
      end
  | [] =>
      match rawCerts with
      | [] => Some (NewErr "trust: no peer certificate presented")
      | raw :: raws =>
          match ParseCertificate raw with
          | Err e => Some (wrapf "trust: parse peer certificate" e)
          | Ok leaf => trust_Verify s leaf (parse_all raws) now
          end
      end
  end.

(** ** What acceptance means *)

Definition not_revoked (leaf : Cert) (cs : list RevocationList) : Prop :=
  forall crl, crl ∈ cs -> crl_issuer crl = cert_issuer leaf -> (cert_serial leaf ∉ revoked crl).

Lemma checkRevocation_spec leaf cs : checkRevocation leaf cs = None <-> not_revoked leaf cs.
Proof.
  unfold not_revoked. induction cs as [|crl cs IH]; cbn; [split; [intros _ ? []%elem_of_nil|done]|].
  case_bool_decide as Hi; cbn.
  - destruct (existsb _ (revoked crl)) eqn:E.
    + split; [done|]. intros Hn. exfalso. apply existsb_exists in E as (n & Hin & ->%Z.eqb_eq).
      apply (Hn crl); [by left|done|by apply list_elem_of_In].
    + rewrite IH. split; [|intros Hn c Hc; apply Hn; by right].
      intros Hn c [->|Hc]%elem_of_cons Hi'; [|by apply Hn]. intros Hin. rewrite <- not_true_iff_false in E. apply E.
      apply existsb_exists. exists (cert_serial leaf). split; [by apply list_elem_of_In|apply Z.eqb_refl].
  - rewrite IH. split; [intros Hn c [->|Hc]%elem_of_cons ?; [done|by apply Hn]|intros Hn c Hc; apply Hn; by right].
Qed.

Definition policy_accepts (p : PolicyFunc) (leaf : Cert) : Prop := match p with Some f => f leaf = None | None => True end.

Lemma apply_policy_spec p leaf : apply_policy p leaf = None <-> policy_accepts p leaf.
Proof. destruct p as [f|]; [|done]. cbn. by destruct (f leaf). Qed.

Lemma verify_snapshot_spec sn p leaf ints now :
  verify_snapshot sn p leaf ints now = None <->
  anchors sn <> [] /\ chain_error leaf (pool sn) ints now = None /\ not_revoked leaf (crls sn) /\ policy_accepts p leaf.
Proof.
  unfold verify_snapshot. rewrite <- checkRevocation_spec, <- apply_policy_spec.
  destruct (anchors sn) as [|a l]; [split; [done|by intros []]|].
  destruct (chain_error _ _ _ _); [split; [done|by intros (_ & ? & _)]|].
  destruct (checkRevocation _ _); [split; [done|by intros (_ & _ & ? & _)]|].
  split; [intros ->; done|by intros (_ & _ & _ & ->)].
Qed.

(** ** mtls.go *)

(** The fields of tls.Config the package sets; [None] for a nil pool or hook. *)
Record tlsConfig := mkTLS {
  RequireAndVerifyClientCert : bool; cfg_ClientCAs : option (list Cert); RootCAs : option (list Cert);
  ServerName : string; InsecureSkipVerify : bool; hook_set : bool     (* VerifyPeerCertificate = tp.VerifyPeer *)
}.

(** ServerConfig's base, and what its GetConfigForClient returns for the store of that moment. *)
Definition ServerConfig (tp : option Store) : res tlsConfig :=
  match tp with
  | None => Err (NewErr "mtls: trust provider is required")
  | Some _ => Ok (mkTLS true None None EmptyString false false)
  end.
Definition GetConfigForClient (base : tlsConfig) (tp : Store) : tlsConfig :=
  mkTLS (RequireAndVerifyClientCert base) (Some (ClientCAs tp)) (RootCAs base) (ServerName base) (InsecureSkipVerify base) true.

Definition ClientConfig (tp : option Store) (serverName : string) : res tlsConfig :=
  match tp with
  | None => Err (NewErr "mtls: trust provider is required")
  | Some tp =>
      let anonymous := bool_decide (serverName = EmptyString) in
      Ok (mkTLS false None (Some (ClientCAs tp)) serverName anonymous anonymous)
  end.

(** A full handshake, as crypto/tls documents it: the chain is built against the pool unless
    verification is off, then the hook is called with it; [tp] is the store the hook reads. *)
Definition handshake (verify : bool) (roots : list Cert) (hook : bool) (tp : Store) (leafRaw : string) (raws : list string)
  (now : Z) : error :=
  match ParseCertificate leafRaw with
  | Err e => Some e
  | Ok leaf =>
      match (if verify then chain_error leaf roots (parse_all raws) now else None) with
      | Some e => Some e
      | None => if hook then VerifyPeer tp (leafRaw :: raws) (if verify then [(leaf, [])] else []) now else None
      end
  end.
Definition server_handshake (c : tlsConfig) (tp : Store) := handshake (RequireAndVerifyClientCert c) (default [] (cfg_ClientCAs c)) (hook_set c) tp.
Definition client_handshake (c : tlsConfig) (tp : Store) := handshake (negb (InsecureSkipVerify c)) (default [] (RootCAs c)) (hook_set c) tp.

(** ** Handshakes while the store is being swapped *)

(** A connection: not there, its configuration made, or decided.  What the store held when the client
    said hello and when its certificate was decided, and the time of the decision, are recorded with it. *)
Inductive conn :=
  | NoConn
  | Greeted (cfg : tlsConfig) (hello : snapshot)
  | Decided (leafRaw : string) (raws : list string) (r : error) (hello decision : snapshot) (at_ : Z).
(** The store, the snapshots it has had (the current one first), the clock and the connections. *)
Record tsys := mkTSys { ts_store : Store; ts_had : list snapshot; ts_now : Z; ts_conns : nat -> conn }.

Inductive tstep (base : tlsConfig) : tsys -> tsys -> Prop :=
  | T_tick s now : ts_now s <= now -> tstep base s (mkTSys (ts_store s) (ts_had s) now (ts_conns s))
  | T_replace s as_ cs :
      let st := Replace (ts_store s) as_ cs in tstep base s (mkTSys st (snap st :: ts_had s) (ts_now s) (ts_conns s))
  | T_hello s i :
      ts_conns s i = NoConn ->
      tstep base s (mkTSys (ts_store s) (ts_had s) (ts_now s)
        (upd (ts_conns s) i (Greeted (GetConfigForClient base (ts_store s)) (snap (ts_store s)))))
  | T_cert s i c hello leafRaw raws :
      ts_conns s i = Greeted c hello ->
      tstep base s (mkTSys (ts_store s) (ts_had s) (ts_now s)
        (upd (ts_conns s) i (Decided leafRaw raws (server_handshake c (ts_store s) leafRaw raws (ts_now s))
                               hello (snap (ts_store s)) (ts_now s)))).

Inductive tsteps (base : tlsConfig) : tsys -> tsys -> Prop :=
  | tsteps_refl s : tsteps base s s
  | tsteps_step s1 s2 s3 : tsteps base s1 s2 -> tstep base s2 s3 -> tsteps base s1 s3.

Definition tinit (p : PolicyFunc) (now : Z) : tsys := mkTSys (trust_New p) [snap (trust_New p)] now (fun _ => NoConn).

(** What the server should accept: a certificate that chains, at the time of the decision, to the anchors the
    store held at the hello, is on none of its issuer's lists the store held at the decision, and that the
    policy accepts. *)
Definition accepted_peer (p : PolicyFunc) (hello decision : snapshot) (at_ : Z) (leafRaw : string) (raws : list string) : Prop :=
  exists leaf, ParseCertificate leafRaw = Ok leaf
    /\ chain_error leaf (anchors hello) (parse_all raws) at_ = None
    /\ not_revoked leaf (crls decision) /\ policy_accepts p leaf.

Lemma handshake_spec roots tp leafRaw raws now hello :
  roots = anchors hello ->
  handshake true roots true tp leafRaw raws now = None
  <-> accepted_peer (policy tp) hello (snap tp) now leafRaw raws.
Proof.
  intros ->. unfold handshake, accepted_peer. destruct (ParseCertificate leafRaw) as [leaf|e]; [|naive_solver].
  setoid_rewrite <- checkRevocation_spec. setoid_rewrite <- apply_policy_spec.
  destruct (chain_error leaf (anchors hello) _ now) eqn:Ec; [split; [done|naive_solver congruence]|]. cbn.
  destruct (checkRevocation leaf (crls (snap tp))) eqn:Er.
  - split; [done|]. intros (? & [= <-] & _ & ? & _). congruence.
  - split; [by intros ?; exists leaf|]. by intros (? & [= <-] & _ & _ & ?).
Qed.

Definition conn_ok (p : PolicyFunc) (had : list snapshot) (c : conn) : Prop :=
  match c with
  | NoConn => True
  | Greeted c hello => RequireAndVerifyClientCert c = true /\ hook_set c = true
                       /\ hello ∈ had /\ cfg_ClientCAs c = Some (anchors hello)
  | Decided l rs r hello decision at_ =>
      hello ∈ had /\ decision ∈ had /\ (r = None <-> accepted_peer p hello decision at_ l rs)
  end.

Definition tinv (p : PolicyFunc) (s : tsys) : Prop :=
  policy (ts_store s) = p /\ snap (ts_store s) ∈ ts_had s
  /\ (forall sn, sn ∈ ts_had s -> pool sn = anchors sn)
  /\ forall i, conn_ok p (ts_had s) (ts_conns s i).

Lemma tstep_inv base p s s' : RequireAndVerifyClientCert base = true -> tinv p s -> tstep base s s' -> tinv p s'.
Proof.
  intros Hbase (Hp & Hs & Ha & Hc) Hstep. destruct Hstep as [s now Hn|s as_ cs st|s i Hi|s i c hello l rs Hi].
  - done.
  - split; [done|]. split; [by left|]. split; [intros sn [->|Hin]%elem_of_cons; [done|by apply Ha]|].
    intros i. specialize (Hc i). cbn. destruct (ts_conns s i) as [|c hello|l rs r hello decision at_]; cbn in *; [done|..].
    + destruct Hc as (? & ? & ? & ?). split_and!; try done. by right.
    + destruct Hc as (? & ? & ?). split_and!; try done; by right.
  - split; [done|]. split; [done|]. split; [done|]. intros j. cbn. upd_cases j i; [|apply Hc].
    cbn. split_and!; try done. unfold ClientCAs. by rewrite Ha.
  - split; [done|]. split; [done|]. split; [done|]. intros j. cbn. upd_cases j i; [|apply Hc].
    specialize (Hc i). rewrite Hi in Hc. destruct Hc as (Hr & Hk & Hin & Hca).
    cbn. split; [done|]. split; [done|]. unfold server_handshake. rewrite Hr, Hk, Hca, <- Hp. by apply handshake_spec.
Qed.

Lemma tsteps_inv base p s s' : RequireAndVerifyClientCert base = true -> tinv p s -> tsteps base s s' -> tinv p s'.
Proof. intros Hb Hs. induction 1 as [|? ? ? ? IH Hst]; [done|]. eapply tstep_inv; [done|by apply IH|exact Hst]. Qed.

End trust.

(** ** A run, and the client's configuration *)

(** Certificates are serial numbers of one issuer; a chain needs a root. *)
Definition serials : X509 Z := {|
  cert_issuer _ := "ca";
  cert_serial n := n;
  ParseCertificate s := match atoi s with Some n => Ok n | None => Err (NewErr "malformed") end;
  chain_error _ roots _ _ := match roots with [] => Some (NewErr "unknown authority") | _ => None end
|}.


(** Certificate 9 is revoked: the server refuses it, and so does a client without a server name;
    a client with one accepts it, also after every anchor has been removed. *)
Example client_with_name_ignores_store :
  let st := Replace (trust_New None) [1] [mkCRL "ca" [9]] in
  let empty := Replace st [] [mkCRL "ca" [9]] in
  match @ServerConfig Z (Some st), @ClientConfig Z (Some st) EmptyString, @ClientConfig Z (Some st) "node" with
  | Ok srv, Ok anon, Ok named =>
      (match @server_handshake Z serials (GetConfigForClient srv st) st "9" [] 0 with Some _ => false | None => true end,
       match @client_handshake Z serials anon st "9" [] 0 with Some _ => false | None => true end,
       match @client_handshake Z serials named empty "9" [] 0 with Some _ => false | None => true end)
  | _, _, _ => (true, true, false)
  end = (false, false, true).
Proof. vm_compute. reflexivity. Qed.
