(* ===== verification/Envelope.v ===== *)
(** * Envelope: crypto/envelope — seal and open

    The token format (base64url, JSON, field layout) is modelled to the byte; the
    standard library's elliptic-curve, hash and cipher functions are an
    interface, [Crypto], with their documented laws apart.  A panic is [None]. *)

From S2P Require Import Prelude GoStrings GoFloat Http Json Base64 Errors.

(** ** math/big *)

(** FillBytes: big-endian in exactly [n] bytes; it panics on a number that does not fit. *)
Fixpoint be_bytes (n : nat) (z : Z) : string :=
  match n with O => EmptyString | S n => be_bytes n (z / 256) +:+ String (ascii_of_byte (z mod 256)) EmptyString end.
Definition FillBytes (n : nat) (z : Z) : option string :=
  if (0 <=? z) && (z <? 256 ^ Z.of_nat n) then Some (be_bytes n z) else None.
(** SetBytes *)
Fixpoint SetBytes_go (acc : Z) (s : string) : Z :=
  match s with EmptyString => acc | String c s => SetBytes_go (256 * acc + byte_of c) s end.
Definition SetBytes (s : string) : Z := SetBytes_go 0 s.

(** ** The standard library's cryptography *)

Class Crypto (Priv Pub W : Type) := {
  public : Priv -> Pub;                                   (* &key.PublicKey *)
  coords : Pub -> Z * Z;                                  (* X, Y *)
  on_p256 : Pub -> bool;                                  (* key.Curve == elliptic.P256() *)
  pub_ECDH : Pub -> error;                                (* why the ecdh bridge refuses the key *)
  priv_ECDH : Priv -> error;
  point_bytes : Pub -> string;                            (* ecdh.PublicKey.Bytes *)
  NewPublicKey : string -> res Pub;                       (* ecdh.Curve.NewPublicKey *)
  dh : Priv -> Pub -> res string;                         (* ecdh.PrivateKey.ECDH *)
  hkdf_read : string -> string -> res string;             (* 32 bytes of hkdf.New(sha256, secret, nil, info) *)
  sha256 : string -> string;
  gcm_Seal : string -> string -> string -> string;        (* key, nonce, plaintext *)
  gcm_Open : string -> string -> string -> res string;    (* key, nonce, ciphertext *)
  ecdsa_Verify : Pub -> string -> Z -> Z -> bool;
  (* drawing on rand.Reader *)
  ecdsa_GenerateKey : W -> res Priv * W;
  rand_Read : nat -> W -> res string * W;
  ecdsa_Sign : Priv -> string -> W -> res (Z * Z) * W;
  (* encoding of keys *)
  pkcs8_marshal : Priv -> res string;
  pkix_marshal : Pub -> res string;
  pem_encode : string -> string -> string;                (* block type, bytes *)
  pem_decode : string -> option string;                   (* the bytes of the first block *)
  pkcs8_parse : string -> res (option Priv);              (* Ok None: a key, but not ECDSA *)
  sec1_parse : string -> res Priv;
  pkix_parse : string -> res (option Pub)
}.

Definition algSign : string := "ES256".
Definition encAlg : string := "A256GCM".
Definition kdfInfo : string := "dx-envelope/v1 A256GCM".

(** sealed and outer, as the fields they marshal to. *)
Record sealed := mkSealed { Enc : string; EPK : string; IV : string; CT : string; RID : string }.
Record outer := mkOuter { Alg : string; SID : string; Payload : string; Sig : string }.

Definition sealed_json (x : sealed) : string :=
  struct_text [("enc", Enc x); ("epk", EPK x); ("iv", IV x); ("ct", CT x); ("rid", RID x)].
Definition outer_json (x : outer) : string :=
  struct_text [("alg", Alg x); ("sid", SID x); ("payload", Payload x); ("sig", Sig x)].

(** json.Unmarshal into a struct of strings: exact or case-folded names, the last occurrence
    that is not null, an error for any other kind of value. *)
Fixpoint string_field (name : string) (acc : string) (fields : list (string * json)) : option string :=
  match fields with
  | [] => Some acc
  | (k, v) :: fields =>
      if bool_decide (k = name) || equal_fold k name
      then match v with
           | JStr s => string_field name s fields
           | JNull => string_field name acc fields
           | _ => None
           end
      else string_field name acc fields
  end.
Definition struct_fields (text : string) : option (list (string * json)) :=
  match json_parse text with Some (JObj fs) => Some fs | Some JNull => Some [] | _ => None end.
Definition sealed_of (text : string) : option sealed :=
  match struct_fields text with
  | None => None
  | Some fs => match string_field "enc" EmptyString fs, string_field "epk" EmptyString fs, string_field "iv" EmptyString fs,
                     string_field "ct" EmptyString fs, string_field "rid" EmptyString fs with
               | Some a, Some b, Some c, Some d, Some e => Some (mkSealed a b c d e)
               | _, _, _, _, _ => None
               end
  end.
Definition outer_of (text : string) : option outer :=
  match struct_fields text with
  | None => None
  | Some fs => match string_field "alg" EmptyString fs, string_field "sid" EmptyString fs,
                     string_field "payload" EmptyString fs, string_field "sig" EmptyString fs with
               | Some a, Some b, Some c, Some d => Some (mkOuter a b c d)
               | _, _, _, _ => None
               end
  end.

Definition corrupt : goerr := NewErr "illegal base64 data".
Definition bad_json : goerr := NewErr "json: cannot unmarshal".

Section envelope.
Context {Priv Pub W : Type} `{Crypto Priv Pub W}.

(** ** keys.go *)

Definition GenerateKey (w : W) : res Priv * W := ecdsa_GenerateKey w.

Definition MarshalPrivateKeyPEM (key : Priv) : res string :=
  match pkcs8_marshal key with
  | Err e => Err (wrapf "marshal private key" e)
  | Ok der => Ok (pem_encode "PRIVATE KEY" der)
  end.
Definition MarshalPublicKeyPEM (key : Pub) : res string :=
  match pkix_marshal key with
  | Err e => Err (wrapf "marshal public key" e)
  | Ok der => Ok (pem_encode "PUBLIC KEY" der)
  end.

Definition requireP256 (key : Priv) : res Priv :=
  if on_p256 (public key) then Ok key else Err (NewErr "private key is not on the P-256 curve").

Definition ParsePrivateKeyPEM (pemBytes : string) : res Priv :=
  match pem_decode pemBytes with
  | None => Err (NewErr "no PEM block found")
  | Some der =>
      match pkcs8_parse der with
      | Ok (Some ec) => requireP256 ec
      | Ok None => Err (NewErr "private key is not ECDSA")
      | Err _ => match sec1_parse der with
                 | Err e => Err (wrapf "parse EC private key" e)
                 | Ok ec => requireP256 ec
                 end
      end
  end.

Definition ParsePublicKeyPEM (pemBytes : string) : res Pub :=
  match pem_decode pemBytes with
  | None => Err (NewErr "no PEM block found")
  | Some der =>
      match pkix_parse der with
      | Err e => Err (wrapf "parse public key" e)
      | Ok None => Err (NewErr "public key is not ECDSA")
      | Ok (Some ec) => if on_p256 ec then Ok ec else Err (NewErr "public key is not on the P-256 curve")
      end
  end.

Definition KeyID (pub : Pub) : option string :=
  let '(x, y) := coords pub in
  match FillBytes 32 x, FillBytes 32 y with
  | Some bx, Some by_ => Some (b64_encode (String.substring 0 16 (sha256 (bx +:+ by_))))
  | _, _ => None
  end.

(** ** envelope.go *)

Definition deriveKey (shared : string) : res string :=
  match hkdf_read shared kdfInfo with Err e => Err (wrapf "envelope: hkdf" e) | Ok key => Ok key end.

(** newGCM: the key, when AES takes it. *)
Definition newGCM (key : string) : res string :=
  let n := String.length key in
  if bool_decide (n = 16%nat) || bool_decide (n = 24%nat) || bool_decide (n = 32%nat) then Ok key
  else Err (wrapf "envelope: aes" (NewErr ("crypto/aes: invalid key size " +:+ itoa (Z.of_nat n)))).
Definition nonce_size : nat := 12.
Definition gcm_open (key nonce ct : string) : option (res string) :=
  if bool_decide (String.length nonce = nonce_size) then Some (gcm_Open key nonce ct) else None.

Definition signES256 (priv : Priv) (msg : string) (w : W) : option (res string) * W :=
  match ecdsa_Sign priv (sha256 msg) w with
  | (Err e, w) => (Some (Err (wrapf "envelope: sign" e)), w)
  | (Ok (r, s), w) => (match FillBytes 32 r, FillBytes 32 s with
                       | Some a, Some b => Some (Ok (a +:+ b))
                       | _, _ => None
                       end, w)
  end.

Definition verifyES256 (pub : Pub) (msg sig : string) : bool :=
  if bool_decide (String.length sig = 64%nat)
  then ecdsa_Verify pub (sha256 msg) (SetBytes (String.substring 0 32 sig)) (SetBytes (String.substring 32 32 sig))
  else false.

(** What Seal has signed: the payload of the envelope. *)
Definition seal_payload (plaintext : string) (recipientPub : Pub) (w : W) : option (res string) * W :=
  match pub_ECDH recipientPub with
  | Some e => (Some (Err (wrapf "envelope: recipient key not ECDH-usable" e)), w)
  | None =>
      match GenerateKey w with
      | (Err e, w) => (Some (Err (wrapf "envelope: generate ephemeral key" e)), w)
      | (Ok ephemeral, w) =>
          match priv_ECDH ephemeral with
          | Some e => (Some (Err (wrapf "envelope: ephemeral key not ECDH-usable" e)), w)
          | None =>
              match dh ephemeral recipientPub with
              | Err e => (Some (Err (wrapf "envelope: ECDH" e)), w)
              | Ok shared =>
                  match deriveKey shared with
                  | Err e => (Some (Err e), w)
                  | Ok key =>
                      match newGCM key with
                      | Err e => (Some (Err e), w)
                      | Ok gcm =>
                          match rand_Read nonce_size w with
                          | (Err e, w) => (Some (Err (wrapf "envelope: nonce" e)), w)
                          | (Ok nonce, w) =>
                              match KeyID recipientPub with
                              | None => (None, w)
                              | Some rid =>
                                  (Some (Ok (b64_encode (sealed_json
                                     (mkSealed encAlg (b64_encode (point_bytes (public ephemeral))) (b64_encode nonce)
                                        (b64_encode (gcm_Seal gcm nonce plaintext)) rid)))), w)
                              end
                          end
                      end
                  end
              end
          end
      end
  end.

(** A nil key is [None]. *)
Definition Seal (plaintext : string) (recipientPub : option Pub) (signerPriv : option Priv) (w : W)
  : option (res string) * W :=
  match recipientPub, signerPriv with
  | Some recipientPub, Some signerPriv =>
      match seal_payload plaintext recipientPub w with
      | (Some (Ok payload), w) =>
          match signES256 signerPriv payload w with
          | (Some (Ok sig), w) =>
              match KeyID (public signerPriv) with
              | None => (None, w)
              | Some sid => (Some (Ok (b64_encode (outer_json (mkOuter algSign sid payload (b64_encode sig))))), w)
              end
          | r => r
          end
      | r => r
      end
  | _, _ => (Some (Err (NewErr "envelope: recipient public key and signer private key are required")), w)
  end.

(** Open behind the signature check. *)
Definition open_payload (payload : string) (recipientPriv : Priv) : option (res string) :=
  match b64_decode payload with
  | None => Some (Err (wrapf "envelope: decode payload" corrupt))
  | Some innerJSON =>
      match sealed_of innerJSON with
      | None => Some (Err (wrapf "envelope: unmarshal inner" bad_json))
      | Some inner =>
          if negb (bool_decide (Enc inner = encAlg))
          then Some (Err (NewErr ("envelope: unsupported content alg " +:+ quoted (Enc inner))))
          else
            match priv_ECDH recipientPriv with
            | Some e => Some (Err (wrapf "envelope: recipient key not ECDH-usable" e))
            | None =>
                match b64_decode (EPK inner) with
                | None => Some (Err (wrapf "envelope: decode epk" corrupt))
                | Some epkBytes =>
                    match NewPublicKey epkBytes with
                    | Err e => Some (Err (wrapf "envelope: parse epk" e))
                    | Ok epk =>
                        match dh recipientPriv epk with
                        | Err e => Some (Err (wrapf "envelope: ECDH" e))
                        | Ok shared =>
                            match deriveKey shared with
                            | Err e => Some (Err e)
                            | Ok key =>
                                match newGCM key with
                                | Err e => Some (Err e)
                                | Ok gcm =>
                                    match b64_decode (IV inner), b64_decode (CT inner) with
                                    | None, _ => Some (Err (wrapf "envelope: decode iv" corrupt))
                                    | _, None => Some (Err (wrapf "envelope: decode ct" corrupt))
                                    | Some nonce, Some ct =>
                                        match gcm_open gcm nonce ct with
                                        | None => None
                                        | Some (Err e) => Some (Err (wrapf "envelope: decrypt" e))
                                        | Some (Ok plaintext) => Some (Ok plaintext)
                                        end
                                    end
                                end
                            end
                        end
                    end
                end
            end
      end
  end.

Definition Open (token : string) (recipientPriv : option Priv) (signerPub : option Pub) : option (res string) :=
  match recipientPriv, signerPub with
  | Some recipientPriv, Some signerPub =>
      match b64_decode token with
      | None => Some (Err (wrapf "envelope: decode token" corrupt))
      | Some envJSON =>
          match outer_of envJSON with
          | None => Some (Err (wrapf "envelope: unmarshal outer" bad_json))
          | Some env =>
              if negb (bool_decide (Alg env = algSign))
              then Some (Err (NewErr ("envelope: unsupported signature alg " +:+ quoted (Alg env))))
              else
                match b64_decode (Sig env) with
                | None => Some (Err (wrapf "envelope: decode sig" corrupt))
                | Some sig =>
                    if negb (verifyES256 signerPub (Payload env) sig)
                    then Some (Err (NewErr "envelope: signature verification failed"))
                    else open_payload (Payload env) recipientPriv
                end
          end
      end
  | _, _ => Some (Err (NewErr "envelope: recipient private key and signer public key are required"))
  end.
End envelope.

(** ** What the cryptography is documented to do *)

Class CryptoLaws (Priv Pub W : Type) `{Crypto Priv Pub W} := {
  law_usable a : pub_ECDH (public a) = None -> priv_ECDH a = None;
  law_dh a b s : dh a (public b) = Ok s -> dh b (public a) = Ok s;
  law_point a : priv_ECDH a = None -> NewPublicKey (point_bytes (public a)) = Ok (public a);
  law_rand n w b w' : rand_Read n w = (Ok b, w') -> String.length b = n;
  law_gcm k n m : String.length n = nonce_size -> gcm_Open k n (gcm_Seal k n m) = Ok m;
  law_ecdsa a d w r s w' : ecdsa_Sign a d w = (Ok (r, s), w') -> ecdsa_Verify (public a) d r s = true
}.

(** *** Fixed-width numbers *)

Lemma be_bytes_length n z : String.length (be_bytes n z) = n.
Proof. revert z. induction n as [|n IH]; intros z; [done|]. cbn. rewrite string_length_app, IH. cbn. lia. Qed.

Lemma SetBytes_app acc s c : SetBytes_go acc (s +:+ String c EmptyString) = 256 * SetBytes_go acc s + byte_of c.
Proof. revert acc. induction s as [|d s IH]; intros acc; [done|]. rewrite app_String. cbn. apply IH. Qed.

Lemma SetBytes_be n z : 0 <= z < 256 ^ Z.of_nat n -> SetBytes (be_bytes n z) = z.
Proof.
  unfold SetBytes. revert z. induction n as [|n IH]; intros z Hz; [cbn in *; lia|].
  cbn [be_bytes]. rewrite SetBytes_app, byte_of_ascii by (apply Z.mod_pos_bound; lia).
  rewrite Nat2Z.inj_succ, Z.pow_succ_r in Hz by lia. rewrite IH.
  - pose proof (Z.div_mod z 256 ltac:(lia)). lia.
  - apply div_range; lia.
Qed.

Lemma substring_app_l a b : String.substring 0 (String.length a) (a +:+ b) = a.
Proof. induction a as [|c a IH]; [by destruct b|]. rewrite app_String. cbn. by rewrite IH. Qed.

Lemma substring_app_r a b : String.substring (String.length a) (String.length b) (a +:+ b) = b.
Proof.
  induction a as [|c a IH]; [|rewrite app_String; cbn; apply IH].
  rewrite app_Empty. rewrite <- (app_Empty_r b) at 2. apply substring_app_l.
Qed.

Lemma halves_l n a b : String.length a = n -> String.substring 0 n (a +:+ b) = a.
Proof. intros <-. apply substring_app_l. Qed.

Lemma halves_r n a b : String.length a = n -> String.length b = n -> String.substring n n (a +:+ b) = b.
Proof. intros <- E. rewrite <- E at 2. apply substring_app_r. Qed.

Lemma substring_length n m s : (n + m <= String.length s)%nat -> String.length (String.substring n m s) = m.
Proof.
  revert n m. induction s as [|c s IH]; intros [|n] [|m]; cbn; intros Hl; try lia; try done.
  - f_equal. apply IH. lia.
  - apply (IH n 0%nat). lia.
  - apply IH. lia.
Qed.

Lemma substring_all s : String.substring 0 (String.length s) s = s.
Proof. rewrite <- (app_Empty_r s) at 2. apply substring_app_l. Qed.

Lemma substring_split n m s :
  String.length s = (n + m)%nat -> s = String.substring 0 n s +:+ String.substring n m s.
Proof.
  revert s. induction n as [|n IH]; intros s Hl.
  - change (s = String.substring 0 0 s +:+ String.substring 0 m s). replace m with (String.length s) by done.
    rewrite substring_all. by destruct s.
  - destruct s as [|c s]; [done|]. cbn [String.substring]. rewrite app_String. f_equal. apply IH. cbn in Hl. lia.
Qed.

(** *** The token's structs *)

Definition sealed_plain (x : sealed) : Prop :=
  plain (Enc x) = true /\ plain (EPK x) = true /\ plain (IV x) = true /\ plain (CT x) = true /\ plain (RID x) = true.
Definition outer_plain (x : outer) : Prop :=
  plain (Alg x) = true /\ plain (SID x) = true /\ plain (Payload x) = true /\ plain (Sig x) = true.

Lemma sealed_roundtrip x : sealed_plain x -> sealed_of (sealed_json x) = Some x.
Proof.
  intros (? & ? & ? & ? & ?). unfold sealed_of, struct_fields, sealed_json.
  rewrite json_parse_struct by (done || (repeat constructor; done)). by destruct x.
Qed.

Lemma outer_roundtrip x : outer_plain x -> outer_of (outer_json x) = Some x.
Proof.
  intros (? & ? & ? & ?). unfold outer_of, struct_fields, outer_json.
  rewrite json_parse_struct by (done || (repeat constructor; done)). by destruct x.
Qed.

Lemma ok_inj {A B} (a b : A) (v w : B) : (Some (Ok a), v) = (Some (Ok b), w) -> a = b.
Proof. congruence. Qed.

Section theorems.
Context {Priv Pub W : Type} `{!Crypto Priv Pub W} `{!CryptoLaws Priv Pub W}.

Lemma KeyID_plain pub id : KeyID pub = Some id -> plain id = true.
Proof.
  unfold KeyID. destruct (coords pub) as [x y]. destruct (FillBytes 32 x), (FillBytes 32 y); [|done..].
  intros [= <-]. apply b64_encode_plain.
Qed.

Lemma sign_verify sk msg (w : W) sig w' :
  signES256 sk msg w = (Some (Ok sig), w') -> verifyES256 (public sk) msg sig = true.
Proof.
  unfold signES256. destruct (ecdsa_Sign sk (sha256 msg) w) as [[[r s]|e] w1] eqn:Es; [|done].
  unfold FillBytes. destruct (Z.leb_spec 0 r), (Z.ltb_spec r (256 ^ Z.of_nat 32)); cbn [andb]; [|done..].
  destruct (Z.leb_spec 0 s), (Z.ltb_spec s (256 ^ Z.of_nat 32)); cbn [andb]; [|done..].
  intros Hsig. assert (sig = be_bytes 32 r +:+ be_bytes 32 s) as -> by congruence. unfold verifyES256.
  rewrite string_length_app, !be_bytes_length, bool_decide_eq_true_2 by done.
  rewrite halves_l, halves_r, !SetBytes_be by (done || apply be_bytes_length).
  by apply (law_ecdsa sk _ w _ _ w1).
Qed.

(** The recipient of a payload reads what was sealed. *)
Lemma open_sealed pt rk (w : W) payload w' :
  seal_payload pt (public rk) w = (Some (Ok payload), w') -> open_payload payload rk = Some (Ok pt).
Proof.
  unfold seal_payload. destruct (pub_ECDH (public rk)) eqn:Eu; [done|].
  destruct (GenerateKey w) as [[eph|e] w1]; [|done]. destruct (priv_ECDH eph) eqn:Ee; [done|].
  destruct (dh eph (public rk)) as [shared|e] eqn:Ed; [|done].
  destruct (deriveKey shared) as [key|e] eqn:Ek; [|done]. destruct (newGCM key) as [gcm|e] eqn:Eg; [|done].
  destruct (rand_Read nonce_size w1) as [[nonce|e] w2] eqn:Er; [|done].
  destruct (KeyID (public rk)) as [rid|] eqn:Ei; [|done]. intros <-%ok_inj.
  unfold open_payload. rewrite b64_roundtrip, sealed_roundtrip.
  2: { repeat split; cbn [Enc EPK IV CT RID]; (apply b64_encode_plain || by apply (KeyID_plain _ _ Ei)). }
  cbn [Enc EPK IV CT RID]. rewrite bool_decide_eq_true_2 by done. cbn [negb].
  rewrite (law_usable rk Eu), !b64_roundtrip, (law_point eph Ee), (law_dh _ _ _ Ed), Ek, Eg.
  unfold gcm_open. rewrite bool_decide_eq_true_2 by (by apply (law_rand _ w1 _ w2)).
  by rewrite law_gcm by (by apply (law_rand _ w1 _ w2)).
Qed.

(** C34. What Seal returns, Open with the recipient's private and the signer's public key turns
    back into the plaintext, for every plaintext and every outcome of the random draws. *)
Theorem Seal_Open pt rk sk (w : W) token w' :
  Seal pt (Some (public rk)) (Some sk) w = (Some (Ok token), w') ->
  Open token (Some rk) (Some (public sk)) = Some (Ok pt).
Proof.
  unfold Seal. destruct (seal_payload pt (public rk) w) as [[[payload|e]|] w1] eqn:Ep; [|done..].
  destruct (signES256 sk payload w1) as [[[sig|e]|] w2] eqn:Es; [|done..].
  destruct (KeyID (public sk)) as [sid|] eqn:Ei; [|done]. intros <-%ok_inj.
  assert (Hpl : plain payload = true).
  { unfold seal_payload in Ep. repeat case_match; try done. apply ok_inj in Ep as <-. apply b64_encode_plain. }
  unfold Open. rewrite b64_roundtrip, outer_roundtrip.
  2: { repeat split; cbn [Alg SID Payload Sig]; (apply b64_encode_plain || done || by apply (KeyID_plain _ _ Ei)). }
  cbn [Alg SID Payload Sig]. rewrite bool_decide_eq_true_2 by done. cbn [negb].
  rewrite b64_roundtrip, (sign_verify _ _ _ _ _ Es). cbn [negb]. by apply (open_sealed pt rk w payload w1).
Qed.

(** The payload of a token and the signature it carries for it. *)
Definition carries (token payload : string) (r s : Z) : Prop :=
  exists envJSON env rb sb, b64_decode token = Some envJSON /\ outer_of envJSON = Some env
    /\ payload = Payload env /\ b64_decode (Sig env) = Some (rb +:+ sb)
    /\ String.length rb = 32%nat /\ String.length sb = 32%nat /\ r = SetBytes rb /\ s = SetBytes sb.

(** C14. Open authenticates.  Assume that the signature the token carries is no forgery (if
    ECDSA accepts it for the token's payload under the signer's key, the owner of that key
    signed that payload) and that the key signs only payloads Seal builds.  Then whatever Open
    accepts, the payload it was given is one the owner sealed and signed; and when that payload
    was sealed to the recipient who opens it, the plaintext returned is exactly the one sealed. *)
Theorem Open_authentic token rk sk m (signed : list string) :
  (forall payload r s, carries token payload r s ->
     ecdsa_Verify (public sk) (sha256 payload) r s = true -> payload ∈ signed) ->
  (forall p, p ∈ signed -> exists pt R (w w' : W), seal_payload pt R w = (Some (Ok p), w')) ->
  Open token (Some rk) (Some (public sk)) = Some (Ok m) ->
  exists p r s, carries token p r s /\ p ∈ signed
    /\ exists pt R (w w' : W), seal_payload pt R w = (Some (Ok p), w') /\ (R = public rk -> m = pt).
Proof.
  intros Hu Hs. unfold Open. destruct (b64_decode token) as [envJSON|] eqn:Et; [|done].
  destruct (outer_of envJSON) as [env|] eqn:Eo; [|done]. case_bool_decide; [|done]. cbn [negb].
  destruct (b64_decode (Sig env)) as [sig|] eqn:Eg; [|done].
  destruct (verifyES256 (public sk) (Payload env) sig) eqn:Ev; [|done]. cbn [negb]. intros Ho.
  unfold verifyES256 in Ev. case_bool_decide as Hl; [|done].
  assert (Hc : carries token (Payload env) (SetBytes (String.substring 0 32 sig)) (SetBytes (String.substring 32 32 sig))).
  { exists envJSON, env, (String.substring 0 32 sig), (String.substring 32 32 sig).
    rewrite <- substring_split, !substring_length by lia. by split_and!. }
  pose proof (Hu _ _ _ Hc Ev) as Hin. eexists _, _, _. split; [exact Hc|]. split; [done|].
  destruct (Hs _ Hin) as (pt & R & w & w' & Hp). exists pt, R, w, w'. split; [done|].
  intros ->. rewrite (open_sealed _ _ _ _ _ Hp) in Ho. by injection Ho.
Qed.

(** A token whose signature does not verify is answered with an error that does not depend
    on the recipient's key: nothing of it is decrypted, and Open cannot be used as an oracle on
    forged ciphertexts. *)
Theorem Open_rejects_unsigned token pub rk :
  (forall envJSON env sig, b64_decode token = Some envJSON -> outer_of envJSON = Some env ->
     b64_decode (Sig env) = Some sig -> verifyES256 pub (Payload env) sig = false) ->
  exists e, Open token (Some rk) (Some pub) = Some (Err e)
    /\ forall rk', Open token (Some rk') (Some pub) = Some (Err e).
Proof.
  intros Hv. unfold Open. destruct (b64_decode token) as [envJSON|]; [|by eexists].
  destruct (outer_of envJSON) as [env|] eqn:Eo; [|by eexists]. case_bool_decide; cbn [negb]; [|by eexists].
  destruct (b64_decode (Sig env)) as [sig|] eqn:Es; [|by eexists]. rewrite (Hv _ _ _ eq_refl Eo Es). by eexists.
Qed.
End theorems.

(** ** A toy cryptography that satisfies the laws *)

(** Keys are small numbers, the digest is the text itself, and a signature holds the key and
    the length of the digest. *)
Definition pad32 (s : string) : string := String.substring 0 32 (s +:+ be_bytes 32 0).
Definition toy_ok (k : Z) : bool := (0 <? k) && (k <? 1000).

Definition toy : Crypto Z Z nat := {|
  public k := k;
  coords k := (k, k);
  on_p256 _ := true;
  pub_ECDH k := if toy_ok k then None else Some (NewErr "unsupported");
  priv_ECDH k := if toy_ok k then None else Some (NewErr "unsupported");
  point_bytes := itoa;
  NewPublicKey s := match atoi s with Some k => Ok k | None => Err (NewErr "invalid point") end;
  dh a b := Ok (itoa (a * b));
  hkdf_read s _ := Ok (pad32 s);
  sha256 s := s;
  gcm_Seal _ _ m := m;
  gcm_Open _ _ c := Ok c;
  ecdsa_Verify k d r s := (r =? k) && (s =? Z.of_nat (String.length d));
  ecdsa_GenerateKey n := (Ok (Z.of_nat (S n)), S n);
  rand_Read n w := (Ok (be_bytes n 7), w);
  ecdsa_Sign k d w := (Ok (k, Z.of_nat (String.length d)), w);
  pkcs8_marshal k := Ok (itoa k);
  pkix_marshal k := Ok (itoa k);
  pem_encode _ der := der;
  pem_decode := Some;
  pkcs8_parse s := match atoi s with Some k => Ok (Some k) | None => Err (NewErr "asn1") end;
  sec1_parse _ := Err (NewErr "asn1");
  pkix_parse s := match atoi s with Some k => Ok (Some k) | None => Err (NewErr "asn1") end
|}.

Lemma toy_laws : @CryptoLaws Z Z nat toy.
Proof.
  split; cbn.
  - done.
  - intros a b s [= <-]. by rewrite Z.mul_comm.
  - intros a Ha. unfold toy_ok in Ha. destruct (Z.ltb_spec 0 a), (Z.ltb_spec a 1000); try done.
    rewrite atoi_itoa; [done|]. apply int64_ok_iff. unfold min_int64, max_int64. lia.
  - intros n w b w' [= <- _]. apply be_bytes_length.
  - done.
  - intros a d w r s w' [= <- <- _]. by rewrite !Z.eqb_refl.
Qed.

(** The payload sealed for key 7, and the token the signer 5 makes of it. *)
Definition toy_payload : string :=
  match (@seal_payload _ _ _ toy "hello" 7 0%nat).1 with Some (Ok p) => p | _ => EmptyString end.
Definition toy_token : string :=
  match (@Seal _ _ _ toy "hello" (Some 7) (Some 5) 0%nat).1 with Some (Ok t) => t | _ => EmptyString end.

Lemma Seal_Open_witness :
  @Open _ _ _ toy toy_token (Some 7) (Some 5) = Some (Ok "hello").
Proof.
  pose proof (toy_laws) as Hl.
  apply (@Seal_Open _ _ _ toy Hl "hello" 7 5 0%nat toy_token 1%nat). vm_compute. reflexivity.
Defined.

Lemma Open_authentic_witness :
  exists p r s, carries toy_token p r s /\ p ∈ [toy_payload]
    /\ exists pt R (w w' : nat), @seal_payload _ _ _ toy pt R w = (Some (Ok p), w') /\ (R = 7 -> "hello" = pt).
Proof.
  apply (@Open_authentic _ _ _ toy toy_laws toy_token 7 5 "hello" [toy_payload]).
  - intros payload r s (envJSON & env & rb & sb & E1 & E2 & -> & _) _.
    vm_compute in E1. injection E1 as <-. vm_compute in E2. injection E2 as <-. vm_compute. by left.
  - intros p ->%list_elem_of_singleton. exists "hello", 7, 0%nat, 1%nat. vm_compute. reflexivity.
  - vm_compute. reflexivity.
Defined.

Lemma Open_rejects_unsigned_witness :
  exists e, @Open _ _ _ toy toy_token (Some 7) (Some 6) = Some (Err e)
    /\ forall rk', @Open _ _ _ toy toy_token (Some rk') (Some 6) = Some (Err e).
Proof.
  apply (@Open_rejects_unsigned _ _ _ toy toy_token 6 7).
  intros envJSON env sig E1 E2 E3. vm_compute in E1. injection E1 as <-. vm_compute in E2. injection E2 as <-.
  vm_compute in E3. injection E3 as <-. vm_compute. reflexivity.
Defined.

(** A signer can make Open panic: the nonce of a payload is used at any length. *)
Definition short_nonce : string :=
  b64_encode (sealed_json (mkSealed encAlg (b64_encode "7") (b64_encode "short") (b64_encode "x") EmptyString)).
Example Open_panics_on_nonce :
  @open_payload _ _ _ toy short_nonce 7 = None.
Proof. vm_compute. reflexivity. Qed.
