(* ===== verification/Url.v ===== *)
(** * Url: [net/url]'s escaping, as the request paths use it

    PathEscape and QueryEscape over bytes; escaping loses nothing, and an
    escaped segment holds no byte that ends a segment or the path. *)

From S2P Require Import Prelude GoStrings Request.

Definition is_alnum (c : ascii) : bool :=
  let b := byte_of c in
  ((97 <=? b) && (b <=? 122)) || ((65 <=? b) && (b <=? 90)) || is_digit c.

(** shouldEscape = false: unreserved bytes, and in a path segment $ & + = : @ as well. *)
Definition unreserved (c : ascii) : bool := is_alnum c || contains_char c "-_.~".
Definition segment_char (c : ascii) : bool := unreserved c || contains_char c "$&+=:@".

Definition upper_hex (n : Z) : ascii := ascii_of_byte (if n <? 10 then 48 + n else 55 + n).
Definition percent (c : ascii) (rest : string) : string :=
  String "%" (String (upper_hex (byte_of c / 16)) (String (upper_hex (byte_of c mod 16)) rest)).

Fixpoint PathEscape (s : string) : string :=
  match s with
  | EmptyString => EmptyString
  | String c s => if segment_char c then String c (PathEscape s) else percent c (PathEscape s)
  end.

Fixpoint QueryEscape (s : string) : string :=
  match s with
  | EmptyString => EmptyString
  | String c s => if unreserved c then String c (QueryEscape s)
                  else if Ascii.eqb c " " then String "+" (QueryEscape s)
                  else percent c (QueryEscape s)
  end.

(** url.PathUnescape; [None] is its error. *)
Fixpoint PathUnescape (s : string) : option string :=
  match s with
  | EmptyString => Some EmptyString
  | String c s' =>
      if Ascii.eqb c "%" then
        match s' with
        | String h1 (String h2 s'') =>
            match hex_value h1, hex_value h2, PathUnescape s'' with
            | Some a, Some b, Some t => Some (String (ascii_of_byte (16 * a + b)) t)
            | _, _, _ => None
            end
        | _ => None
        end
      else String c <$> PathUnescape s'
  end.

(** ** Lemmas *)

Lemma byte_of_hex n : 0 <= n < 16 -> byte_of (upper_hex n) = if n <? 10 then 48 + n else 55 + n.
Proof. intros H. unfold upper_hex. apply byte_of_ascii. destruct (n <? 10); lia. Qed.

Lemma hex_upper n : 0 <= n < 16 -> hex_value (upper_hex n) = Some n.
Proof.
  intros H. unfold hex_value. rewrite byte_of_hex by done.
  destruct (Z.ltb_spec n 10); repeat case_match; bools; try lia; f_equal; lia.
Qed.

Lemma PathUnescape_percent c t : PathUnescape (percent c t) = String c <$> PathUnescape t.
Proof.
  pose proof (byte_of_range c) as Hc. unfold percent. cbn [PathUnescape].
  change (Ascii.eqb "%" "%") with true. cbn iota.
  rewrite !hex_upper by (split; [apply Z.div_pos||apply Z.mod_pos_bound|apply Z.div_lt_upper_bound||apply Z.mod_pos_bound]; lia).
  destruct (PathUnescape t) as [u|]; [|done]. cbn. by rewrite <- Z.div_mod, ascii_of_byte_of.
Qed.

Lemma PathUnescape_PathEscape s : PathUnescape (PathEscape s) = Some s.
Proof.
  induction s as [|c s IH]; [done|]. cbn [PathEscape]. destruct (segment_char c) eqn:E.
  - cbn. rewrite IH. destruct (Ascii.eqb_spec c "%") as [->|]; [by vm_compute in E|done].
  - rewrite PathUnescape_percent, IH. done.
Qed.

Lemma PathEscape_inj s t : PathEscape s = PathEscape t -> s = t.
Proof. intros H. apply (f_equal PathUnescape) in H. rewrite !PathUnescape_PathEscape in H. congruence. Qed.

(** What may occur in an escaped segment. *)
Definition path_char (c : ascii) : bool := segment_char c || Ascii.eqb c "%".

Lemma hex_path_char n : 0 <= n < 16 -> path_char (upper_hex n) = true.
Proof.
  intros H. unfold path_char, segment_char, unreserved, is_alnum, is_digit. rewrite !byte_of_hex by done.
  destruct (Z.ltb_spec n 10); lia.
Qed.

Lemma PathEscape_chars s : all_chars path_char (PathEscape s) = true.
Proof.
  induction s as [|c s IH]; [done|]. cbn [PathEscape]. destruct (segment_char c) eqn:E.
  - cbn. rewrite IH. unfold path_char. by rewrite E.
  - pose proof (byte_of_range c). cbn. rewrite IH, !hex_path_char; [done|..].
    + apply Z.mod_pos_bound. lia.
    + split; [apply Z.div_pos; lia|apply Z.div_lt_upper_bound; lia].
Qed.

Lemma PathEscape_no_char c s : path_char c = false -> contains_char c (PathEscape s) = false.
Proof. intros H. eapply all_chars_no_char; [exact H|apply PathEscape_chars]. Qed.

(** A path of escaped segments splits into exactly these. *)
Lemma split_segments parts :
  parts <> [] -> split "/" (join "/" (map PathEscape parts)) = map PathEscape parts.
Proof.
  intros H. apply (split_join "/"); [by destruct parts|]. apply List.Forall_map, Forall_true.
  intros p. by apply PathEscape_no_char.
Qed.

(** ** Query strings *)

Lemma query_unescape_percent c t : query_unescape (percent c t) = String c <$> query_unescape t.
Proof.
  pose proof (byte_of_range c) as Hc. unfold percent. cbn [query_unescape].
  change (Ascii.eqb "%" "%") with true. cbn iota.
  rewrite !hex_upper by (Z.to_euclidean_division_equations; lia).
  destruct (query_unescape t); [|done]. cbn. rewrite <- Z.div_mod by lia. by rewrite ascii_of_byte_of.
Qed.
Lemma query_unescape_QueryEscape s : query_unescape (QueryEscape s) = Some s.
Proof.
  induction s as [|c s IH]; [done|]. cbn [QueryEscape]. destruct (unreserved c) eqn:E; [|destruct (Ascii.eqb_spec c " ") as [->|]].
  - cbn. rewrite IH. destruct (Ascii.eqb_spec c "%") as [->|]; [by vm_compute in E|].
    destruct (Ascii.eqb_spec c "+") as [->|]; [by vm_compute in E|done].
  - cbn. by rewrite IH.
  - by rewrite query_unescape_percent, IH.
Qed.

Definition query_char (c : ascii) : bool := unreserved c || contains_char c "+%".
Lemma hex_query_char n : 0 <= n < 16 -> query_char (upper_hex n) = true.
Proof.
  intros H. unfold query_char, unreserved, is_alnum, is_digit. rewrite !byte_of_hex by done. destruct (Z.ltb_spec n 10); lia.
Qed.
Lemma QueryEscape_chars s : all_chars query_char (QueryEscape s) = true.
Proof.
  induction s as [|c s IH]; [done|]. pose proof (byte_of_range c) as Hc. cbn [QueryEscape].
  destruct (unreserved c) eqn:E; [|destruct (Ascii.eqb c " ")].
  - cbn. rewrite IH. unfold query_char. by rewrite E.
  - cbn. by rewrite IH.
  - unfold percent. cbn [all_chars]. rewrite IH, !hex_query_char by (Z.to_euclidean_division_equations; lia). done.
Qed.
Lemma QueryEscape_no_char c s : query_char c = false -> contains_char c (QueryEscape s) = false.
Proof. intros H. eapply all_chars_no_char; [exact H|apply QueryEscape_chars]. Qed.

(** The keys of a map. *)
Definition keys_of {A} (m : gmap string A) : list string := map fst (map_to_list m).
Lemma elem_of_keys_of {A} (m : gmap string A) k : k ∈ keys_of m <-> is_Some (m !! k).
Proof.
  unfold keys_of. rewrite list_elem_of_In, in_map_iff. split.
  - intros ([k' v] & <- & Hin). exists v. by apply elem_of_map_to_list, list_elem_of_In.
  - intros [v Hv]. exists (k, v). split; [done|]. by apply list_elem_of_In, elem_of_map_to_list.
Qed.

(** url.Values.Encode, of keys with one value each. *)
Definition encode_pair (kv : string * string) : string := QueryEscape kv.1 +:+ "=" +:+ QueryEscape kv.2.
Definition Encode (q : gmap string string) : string :=
  join "&" (map (fun k => encode_pair (k, default EmptyString (q !! k))) (sort_strings (keys_of q))).

Lemma query_pair_encode k v m : query_pair (encode_pair (k, v)) m = <[k := default [] (m !! k) ++ [v]]> m.
Proof.
  unfold query_pair, encode_pair. cbn [fst snd].
  rewrite bool_decide_eq_false_2 by (by destruct (QueryEscape k)).
  rewrite !contains_char_app, !QueryEscape_no_char by done. cbn [orb contains_char].
  change ("=" +:+ ?t) with (String "=" t). rewrite (cut_app_sep _ _ "=") by (by apply cut_None, QueryEscape_no_char).
  by rewrite !query_unescape_QueryEscape.
Qed.

Lemma fold_encoded (q : gmap string string) ks (m : values) : NoDup ks -> (forall k, k ∈ ks -> m !! k = None /\ is_Some (q !! k)) ->
  let m' := fold_left (fun m p => query_pair p m) (map (fun k => encode_pair (k, default EmptyString (q !! k))) ks) m in
  forall k, m' !! k = if bool_decide (k ∈ ks) then (fun v => [v]) <$> q !! k else m !! k.
Proof.
  cbv zeta. intros Hnd. revert m. induction Hnd as [|k ks Hk Hnd IH]; intros m Hm k'; cbn [map fold_left].
  - by rewrite bool_decide_eq_false_2 by apply not_elem_of_nil.
  - destruct (Hm k ltac:(left)) as [Hn [v Hv]]. rewrite query_pair_encode, Hn, Hv. cbn [default id app].
    rewrite IH.
    + destruct (decide (k' = k)) as [->|Hne].
      * rewrite bool_decide_eq_false_2, bool_decide_eq_true_2 by (done || by left). by rewrite lookup_insert_eq, Hv.
      * rewrite lookup_insert_ne by done. destruct (decide (k' ∈ ks)) as [Hin|Hin].
        -- rewrite !bool_decide_eq_true_2 by (done || by right). done.
        -- rewrite !bool_decide_eq_false_2 by (done || by rewrite elem_of_cons; intros [|]). done.
    + intros k0 Hk0. rewrite lookup_insert_ne by (intros ->; done). apply Hm. by right.
Qed.

(** A server reads back exactly the values that were encoded. *)
Lemma url_query_Encode q : q <> ∅ -> url_query (Encode q) = (fun v => [v]) <$> q.
Proof.
  intros Hq. unfold url_query, Encode. set (ks := sort_strings (keys_of q)).
  assert (Hks : forall k, k ∈ ks <-> is_Some (q !! k)).
  { intros k. subst ks. rewrite sort_strings_Permutation. apply elem_of_keys_of. }
  rewrite (split_join "&").
  - apply map_eq. intros k. rewrite fold_encoded.
    + rewrite lookup_fmap. case_bool_decide as Hin; [done|]. rewrite Hks in Hin. rewrite lookup_empty.
      destruct (q !! k) eqn:E; [by destruct Hin|done].
    + subst ks. rewrite sort_strings_Permutation. apply NoDup_fst_map_to_list.
    + intros k1 Hin. rewrite lookup_empty. split; [done|]. by apply Hks.
  - intros E. apply map_eq_nil in E. apply Hq, map_eq. intros k. rewrite lookup_empty. destruct (q !! k) eqn:Eq; [|done].
    assert (Hin : k ∈ ks) by (apply Hks; by rewrite Eq). rewrite E in Hin. by apply not_elem_of_nil in Hin.
  - apply List.Forall_map, Forall_true. intros k. unfold encode_pair. rewrite !contains_char_app, !QueryEscape_no_char by done. done.
Qed.
