(* ===== verification/Elastic.v ===== *)
(** * Elastic: database/elasticsearch/client and indexing — requests, bulk writes, synchronisation

    The cluster is an interface, [Es]: it answers a request with a status and a
    body.  Bodies are kept as JSON trees: a request's are what was marshalled, a
    response's what its text parses to, if it does.  Transport set-up, tracing
    and logging are left out. *)

From S2P Require Import Prelude GoStrings Http Errors Decode GoFloat Backoff Breaker Retry.

(** ** client.go *)

(** A response body: its text, and what it parses to. *)
Record payload := mkPayload { text : string; parsed : option json }.

Inductive es_body := NoBody | JsonBody (j : json) | NdJson (lines : list json).

(** [es_request]: whether net/http refuses to build a request of that method and URL.
    [es_perform]: a transport failure, or a status with a body that can fail to be read. *)
Class Es (W : Type) := {
  es_request : string -> string -> error;
  es_perform : string -> string -> es_body -> W -> res (Z * res payload) * W
}.

Definition error_fields (p : payload) : option (string * string) :=
  match parsed p with
  | None => None
  | Some j =>
      match dec_fields (Some j) with
      | Ok (Some fs) =>
          match dec_fields (jfield "error" fs) with
          | Ok (Some es) => match dec_string (jfield "type" es), dec_string (jfield "reason" es) with
                            | Ok t, Ok r => Some (t, r)
                            | _, _ => None
                            end
          | Ok None => Some (EmptyString, EmptyString)
          | Err _ => None
          end
      | Ok None => Some (EmptyString, EmptyString)
      | Err _ => None
      end
  end.

Definition extractESError (p : payload) : string :=
  let plain := let s := trim_space (text p) in
               if 300 <? Z.of_nat (String.length s) then String.substring 0 300 s else s in
  match error_fields p with
  | Some (t, r) => if bool_decide (r = EmptyString) then plain else t +:+ ": " +:+ r
  | None => plain
  end.

Definition IsNotFound (err : error) : bool :=
  match err with
  | None => false
  | Some e => match as_dx e with Some d => bool_decide (code d = ErrNotFound) | None => false end
  end.

Section client.
Context {W : Type} `{Es W}.

(** [body]: nil, or what marshalling it gave. *)
Definition Do (method path : string) (body : option (res json)) (w : W) : res payload * W :=
  match body with
  | Some (Err e) => (Err (wrapf "elastic: marshal request" e), w)
  | _ =>
      let b := match body with Some (Ok j) => JsonBody j | _ => NoBody end in
      match es_request method path with
      | Some e => (Err (wrapf "elastic: build request" e), w)
      | None =>
          match es_perform method path b w with
          | (Err e, w) => (Err (wrapf "elasticsearch unreachable" e), w)
          | (Ok (_, Err e), w) => (Err (wrapf "elastic: read response" e), w)
          | (Ok (status, Ok p), w) =>
              if 400 <=? status then
                let detail := extractESError p in
                (Err (DxErr
                   (if status =? 404 then NewNotFound detail []
                    else if status =? 400 then NewValidation detail []
                    else if status =? 409 then NewConflict detail []
                    else NewInternal ("elasticsearch " +:+ itoa status +:+ ": " +:+ detail) [])), w)
              else (Ok p, w)
          end
      end
  end.

Definition DoNDJSON (path : string) (lines : list json) (w : W) : res payload * W :=
  match es_request "POST" path with
  | Some e => (Err (wrapf "elastic: build bulk request" e), w)
  | None =>
      match es_perform "POST" path (NdJson lines) w with
      | (Err e, w) => (Err (wrapf "elastic: bulk request" e), w)
      | (Ok (_, Err e), w) => (Err (wrapf "elastic: read response" e), w)
      | (Ok (status, Ok p), w) =>
          if 400 <=? status
          then (Err (NewErr ("elastic: bulk status " +:+ itoa status +:+ ": " +:+ extractESError p)), w)
          else (Ok p, w)
      end
  end.

(** health.go *)
Definition ClusterHealth (w : W) : res string * W :=
  match Do "GET" "/_cluster/health" None w with
  | (Err e, w) => (Err e, w)
  | (Ok p, w) =>
      match (match parsed p with
             | None => Err json_error
             | Some j => match dec_fields (Some j) with
                         | Ok (Some fs) => dec_string (jfield "status" fs)
                         | Ok None => Ok EmptyString
                         | Err e => Err e
                         end
             end) with
      | Ok s => (Ok s, w)
      | Err e => (Err (wrapf "elastic: decode cluster health" e), w)
      end
  end.

Definition HealthCheck (w : W) : error * W :=
  match ClusterHealth w with
  | (Err e, w) => (Some e, w)
  | (Ok status, w) =>
      (if bool_decide (status = "red") then Some (NewErr "elasticsearch cluster status is red") else None, w)
  end.

(** ** indexing/reindex.go *)
Definition Reindex (src dst script : string) (w : W) : error * W :=
  let body := JObj ([("dest", JObj [("index", JStr dst)])]
                    ++ (if bool_decide (script = EmptyString) then []
                        else [("script", JObj [("lang", JStr "painless"); ("source", JStr script)])])
                    ++ [("source", JObj [("index", JStr src)])]) in
  match Do "POST" "/_reindex?wait_for_completion=true" (Some (Ok body)) w with
  | (Err e, w) => (Some e, w)
  | (Ok _, w) => (None, w)
  end.
End client.

(** ** indexing/bulk.go *)

Record ItemError := mkItemError { ie_ID : string; ie_Reason : string }.
Record BulkStats := mkStats { Indexed : Z; Failed : Z; stat_Errors : list ItemError }.
Definition no_stats : BulkStats := mkStats 0 0 [].

(** [op_doc]: what marshalling the document gave. *)
Record BulkOp := mkOp { op_action : string; op_id : string; op_doc : res json }.
Definition IndexOp (id : string) (doc : res json) : BulkOp := mkOp "index" id doc.
Definition UpdateOp (id : string) (partial : res json) : BulkOp := mkOp "update" id partial.
Definition DeleteOp (id : string) : BulkOp := mkOp "delete" id (Ok JNull).

(** Maps are marshalled with sorted keys. *)
Definition bulk_meta (index : string) (op : BulkOp) : json :=
  JObj [(op_action op, JObj [("_id", JStr (op_id op)); ("_index", JStr index)])].

(** The lines of one operation. *)
Definition op_lines (index : string) (op : BulkOp) : res (list json) :=
  let meta := bulk_meta index op in
  if bool_decide (op_action op = "index") then
    match op_doc op with
    | Err e => Err (wrapf ("elastic: marshal bulk doc " +:+ op_id op) e)
    | Ok d => Ok [meta; d]
    end
  else if bool_decide (op_action op = "update") then
    match op_doc op with
    | Err e => Err (wrapf ("elastic: marshal bulk update " +:+ op_id op) e)
    | Ok d => Ok [meta; JObj [("doc", d)]]
    end
  else if bool_decide (op_action op = "delete") then Ok [meta]
  else Err (NewErr ("elastic: unknown bulk action " +:+ quoted (op_action op) +:+ " for " +:+ op_id op)).

Fixpoint bulk_lines (index : string) (ops : list BulkOp) : res (list json) :=
  match ops with
  | [] => Ok []
  | op :: ops => match op_lines index op with
                 | Err e => Err e
                 | Ok ls => match bulk_lines index ops with Err e => Err e | Ok ls' => Ok (ls ++ ls') end
                 end
  end.

(** One item of the response: an object whose values are results (the API sends one per item). *)
Definition add_result (st : res BulkStats) (result : json) : res BulkStats :=
  match st with
  | Err e => Err e
  | Ok st =>
      match dec_fields (Some result) with
      | Err e => Err e
      | Ok fs =>
          let fs := default [] fs in
          match dec_string (jfield "_id" fs), dec_fields (jfield "error" fs) with
          | Ok id, Ok None => Ok (mkStats (Indexed st + 1) (Failed st) (stat_Errors st))
          | Ok id, Ok (Some es) =>
              match dec_string (jfield "type" es), dec_string (jfield "reason" es) with
              | Ok t, Ok r => Ok (mkStats (Indexed st) (Failed st + 1)
                                          (stat_Errors st ++ [mkItemError id (t +:+ ": " +:+ r)]))
              | _, _ => Err json_error
              end
          | _, _ => Err json_error
          end
      end
  end.

Definition add_item (st : res BulkStats) (item : json) : res BulkStats :=
  match dec_fields (Some item) with
  | Err e => Err e
  | Ok fs => fold_left add_result (snd <$> default [] fs) st
  end.

Definition parse_items (j : json) : res BulkStats :=
  match dec_fields (Some j) with
  | Err e => Err e
  | Ok fs => match jfield "items" (default [] fs) with
             | None | Some JNull => Ok no_stats
             | Some (JArr items) => fold_left add_item items (Ok no_stats)
             | Some _ => Err json_error
             end
  end.

Definition parseBulkResponse (raw : payload) : res BulkStats :=
  match (match parsed raw with None => Err json_error | Some j => parse_items j end) with
  | Err e => Err (wrapf "elastic: decode bulk response" e)
  | ok => ok
  end.

Section bulk.
Context {W : Type} `{World W} `{Es W}.

Definition bulk_policy (maxAttempts : Z) : Policy :=
  NewPolicy [WithMaxAttempts maxAttempts; WithBaseDelay (100 * Millisecond)].

(** The retried function: raw is a variable of the closure. *)
Definition send_bulk (lines : list json) (w : W * payload) : fnres * (W * payload) :=
  match DoNDJSON "/_bulk" lines w.1 with
  | (Err e, w') => (FnRet (Some e), (w', w.2))
  | (Ok r, w') => (FnRet None, (w', r))
  end.

(** None = the call panicked (the policy cannot; see [BulkDo_returns]). *)
Definition BulkDo (index : string) (ops : list BulkOp) (maxAttempts : Z) (w : W)
  : option (res BulkStats * W) :=
  match ops with
  | [] => Some (Ok no_stats, w)
  | _ =>
      let maxAttempts := if maxAttempts <=? 0 then 3 else maxAttempts in
      match bulk_lines index ops with
      | Err e => Some (Err e, w)
      | Ok lines =>
          match Retry (bulk_policy maxAttempts) (send_bulk lines) [] (w, mkPayload EmptyString None) with
          | (FnPanic, _, _) => None
          | (FnRet (Some e), (w, _), _) =>
              Some (Err (wrapf ("elastic: bulk failed after " +:+ itoa maxAttempts +:+ " attempts") e), w)
          | (FnRet None, (w, raw), _) => Some (parseBulkResponse raw, w)
          end
      end
  end.

(** [docs]: the map in the order it is visited. *)
Definition BulkIndexWithRetry (index : string) (docs : list (string * res json)) (maxAttempts : Z) (w : W)
  : option (res BulkStats * W) :=
  BulkDo index (map (fun d => IndexOp d.1 d.2) docs) maxAttempts w.

Definition BulkIndex (index : string) (docs : list (string * res json)) (w : W) : error * W :=
  match docs with
  | [] => (None, w)
  | _ =>
      match bulk_lines index (map (fun d => IndexOp d.1 d.2) docs) with
      | Err e => (Some e, w)
      | Ok lines =>
          match DoNDJSON "/_bulk" lines w with
          | (Err e, w) => (Some e, w)
          | (Ok p, w) =>
              match (match parsed p with
                     | None => Err json_error
                     | Some j => match dec_fields (Some j) with
                                 | Ok fs => dec_bool (jfield "errors" (default [] fs))
                                 | Err e => Err e
                                 end
                     end) with
              | Err e => (Some (wrapf "elastic: decode bulk response" e), w)
              | Ok true => (Some (NewErr "elastic: bulk request reported item failures"), w)
              | Ok false => (None, w)
              end
          end
      end
  end.
End bulk.

(** ** indexing/sync.go *)

Record Doc := mkDoc { doc_ID : string; doc_Body : res json }.
Record Report := mkReport { Batches : Z; rep_Indexed : Z; rep_Failed : Z; rep_Errors : list ItemError }.

Section sync.
Context {W : Type} `{World W} `{Es W}.
Variable range : gmap string (res json) -> list (string * res json).  (* how the map is visited *)
Variable Next : W -> res (list Doc * bool) * W.
Variable OnBatch : option (BulkStats -> W -> W).

Definition keyed_docs (batch : list Doc) : gmap string (res json) :=
  fold_left (fun m d => if bool_decide (doc_ID d = EmptyString) then m else <[doc_ID d := doc_Body d]> m) batch ∅.

Definition sync_ops (batch : list Doc) : list BulkOp :=
  map (fun d => IndexOp EmptyString (doc_Body d)) (List.filter (fun d => bool_decide (doc_ID d = EmptyString)) batch)
  ++ map (fun kv => IndexOp kv.1 kv.2) (range (keyed_docs batch)).

(** Sync; [fuel] bounds the batches (outer None), as does a panic of BulkDo. *)
Fixpoint Sync (fuel : nat) (index : string) (maxAttempts : Z) (rep : Report) (w : W)
  : option (Report * error * W) :=
  match fuel with
  | O => None
  | S fuel =>
      match ctx_err w with
      | Some e => Some (rep, Some e, w)
      | None =>
          match Next w with
          | (Err e, w) => Some (rep, Some e, w)
          | (Ok (batch, done), w) =>
              match (match batch with
                     | [] => Some (Ok rep, w)
                     | _ => match BulkDo index (sync_ops batch) maxAttempts w with
                            | None => None
                            | Some (Err e, w) => Some (Err e, w)
                            | Some (Ok st, w) =>
                                Some (Ok (mkReport (Batches rep + 1) (rep_Indexed rep + Indexed st)
                                            (rep_Failed rep + Failed st) (rep_Errors rep ++ stat_Errors st)),
                                      match OnBatch with Some f => f st w | None => w end)
                            end
                     end) with
              | None => None
              | Some (Err e, w) => Some (rep, Some e, w)
              | Some (Ok rep, w) => if (done : bool) then Some (rep, None, w) else Sync fuel index maxAttempts rep w
              end
          end
      end
  end.
End sync.

(** ** indexing/worker.go *)

Record Worker := mkWorker { wk_Name : string; wk_Interval : Z; wk_Jitter : Z; RunOnStart : bool }.

Section worker.
Context {W : Type} `{World W}.
Variable job : option (W -> fnres * W).

(** A panic of the job is recovered and its error only logged. *)
Definition worker_runOnce (w : W) : W := match job with Some f => (f w).2 | None => w end.

Definition nextDelay (wk : Worker) (w : W) : Z :=
  if wk_Jitter wk <=? 0 then wk_Interval wk
  else let delta := rand63n w (wrap64 (2 * wk_Jitter wk + 1)) - wk_Jitter wk in
       let d := wrap64 (wk_Interval wk + delta) in
       if d <? 0 then 0 else d.

Fixpoint worker_loop (fuel : nat) (wk : Worker) (w : W) : option (error * W) :=
  match fuel with
  | O => None
  | S fuel =>
      match wait (nextDelay wk w) w with
      | (false, w) => Some (ctx_err w, w)
      | (true, w) => worker_loop fuel wk (worker_runOnce w)
      end
  end.

Definition worker_Start (fuel : nat) (wk : Worker) (w : W) : option (error * W) :=
  if wk_Interval wk <=? 0
  then Some (Some (NewErr ("elastic indexing.Worker " +:+ quoted (wk_Name wk) +:+ ": Interval must be > 0")), w)
  else match job with
       | None => Some (Some (NewErr ("elastic indexing.Worker " +:+ quoted (wk_Name wk) +:+ ": Job is required")), w)
       | Some _ => worker_loop fuel wk (if RunOnStart wk then worker_runOnce w else w)
       end.
End worker.

(** ** What the bulk API reads *)

Inductive entry :=
  | EIndex (index id : string) (doc : json)
  | EUpdate (index id : string) (partial : json)
  | EDelete (index id : string).

Definition read_meta (j : json) : option (string * string * string) :=
  match j with
  | JObj [(action, JObj [(k1, JStr id); (k2, JStr index)])] =>
      if bool_decide (k1 = "_id") && bool_decide (k2 = "_index") then Some (action, index, id) else None
  | _ => None
  end.

(** The server's side of the format: a meta line, then a source line except for deletes. *)
Fixpoint read_bulk (fuel : nat) (lines : list json) : option (list entry) :=
  match fuel, lines with
  | _, [] => Some []
  | O, _ => None
  | S fuel, meta :: rest =>
      match read_meta meta with
      | None => None
      | Some (action, index, id) =>
          if bool_decide (action = "delete") then (EDelete index id ::.) <$> read_bulk fuel rest
          else match rest with
               | [] => None
               | src :: rest =>
                   if bool_decide (action = "index") then (EIndex index id src ::.) <$> read_bulk fuel rest
                   else match src with
                        | JObj [(k, d)] =>
                            if bool_decide (action = "update") && bool_decide (k = "doc")
                            then (EUpdate index id d ::.) <$> read_bulk fuel rest else None
                        | _ => None
                        end
               end
      end
  end.

Definition op_entry (index : string) (op : BulkOp) : entry :=
  let d := match op_doc op with Ok d => d | Err _ => JNull end in
  if bool_decide (op_action op = "index") then EIndex index (op_id op) d
  else if bool_decide (op_action op = "update") then EUpdate index (op_id op) d
  else EDelete index (op_id op).

Lemma read_op index op ls rest fuel :
  op_lines index op = Ok ls ->
  read_bulk (S fuel) (ls ++ rest) = (op_entry index op ::.) <$> read_bulk fuel rest.
Proof.
  unfold op_lines, op_entry. destruct op as [action id doc]. cbn [op_action op_id op_doc].
  destruct (decide (action = "index")) as [->|]; [by destruct doc; intros [= <-]|].
  rewrite !(bool_decide_eq_false_2 (action = "index")) by done.
  destruct (decide (action = "update")) as [->|]; [by destruct doc; intros [= <-]|].
  rewrite !(bool_decide_eq_false_2 (action = "update")) by done.
  destruct (decide (action = "delete")) as [->|]; [by intros [= <-]|].
  by rewrite (bool_decide_eq_false_2 (action = "delete")).
Qed.

(** What BulkDo renders is what the server reads: no operation shifts into another's lines. *)
Lemma bulk_roundtrip index ops lines fuel :
  bulk_lines index ops = Ok lines -> (length ops <= fuel)%nat ->
  read_bulk fuel lines = Some (map (op_entry index) ops).
Proof.
  revert lines fuel. induction ops as [|op ops IH]; intros lines fuel; cbn.
  { intros [= <-] _. by destruct fuel. }
  destruct (op_lines index op) as [ls|e] eqn:El; [|done].
  destruct (bulk_lines index ops) as [ls'|e]; [|done]. intros [= <-] Hf. destruct fuel as [|fuel]; [lia|].
  rewrite (read_op _ _ _ _ _ El), (IH ls' fuel) by (done || lia). done.
Qed.

(** ** What the cluster does with a bulk request *)

Definition apply_entry (merge : json -> json -> json) (index : string) (s : gmap string json) (e : entry)
  : gmap string json :=
  match e with
  | EIndex i id d => if bool_decide (i = index) then <[id := d]> s else s
  | EUpdate i id p => if bool_decide (i = index)
                      then match s !! id with Some d => <[id := merge d p]> s | None => s end else s
  | EDelete i id => if bool_decide (i = index) then delete id s else s
  end.

(** The answer of the Bulk API: "items" is an array with one object per operation, in the order
    of the request; its single field, named after the action, is the result, which has an "error"
    object exactly when the operation was not carried out. *)
Definition named (name : string) (fs : list (string * json)) : list (string * json) :=
  List.filter (fun kv => bool_decide (kv.1 = name) || equal_fold kv.1 name) fs.

Inductive bulk_item : json -> bool -> Prop :=
| item_done action fs : named "error" fs = [] -> bulk_item (JObj [(action, JObj fs)]) true
| item_failed action fs es :
    named "error" fs = [("error", JObj es)] -> bulk_item (JObj [(action, JObj fs)]) false.

Definition bulk_answer (j : json) (oks : list bool) : Prop :=
  exists fs items, j = JObj fs /\ named "items" fs = [("items", JArr items)] /\ Forall2 bulk_item items oks.

(** The operations carried out. *)
Fixpoint carried (es : list entry) (oks : list bool) : list entry :=
  match es, oks with
  | e :: es, ok :: oks => if (ok : bool) then e :: carried es oks else carried es oks
  | _, _ => []
  end.

Class EsLaws (W : Type) `{World W} `{Es W} := {
  es_docs : W -> string -> gmap string json;      (* the documents of an index, by id *)
  es_merge : json -> json -> json;                (* of a partial document *)
  (* whatever is answered or lost, some of the operations have been applied, in order *)
  law_bulk lines fuel es w r w' :
    es_perform "POST" "/_bulk" (NdJson lines) w = (r, w') -> read_bulk fuel lines = Some es ->
    exists sub, sub `sublist_of` es /\ forall i, es_docs w' i = fold_left (apply_entry es_merge i) sub (es_docs w i);
  (* an answer that reached the client whole says which *)
  law_bulk_ok lines fuel es w status p j w' :
    es_perform "POST" "/_bulk" (NdJson lines) w = (Ok (status, Ok p), w') -> status < 400 ->
    parsed p = Some j -> read_bulk fuel lines = Some es ->
    exists oks, bulk_answer j oks /\ length oks = length es
      /\ forall i, es_docs w' i = fold_left (apply_entry es_merge i) (carried es oks) (es_docs w i);
  law_es_wait d w : es_docs (wait d w).2 = es_docs w
}.

(** ** What is read from that answer *)

Definition failures (oks : list bool) : Z := Z.of_nat (count_occ bool_dec oks false).

Lemma named_one name fs k j : named name fs = [(k, j)] -> jfield name fs = Some j.
Proof. unfold jfield, named. by intros ->. Qed.

Lemma named_none name fs : named name fs = [] -> jfield name fs = None.
Proof. unfold jfield, named. by intros ->. Qed.

Lemma add_item_failures item ok st st' :
  bulk_item item ok -> add_item (Ok st) item = Ok st' ->
  Failed st' = Failed st + failures [ok] /\ Indexed st' = Indexed st + failures [negb ok].
Proof.
  unfold add_item, failures. intros Hi; inversion Hi as [? ? Hn|? ? ? Hn]; subst; cbn.
  - rewrite (named_none _ _ Hn). cbn. case_match; intros [= <-]; cbn; lia.
  - rewrite (named_one _ _ _ _ Hn). cbn. repeat case_match; intros; simplify_eq; cbn; lia.
Qed.

Lemma add_item_ok st item st' : add_item st item = Ok st' -> exists st0, st = Ok st0.
Proof.
  unfold add_item. destruct (dec_fields _) as [fs|]; [|done]. generalize (snd <$> default [] fs). intros l.
  revert st. induction l as [|x l IH]; intros st; cbn; [by eexists|].
  intros [st1 E]%IH. unfold add_result in E. destruct st as [st|]; [by eexists|done].
Qed.

Lemma add_items_ok items st st' : fold_left add_item items st = Ok st' -> exists st0, st = Ok st0.
Proof.
  revert st. induction items as [|x items IH]; intros st; cbn; [by eexists|].
  intros [st1 E]%IH. by eapply add_item_ok.
Qed.

Lemma add_items_failures items oks st st' :
  Forall2 bulk_item items oks -> fold_left add_item items (Ok st) = Ok st' ->
  Failed st' = Failed st + failures oks.
Proof.
  intros Hi. revert st. induction Hi as [|x ok items oks Hx Hi IH]; intros st; cbn [fold_left].
  { intros [= ->]. unfold failures. cbn. lia. }
  intros Hf. destruct (add_items_ok _ _ _ Hf) as [st1 E]. rewrite E in Hf.
  rewrite (IH _ Hf), (proj1 (add_item_failures _ _ _ _ Hx E)). unfold failures. cbn. destruct (bool_dec ok false); cbn; lia.
Qed.

(** parseBulkResponse counts the operations that were not carried out. *)
Lemma parseBulkResponse_failures p j oks st :
  parsed p = Some j -> bulk_answer j oks -> parseBulkResponse p = Ok st -> Failed st = failures oks.
Proof.
  intros Hp (fs & items & -> & Hn & Hi). unfold parseBulkResponse, parse_items. rewrite Hp. cbn.
  rewrite (named_one _ _ _ _ Hn). destruct (fold_left add_item items (Ok no_stats)) as [st1|] eqn:E; [|done].
  intros [= <-]. by rewrite (add_items_failures _ _ _ _ Hi E).
Qed.

Lemma carried_all es oks : length oks = length es -> failures oks = 0 -> carried es oks = es.
Proof.
  revert oks. induction es as [|e es IH]; intros [|ok oks] Hl Hf; cbn in *; [done..|].
  unfold failures in *. cbn in Hf. destruct ok; cbn in Hf; [|lia]. f_equal. apply IH; lia.
Qed.

Section bulk_spec.
Context {W : Type} `{World W} `{!WorldLaws W} `{!Es W} `{!EsLaws W}.

(** A batch of index operations as documents by id. *)
Definition index_ops (docs : list (string * json)) : list BulkOp := map (fun kv => IndexOp kv.1 (Ok kv.2)) docs.
Definition index_all (docs : list (string * json)) (s : gmap string json) : gmap string json :=
  fold_left (fun s kv => <[kv.1 := kv.2]> s) docs s.

Lemma apply_index_ops merge i docs s :
  fold_left (apply_entry merge i) (map (op_entry i) (index_ops docs)) s = index_all docs s.
Proof.
  unfold index_all. revert s. induction docs as [|[id d] docs IH]; intros s; [done|].
  cbn [index_ops map fold_left fst snd]. rewrite <- IH. f_equal. unfold op_entry. cbn [IndexOp op_action op_id op_doc].
  rewrite bool_decide_eq_true_2 by done. cbn. by rewrite bool_decide_eq_true_2.
Qed.

Lemma index_all_lookup docs s id :
  index_all docs s !! id = match index_all docs ∅ !! id with Some d => Some d | None => s !! id end.
Proof.
  unfold index_all. induction docs as [|[k d] docs IH] using rev_ind; cbn; [by rewrite lookup_empty|].
  rewrite !fold_left_app. cbn. destruct (decide (k = id)) as [->|]; [by rewrite !lookup_insert_eq|].
  by rewrite !lookup_insert_ne.
Qed.

(** Partly applied: nothing outside the batch has changed. *)
Definition touched (docs : list (string * json)) (s s' : gmap string json) : Prop :=
  forall id, index_all docs ∅ !! id = None -> s' !! id = s !! id.

Lemma touched_index_all docs s s' : touched docs s s' -> index_all docs s' = index_all docs s.
Proof.
  intros Ht. apply map_eq. intros id. rewrite (index_all_lookup docs s' id), (index_all_lookup docs s id).
  destruct (index_all docs ∅ !! id) eqn:E; [done|]. by apply Ht.
Qed.

Lemma touched_refl docs s : touched docs s s.
Proof. done. Qed.

Lemma sublist_touched merge i docs sub s :
  sub `sublist_of` map (op_entry i) (index_ops docs) -> touched docs s (fold_left (apply_entry merge i) sub s).
Proof.
  unfold touched. revert s sub. induction docs as [|[k d] docs IH] using rev_ind; intros s sub Hs id Hid.
  { cbn in Hs. apply sublist_nil_r in Hs as ->. done. }
  unfold index_ops in Hs. rewrite !map_app in Hs. cbn [map] in Hs.
  unfold index_all in Hid. rewrite fold_left_app in Hid. cbn in Hid.
  destruct (decide (k = id)) as [->|Hne]; [by rewrite lookup_insert_eq in Hid|].
  rewrite lookup_insert_ne in Hid by done.
  apply sublist_app_r in Hs as (sub1 & sub2 & -> & Hs1 & Hs2). rewrite fold_left_app.
  specialize (IH s sub1 Hs1 id Hid). apply sublist_cons_r in Hs2 as [Hs2|(x & -> & Hs2)].
  - apply sublist_nil_r in Hs2 as ->. exact IH.
  - apply sublist_nil_r in Hs2 as ->. rewrite <- IH.
    change (op_entry i (IndexOp (k, d).1 (Ok (k, d).2))) with (EIndex i k d). cbn.
    rewrite bool_decide_eq_true_2 by done. by rewrite lookup_insert_ne.
Qed.

Lemma touched_trans docs s1 s2 s3 : touched docs s1 s2 -> touched docs s2 s3 -> touched docs s1 s3.
Proof. intros H1 H2 id Hid. rewrite (H2 id Hid). by apply H1. Qed.

Lemma bulk_policy_ok n : policy_ok (bulk_policy n).
Proof. split; [split; reflexivity|done]. Qed.

(** One attempt: a failure leaves a part of the batch applied, a success is the whole batch. *)
Lemma DoNDJSON_spec index docs lines (w : W) r w' :
  bulk_lines index (index_ops docs) = Ok lines -> DoNDJSON "/_bulk" lines w = (r, w') ->
  touched docs (es_docs w index) (es_docs w' index)
  /\ forall p st, r = Ok p -> parseBulkResponse p = Ok st -> Failed st = 0 ->
       es_docs w' index = index_all docs (es_docs w index).
Proof.
  intros Hl. pose proof (bulk_roundtrip _ _ _ _ Hl (le_n _)) as Hr. unfold DoNDJSON.
  destruct (es_request _ _); [intros [= <- <-]; by split|].
  destruct (es_perform "POST" "/_bulk" (NdJson lines) w) as [a w1] eqn:E. intros Hd.
  assert (w1 = w') as ->.
  { destruct a as [[status [p|e]]|e]; [destruct (400 <=? status)| |]; by injection Hd. }
  split.
  - destruct (law_bulk _ _ _ _ _ _ E Hr) as (sub & Hsub & Hs). rewrite Hs. by apply sublist_touched.
  - intros p st -> Hp Hf. destruct a as [[status [p'|e]]|e]; [|done..].
    destruct (Z.leb_spec 400 status) as [|Hst]; [done|]. injection Hd as ->.
    destruct (parsed p) as [j|] eqn:Ej; [|by unfold parseBulkResponse in Hp; rewrite Ej in Hp].
    destruct (law_bulk_ok _ _ _ _ _ _ _ _ E Hst Ej Hr) as (oks & Ha & Hlen & Hs).
    rewrite (parseBulkResponse_failures _ _ _ _ Ej Ha Hp) in Hf.
    rewrite Hs, carried_all by done. apply apply_index_ops.
Qed.

(** BulkDo always returns; a batch it reports without failures is in the index, however often
    it was sent. *)
Lemma BulkDo_spec index docs n (w : W) :
  exists r w', BulkDo index (index_ops docs) n w = Some (r, w')
    /\ (forall st, r = Ok st -> Failed st = 0 -> es_docs w' index = index_all docs (es_docs w index)).
Proof.
  unfold BulkDo. destruct (index_ops docs) as [|op ops] eqn:Eo.
  { exists (Ok no_stats), w. split; [done|]. intros st [= <-] _. by destruct docs. }
  rewrite <- Eo. clear op ops Eo. set (m := if n <=? 0 then 3 else n).
  destruct (bulk_lines index (index_ops docs)) as [lines|e] eqn:El; [|by eexists _, _].
  destruct (Retry _ _ _ _) as [[r [w' raw]] tr] eqn:Er.
  apply (Retry_keeps _ _ _ _ _ _
    (fun x => touched docs (es_docs w index) (es_docs x.1 index))
    (fun r x => r = FnRet None /\ forall st, parseBulkResponse x.2 = Ok st -> Failed st = 0 ->
       es_docs x.1 index = index_all docs (es_docs w index))) in Er.
  - destruct r as [[e|]|]; [by eexists _, _| |by destruct Er].
    eexists _, _. split; [done|]. intros st Hp Hf. destruct Er as [_ Er]. by apply (Er st).
  - apply bulk_policy_ok.
  - intros [w1 raw1] r1 [w2 raw2] Ht. unfold send_bulk. cbn.
    destruct (DoNDJSON "/_bulk" lines w1) as [[p|e] w3] eqn:Ed; intros [= <- <- <-];
      destruct (DoNDJSON_spec _ _ _ _ _ _ El Ed) as [Ht' Hok]; cbn in *.
    + split; [done|]. intros st Hp Hf. rewrite (Hok _ _ eq_refl Hp Hf). by apply touched_index_all.
    + by eapply touched_trans.
  - intros d [w1 raw1] Ht. cbn in *. pose proof (law_es_wait d w1) as Hw.
    destruct (wait d w1). cbn in *. by rewrite Hw.
  - cbn. apply touched_refl.
Qed.

(** What requests and waits keep, BulkDo keeps. *)
Lemma BulkDo_keeps (P : W -> Prop) index ops n (w : W) r w' :
  (forall m path b w, P w -> P (es_perform m path b w).2) -> (forall d w, P w -> P (wait d w).2) ->
  P w -> BulkDo index ops n w = Some (r, w') -> P w'.
Proof.
  intros Hp Hw HP. unfold BulkDo. destruct ops as [|op ops]; [by intros [= <- <-]|].
  set (m := if n <=? 0 then 3 else n). destruct (bulk_lines _ _) as [lines|e]; [|by intros [= <- <-]].
  destruct (Retry _ _ _ _) as [[r1 [w1 raw]] tr] eqn:Er.
  apply (Retry_keeps _ _ _ _ _ _ (fun x => P x.1) (fun _ x => P x.1)) in Er; [|apply bulk_policy_ok| | |done].
  - cbn in Er. destruct r1 as [[e|]|]; by intros [= <- <-].
  - intros [w2 raw2] r2 [w3 raw3] HP2. unfold send_bulk, DoNDJSON. cbn in *.
    destruct (es_request _ _); [by intros [= <- <- <-]|].
    specialize (Hp "POST" "/_bulk" (NdJson lines) w2 HP2).
    destruct (es_perform _ _ _ _) as [[[status [p|e]]|e] w4]; [destruct (400 <=? status)|..]; by intros [= <- <- <-].
  - intros d [w2 raw2] HP2. cbn in *. specialize (Hw d w2 HP2). by destruct (wait d w2).
Qed.

Lemma bulk_lines_docs index ops lines :
  bulk_lines index ops = Ok lines -> Forall (fun op => op_action op = "index") ops ->
  exists docs, ops = index_ops docs.
Proof.
  revert lines. induction ops as [|op ops IH]; intros lines; cbn; [by exists []|].
  intros Hl [Ha Hf]%Forall_cons. destruct (op_lines index op) as [ls|e] eqn:Eo; [|done].
  destruct (bulk_lines index ops) as [ls'|e]; [|done]. destruct (IH ls' eq_refl Hf) as [docs ->].
  unfold op_lines in Eo. rewrite bool_decide_eq_true_2 in Eo by done. destruct op as [act id [d|e]]; [|done].
  cbn in Ha. subst. by exists ((id, d) :: docs).
Qed.
End bulk_spec.

(** ** Statistics *)

Lemma add_result_failed st j st' : add_result st j = Ok st' -> exists st0, st = Ok st0 /\ Failed st0 <= Failed st'.
Proof.
  unfold add_result. destruct st as [st|e]; [|done]. exists st. split; [done|].
  repeat case_match; simplify_eq; cbn; lia.
Qed.

Lemma add_item_failed st j st' : add_item st j = Ok st' -> exists st0, st = Ok st0 /\ Failed st0 <= Failed st'.
Proof.
  unfold add_item. destruct (dec_fields _) as [fs|]; [|done]. generalize (snd <$> default [] fs). intros l.
  revert st. induction l as [|x l IH]; intros st; cbn; [intros ->; eexists; split; [done|lia]|].
  intros (st1 & E & Hle)%IH. apply add_result_failed in E as (st0 & -> & ?). exists st0. split; [done|lia].
Qed.

Lemma parse_failed p st : parseBulkResponse p = Ok st -> 0 <= Failed st.
Proof.
  unfold parseBulkResponse, parse_items. destruct (parsed p) as [j|]; [|done].
  destruct (dec_fields _) as [fs|]; [|done].
  destruct (jfield _ _) as [[| | | | |items|]|]; try done; try (intros [= <-]; cbn; lia).
  destruct (fold_left add_item items (Ok no_stats)) as [st1|e] eqn:E; [|done]. intros [= <-].
  assert (HG : forall st0, fold_left add_item items st0 = Ok st1 -> exists s0, st0 = Ok s0 /\ Failed s0 <= Failed st1).
  { clear E. induction items as [|x l IH]; intros st0; cbn; [intros ->; eexists; split; [done|lia]|].
    intros (s1 & E & Hle)%IH. apply add_item_failed in E as (s0 & -> & ?). exists s0. split; [done|lia]. }
  apply HG in E as (s0 & [= <-] & H0). done.
Qed.

Lemma BulkDo_stats {W} `{World W} `{!Es W} index ops n (w : W) st w' :
  BulkDo index ops n w = Some (Ok st, w') -> 0 <= Failed st /\ exists lines, bulk_lines index ops = Ok lines.
Proof.
  unfold BulkDo. destruct ops as [|op ops]; [intros [= <- <-]; split; [done|by eexists]|].
  destruct (bulk_lines _ _) as [lines|e]; [|done].
  destruct (Retry _ _ _ _) as [[[[e|]|] [w1 raw]] tr]; [done| |done]. intros [= Hp <-].
  split; [by eapply parse_failed|by eexists].
Qed.

(** ** A synchronisation, against the documents of its source *)

Definition body_of (d : Doc) : option (string * json) :=
  match doc_Body d with Ok j => Some (doc_ID d, j) | Err _ => None end.
(** The index after every document of the source has been written to it, in order. *)
Definition mirror (docs : list Doc) (s : gmap string json) : gmap string json := index_all (omap body_of docs) s.
Definition has_id (d : Doc) : Prop := doc_ID d <> EmptyString.

Lemma keyed_docs_snoc batch d :
  keyed_docs (batch ++ [d])
  = if bool_decide (doc_ID d = EmptyString) then keyed_docs batch else <[doc_ID d := doc_Body d]> (keyed_docs batch).
Proof. unfold keyed_docs. by rewrite fold_left_app. Qed.

Lemma mirror_snoc batch d s :
  mirror (batch ++ [d]) s = match doc_Body d with Ok j => <[doc_ID d := j]> (mirror batch s) | Err _ => mirror batch s end.
Proof.
  unfold mirror, index_all. rewrite omap_app, fold_left_app. cbn [omap list_omap]. unfold body_of. by destruct (doc_Body d).
Qed.

Lemma mirror_app l1 l2 s : mirror (l1 ++ l2) s = mirror l2 (mirror l1 s).
Proof. unfold mirror, index_all. by rewrite omap_app, fold_left_app. Qed.

(** One operation per id, carrying the last document that has it. *)
Lemma keyed_mirror batch id :
  Forall has_id batch ->
  match keyed_docs batch !! id with
  | Some (Ok j) => mirror batch ∅ !! id = Some j
  | Some (Err _) => True
  | None => mirror batch ∅ !! id = None
  end.
Proof.
  induction batch as [|d batch IH] using rev_ind; [by cbn|].
  intros [Hb [Hd _]%Forall_cons]%Forall_app. specialize (IH Hb). unfold has_id in Hd.
  rewrite keyed_docs_snoc, mirror_snoc, (bool_decide_eq_false_2 _ Hd).
  destruct (decide (doc_ID d = id)) as [<-|].
  - rewrite lookup_insert_eq. destruct (doc_Body d); [|done]. by rewrite lookup_insert_eq.
  - rewrite lookup_insert_ne by done. destruct (doc_Body d); [rewrite lookup_insert_ne by done|]; exact IH.
Qed.

Lemma index_all_nodup docs id j :
  NoDup docs.*1 -> index_all docs ∅ !! id = Some j <-> (id, j) ∈ docs.
Proof.
  unfold index_all. induction docs as [|[k d] docs IH] using rev_ind; intros Hn; cbn.
  { rewrite lookup_empty, elem_of_nil. done. }
  rewrite fold_left_app, elem_of_app, list_elem_of_singleton. cbn.
  rewrite fmap_app in Hn. apply NoDup_app in Hn as (Hn & Hk & _). specialize (IH Hn).
  destruct (decide (k = id)) as [->|].
  - rewrite lookup_insert_eq. split; [intros [= ->]; by right|].
    intros [Hin|[= ->]]; [|done]. exfalso. apply (Hk id); [|by left].
    apply (list_elem_of_fmap_2 fst) in Hin. done.
  - rewrite lookup_insert_ne, IH by done. split; [by left|]. intros [?|[= -> ->]]; done.
Qed.

(** The operations of a batch whose bodies all marshal write exactly its documents. *)
Lemma sync_ops_docs range batch docs s :
  (forall m, Permutation (range m) (map_to_list m)) -> Forall has_id batch ->
  sync_ops range batch = index_ops docs -> index_all docs s = mirror batch s.
Proof.
  intros Hperm Hid. unfold sync_ops. rewrite filter_none.
  2: { eapply Forall_impl; [exact Hid|]. intros d Hd. by apply bool_decide_eq_false_2. }
  cbn. intros Hops.
  assert (range (keyed_docs batch) = map (fun kv => (kv.1, Ok kv.2)) docs) as Hr.
  { revert Hops. generalize (range (keyed_docs batch)). induction docs as [|[k j] docs IH]; intros [|[k' r] l];
      [done..|]. cbn. intros [= -> -> ?]. f_equal. by apply IH. }
  pose proof (Hperm (keyed_docs batch)) as Hp. rewrite Hr in Hp.
  assert (Hn : NoDup docs.*1).
  { pose proof (NoDup_fst_map_to_list (keyed_docs batch)) as Hn. rewrite <- Hp in Hn.
    by rewrite <- list_fmap_compose in Hn. }
  apply map_eq. intros id. unfold mirror. rewrite (index_all_lookup docs), (index_all_lookup (omap body_of batch)).
  fold (mirror batch ∅). pose proof (keyed_mirror batch id Hid) as Hk.
  assert (Hd : forall j, index_all docs ∅ !! id = Some j <-> keyed_docs batch !! id = Some (Ok j)).
  { intros j. rewrite index_all_nodup by done. rewrite <- elem_of_map_to_list, <- Hp.
    rewrite (list_elem_of_fmap (fun kv => (kv.1, Ok kv.2))). split.
    - intros Hin. by exists (id, j).
    - intros ([k j'] & [= -> ->] & Hin). done. }
  destruct (keyed_docs batch !! id) as [[j|e]|] eqn:Ek.
  - by rewrite (proj2 (Hd j) eq_refl), Hk.
  - apply elem_of_map_to_list in Ek. rewrite <- Hp in Ek. apply list_elem_of_fmap in Ek as ([? ?] & ? & ?). done.
  - rewrite Hk. destruct (index_all docs ∅ !! id) as [j|]; [|done]. pose proof (proj1 (Hd j) eq_refl); congruence.
Qed.

(** What a synchronisation reads from: the documents still to come, and a measure of its batches. *)
Class Source (W : Type) `{World W, !Es W, !EsLaws W} (Next : W -> res (list Doc * bool) * W)
  (OnBatch : option (BulkStats -> W -> W)) := {
  src_docs : W -> list Doc;
  src_left : W -> nat;
  law_next w b done w' : Next w = (Ok (b, done), w') ->
    src_docs w = b ++ src_docs w' /\ es_docs w' = es_docs w
    /\ (if done : bool then src_docs w' = [] else (src_left w' < src_left w)%nat);
  law_src_perform m path b w :
    src_docs (es_perform m path b w).2 = src_docs w /\ src_left (es_perform m path b w).2 = src_left w;
  law_src_wait d w : src_docs (wait d w).2 = src_docs w /\ src_left (wait d w).2 = src_left w;
  law_on_batch f st w : OnBatch = Some f ->
    src_docs (f st w) = src_docs w /\ src_left (f st w) = src_left w /\ es_docs (f st w) = es_docs w
}.

Section sync_spec.
Context {W : Type} `{World W} `{!WorldLaws W} `{!Es W} `{!EsLaws W}.
Variable range : gmap string (res json) -> list (string * res json).
Hypothesis range_all : forall m, Permutation (range m) (map_to_list m).
Variable Next : W -> res (list Doc * bool) * W.
Variable OnBatch : option (BulkStats -> W -> W).
Context `{!Source W Next OnBatch}.

Lemma BulkDo_source index ops n (w : W) r w' :
  BulkDo index ops n w = Some (r, w') -> src_docs w' = src_docs w /\ src_left w' = src_left w.
Proof.
  intros HB. eapply (BulkDo_keeps (fun x => src_docs x = src_docs w /\ src_left x = src_left w));
    [| |done|exact HB].
  - intros m path b w1 [<- <-]. apply law_src_perform.
  - intros d w1 [<- <-]. apply law_src_wait.
Qed.

Lemma sync_ops_index batch : Forall (fun op => op_action op = "index") (sync_ops range batch).
Proof. unfold sync_ops. apply Forall_app. split; apply List.Forall_map, Forall_true; done. Qed.

Lemma BulkDo_returns index ops n (w : W) :
  Forall (fun op => op_action op = "index") ops -> exists r w', BulkDo index ops n w = Some (r, w').
Proof.
  intros Ha. destruct (bulk_lines index ops) as [lines|e] eqn:El.
  - destruct (bulk_lines_docs _ _ _ El Ha) as [docs ->].
    destruct (BulkDo_spec index docs n w) as (r & w' & E & _). by eexists _, _.
  - unfold BulkDo. rewrite El. destruct ops; by eexists _, _.
Qed.

(** One batch: written whole when it reports no failure. *)
Lemma BulkDo_batch index batch n (w : W) st w' :
  Forall has_id batch -> BulkDo index (sync_ops range batch) n w = Some (Ok st, w') -> Failed st = 0 ->
  es_docs w' index = mirror batch (es_docs w index).
Proof.
  intros Hid HB Hf. destruct (BulkDo_stats _ _ _ _ _ _ HB) as [_ [lines El]].
  destruct (bulk_lines_docs _ _ _ El (sync_ops_index batch)) as [docs Ed].
  destruct (BulkDo_spec index docs n w) as (r & w1 & E & Hok).
  rewrite <- Ed, HB in E. injection E as <- <-. rewrite (Hok st eq_refl Hf).
  by eapply sync_ops_docs.
Qed.

(** C26. A synchronisation whose documents all have an id, of an index that nothing else
    writes meanwhile, ends; and when it ends without an error and without a failed item every
    document the source still had is in the index under its id (the last one, when an id occurs
    twice) and no other document of the index has changed, whatever requests were lost, cut short
    and sent again on the way, and whichever items the cluster's answers say were not carried out. *)
Theorem Sync_mirrors fuel index n rep (w : W) :
  Forall has_id (src_docs w) -> (src_left w < fuel)%nat ->
  exists rep' err w', Sync range Next OnBatch fuel index n rep w = Some (rep', err, w')
    /\ rep_Failed rep <= rep_Failed rep'
    /\ (err = None -> rep_Failed rep' = rep_Failed rep ->
        es_docs w' index = mirror (src_docs w) (es_docs w index)).
Proof.
  revert rep w. induction fuel as [|fuel IH]; intros rep w Hid Hl; [lia|]. cbn.
  destruct (ctx_err w) as [e|]; [eexists _, _, _; split; [done|by split]|].
  destruct (Next w) as [[[batch fin]|e] w1] eqn:En; [|eexists _, _, _; split; [done|by split]].
  destruct (law_next _ _ _ _ En) as (Hd & He & Hdone). rewrite Hd in Hid. apply Forall_app in Hid as [Hb Hid].
  assert (Hgo : forall rep2 w2, rep_Failed rep <= rep_Failed rep2 ->
    src_docs w2 = src_docs w1 -> src_left w2 = src_left w1 ->
    (rep_Failed rep2 = rep_Failed rep -> es_docs w2 index = mirror batch (es_docs w index)) ->
    exists rep' err w', (if fin then Some (rep2, None, w2) else Sync range Next OnBatch fuel index n rep2 w2)
        = Some (rep', err, w') /\ rep_Failed rep <= rep_Failed rep'
      /\ (err = None -> rep_Failed rep' = rep_Failed rep ->
          es_docs w' index = mirror (src_docs w) (es_docs w index))).
  { intros rep2 w2 Hle Hs Hm Hi. rewrite Hd. destruct fin.
    - eexists _, _, _. split; [done|]. split; [done|]. intros _ Hf. rewrite Hdone, app_nil_r. auto.
    - destruct (IH rep2 w2) as (rep' & err & w' & -> & Hle' & Hok); [by rewrite Hs|lia|].
      eexists _, _, _. split; [done|]. split; [lia|]. intros Herr Hf.
      rewrite (Hok Herr) by lia. rewrite Hi by lia. by rewrite mirror_app, Hs. }
  destruct batch as [|d batch]; [apply Hgo; [done..|by rewrite He]|]. set (b := d :: batch) in *.
  destruct (BulkDo_returns index (sync_ops range b) n w1 (sync_ops_index b)) as (r & w2 & HB). rewrite HB.
  destruct (BulkDo_source _ _ _ _ _ _ HB) as [Hs2 Hl2].
  destruct r as [st|e]; [|eexists _, _, _; split; [done|by split]].
  pose proof (proj1 (BulkDo_stats _ _ _ _ _ _ HB)) as Hst.
  assert (Hi : Failed st = 0 -> es_docs w2 index = mirror b (es_docs w index)).
  { intros Hf. rewrite (BulkDo_batch _ _ _ _ _ _ Hb HB Hf). by rewrite He. }
  destruct OnBatch as [f|] eqn:Eo; [destruct (law_on_batch f st w2 eq_refl) as (Hs3 & Hl3 & He3)|];
    (apply Hgo; cbn [rep_Failed]; [lia|congruence|congruence|]; intros Hf; rewrite ?He3; apply Hi; lia).
Qed.
End sync_spec.

(** ** A cluster that loses answers, and a source of batches *)

Lemma read_bulk_fuel f lines es :
  read_bulk f lines = Some es -> forall g, (length lines <= g)%nat -> read_bulk g lines = Some es.
Proof.
  revert lines es. induction f as [|f IH]; intros [|meta rest] es; cbn; intros Hr [|g] Hg; cbn in *; try done; try lia.
  destruct (read_meta meta) as [[[action index] id]|]; [|done].
  assert (Hstep : forall rest e, (length rest <= g)%nat -> (e ::.) <$> read_bulk f rest = Some es ->
    (e ::.) <$> read_bulk g rest = Some es).
  { intros l e Hle (es' & E & ->)%fmap_Some. by rewrite (IH _ _ E g Hle). }
  destruct (bool_decide (action = "delete")); [apply Hstep; [lia|done]|].
  destruct rest as [|src rest]; [done|]. cbn in Hg.
  destruct (bool_decide (action = "index")); [apply Hstep; [lia|done]|].
  destruct src as [| | | | | |[|[k d] [|? ?]]]; try done.
  destruct (bool_decide (action = "update") && bool_decide (k = "doc")); [|done]. apply Hstep; [lia|done].
Qed.

(** [cl_cut]: for each request to come, [Some k] when the connection breaks after [k] operations. *)
Record cluster := mkCluster { cl_docs : string -> gmap string json; cl_cut : list (option nat); cl_src : list (list Doc) }.
Abbreviation clusterw := (clockw * cluster)%type.

Definition cluster_apply (es : list entry) (docs : string -> gmap string json) (i : string) : gmap string json :=
  fold_left (apply_entry (fun _ p => p) i) es (docs i).
Definition cluster_item (e : entry) : json :=
  match e with
  | EIndex _ id _ => JObj [("index", JObj [("_id", JStr id)])]
  | EUpdate _ id _ => JObj [("update", JObj [("_id", JStr id)])]
  | EDelete _ id => JObj [("delete", JObj [("_id", JStr id)])]
  end.

#[export] Instance cluster_es : Es clusterw := { es_request _ _ := None; es_perform _ _ body w :=
  let c := w.2 in
  match body with
  | NdJson lines =>
      match read_bulk (length lines) lines with
      | None => (Ok (400, Ok (mkPayload EmptyString None)), w)
      | Some es =>
          match cl_cut c with
          | Some k :: cuts =>
              (Err (NewErr "connection reset"), (w.1, mkCluster (cluster_apply (take k es) (cl_docs c)) cuts (cl_src c)))
          | cuts =>
              (Ok (200, Ok (mkPayload EmptyString (Some (JObj [("items", JArr (map cluster_item es))])))),
               (w.1, mkCluster (cluster_apply es (cl_docs c)) (List.tl cuts) (cl_src c)))
          end
      end
  | _ => (Ok (200, Ok (mkPayload EmptyString None)), w)
  end }.

#[export] Instance cluster_laws : EsLaws clusterw.
Proof.
  refine {| es_docs := fun w : clusterw => cl_docs w.2; es_merge := fun _ p : json => p |}.
  - intros lines fuel es w r w' Hp Hr. unfold es_perform, cluster_es in Hp.
    rewrite (read_bulk_fuel _ _ _ Hr _ (le_n _)) in Hp.
    destruct (cl_cut w.2) as [|[k|] cuts]; injection Hp as <- <-; cbn [snd cl_docs].
    + by exists es.
    + exists (take k es). split; [apply sublist_take|done].
    + by exists es.
  - intros lines fuel es w status p j w' Hp _ Hj Hr. unfold es_perform, cluster_es in Hp.
    rewrite (read_bulk_fuel _ _ _ Hr _ (le_n _)) in Hp. exists (map (fun _ => true) es).
    assert (Hc : carried es (map (fun _ => true) es) = es) by (clear; induction es; cbn; congruence).
    assert (Hi : Forall2 bulk_item (map cluster_item es) (map (fun _ => true) es)).
    { clear. induction es as [|[]]; cbn; constructor; [by constructor|done|by constructor|done|by constructor|done]. }
    rewrite Hc, length_map. destruct (cl_cut w.2) as [|[k|] cuts]; [|done|];
      injection Hp as <- <- <-; injection Hj as <-; (split; [|done]); by eexists _, _.
  - intros d [w c]. cbn. by destruct (_ <? _).
Defined.

Definition cluster_next (w : clusterw) : res (list Doc * bool) * clusterw :=
  match cl_src w.2 with
  | [] => (Ok ([], true), w)
  | b :: rest => (Ok (b, match rest with [] => true | _ => false end),
                  (w.1, mkCluster (cl_docs w.2) (cl_cut w.2) rest))
  end.

#[export] Instance cluster_source : Source clusterw cluster_next None.
Proof.
  refine {| src_docs := fun w : clusterw => concat (cl_src w.2); src_left := fun w : clusterw => length (cl_src w.2) |}.
  - intros [t [docs cuts [|b rest]]] b' fin w'; unfold cluster_next; cbn [snd fst cl_src cl_docs cl_cut].
    + by intros [= <- <- <-].
    + intros [= <- <- <-]. cbn. split; [done|]. split; [done|]. destruct rest; cbn; [done|lia].
  - intros m path b w. unfold es_perform, cluster_es. destruct b as [| |lines]; [done..|].
    destruct (read_bulk _ _); [|done]. by destruct (cl_cut w.2) as [|[k|] cuts].
  - intros d [w c]. cbn. by destruct (_ <? _).
  - done.
Defined.

Definition two_batches : list (list Doc) :=
  [[mkDoc "a" (Ok (JNum 1)); mkDoc "b" (Ok (JNum 2)); mkDoc "a" (Ok (JNum 3))]; [mkDoc "c" (Ok (JNum 4))]].

Definition cutting : clusterw :=
  (mkClock 0 (10 * Second), mkCluster (fun _ => ∅) [Some 1%nat; None; Some 0%nat] two_batches).

Lemma Sync_mirrors_witness :
  exists rep err w', Sync map_to_list cluster_next None 5 "idx" 3 (mkReport 0 0 0 []) cutting = Some (rep, err, w')
    /\ 0 <= rep_Failed rep
    /\ (err = None -> rep_Failed rep = 0 -> cl_docs w'.2 "idx" = mirror (concat two_batches) ∅).
Proof.
  refine (Sync_mirrors map_to_list (fun m => reflexivity _) cluster_next None 5 "idx" 3 (mkReport 0 0 0 []) cutting _ _).
  - repeat constructor; discriminate.
  - cbn. lia.
Defined.

(** In that run the first answer of both batches is lost and nothing fails. *)
Example Sync_run :
  match Sync map_to_list cluster_next None 5 "idx" 3 (mkReport 0 0 0 []) cutting with
  | Some (rep, None, w') => (Batches rep, rep_Indexed rep, rep_Failed rep, map_to_list (cl_docs w'.2 "idx"))
  | _ => (0, 0, 0, [])
  end = (2, 3, 0, [("c", JNum 4); ("a", JNum 3); ("b", JNum 2)]).
Proof. vm_compute. reflexivity. Qed.

(** A document without an id is sent with an empty one. *)
Example sync_empty_id :
  bulk_lines "idx" (sync_ops map_to_list [mkDoc EmptyString (Ok (JNum 1))])
  = Ok [JObj [("index", JObj [("_id", JStr EmptyString); ("_index", JStr "idx")])]; JNum 1].
Proof. reflexivity. Qed.

(** A server that answers 503 is asked again, not only one that does not answer. *)
Definition refusing : Es (clockw * nat) := {|
  es_request _ _ := None;
  es_perform _ _ _ w := (Ok (503, Ok (mkPayload "busy" None)), (w.1, S w.2)) |}.
Example BulkDo_retries_status :
  match @BulkDo _ _ refusing "idx" [DeleteOp "a"] 3 (mkClock 0 (10 * Second), 0%nat) with
  | Some (Err _, w) => snd w
  | _ => 0%nat
  end = 3%nat.
Proof. vm_compute. reflexivity. Qed.
