(* ===== verification/EsQuery.v ===== *)
(** * EsQuery: database/elasticsearch/query — the request-building DSL

    A fragment is the JSON tree it marshals to: a Go map is an object with
    sorted keys, a nil map or nil slice is [JNull]. *)

From S2P Require Import Prelude GoStrings GoFloat Http Errors.

Set Warnings "-register-all".

(** ** Go maps as they are marshalled *)

Fixpoint oset (k : string) (v : json) (fs : list (string * json)) : list (string * json) :=
  match fs with
  | [] => [(k, v)]
  | (k', v') :: r => if String.eqb k k' then (k, v) :: r
                     else if String.ltb k k' then (k, v) :: fs
                     else (k', v') :: oset k v r
  end.

(** A map literal or a sequence of assignments: a later entry replaces an earlier one. *)
Definition entries (kvs : list (string * json)) : list (string * json) :=
  fold_left (fun m kv => oset kv.1 kv.2 m) kvs [].
Definition gomap (kvs : list (string * json)) : json := JObj (entries kvs).
Definition single (k : string) (v : json) : json := JObj [(k, v)].

(** A variadic []string: nil when empty. *)
Definition strs (l : list string) : json := match l with [] => JNull | _ => JArr (map JStr l) end.
Definition is_nil (j : json) : bool := match j with JNull => true | _ => false end.
Definition jlen (j : json) : nat := match j with JObj fs => length fs | JArr l => length l | _ => 0 end.
Definition opt (b : bool) (kv : string * json) : list (string * json) := if b then [kv] else [].
Definition nonempty (s : string) : bool := negb (bool_decide (s = EmptyString)).

(** json.Marshal fails on a float that is not finite. *)
Definition is_finite (f : f64) : bool := match f with Fin _ _ => true | _ => false end.
Fixpoint marshals (j : json) : bool :=
  match j with
  | JFloat f => is_finite f
  | JArr l => forallb marshals l
  | JObj fs => forallb (fun kv => marshals kv.2) fs
  | _ => true
  end.
Definition Marshal (j : json) : res json :=
  if marshals j then Ok j else Err (NewErr "json: unsupported value").

(** ** query.go *)

Abbreviation Query := json.

Definition MatchAll : Query := single "match_all" (gomap []).
Definition Match (field : string) (value : json) : Query := single "match" (single field (single "query" value)).
Definition MatchFuzzy (field : string) (value : json) (fuzziness : string) : Query :=
  single "match" (single field (gomap [("query", value); ("fuzziness", JStr fuzziness)])).
Definition MatchPhrase (field : string) (value : json) : Query :=
  single "match_phrase" (single field (single "query" value)).
Definition MultiMatch (value : json) (fields : list string) : Query :=
  single "multi_match" (gomap [("query", value); ("fields", strs fields)]).
Definition Term (field : string) (value : json) : Query := single "term" (single field (single "value" value)).
Definition Terms (field : string) (values : json) : Query := single "terms" (single field values).
Definition Exists (field : string) : Query := single "exists" (single "field" (JStr field)).
Definition Wildcard (field pattern : string) (caseInsensitive : bool) : Query :=
  single "wildcard" (single field
    (gomap ([("value", JStr pattern)] ++ opt caseInsensitive ("case_insensitive", JBool true)))).
Definition MatchBoolPrefix (field : string) (value : json) : Query :=
  single "match_bool_prefix" (single field (single "query" value)).
Definition Nested (path : string) (inner : Query) : Query :=
  single "nested" (gomap [("path", JStr path); ("query", inner)]).
Definition Prefix (field value : string) : Query := single "prefix" (single field (single "value" (JStr value))).
Definition IDs (ids : list string) : Query := single "ids" (single "values" (strs ids)).
Definition QueryString (queryStr : string) (fields : list string) : Query :=
  single "query_string"
    (gomap ([("query", JStr queryStr)] ++ opt (0 <? Z.of_nat (length fields)) ("fields", strs fields))).
Definition Fuzzy (field : string) (value : json) (fuzziness : string) : Query :=
  let fuzziness := if nonempty fuzziness then fuzziness else "AUTO" in
  single "fuzzy" (single field (gomap [("value", value); ("fuzziness", JStr fuzziness)])).
Definition Regexp (field pattern : string) : Query :=
  single "regexp" (single field (single "value" (JStr pattern))).
Definition ScriptQuery (source : string) (params : json) : Query :=
  single "script" (single "script"
    (gomap ([("source", JStr source); ("lang", JStr "painless")] ++ opt (0 <? Z.of_nat (jlen params)) ("params", params)))).
Definition HasChild (childType : string) (query : Query) (scoreMode : string) : Query :=
  single "has_child"
    (gomap ([("type", JStr childType); ("query", query)] ++ opt (nonempty scoreMode) ("score_mode", JStr scoreMode))).
Definition HasParent (parentType : string) (query : Query) : Query :=
  single "has_parent" (gomap [("parent_type", JStr parentType); ("query", query)]).
Definition ParentID (childType id : string) : Query :=
  single "parent_id" (gomap [("type", JStr childType); ("id", JStr id)]).

(** ** bool.go *)

Record BoolBuilder := mkBool {
  bq_must : list Query; bq_should : list Query; bq_mustNot : list Query; bq_filter : list Query;
  bq_minimumShouldMatch : json                       (* JNull when not set *)
}.
Definition Bool : BoolBuilder := mkBool [] [] [] [] JNull.
Definition bool_Must (b : BoolBuilder) (qs : list Query) : BoolBuilder :=
  mkBool (bq_must b ++ qs) (bq_should b) (bq_mustNot b) (bq_filter b) (bq_minimumShouldMatch b).
Definition bool_Should (b : BoolBuilder) (qs : list Query) : BoolBuilder :=
  mkBool (bq_must b) (bq_should b ++ qs) (bq_mustNot b) (bq_filter b) (bq_minimumShouldMatch b).
Definition bool_MustNot (b : BoolBuilder) (qs : list Query) : BoolBuilder :=
  mkBool (bq_must b) (bq_should b) (bq_mustNot b ++ qs) (bq_filter b) (bq_minimumShouldMatch b).
Definition bool_Filter (b : BoolBuilder) (qs : list Query) : BoolBuilder :=
  mkBool (bq_must b) (bq_should b) (bq_mustNot b) (bq_filter b ++ qs) (bq_minimumShouldMatch b).
Definition MinimumShouldMatch (b : BoolBuilder) (v : json) : BoolBuilder :=
  mkBool (bq_must b) (bq_should b) (bq_mustNot b) (bq_filter b) v.

Definition clauses (name : string) (qs : list Query) : list (string * json) :=
  opt (0 <? Z.of_nat (length qs)) (name, JArr qs).
Definition bool_Build (b : BoolBuilder) : Query :=
  single "bool" (gomap (clauses "must" (bq_must b) ++ clauses "should" (bq_should b)
    ++ clauses "must_not" (bq_mustNot b) ++ clauses "filter" (bq_filter b)
    ++ opt (negb (is_nil (bq_minimumShouldMatch b))) ("minimum_should_match", bq_minimumShouldMatch b))).

(** ** filter.go *)

Record RangeBuilder := mkRange { rg_field : string; rg_body : list (string * json) }.
Definition Range (field : string) : RangeBuilder := mkRange field [].
Definition rg_set (k : string) (r : RangeBuilder) (v : json) : RangeBuilder := mkRange (rg_field r) (oset k v (rg_body r)).
Definition rg_Gte := rg_set "gte".
Definition rg_Gt := rg_set "gt".
Definition rg_Lte := rg_set "lte".
Definition rg_Lt := rg_set "lt".
Definition rg_Format (r : RangeBuilder) (f : string) : RangeBuilder := rg_set "format" r (JStr f).
Definition range_Build (r : RangeBuilder) : Query := single "range" (single (rg_field r) (JObj (rg_body r))).

(** ** geo.go *)

Definition latlon (lat lon : f64) : json := gomap [("lat", JFloat lat); ("lon", JFloat lon)].
Definition GeoBoundingBox (field : string) (topLeftLat topLeftLon bottomRightLat bottomRightLon : f64) : Query :=
  single "geo_bounding_box" (single field
    (gomap [("top_left", latlon topLeftLat topLeftLon); ("bottom_right", latlon bottomRightLat bottomRightLon)])).
Definition GeoDistance (field : string) (lat lon : f64) (distance : string) : Query :=
  single "geo_distance" (gomap [("distance", JStr distance); (field, latlon lat lon)]).
Definition GeoShape (field shapeType : string) (coordinates : json) (relation : string) : Query :=
  single "geo_shape" (single field
    (gomap [("shape", gomap [("type", JStr shapeType); ("coordinates", coordinates)]); ("relation", JStr relation)])).
Definition ScriptScore (inner : Query) (source : string) (params : json) : Query :=
  single "script_score" (gomap [("query", inner);
    ("script", gomap ([("source", JStr source)] ++ opt (0 <? Z.of_nat (jlen params)) ("params", params)))]).

Record FunctionScoreBuilder := mkFS { fs_query : Query; fs_functions : list json; fs_scoreMode : string; fs_boostMode : string }.
Definition FunctionScore (query : Query) : FunctionScoreBuilder := mkFS query [] EmptyString EmptyString.
Definition fs_add (f : FunctionScoreBuilder) (fn : json) : FunctionScoreBuilder :=
  mkFS (fs_query f) (fs_functions f ++ [fn]) (fs_scoreMode f) (fs_boostMode f).
Definition FieldValueFactor (f : FunctionScoreBuilder) (field : string) (factor : f64) (modifier : string) (missing : f64)
  : FunctionScoreBuilder :=
  fs_add f (single "field_value_factor"
    (gomap ([("field", JStr field); ("factor", JFloat factor); ("missing", JFloat missing)]
            ++ opt (nonempty modifier) ("modifier", JStr modifier)))).
Definition Weight (f : FunctionScoreBuilder) (weight : f64) (filter : Query) : FunctionScoreBuilder :=
  fs_add f (gomap ([("weight", JFloat weight)] ++ opt (negb (is_nil filter)) ("filter", filter))).
Definition Decay (f : FunctionScoreBuilder) (kind field : string) (origin scale : json) : FunctionScoreBuilder :=
  fs_add f (single kind (single field (gomap [("origin", origin); ("scale", scale)]))).
Definition ScoreMode (f : FunctionScoreBuilder) (mode : string) : FunctionScoreBuilder :=
  mkFS (fs_query f) (fs_functions f) mode (fs_boostMode f).
Definition BoostMode (f : FunctionScoreBuilder) (mode : string) : FunctionScoreBuilder :=
  mkFS (fs_query f) (fs_functions f) (fs_scoreMode f) mode.
Definition fs_Build (f : FunctionScoreBuilder) : Query :=
  single "function_score" (gomap (opt (negb (is_nil (fs_query f))) ("query", fs_query f)
    ++ opt (0 <? Z.of_nat (length (fs_functions f))) ("functions", JArr (fs_functions f))
    ++ opt (nonempty (fs_scoreMode f)) ("score_mode", JStr (fs_scoreMode f))
    ++ opt (nonempty (fs_boostMode f)) ("boost_mode", JStr (fs_boostMode f)))).

(** ** aggregation.go *)

(** [subs]: what Sub stored under "aggs". *)
Inductive Agg := MkAgg (body : list (string * json)) (subs : list (string * Agg)).

Definition TermsAgg (field : string) (size : Z) : Agg :=
  MkAgg [("terms", gomap ([("field", JStr field)] ++ opt (0 <? size) ("size", JNum size)))] [].
Definition MetricAgg (kind field : string) : Agg := MkAgg [(kind, single "field" (JStr field))] [].
Definition DateHistogramAgg (field calendarInterval : string) : Agg :=
  MkAgg [("date_histogram", gomap [("field", JStr field); ("calendar_interval", JStr calendarInterval)])] [].
Definition FilterAgg (filter : Query) : Agg := MkAgg [("filter", filter)] [].
Definition Sub (a : Agg) (name : string) (child : Agg) : Agg :=
  match a with MkAgg body subs => MkAgg body (aset name child subs) end.

Fixpoint agg_json (a : Agg) : json :=
  match a with
  | MkAgg body subs =>
      let subs := map (fun kv => (kv.1, agg_json kv.2)) subs in
      JObj (match subs with [] => body | _ => oset "aggs" (gomap subs) body end)
  end.

(** ** highlight.go, knn.go, suggest.go, sort.go *)

Record Highlight := mkHighlight {
  hl_Fields : list string; PreTags : list string; PostTags : list string; FragmentSize : Z; NumberOfFragments : Z
}.
Definition highlight_Body (h : Highlight) : json :=
  gomap ([("fields", gomap (map (fun f => (f, gomap [])) (hl_Fields h)))]
    ++ opt (0 <? Z.of_nat (length (PreTags h))) ("pre_tags", strs (PreTags h))
    ++ opt (0 <? Z.of_nat (length (PostTags h))) ("post_tags", strs (PostTags h))
    ++ opt (0 <? FragmentSize h) ("fragment_size", JNum (FragmentSize h))
    ++ opt (0 <? NumberOfFragments h) ("number_of_fragments", JNum (NumberOfFragments h))).

Definition f64_positive (f : f64) : bool := match f with Fin m _ => 0 <? m | PosInf => true | _ => false end.

Record KNN := mkKNN {
  knn_Field : string; QueryVector : list f64; knn_K : Z; NumCandidates : Z; knn_Filter : Query; Boost : f64
}.
Definition knn_Body (k : KNN) : json :=
  let numCandidates := if NumCandidates k <=? 0 then wrap64 (10 * knn_K k) else NumCandidates k in
  gomap ([("field", JStr (knn_Field k));
          ("query_vector", match QueryVector k with [] => JNull | v => JArr (map JFloat v) end);
          ("k", JNum (knn_K k)); ("num_candidates", JNum numCandidates)]
    ++ opt (negb (is_nil (knn_Filter k))) ("filter", knn_Filter k)
    ++ opt (f64_positive (Boost k)) ("boost", JFloat (Boost k))).

Record PIT := mkPIT { pit_ID : string; KeepAlive : string }.

Definition TermSuggester (text field : string) : json :=
  gomap [("text", JStr text); ("term", single "field" (JStr field))].
Definition PhraseSuggester (text field : string) : json :=
  gomap [("text", JStr text); ("phrase", single "field" (JStr field))].
Definition CompletionSuggester (prefix field : string) (size : Z) (fuzzy : bool) : json :=
  gomap [("prefix", JStr prefix);
         ("completion", gomap ([("field", JStr field)] ++ opt (0 <? size) ("size", JNum size)
                               ++ opt fuzzy ("fuzzy", single "fuzziness" (JStr "AUTO"))))].

(** One key of a sort: a map[string]string. *)
Abbreviation sort_key := (list (string * string)).
Definition By (field direction : string) : list sort_key := [[(field, direction)]].
Definition Asc (s : list sort_key) (field : string) : list sort_key := s ++ [[(field, "asc")]].
Definition Desc (s : list sort_key) (field : string) : list sort_key := s ++ [[(field, "desc")]].
Definition sort_json (s : list sort_key) : json :=
  JArr (map (fun m => gomap (map (fun kv => (kv.1, JStr kv.2)) m)) s).

(** ** request.go *)

Record SearchRequest := mkReq {
  sr_Query : Query; sr_Size : Z; sr_From : Z; sr_Sort : list sort_key;
  SourceIncludes : list string; SourceExcludes : list string;
  Aggregations : list (string * Agg); TrackTotalHits : bool; SizeZero : bool;
  sr_SearchAfter : list json; sr_Highlight : option Highlight; sr_Suggest : list (string * json);
  sr_KNN : list KNN; sr_PIT : option PIT
}.
Definition empty_request : SearchRequest := mkReq JNull 0 0 [] [] [] [] false false [] None [] [] None.

Definition Body (r : SearchRequest) : json :=
  gomap (
    opt (negb (is_nil (sr_Query r))) ("query", sr_Query r)
    ++ (if 0 <? sr_Size r then [("size", JNum (sr_Size r))]
        else opt (SizeZero r) ("size", JNum 0))
    ++ opt (0 <? sr_From r) ("from", JNum (sr_From r))
    ++ opt (TrackTotalHits r) ("track_total_hits", JBool true)
    ++ opt (0 <? Z.of_nat (length (sr_Sort r))) ("sort", sort_json (sr_Sort r))
    ++ opt ((0 <? Z.of_nat (length (SourceIncludes r))) || (0 <? Z.of_nat (length (SourceExcludes r))))
         ("_source", gomap (opt (0 <? Z.of_nat (length (SourceIncludes r))) ("includes", strs (SourceIncludes r))
                            ++ opt (0 <? Z.of_nat (length (SourceExcludes r))) ("excludes", strs (SourceExcludes r))))
    ++ opt (0 <? Z.of_nat (length (Aggregations r)))
         ("aggs", gomap (map (fun kv => (kv.1, agg_json kv.2)) (Aggregations r)))
    ++ opt (0 <? Z.of_nat (length (sr_SearchAfter r))) ("search_after", JArr (sr_SearchAfter r))
    ++ match sr_Highlight r with
       | Some h => opt (0 <? Z.of_nat (length (hl_Fields h))) ("highlight", highlight_Body h)
       | None => []
       end
    ++ opt (0 <? Z.of_nat (length (sr_Suggest r))) ("suggest", gomap (sr_Suggest r))
    ++ opt (0 <? Z.of_nat (length (sr_KNN r))) ("knn", JArr (map knn_Body (sr_KNN r)))
    ++ match sr_PIT r with
       | Some p => [("pit", gomap ([("id", JStr (pit_ID p))] ++ opt (nonempty (KeepAlive p)) ("keep_alive", JStr (KeepAlive p))))]
       | None => []
       end).

(** ** Lookup in a rendered map *)

Lemma oset_lookup k v fs x : alookup (oset k v fs) x = if bool_decide (k = x) then Some v else alookup fs x.
Proof.
  induction fs as [|[k' v'] fs IH]; cbn.
  { repeat case_bool_decide; by simplify_eq. }
  destruct (String.eqb_spec k k') as [->|]; cbn; [repeat case_bool_decide; by simplify_eq|].
  destruct (String.ltb k k'); cbn; [repeat case_bool_decide; by simplify_eq|].
  rewrite IH. repeat case_bool_decide; by simplify_eq.
Qed.

(** The last entry of a key is the one that is sent. *)
Fixpoint last_of (kvs : list (string * json)) (x : string) : option json :=
  match kvs with
  | [] => None
  | (k, v) :: kvs => match last_of kvs x with
                     | Some v' => Some v'
                     | None => if bool_decide (k = x) then Some v else None
                     end
  end.

Lemma last_of_app l1 l2 x :
  last_of (l1 ++ l2) x = match last_of l2 x with Some v => Some v | None => last_of l1 x end.
Proof. induction l1 as [|[k v] l1 IH]; cbn; [by destruct (last_of l2 x)|]. rewrite IH. by destruct (last_of l2 x). Qed.

Lemma last_of_opt b k v x : last_of (opt b (k, v)) x = if b then (if bool_decide (k = x) then Some v else None) else None.
Proof. by destruct b. Qed.

Lemma last_of_opt_ne b k v x : k <> x -> last_of (opt b (k, v)) x = None.
Proof. intros H. rewrite last_of_opt, bool_decide_eq_false_2 by done. by destruct b. Qed.

Lemma entries_lookup kvs x : alookup (entries kvs) x = last_of kvs x.
Proof.
  unfold entries. induction kvs as [|[k v] kvs IH] using rev_ind; [done|].
  rewrite fold_left_app, last_of_app. cbn. rewrite oset_lookup, IH. by case_bool_decide.
Qed.

(** Reading one key of a rendered map. *)
Definition jget (j : json) (x : string) : option json := match j with JObj fs => alookup fs x | _ => None end.

Lemma jget_gomap kvs x : jget (gomap kvs) x = last_of kvs x.
Proof. apply entries_lookup. Qed.

Lemma jget_single k v x : jget (single k v) x = if bool_decide (k = x) then Some v else None.
Proof. cbn. repeat case_bool_decide; by simplify_eq. Qed.

(** Keys of a list of entries. *)
Lemma last_of_none kvs x : (x ∉ kvs.*1) -> last_of kvs x = None.
Proof.
  induction kvs as [|[k v] kvs IH]; cbn; [done|]. intros [? ?]%not_elem_of_cons.
  rewrite IH by done. by rewrite bool_decide_eq_false_2.
Qed.

Lemma clauses_lookup name qs x :
  last_of (clauses name qs) x = if bool_decide (name = x) then match qs with [] => None | _ => Some (JArr qs) end else None.
Proof. unfold clauses. rewrite last_of_opt. destruct qs; cbn; [by destruct (bool_decide _)|done]. Qed.

(** *** The keys of a request body *)

Ltac body_key :=
  unfold Body; rewrite jget_gomap, !last_of_app;
  repeat match goal with |- context [match sr_PIT ?r with _ => _ end] => destruct (sr_PIT r); cbn end;
  repeat match goal with |- context [match sr_Highlight ?r with _ => _ end] => destruct (sr_Highlight r) end;
  repeat match goal with |- context [if 0 <? sr_Size ?r then _ else _] => destruct (0 <? sr_Size r) end;
  rewrite !last_of_opt; cbn [last_of];
  repeat match goal with
         | |- context [bool_decide (?a = ?b)] => change (bool_decide (a = b)) with true || change (bool_decide (a = b)) with false
         end; rewrite ?if_same.

Lemma Body_query r : jget (Body r) "query" = if is_nil (sr_Query r) then None else Some (sr_Query r).
Proof. body_key; by destruct (is_nil (sr_Query r)). Qed.

Lemma Body_search_after r :
  jget (Body r) "search_after" = match sr_SearchAfter r with [] => None | l => Some (JArr l) end.
Proof. body_key; by destruct (sr_SearchAfter r). Qed.

Lemma Body_sort r :
  jget (Body r) "sort" = match sr_Sort r with [] => None | s => Some (sort_json s) end.
Proof. body_key; by destruct (sr_Sort r). Qed.

Lemma Body_size r :
  jget (Body r) "size" = if 0 <? sr_Size r then Some (JNum (sr_Size r)) else if SizeZero r then Some (JNum 0) else None.
Proof. body_key; by destruct (SizeZero r). Qed.

(** *** What marshals *)

Lemma marshals_oset k v fs :
  marshals v = true -> marshals (JObj fs) = true -> marshals (JObj (oset k v fs)) = true.
Proof.
  intros Hv. induction fs as [|[k' v'] fs IH]; cbn; [by rewrite Hv|]. intros [H1 H2]%andb_true_iff.
  repeat case_match; cbn; rewrite ?Hv, ?H1, ?H2; [done..|]. by apply IH.
Qed.

Lemma marshals_gomap kvs : Forall (fun kv => marshals kv.2 = true) kvs -> marshals (gomap kvs) = true.
Proof.
  unfold gomap, entries. induction kvs as [|[k v] kvs IH] using rev_ind; [done|].
  intros [Hk [Hv _]%Forall_cons]%Forall_app. rewrite fold_left_app. cbn [fold_left fst snd].
  apply marshals_oset; [exact Hv|by apply IH].
Qed.

Lemma marshals_sort s : marshals (sort_json s) = true.
Proof.
  unfold sort_json. cbn [marshals]. apply forallb_forall. intros x (m & <- & _)%in_map_iff.
  apply marshals_gomap, Forall_forall. intros kv Hk. apply list_elem_of_In, in_map_iff in Hk as ([] & <- & _). done.
Qed.
