(* ===== verification/EsRepo.v ===== *)
(** * EsRepo: database/elasticsearch/repository — searches, documents, the typed repository

    Decoding into the type parameter is an argument; everything else of the
    requests, responses and the fluent builder is as in the source. *)

From S2P Require Import Prelude GoStrings GoFloat Http Errors Decode Retry Url Elastic EsQuery.

(** ** Decoding a response into a struct *)

Definition Unmarshal {A} (dec : list (string * json) -> res A) (what : string) (p : payload) : res A :=
  match (match parsed p with None => Err json_error | Some j => dec_struct dec (Some j) end) with
  | Ok a => Ok a
  | Err e => Err (wrapf ("elastic: decode " +:+ what +:+ " response") e)
  end.

(** ** search.go *)

Record Hit := mkHit {
  hit_ID : string; Score : f64; hit_Source : option json;          (* RawMessage; None = absent *)
  hit_Sort : list json; hit_Highlight : list (string * list string)
}.
Record SuggestOption := mkSuggest { so_Text : string; so_Score : f64; so_Source : option json }.
Record SearchResult := mkResult {
  Hits : list Hit; Total : Z; res_Aggregations : list (string * json); res_Suggest : list (string * list SuggestOption)
}.

Definition seq2 {A B C} (f : A -> B -> C) (a : res A) (b : res B) : res C :=
  match a, b with Ok a, Ok b => Ok (f a b) | Err e, _ => Err e | _, Err e => Err e end.

(** A value decoded into an interface and marshalled again: a number becomes a float64, which
    is the same integer up to 2^53. *)
Fixpoint dec_any (j : json) : json :=
  match j with
  | JNum n => if Z.abs n <=? 2 ^ 53 then JNum n else JFloat (f64_of_int n)
  | JArr l => JArr (map dec_any l)
  | JObj fs => gomap (map (fun kv => (kv.1, dec_any kv.2)) fs)
  | _ => j
  end.

Definition dec_hit (j : json) : res Hit :=
  dec_struct (fun fs =>
    match dec_string (jfield "_id" fs), dec_float (jfield "_score" fs), dec_list (fun v => Ok (dec_any v)) (jfield "sort" fs),
          dec_map (fun v => dec_list (fun s => dec_string (Some s)) (Some v)) (jfield "highlight" fs) with
    | Ok id, Ok score, Ok srt, Ok hl => Ok (mkHit id score (jfield "_source" fs) srt hl)
    | _, _, _, _ => Err json_error
    end) (Some j).

Definition dec_option (j : json) : res SuggestOption :=
  dec_struct (fun fs => match dec_string (jfield "text" fs), dec_float (jfield "score" fs) with
                        | Ok t, Ok s => Ok (mkSuggest t s (jfield "_source" fs))
                        | _, _ => Err json_error
                        end) (Some j).

(** suggestEntry *)
Definition dec_entry (j : json) : res (string * list SuggestOption) :=
  dec_struct (fun fs => seq2 pair (dec_string (jfield "text" fs)) (dec_list dec_option (jfield "options" fs))) (Some j).

Definition flattenSuggest (raw : list (string * list (string * list SuggestOption)))
  : list (string * list SuggestOption) :=
  map (fun kv => (kv.1, concat (map snd kv.2))) raw.

Definition dec_hits (fs : list (string * json)) : res (Z * list Hit) :=
  dec_struct (fun hs =>
    seq2 pair (dec_struct (fun ts => dec_int64 (jfield "value" ts)) (jfield "total" hs)) (dec_list dec_hit (jfield "hits" hs)))
    (jfield "hits" fs).

Definition parseSearchResult (p : payload) : res SearchResult :=
  Unmarshal (fun fs =>
    match dec_hits fs, dec_map Ok (jfield "aggregations" fs),
          dec_map (fun v => dec_list dec_entry (Some v)) (jfield "suggest" fs) with
    | Ok (total, hits), Ok aggs, Ok sug => Ok (mkResult hits total aggs (flattenSuggest sug))
    | _, _, _ => Err json_error
    end) "search" p.

Record ScrollResult := mkScroll { sc_Hits : list Hit; sc_Total : Z; ScrollID : string }.
Definition parseScrollResult (p : payload) : res ScrollResult :=
  Unmarshal (fun fs => match dec_string (jfield "_scroll_id" fs), dec_hits fs with
                       | Ok id, Ok (total, hits) => Ok (mkScroll hits total id)
                       | _, _ => Err json_error
                       end) "scroll" p.

Definition searchPath (indices : list string) : string :=
  match indices with
  | [] => "/_search"
  | _ => "/" +:+ join "," (map PathEscape indices) +:+ "/_search"
  end.

Section hits.
Context {T : Type}.
Variable decode : json -> res T.                       (* json.Unmarshal into T *)

(** Unmarshalling an absent _source fails. *)
Definition decode_source (s : option json) : res T :=
  match s with Some j => decode j | None => Err (NewErr "unexpected end of JSON input") end.

Fixpoint decode_hits (hs : list Hit) : res (list T) :=
  match hs with
  | [] => Ok []
  | h :: hs => match decode_source (hit_Source h) with
               | Err e => Err (wrapf ("elastic: decode hit " +:+ hit_ID h) e)
               | Ok x => match decode_hits hs with Ok r => Ok (x :: r) | Err e => Err e end
               end
  end.
Definition HitsAs (r : SearchResult) : res (list T) := decode_hits (Hits r).
End hits.

Section repository.
Context {W : Type} `{Es W}.

Definition SearchMulti (indices : list string) (req : SearchRequest) (w : W) : res SearchResult * W :=
  let indices := match sr_PIT req with Some _ => [] | None => indices end in
  match Do "POST" (searchPath indices) (Some (Marshal (Body req))) w with
  | (Err e, w) => (Err e, w)
  | (Ok p, w) => (parseSearchResult p, w)
  end.

Definition Search (index : string) (req : SearchRequest) (w : W) : res SearchResult * W :=
  if bool_decide (index = EmptyString) then SearchMulti [] req w else SearchMulti [index] req w.

(** A nil map in the interface is not a nil interface: "null" is sent. *)
Definition Count (index : string) (q : Query) (w : W) : res Z * W :=
  let body := if is_nil q then JNull else single "query" q in
  match Do "POST" ("/" +:+ PathEscape index +:+ "/_count") (Some (Marshal body)) w with
  | (Err e, w) => (Err e, w)
  | (Ok p, w) => (Unmarshal (fun fs => dec_int64 (jfield "count" fs)) "count" p, w)
  end.

Definition keep_alive (s : string) : string := if nonempty s then s else "1m".

Definition Scroll (index : string) (req : SearchRequest) (keepAlive : string) (w : W) : res ScrollResult * W :=
  let path := "/" +:+ PathEscape index +:+ "/_search?scroll=" +:+ QueryEscape (keep_alive keepAlive) in
  match Do "POST" path (Some (Marshal (Body req))) w with
  | (Err e, w) => (Err e, w)
  | (Ok p, w) => (parseScrollResult p, w)
  end.

Definition ScrollNext (scrollID keepAlive : string) (w : W) : res ScrollResult * W :=
  match Do "POST" "/_search/scroll"
          (Some (Ok (gomap [("scroll", JStr (keep_alive keepAlive)); ("scroll_id", JStr scrollID)]))) w with
  | (Err e, w) => (Err e, w)
  | (Ok p, w) => (parseScrollResult p, w)
  end.

(** A request whose answer is not read. *)
Definition Do_ (method path : string) (body : option (res json)) (w : W) : error * W :=
  match Do method path body w with (Err e, w) => (Some e, w) | (Ok _, w) => (None, w) end.

Definition ClearScroll (scrollID : string) : W -> error * W :=
  Do_ "DELETE" "/_search/scroll" (Some (Ok (single "scroll_id" (JStr scrollID)))).

Definition OpenPIT (index keepAlive : string) (w : W) : res string * W :=
  let path := "/" +:+ PathEscape index +:+ "/_pit?keep_alive=" +:+ QueryEscape (keep_alive keepAlive) in
  match Do "POST" path None w with
  | (Err e, w) => (Err e, w)
  | (Ok p, w) => (Unmarshal (fun fs => dec_string (jfield "id" fs)) "PIT" p, w)
  end.
Definition ClosePIT (pitID : string) : W -> error * W :=
  Do_ "DELETE" "/_pit" (Some (Ok (single "id" (JStr pitID)))).

(** ** document.go *)

Definition doc_path (index op id : string) : string :=
  "/" +:+ PathEscape index +:+ "/" +:+ op +:+ "/" +:+ PathEscape id.

(** [doc]: nil, or what marshalling it gave. *)
Definition IndexDoc (index id : string) (doc : option (res json)) (w : W) : res string * W :=
  let '(method, path) := if nonempty id then ("PUT", doc_path index "_doc" id)
                         else ("POST", "/" +:+ PathEscape index +:+ "/_doc") in
  match Do method path doc w with
  | (Err e, w) => (Err e, w)
  | (Ok p, w) => (Unmarshal (fun fs => dec_string (jfield "_id" fs)) "index" p, w)
  end.

Definition GetDoc {T} (decode : json -> res T) (index id : string) (w : W) : res T * W :=
  match Do "GET" (doc_path index "_doc" id) None w with
  | (Err e, w) => (Err e, w)
  | (Ok p, w) => (match Unmarshal (fun fs => Ok (jfield "_source" fs)) "get" p with
                  | Err e => Err e
                  | Ok src => decode_source decode src
                  end, w)
  end.

Definition wrap_doc (partial : res json) : res json := match partial with Ok d => Ok (single "doc" d) | Err e => Err e end.
Definition UpdateDoc (index id : string) (partial : res json) : W -> error * W :=
  Do_ "POST" (doc_path index "_update" id) (Some (wrap_doc partial)).

Definition painless (script : string) (params : json) : json :=
  gomap [("source", JStr script); ("lang", JStr "painless"); ("params", params)].
Definition ScriptUpdate (index id script : string) (params : json) : W -> error * W :=
  Do_ "POST" (doc_path index "_update" id) (Some (Marshal (single "script" (painless script params)))).

Definition UpdateByQuery (index : string) (q : Query) (script : string) (params : json) (w : W) : res Z * W :=
  match Do "POST" ("/" +:+ PathEscape index +:+ "/_update_by_query")
          (Some (Marshal (gomap [("query", q); ("script", painless script params)]))) w with
  | (Err e, w) => (Err e, w)
  | (Ok p, w) => (Unmarshal (fun fs => dec_int64 (jfield "updated" fs)) "update_by_query" p, w)
  end.

Definition DeleteDoc (index id : string) : W -> error * W := Do_ "DELETE" (doc_path index "_doc" id) None.

Definition DeleteByQuery (index : string) (q : Query) (w : W) : res Z * W :=
  match Do "POST" ("/" +:+ PathEscape index +:+ "/_delete_by_query") (Some (Marshal (single "query" q))) w with
  | (Err e, w) => (Err e, w)
  | (Ok p, w) => (Unmarshal (fun fs => dec_int64 (jfield "deleted" fs)) "delete_by_query" p, w)
  end.
End repository.

(** ** base.go and bulk.go: the typed repository *)

Record SearchOpts := mkOpts {
  so_Size : Z; so_From : Z; so_Sort : list sort_key; so_Includes : list string; so_Excludes : list string; so_Track : bool
}.
Record Repo := mkRepo { er_index : string }.
Definition er_New (index : string) : Repo := mkRepo index.

Section typed.
Context {W T : Type} `{Es W}.
Variable decode : json -> res T.
Variable encode : T -> res json.

Definition er_Search (r : Repo) (q : Query) (o : SearchOpts) (w : W) : res (list T * Z) * W :=
  match Search (er_index r)
          (mkReq q (so_Size o) (so_From o) (so_Sort o) (so_Includes o) (so_Excludes o) [] (so_Track o) false [] None [] [] None) w with
  | (Err e, w) => (Err e, w)
  | (Ok res, w) => (match HitsAs decode res with Err e => Err e | Ok items => Ok (items, Total res) end, w)
  end.

(** The request of SearchAfter. *)
Definition after_request (q : Query) (sort : list sort_key) (after : list json) (size : Z) : SearchRequest :=
  mkReq q size 0 sort [] [] [] false false after None [] [] None.

(** [next] = [] is Go's nil. *)
Definition SearchAfter (r : Repo) (q : Query) (sort : list sort_key) (after : list json) (size : Z) (w : W)
  : res (list T * list json) * W :=
  match Search (er_index r) (after_request q sort after size) w with
  | (Err e, w) => (Err e, w)
  | (Ok res, w) =>
      (match HitsAs decode res with
       | Err e => Err e
       | Ok items => Ok (items, match last (Hits res) with Some h => hit_Sort h | None => [] end)
       end, w)
  end.

Definition er_Get (r : Repo) (id : string) : W -> res T * W := GetDoc decode (er_index r) id.
Definition er_FindByID (r : Repo) (id : string) : W -> res T * W := er_Get r id.
Definition er_Exists (r : Repo) (id : string) (w : W) : res bool * W :=
  match er_Get r id w with
  | (Err e, w) => (if IsNotFound (Some e) then Ok false else Err e, w)
  | (Ok _, w) => (Ok true, w)
  end.
Definition er_Index (r : Repo) (id : string) (doc : T) (w : W) : error * W :=
  match IndexDoc (er_index r) id (Some (encode doc)) w with (Err e, w) => (Some e, w) | (Ok _, w) => (None, w) end.
Definition er_Update (r : Repo) (id : string) (partial : res json) : W -> error * W := UpdateDoc (er_index r) id partial.
Definition er_Delete (r : Repo) (id : string) : W -> error * W := DeleteDoc (er_index r) id.
Definition er_Count (r : Repo) (q : Query) : W -> res Z * W := Count (er_index r) q.
Definition ReindexTo (r : Repo) (dst script : string) : W -> error * W := Reindex (er_index r) dst script.

Context `{World W}.
Definition er_BulkIndex (r : Repo) (docs : list (string * T)) (w : W) : option (res BulkStats * W) :=
  BulkIndexWithRetry (er_index r) (map (fun d => (d.1, encode d.2)) docs) 3 w.
Definition BulkDelete (r : Repo) (ids : list string) (w : W) : option (res BulkStats * W) :=
  BulkDo (er_index r) (map DeleteOp ids) 3 w.
End typed.

(** ** search_builder.go *)

Record SearchBuilder := mkSB { sb_indices : list string; sb_bool : option BoolBuilder; rawQuery : Query; sb_req : SearchRequest }.
Definition NewSearch (indices : list string) : SearchBuilder := mkSB indices None JNull empty_request.
Definition er_NewSearch (r : Repo) : SearchBuilder := NewSearch [er_index r].

Definition ensureBool (b : SearchBuilder) : BoolBuilder := default Bool (sb_bool b).
Definition on_bool (f : BoolBuilder -> list Query -> BoolBuilder) (b : SearchBuilder) (qs : list Query) : SearchBuilder :=
  mkSB (sb_indices b) (Some (f (ensureBool b) qs)) (rawQuery b) (sb_req b).
Definition sb_Must := on_bool bool_Must.
Definition sb_Should := on_bool bool_Should.
Definition sb_MustNot := on_bool bool_MustNot.
Definition sb_Filter := on_bool bool_Filter.
Definition sb_Query (b : SearchBuilder) (q : Query) : SearchBuilder := mkSB (sb_indices b) (sb_bool b) q (sb_req b).

Definition on_req (f : SearchRequest -> SearchRequest) (b : SearchBuilder) : SearchBuilder :=
  mkSB (sb_indices b) (sb_bool b) (rawQuery b) (f (sb_req b)).
Definition set_Sort (s : list sort_key -> list sort_key) (r : SearchRequest) : SearchRequest :=
  mkReq (sr_Query r) (sr_Size r) (sr_From r) (s (sr_Sort r)) (SourceIncludes r) (SourceExcludes r) (Aggregations r)
    (TrackTotalHits r) (SizeZero r) (sr_SearchAfter r) (sr_Highlight r) (sr_Suggest r) (sr_KNN r) (sr_PIT r).
Definition set_page (from size : Z) (r : SearchRequest) : SearchRequest :=
  mkReq (sr_Query r) size from (sr_Sort r) (SourceIncludes r) (SourceExcludes r) (Aggregations r)
    (TrackTotalHits r) (SizeZero r) (sr_SearchAfter r) (sr_Highlight r) (sr_Suggest r) (sr_KNN r) (sr_PIT r).
Definition set_source (inc exc : list string) (r : SearchRequest) : SearchRequest :=
  mkReq (sr_Query r) (sr_Size r) (sr_From r) (sr_Sort r) inc exc (Aggregations r)
    (TrackTotalHits r) (SizeZero r) (sr_SearchAfter r) (sr_Highlight r) (sr_Suggest r) (sr_KNN r) (sr_PIT r).
Definition set_aggs (aggs : list (string * Agg)) (zero : bool) (size : Z) (r : SearchRequest) : SearchRequest :=
  mkReq (sr_Query r) size (sr_From r) (sr_Sort r) (SourceIncludes r) (SourceExcludes r) aggs
    (TrackTotalHits r) zero (sr_SearchAfter r) (sr_Highlight r) (sr_Suggest r) (sr_KNN r) (sr_PIT r).
Definition set_extra (track : bool) (after : list json) (hl : option Highlight) (sug : list (string * json))
  (knn : list KNN) (pit : option PIT) (r : SearchRequest) : SearchRequest :=
  mkReq (sr_Query r) (sr_Size r) (sr_From r) (sr_Sort r) (SourceIncludes r) (SourceExcludes r) (Aggregations r)
    track (SizeZero r) after hl sug knn pit.
Definition set_query (q : Query) (r : SearchRequest) : SearchRequest :=
  mkReq q (sr_Size r) (sr_From r) (sr_Sort r) (SourceIncludes r) (SourceExcludes r) (Aggregations r)
    (TrackTotalHits r) (SizeZero r) (sr_SearchAfter r) (sr_Highlight r) (sr_Suggest r) (sr_KNN r) (sr_PIT r).

Definition SortAsc (b : SearchBuilder) (field : string) := on_req (set_Sort (fun s => Asc s field)) b.
Definition SortDesc (b : SearchBuilder) (field : string) := on_req (set_Sort (fun s => Desc s field)) b.
Definition sb_Page (b : SearchBuilder) (page size : Z) : SearchBuilder :=
  let page := if page <? 1 then 1 else page in
  on_req (set_page (wrap64 ((page - 1) * size)) size) b.
Definition From (b : SearchBuilder) (from : Z) := on_req (fun r => set_page from (sr_Size r) r) b.
Definition Size (b : SearchBuilder) (size : Z) := on_req (fun r => set_page (sr_From r) size r) b.
Definition sb_SearchAfter (b : SearchBuilder) (cursor : list json) :=
  on_req (fun r => set_extra (TrackTotalHits r) cursor (sr_Highlight r) (sr_Suggest r) (sr_KNN r) (sr_PIT r) r) b.
Definition sb_Source (b : SearchBuilder) (includes : list string) := on_req (fun r => set_source includes (SourceExcludes r) r) b.
Definition ExcludeSource (b : SearchBuilder) (excludes : list string) := on_req (fun r => set_source (SourceIncludes r) excludes r) b.
Definition sb_Agg (b : SearchBuilder) (name : string) (agg : Agg) :=
  on_req (fun r => set_aggs (aset name agg (Aggregations r)) (SizeZero r) (sr_Size r) r) b.
Definition AggsOnly (b : SearchBuilder) := on_req (fun r => set_aggs (Aggregations r) true 0 r) b.
Definition sb_Highlight (b : SearchBuilder) (h : Highlight) :=
  on_req (fun r => set_extra (TrackTotalHits r) (sr_SearchAfter r) (Some h) (sr_Suggest r) (sr_KNN r) (sr_PIT r) r) b.
Definition sb_Suggest (b : SearchBuilder) (name : string) (s : json) :=
  on_req (fun r => set_extra (TrackTotalHits r) (sr_SearchAfter r) (sr_Highlight r) (aset name s (sr_Suggest r)) (sr_KNN r) (sr_PIT r) r) b.
Definition sb_KNN (b : SearchBuilder) (k : KNN) :=
  on_req (fun r => set_extra (TrackTotalHits r) (sr_SearchAfter r) (sr_Highlight r) (sr_Suggest r) (sr_KNN r ++ [k]) (sr_PIT r) r) b.
Definition sb_PIT (b : SearchBuilder) (id keepAlive : string) :=
  on_req (fun r => set_extra (TrackTotalHits r) (sr_SearchAfter r) (sr_Highlight r) (sr_Suggest r) (sr_KNN r) (Some (mkPIT id keepAlive)) r) b.
Definition TrackTotal (b : SearchBuilder) :=
  on_req (fun r => set_extra true (sr_SearchAfter r) (sr_Highlight r) (sr_Suggest r) (sr_KNN r) (sr_PIT r) r) b.

Definition sb_Request (b : SearchBuilder) : SearchRequest :=
  if negb (is_nil (rawQuery b)) then set_query (rawQuery b) (sb_req b)
  else match sb_bool b with
       | Some q => set_query (bool_Build q) (sb_req b)
       | None => sb_req b
       end.

Section builder.
Context {W : Type} `{Es W}.
Definition sb_Do (b : SearchBuilder) (w : W) : res SearchResult * W := SearchMulti (sb_indices b) (sb_Request b) w.
Definition sb_Count (b : SearchBuilder) (w : W) : res Z * W :=
  let index := match sb_indices b with i :: _ => i | [] => EmptyString end in
  Count index (sr_Query (sb_Request b)) w.
Definition SearchAs {T} (decode : json -> res T) (b : SearchBuilder) (w : W) : res (list T * Z) * W :=
  match sb_Do b w with
  | (Err e, w) => (Err e, w)
  | (Ok res, w) => (match HitsAs decode res with Err e => Err e | Ok items => Ok (items, Total res) end, w)
  end.
End builder.

(** ** Addresses *)

(** The path of a document splits into exactly its index, the operation and its id, each
    recovered by unescaping, and carries no query: no index name or id, whatever bytes it has,
    can address another document, another operation or add a parameter. *)
Theorem doc_path_roundtrip index op id :
  op = "_doc" \/ op = "_update" ->
  exists i d, split "/" (doc_path index op id) = [EmptyString; i; op; d]
    /\ PathUnescape i = Some index /\ PathUnescape d = Some id
    /\ contains_char "?" (doc_path index op id) = false /\ contains_char "#" (doc_path index op id) = false.
Proof.
  intros Hop. exists (PathEscape index), (PathEscape id).
  assert (Hno : forall c s, path_char c = false -> contains_char c (PathEscape s) = false) by (intros; by apply PathEscape_no_char).
  repeat split; try apply PathUnescape_PathEscape.
  - change (doc_path index op id) with (join "/" [EmptyString; PathEscape index; op; PathEscape id]).
    apply (split_join "/"); [done|]. repeat constructor; try (by apply Hno). by destruct Hop as [-> | ->].
  - unfold doc_path. rewrite !contains_char_app, !Hno by done. by destruct Hop as [-> | ->].
  - unfold doc_path. rewrite !contains_char_app, !Hno by done. by destruct Hop as [-> | ->].
Qed.

Lemma doc_path_roundtrip_witness :
  exists i d, split "/" (doc_path "logs" "_doc" "../x?y/_doc/1") = [EmptyString; i; "_doc"; d]
    /\ PathUnescape i = Some "logs" /\ PathUnescape d = Some "../x?y/_doc/1"
    /\ contains_char "?" (doc_path "logs" "_doc" "../x?y/_doc/1") = false
    /\ contains_char "#" (doc_path "logs" "_doc" "../x?y/_doc/1") = false.
Proof. apply doc_path_roundtrip. by left. Defined.

(** ** Chains of the fluent builder *)

Inductive clause := CMust | CShould | CMustNot | CFilter.
#[export] Instance clause_eq_dec : EqDecision clause.
Proof. solve_decision. Defined.

Inductive call :=
  | Add (k : clause) (qs : list Query)
  | SetQuery (q : Query)
  | SetPage (page size : Z)
  | Other (f : SearchRequest -> SearchRequest).        (* a call that leaves the query and the page alone *)

Definition run_call (b : SearchBuilder) (c : call) : SearchBuilder :=
  match c with
  | Add CMust qs => sb_Must b qs
  | Add CShould qs => sb_Should b qs
  | Add CMustNot qs => sb_MustNot b qs
  | Add CFilter qs => sb_Filter b qs
  | SetQuery q => sb_Query b q
  | SetPage p s => sb_Page b p s
  | Other f => on_req f b
  end.

Definition key (k : clause) : string :=
  match k with CMust => "must" | CShould => "should" | CMustNot => "must_not" | CFilter => "filter" end.
(** The clauses of one kind, in the order they were added. *)
Definition added (k : clause) (cs : list call) : list Query :=
  concat (map (fun c => match c with Add k' qs => if bool_decide (k = k') then qs else [] | _ => [] end) cs).
Definition raw_query (cs : list call) : Query :=
  fold_left (fun q c => match c with SetQuery q' => q' | _ => q end) cs JNull.

Fixpoint jpath (j : json) (ks : list string) : option json :=
  match ks with
  | [] => Some j
  | k :: ks => match jget j k with Some j' => jpath j' ks | None => None end
  end.

Definition of_kind (k : clause) (b : BoolBuilder) : list Query :=
  match k with CMust => bq_must b | CShould => bq_should b | CMustNot => bq_mustNot b | CFilter => bq_filter b end.

Lemma run_chain cs indices k :
  let b := fold_left run_call cs (NewSearch indices) in
  of_kind k (ensureBool b) = added k cs /\ rawQuery b = raw_query cs
  /\ (added k cs <> [] -> sb_bool b <> None).
Proof.
  cbv zeta. induction cs as [|c cs (IH1 & IH2 & IH3)] using rev_ind; [by destruct k|].
  unfold added, raw_query in *. rewrite !map_app, !concat_app, !fold_left_app. cbn. rewrite app_nil_r.
  set (b := fold_left run_call cs (NewSearch indices)) in *.
  destruct c as [k' qs|q|p s|f]; cbn in *; rewrite ?app_nil_r.
  - split; [|split; [by destruct k'|]].
    + rewrite <- IH1. destruct k, k'; cbn; rewrite ?app_nil_r; done.
    + by destruct k'.
  - auto.
  - auto.
  - auto.
Qed.

Lemma bool_Build_clause b k :
  of_kind k b <> [] -> jpath (bool_Build b) ["bool"; key k] = Some (JArr (of_kind k b)).
Proof.
  intros Hk. unfold bool_Build. cbn [jpath]. rewrite jget_single, bool_decide_eq_true_2 by done.
  rewrite jget_gomap, !last_of_app, !clauses_lookup, last_of_opt_ne by (by destruct k).
  destruct k; cbn [key of_kind] in *; repeat case_bool_decide; try done;
    match type of Hk with ?l <> [] => by destruct l end.
Qed.

(** However a search is composed, every clause added with Must, Should, MustNot or Filter
    is sent in its own list of the bool query, in the order of the calls and none missing,
    unless a query set with Query replaces the composition: then exactly that query is sent. *)
Theorem builder_clauses cs indices k :
  let body := Body (sb_Request (fold_left run_call cs (NewSearch indices))) in
  (raw_query cs = JNull -> added k cs <> [] -> jpath body ["query"; "bool"; key k] = Some (JArr (added k cs)))
  /\ (is_nil (raw_query cs) = false -> jpath body ["query"] = Some (raw_query cs)).
Proof.
  cbv zeta. destruct (run_chain cs indices k) as (H1 & H2 & H3).
  set (b := fold_left run_call cs (NewSearch indices)) in *. cbn [jpath]. rewrite Body_query. unfold sb_Request.
  rewrite H2. split.
  - intros -> Hk. cbn. specialize (H3 Hk). unfold ensureBool in H1. destruct (sb_bool b) as [q|]; [|done].
    cbn in *. rewrite <- H1 in *. by apply (bool_Build_clause q k).
  - intros Hq. rewrite Hq. cbn. by rewrite Hq.
Qed.

Lemma builder_clauses_witness :
  jpath (Body (sb_Request (fold_left run_call
    [Add CFilter [Term "tenant" (JStr "t1")]; SetPage 2 10; Add CMust [Exists "name"]; Add CFilter [Exists "id"]]
    (NewSearch ["items"])))) ["query"; "bool"; "filter"]
  = Some (JArr [Term "tenant" (JStr "t1"); Exists "id"]).
Proof.
  apply (proj1 (builder_clauses
    [Add CFilter [Term "tenant" (JStr "t1")]; SetPage 2 10; Add CMust [Exists "name"]; Add CFilter [Exists "id"]]
    ["items"] CFilter)); [reflexivity|discriminate].
Defined.

(** ** Deep pagination *)

(** A match of a search, and its values under the sort. *)
Record ranked := mkRanked { f_id : string; f_source : option json; f_sort : list json }.

(** What a request asks for: only the query, the order, how many and behind which cursor. *)
Definition asks (body : json) (q s : option json) (size : nat) (after : list json) : Prop :=
  jget body "query" = q /\ jget body "sort" = s /\ jget body "size" = Some (JNum (Z.of_nat size))
  /\ jget body "search_after" = match after with [] => None | _ => Some (JArr after) end
  /\ forall k, k ∉ ["query"; "sort"; "size"; "search_after"] -> jget body k = None.

(** The shape of an answer. *)
Definition number_or_null (j : json) : bool := match j with JNull | JNum _ | JFloat _ => true | _ => false end.
Definition hit_answer (m : ranked) (j : json) : Prop :=
  exists fs, j = JObj fs
    /\ named "_id" fs = [("_id", JStr (f_id m))]
    /\ named "_source" fs = match f_source m with Some d => [("_source", d)] | None => [] end
    /\ named "sort" fs = [("sort", JArr (f_sort m))]
    /\ (exists score, named "_score" fs = [("_score", score)] /\ number_or_null score = true)
    /\ named "highlight" fs = [].
Definition page_answer (j : json) (page : list ranked) : Prop :=
  exists fs hs js ts total, j = JObj fs
    /\ named "hits" fs = [("hits", JObj hs)] /\ named "aggregations" fs = [] /\ named "suggest" fs = []
    /\ named "hits" hs = [("hits", JArr js)]
    /\ named "total" hs = [("total", JObj ts)] /\ named "value" ts = [("value", JNum total)] /\ int64_ok total = true
    /\ Forall2 hit_answer page js.

(** The matches behind a cursor. *)
Definition found_after (lt : list json -> list json -> bool) (cursor : list json) (ms : list ranked) : list ranked :=
  match cursor with [] => ms | _ => List.filter (fun m => lt cursor (f_sort m)) ms end.

(** What the search API promises of one index: [ranking] is what a query matches, in the order of a
    sort, and a request is answered with the first [size] of it behind its cursor. *)
Class Paged (W : Type) `{Es W} (index : string) := {
  ranking : option json -> option json -> W -> list ranked;
  sort_lt : option json -> list json -> list json -> bool;
  law_lt_irrefl s a : sort_lt s a a = false;
  law_lt_trans s a b c : sort_lt s a b = true -> sort_lt s b c = true -> sort_lt s a c = true;
  law_page body q s size after w status p w' :
    es_perform "POST" ("/" +:+ PathEscape index +:+ "/_search") (JsonBody body) w = (Ok (status, Ok p), w') ->
    status < 400 -> asks body q s size after ->
    exists j, parsed p = Some j /\ page_answer j (take size (found_after (sort_lt s) after (ranking q s w)))
}.

(** A client that follows the protocol SearchAfter documents: ask again with the returned
    cursor until it is nil. *)
Fixpoint pages {W T} `{Es W} (decode : json -> res T) (fuel : nat) (r : Repo) (q : Query) (sort : list sort_key)
  (after : list json) (size : Z) (w : W) : option (res (list T) * W) :=
  match fuel with
  | O => None
  | S fuel =>
      match SearchAfter decode r q sort after size w with
      | (Err e, w) => Some (Err e, w)
      | (Ok (items, []), w) => Some (Ok items, w)
      | (Ok (items, next), w) =>
          match pages decode fuel r q sort next size w with
          | Some (Ok more, w) => Some (Ok (items ++ more), w)
          | o => o
          end
      end
  end.

(** Sort values that survive the way through an interface value: integers up to 2^53, finite
    floats, strings, booleans and null. *)
Definition exact_value (v : json) : bool :=
  match v with JNum n => Z.abs n <=? 2 ^ 53 | JFloat f => is_finite f | JArr _ | JObj _ => false | _ => true end.
Definition exact_sort (m : ranked) : Prop := f_sort m <> [] /\ Forall (fun v => exact_value v = true) (f_sort m).

Lemma dec_any_exact l : Forall (fun v => exact_value v = true) l -> map dec_any l = l.
Proof.
  induction 1 as [|v l Hv Hl IH]; [done|]. cbn [map]. rewrite IH. f_equal.
  destruct v; cbn in *; try done. by rewrite Hv.
Qed.

Lemma marshals_exact l : Forall (fun v => exact_value v = true) l -> forallb marshals l = true.
Proof. intros Hl. apply forallb_forall. intros v Hv%list_elem_of_In. rewrite Forall_forall in Hl. specialize (Hl v Hv). by destruct v. Qed.

Lemma dec_list_map {A} (f : json -> A) l : dec_list (fun v => Ok (f v)) (Some (JArr l)) = Ok (map f l).
Proof. cbn. induction l as [|x l IH]; [done|]. by rewrite IH. Qed.

(** *** Reading the answer *)

Definition hit_found (h : Hit) : ranked := mkRanked (hit_ID h) (hit_Source h) (hit_Sort h).

Lemma dec_hit_answer m j : hit_answer m j -> exact_sort m -> exists h, dec_hit j = Ok h /\ hit_found h = m.
Proof.
  intros (fs & -> & Hi & Hs & Ho & (sc & Hc & Hsc) & Hh) [_ Hx]. unfold dec_hit, dec_struct. cbn [dec_fields from_option id].
  rewrite (named_one _ _ _ _ Hi), (named_one _ _ _ _ Ho), (named_one _ _ _ _ Hc), (named_none _ _ Hh), dec_list_map,
    dec_any_exact by done.
  assert (exists f, dec_float (Some sc) = Ok f) as [f ->] by (destruct sc; first [discriminate|by eexists]). cbn.
  eexists. split; [done|]. unfold hit_found. cbn.
  destruct m as [i d o]; cbn in *. f_equal. destruct d; [by eapply named_one|by apply named_none].
Qed.

Lemma dec_hits_answer ms js :
  Forall2 hit_answer ms js -> Forall exact_sort ms ->
  exists hs, dec_list dec_hit (Some (JArr js)) = Ok hs /\ map hit_found hs = ms.
Proof.
  induction 1 as [|m j ms js Hm _ IH]; [by exists []|]. intros [Hx Hxs]%Forall_cons.
  destruct (dec_hit_answer _ _ Hm Hx) as (h & Eh & <-). destruct (IH Hxs) as (hs & Ehs & <-).
  cbn in Ehs. exists (h :: hs). split; [|done]. cbn. by rewrite Eh, Ehs.
Qed.

Lemma parse_page p j ms :
  parsed p = Some j -> page_answer j ms -> Forall exact_sort ms ->
  exists r, parseSearchResult p = Ok r /\ map hit_found (Hits r) = ms.
Proof.
  intros Hp (fs & hs & js & ts & total & -> & Hh & Ha & Hs & Hj & Ht & Hv & Hi & Hms) Hx.
  destruct (dec_hits_answer _ _ Hms Hx) as (l & El & Hl).
  unfold parseSearchResult, Unmarshal, dec_struct, dec_hits. rewrite Hp. cbn [dec_fields from_option id].
  rewrite (named_one _ _ _ _ Hh), (named_none _ _ Ha), (named_none _ _ Hs). unfold dec_struct. cbn [dec_fields from_option id].
  rewrite (named_one _ _ _ _ Hj), (named_one _ _ _ _ Ht), El. cbn [dec_fields from_option id].
  rewrite (named_one _ _ _ _ Hv). cbn. rewrite Hi. cbn. by eexists.
Qed.

(** *** Sending the request *)

Definition sent_query (q : Query) : option json := if is_nil q then None else Some q.
Definition sent_sort (s : list sort_key) : option json := match s with [] => None | _ => Some (sort_json s) end.

Lemma after_request_asks q sort after size :
  (0 < size)%nat -> asks (Body (after_request q sort after (Z.of_nat size))) (sent_query q) (sent_sort sort) size after.
Proof.
  intros Hs. unfold asks. rewrite Body_query, Body_sort, Body_size, Body_search_after.
  cbn [after_request sr_Query sr_Sort sr_Size sr_SearchAfter].
  rewrite (proj2 (Z.ltb_lt _ _)) by lia. split; [first [done|by destruct sort|by destruct after]|]. split; [first [done|by destruct sort|by destruct after]|]. split; [first [done|by destruct sort|by destruct after]|]. split; [first [done|by destruct sort|by destruct after]|].
  intros k Hk. unfold Body. rewrite jget_gomap. apply last_of_none. cbn. rewrite (proj2 (Z.ltb_lt _ _)) by lia.
  intros Hin. apply Hk. clear Hk. destruct (is_nil q), sort, after; cbn in Hin; set_solver.
Qed.

Lemma after_request_marshals q sort after size :
  marshals q = true -> Forall (fun v => exact_value v = true) after ->
  Marshal (Body (after_request q sort after size)) = Ok (Body (after_request q sort after size)).
Proof.
  intros Hq Ha. unfold Marshal. enough (marshals (Body (after_request q sort after size)) = true) as -> by done.
  apply marshals_gomap. pose proof (marshals_exact _ Ha) as Hm. cbn.
  destruct (is_nil q), (0 <? size), sort, after; cbn -[sort_json]; repeat constructor; cbn -[sort_json]; auto using marshals_sort.
Qed.

(** *** Following the cursors *)

(** [x] is the decoded document of a match. *)
Definition decoded {T} (decode : json -> res T) (m : ranked) (x : T) : Prop :=
  exists j, f_source m = Some j /\ decode j = Ok x.

Lemma decode_hits_decoded {T} (decode : json -> res T) hs items :
  decode_hits decode hs = Ok items -> Forall2 (decoded decode) (map hit_found hs) items.
Proof.
  revert items. induction hs as [|h hs IH]; intros items; cbn; [intros [= <-]; constructor|].
  unfold decode_source. destruct (hit_Source h) as [j|] eqn:Ej; [|done]. destruct (decode j) as [x|] eqn:Ed; [|done].
  destruct (decode_hits decode hs) as [r|]; [|done]. intros [= <-]. constructor; [by exists j|by apply IH].
Qed.

Lemma decode_hits_total {T} (decode : json -> res T) hs :
  Forall (fun m => exists x, decoded decode m x) (map hit_found hs) -> exists items, decode_hits decode hs = Ok items.
Proof.
  induction hs as [|h hs IH]; [by eexists|]. cbn. intros [(x & j & Hj & Hd) Hs]%Forall_cons. cbn in Hj.
  destruct (IH Hs) as [r ->]. unfold decode_source. rewrite Hj, Hd. by eexists.
Qed.

Section pages.
Context {W T : Type} `{!Es W} (decode : json -> res T) (index : string) `{!Paged W index}.
Variable (q : Query) (sort : list sort_key) (size : nat).
Abbreviation lt := (sort_lt (sent_sort sort)).
Abbreviation matches := (ranking (sent_query q) (sent_sort sort)).
Hypothesis Hindex : index <> EmptyString.
Hypothesis Hsize : (0 < size)%nat.
(** No request changes the matches: a point in time, or an index nobody writes. *)
Hypothesis frozen : forall m path b w, matches (es_perform m path b w).2 = matches w.

(** The sort is strict, with values that survive the way through the client. *)
Definition strict (ms : list ranked) : Prop :=
  StronglySorted (fun a b => lt (f_sort a) (f_sort b) = true) ms /\ Forall exact_sort ms.

(** Nothing fails: requests are built and answered, and every document decodes. *)
Definition answering : Prop :=
  es_request "POST" ("/" +:+ PathEscape index +:+ "/_search") = None
  /\ forall b (w : W), exists status p w',
       es_perform "POST" ("/" +:+ PathEscape index +:+ "/_search") (JsonBody b) w = (Ok (status, Ok p), w') /\ status < 400.
Definition healthy (ms : list ranked) : Prop :=
  answering /\ marshals q = true /\ Forall (fun m => exists x, decoded decode m x) ms.

(** One page: the first [size] matches behind the cursor, and the last one's values as the next. *)
Lemma SearchAfter_page after (w : W) r w' :
  strict (matches w) -> Forall (fun v => exact_value v = true) after ->
  SearchAfter decode (er_New index) q sort after (Z.of_nat size) w = (r, w') ->
  let page := take size (found_after lt after (matches w)) in
  (forall items next, r = Ok (items, next) ->
     matches w' = matches w /\ Forall2 (decoded decode) page items
     /\ next = match last page with Some m => f_sort m | None => [] end)
  /\ (healthy (matches w) -> exists items next, r = Ok (items, next)).
Proof.
  intros [_ Hx] Hafter HS. cbv zeta. set (page := take size _).
  assert (Hsub : forall P, Forall P (matches w) -> Forall P page).
  { intros P HP. apply Forall_take. unfold found_after. destruct after; [done|]. apply Forall_forall. intros m.
    rewrite list_elem_of_In, filter_In, <- list_elem_of_In. rewrite Forall_forall in HP. intros [? _]. auto. }
  unfold SearchAfter, Search, SearchMulti, Do in HS. cbn [er_New er_index] in HS. rewrite bool_decide_eq_false_2 in HS by done.
  cbn [after_request sr_PIT searchPath map join] in HS. fold (after_request q sort after (Z.of_nat size)) in HS.
  set (b := Body (after_request q sort after (Z.of_nat size))) in *.
  set (path := "/" +:+ PathEscape index +:+ "/_search") in *.
  destruct (Marshal b) as [jb|em] eqn:Em.
  2: { injection HS as <- <-. split; [done|]. intros (_ & Hq & _). subst b.
       by rewrite after_request_marshals in Em. }
  assert (jb = b) as -> by (unfold Marshal in Em; destruct (marshals b); [by injection Em|done]).
  destruct (es_request "POST" path) as [e|] eqn:Eq.
  { injection HS as <- <-. split; [done|]. intros [[Hr _] _]. unfold path in Eq. by rewrite Hr in Eq. }
  destruct (es_perform "POST" path (JsonBody b) w) as [a w1] eqn:Ep.
  assert (Hans : healthy (matches w) -> exists status p, a = Ok (status, Ok p) /\ status < 400).
  { intros [[_ Hans] _]. destruct (Hans b w) as (st & p & w2 & E & ?). unfold path in Ep. rewrite Ep in E. injection E as -> ->. eauto. }
  destruct a as [[status [p|e]]|e]; try (injection HS as <- <-; split; [done|]; intros (? & ? & ? & ?)%Hans; done).
  destruct (Z.leb_spec 400 status) as [|Hst].
  { injection HS as <- <-. split; [done|]. intros (? & ? & [= <- <-] & ?)%Hans. lia. }
  destruct (law_page _ _ _ _ _ _ _ _ _ Ep Hst (after_request_asks q sort after size Hsize)) as (j & Hj & Hpage).
  destruct (parse_page _ _ _ Hj Hpage (Hsub _ Hx)) as (res & Er & Hm). fold page in Hm. rewrite Er in HS.
  unfold HitsAs in HS. destruct (decode_hits decode (Hits res)) as [its|e] eqn:Ed; injection HS as <- <-.
  - split; [|intros _; by eexists _, _]. intros items next [= <- <-].
    split; [pose proof (frozen "POST" path (JsonBody b) w) as Hf; by rewrite Ep in Hf|].
    split; [rewrite <- Hm; by apply decode_hits_decoded|]. rewrite <- Hm, fmap_last. by destruct (last (Hits res)).
  - split; [done|]. intros (_ & _ & Hdec). apply Hsub in Hdec. rewrite <- Hm in Hdec.
    destruct (decode_hits_total decode _ Hdec) as [? E]. by rewrite E in Ed.
Qed.

Lemma found_after_split pre m rest :
  strict (pre ++ m :: rest) -> found_after lt (f_sort m) (pre ++ m :: rest) = rest.
Proof.
  intros [Hs Hc]. apply Forall_app in Hc as [_ [[Hm _] _]%Forall_cons]. unfold found_after.
  destruct (f_sort m) as [|x xs] eqn:Em; [done|]. rewrite <- Em. rewrite List.filter_app, filter_none.
  - cbn. rewrite law_lt_irrefl. cbn. apply StronglySorted_app_1_r in Hs. inversion_clear Hs as [|? ? _ Hall].
    by apply filter_all.
  - apply Forall_forall. intros y Hy. apply not_true_iff_false. intros Hlt.
    pose proof (StronglySorted_app_1_elem_of _ _ _ y m Hs Hy ltac:(by left)) as Hym.
    pose proof (law_lt_trans _ _ _ _ Hym Hlt). by rewrite law_lt_irrefl in *.
Qed.

Lemma pages_from fuel after pre rest (w : W) :
  strict (matches w) -> Forall (fun v => exact_value v = true) after ->
  matches w = pre ++ rest -> found_after lt after (matches w) = rest -> (length rest < fuel)%nat ->
  exists r w', pages decode fuel (er_New index) q sort after (Z.of_nat size) w = Some (r, w')
    /\ (forall items, r = Ok items -> Forall2 (decoded decode) rest items)
    /\ (healthy (matches w) -> exists items, r = Ok items).
Proof.
  revert after pre rest w. induction fuel as [|fuel IH]; intros after pre rest w Hst Hx Hr Ha Hf; [lia|]. cbn.
  destruct (SearchAfter decode _ q sort after _ w) as [r w1] eqn:Es.
  destruct (SearchAfter_page _ _ _ _ Hst Hx Es) as [Hok Hlive]. rewrite Ha in Hok.
  destruct r as [[items next]|e].
  2: { eexists _, _. split; [done|]. split; [done|]. intros (? & ? & ?)%Hlive. done. }
  destruct (Hok _ _ eq_refl) as (Hw & Hd & Hn). clear Hok Hlive.
  destruct (last (take size rest)) as [m|] eqn:El.
  2: { apply last_None in El. subst next. rewrite El in Hd.
       assert (rest = []) as -> by (destruct rest; [done|]; destruct size; [lia|done]).
       eexists _, _. split; [done|]. split; [by intros ? [= <-]|]. by eexists. }
  apply last_Some in El as [init El].
  assert (Hsplit : matches w = (pre ++ init) ++ m :: skipn size rest).
  { rewrite Hr. rewrite <- (take_drop size rest) at 1. rewrite El, <- !app_assoc. done. }
  assert (Hm : exact_sort m).
  { destruct Hst as [_ Hc]. rewrite Hsplit in Hc. by apply Forall_app in Hc as [_ [? _]%Forall_cons]. }
  destruct next as [|x xs]; [by destruct Hm|]. rewrite Hn.
  destruct (IH (f_sort m) ((pre ++ init) ++ [m]) (skipn size rest) w1) as (r & w2 & -> & Hok & Hlive).
  - by rewrite Hw.
  - apply Hm.
  - rewrite Hw, Hsplit. by rewrite <- (app_assoc (pre ++ init)).
  - rewrite Hw, Hsplit. apply found_after_split. by rewrite <- Hsplit.
  - rewrite length_drop. destruct rest; [by rewrite take_nil in El; destruct init|]. cbn in *. lia.
  - destruct r as [more|e].
    + eexists _, _. split; [done|]. split; [|by eexists]. intros its [= <-].
      rewrite <- (take_drop size rest). apply Forall2_app; auto.
    + eexists _, _. split; [done|]. split; [done|]. by rewrite <- Hw.
Qed.

End pages.

(** *** A cluster with three documents *)

Definition three : list ranked := map (fun n => mkRanked (itoa n) (Some (JNum (10 * n))) [JNum n]) [1; 2; 3].
Definition hit_json (m : ranked) : json :=
  JObj (("_id", JStr (f_id m)) :: ("_score", JNull)
        :: match f_source m with Some d => [("_source", d)] | None => [] end ++ [("sort", JArr (f_sort m))]).
Definition num_lt (a b : list json) : bool := match a, b with [JNum x], [JNum y] => x <? y | _, _ => false end.

Definition answer (ms : list ranked) : payload :=
  mkPayload EmptyString (Some (JObj [("hits", JObj
    [("hits", JArr (map hit_json ms)); ("total", JObj [("value", JNum 3)])])])).

#[export] Instance three_es : Es nat := {
  es_request _ _ := None;
  es_perform _ _ body n :=
    let field k := match body with JsonBody j => jget j k | _ => None end in
    let after := match field "search_after" with Some (JArr l) => l | _ => [] end in
    let size := match field "size" with Some (JNum z) => Z.to_nat z | _ => 10%nat end in
    (Ok (200, Ok (answer (take size (found_after num_lt after three)))), S n)
}.

Lemma hit_json_answer m : hit_answer m (hit_json m).
Proof. destruct m as [i [d|] o]; eexists; repeat (split; [done|]); (split; [by exists JNull|done]). Qed.

Lemma num_lt_spec a b : num_lt a b = true <-> exists x y, a = [JNum x] /\ b = [JNum y] /\ x < y.
Proof.
  split.
  - destruct a as [|[] []], b as [|[] []]; try done. cbn. intros ?%Z.ltb_lt. eauto.
  - intros (x & y & -> & -> & H). cbn. by apply Z.ltb_lt.
Qed.

#[export] Instance three_paged : Paged nat "items".
Proof.
  refine {| ranking _ _ _ := three; sort_lt _ := num_lt |}.
  - intros _ a. apply not_true_iff_false. intros (x & y & -> & [= ->] & H)%num_lt_spec. lia.
  - intros _ a b c (x & y & -> & -> & H1)%num_lt_spec (y' & z & [= <-] & -> & H2)%num_lt_spec.
    apply num_lt_spec. exists x, z. repeat split; lia.
  - intros body q s size after w status p w' Hp _ (_ & _ & Hs & Ha & _). cbn -[take] in Hp.
    rewrite Hs, Ha, Nat2Z.id in Hp. injection Hp as <- <- <-.
    replace (match match after with [] => None | _ => _ end with Some (JArr l) => l | _ => [] end) with after by by destruct after.
    eexists. split; [done|]. eexists _, _, _, _, 3. repeat (split; [done|]).
    induction (take size _); constructor; [apply hit_json_answer|done].
Defined.

Definition dec_num (j : json) : res Z := match j with JNum n => Ok n | _ => Err json_error end.


Example pages_run : pages dec_num 4 (er_New "items") JNull (Asc [] "n") [] 2 0%nat = Some (Ok [10; 20; 30], 3%nat).
Proof. vm_compute. reflexivity. Qed.

(** An integer sort value beyond 2^53 comes back from the client as another number, so the
    search goes on behind a cursor no document has. *)
Example cursor_rounded :
  match dec_hit (hit_json (mkRanked "a" None [JNum (2 ^ 53 + 1)])) with
  | Ok h => hit_Sort h
  | Err _ => []
  end = [JFloat (f64_of_int (2 ^ 53))].
Proof. vm_compute. reflexivity. Qed.

(** Counting without a query sends the body "null", not none. *)
Definition echo : Es (list es_body) := {|
  es_request _ _ := None;
  es_perform _ _ body w := (Ok (200, Ok (mkPayload EmptyString (Some (JObj [])))), body :: w) |}.
Example Count_null : (@Count _ echo "items" JNull []).2 = [JsonBody JNull].
Proof. reflexivity. Qed.

(** A count over several indices asks the first one only, and over none an empty name. *)
Example builder_Count_first :
  let es : Es (list string) := {| es_request _ _ := None; es_perform _ path _ w := (Err json_error, path :: w) |} in
  ((@sb_Count _ es (NewSearch ["a"; "b"]) []).2, (@sb_Count _ es (NewSearch []) []).2) = (["/a/_count"], ["//_count"]).
Proof. reflexivity. Qed.
