(* ===== verification/EsMapping.v ===== *)
(** * EsMapping: database/elasticsearch/mapping — index bodies, aliases, migration

    The mapping builder renders to JSON trees; [AutoMap] works on a finite tree
    of the type it reflects on (a type that contains itself has none: the code
    does not return on it); the lifecycle operations are sequences of requests. *)

From S2P Require Import Prelude GoStrings GoFloat Http Errors Decode Url Elastic EsQuery EsRepo.

Set Warnings "-register-all".

(** ** template.go: MappingBuilder *)

(** Maps under construction: [None] is nil. *)
Abbreviation gmap_json := (option (list (string * json))).
Definition put (k : string) (v : json) (m : gmap_json) : gmap_json := Some (oset k v (default [] m)).
Definition filled (m : gmap_json) : bool := match m with Some (_ :: _) => true | _ => false end.
Definition map_json (m : gmap_json) : json := match m with Some fs => JObj fs | None => JNull end.

Record MappingBuilder := mkMapping {
  properties : list (string * json); dynamic : string; dynamicTemplates : list json; runtime : gmap_json;
  analyzers : gmap_json; tokenizers : gmap_json; mb_filters : gmap_json; normalizer : gmap_json; settings : gmap_json
}.
Definition NewMapping : MappingBuilder := mkMapping [] EmptyString [] None None None None None None.

Definition Dynamic (m : MappingBuilder) (mode : string) : MappingBuilder :=
  mkMapping (properties m) mode (dynamicTemplates m) (runtime m) (analyzers m) (tokenizers m) (mb_filters m) (normalizer m) (settings m).
Definition Field (m : MappingBuilder) (name : string) (property : json) : MappingBuilder :=
  mkMapping (oset name property (properties m)) (dynamic m) (dynamicTemplates m) (runtime m) (analyzers m) (tokenizers m)
    (mb_filters m) (normalizer m) (settings m).

Definition typed (t : string) : json := single "type" (JStr t).
Definition text_with_keyword : json :=
  gomap [("type", JStr "text"); ("fields", single "keyword" (gomap [("type", JStr "keyword"); ("ignore_above", JNum 256)]))].
Definition Text (m : MappingBuilder) (name analyzer : string) : MappingBuilder :=
  Field m name (gomap ([("type", JStr "text")] ++ opt (nonempty analyzer) ("analyzer", JStr analyzer))).
Definition TextWithKeyword (m : MappingBuilder) (name : string) := Field m name text_with_keyword.
Definition Keyword (m : MappingBuilder) (name : string) := Field m name (typed "keyword").
Definition Date (m : MappingBuilder) (name : string) := Field m name (typed "date").
Definition Long (m : MappingBuilder) (name : string) := Field m name (typed "long").
Definition Double (m : MappingBuilder) (name : string) := Field m name (typed "double").
Definition Boolean (m : MappingBuilder) (name : string) := Field m name (typed "boolean").
Definition GeoPoint (m : MappingBuilder) (name : string) := Field m name (typed "geo_point").
Definition mb_GeoShape (m : MappingBuilder) (name : string) := Field m name (typed "geo_shape").
Definition DenseVector (m : MappingBuilder) (name : string) (dims : Z) (similarity : string) : MappingBuilder :=
  let similarity := if nonempty similarity then similarity else "cosine" in
  Field m name (gomap [("type", JStr "dense_vector"); ("dims", JNum dims); ("index", JBool true); ("similarity", JStr similarity)]).
Definition Completion (m : MappingBuilder) (name : string) := Field m name (typed "completion").
Definition with_properties (t : string) (sub : MappingBuilder) : json :=
  gomap [("type", JStr t); ("properties", JObj (properties sub))].
Definition Object (m : MappingBuilder) (name : string) (sub : MappingBuilder) := Field m name (with_properties "object" sub).
Definition NestedField (m : MappingBuilder) (name : string) (sub : MappingBuilder) := Field m name (with_properties "nested" sub).
(** [relations]: a map as it marshals. *)
Definition mb_Join (m : MappingBuilder) (name : string) (relations : json) : MappingBuilder :=
  Field m name (gomap [("type", JStr "join"); ("relations", relations)]).
Definition RuntimeField (m : MappingBuilder) (name kind script : string) : MappingBuilder :=
  mkMapping (properties m) (dynamic m) (dynamicTemplates m)
    (put name (gomap [("type", JStr kind); ("script", single "source" (JStr script))]) (runtime m))
    (analyzers m) (tokenizers m) (mb_filters m) (normalizer m) (settings m).
Definition DynamicTemplate (m : MappingBuilder) (name : string) (template : json) : MappingBuilder :=
  mkMapping (properties m) (dynamic m) (dynamicTemplates m ++ [single name template]) (runtime m)
    (analyzers m) (tokenizers m) (mb_filters m) (normalizer m) (settings m).

(** ** analyzer.go *)

Definition set_analysis (an tok fil nor set : gmap_json -> gmap_json) (m : MappingBuilder) : MappingBuilder :=
  mkMapping (properties m) (dynamic m) (dynamicTemplates m) (runtime m) (an (analyzers m)) (tok (tokenizers m))
    (fil (mb_filters m)) (nor (normalizer m)) (set (settings m)).
Definition CustomAnalyzer (m : MappingBuilder) (name tokenizer : string) (filters : list string) : MappingBuilder :=
  set_analysis (put name (gomap [("type", JStr "custom"); ("tokenizer", JStr tokenizer); ("filter", strs filters)])) id id id id m.
Definition Tokenizer (m : MappingBuilder) (name : string) (def : json) : MappingBuilder := set_analysis id (put name def) id id id m.
Definition TokenFilter (m : MappingBuilder) (name : string) (def : json) : MappingBuilder := set_analysis id id (put name def) id id m.
Definition Synonyms (m : MappingBuilder) (name : string) (entries : list string) : MappingBuilder :=
  TokenFilter m name (gomap [("type", JStr "synonym_graph"); ("synonyms", strs entries)]).
Definition Normalizer (m : MappingBuilder) (name : string) (filters : list string) : MappingBuilder :=
  set_analysis id id id (put name (gomap [("type", JStr "custom"); ("filter", strs filters)])) id m.
Definition Setting (m : MappingBuilder) (key : string) (value : json) : MappingBuilder := set_analysis id id id id (put key value) m.
Definition Shards (m : MappingBuilder) (primaries replicas : Z) : MappingBuilder :=
  Setting (Setting m "number_of_shards" (JNum primaries)) "number_of_replicas" (JNum replicas).

Definition mb_Build (m : MappingBuilder) : json :=
  let mappings := gomap ([("properties", JObj (properties m))]
    ++ opt (nonempty (dynamic m)) ("dynamic", JStr (dynamic m))
    ++ opt (0 <? Z.of_nat (length (dynamicTemplates m))) ("dynamic_templates", JArr (dynamicTemplates m))
    ++ opt (filled (runtime m)) ("runtime", map_json (runtime m))) in
  let analysis := entries (opt (filled (analyzers m)) ("analyzer", map_json (analyzers m))
    ++ opt (filled (tokenizers m)) ("tokenizer", map_json (tokenizers m))
    ++ opt (filled (mb_filters m)) ("filter", map_json (mb_filters m))
    ++ opt (filled (normalizer m)) ("normalizer", map_json (normalizer m))) in
  let sets := entries (default [] (settings m)
    ++ opt (0 <? Z.of_nat (length analysis)) ("analysis", JObj analysis)) in
  gomap ([("mappings", mappings)] ++ opt (0 <? Z.of_nat (length sets)) ("settings", JObj sets)).

(** ** Automatic mapping *)

(** reflect.StructField; [f_Anonymous], an embedded field, is not looked at. *)
Record structfield := mkField { f_Name : string; f_Exported : bool; f_Anonymous : bool; f_json : string; f_es : string }.

(** reflect.Type, as far as mapFieldType looks at it: [TInt] is any kind from Int to Uint64, of
    which [TByte] is Uint8. *)
Inductive gotype :=
  | TTime | TString | TBool | TInt | TByte | TFloat
  | TPointer (t : gotype) | TSlice (t : gotype) | TArray (t : gotype)
  | TStruct (fields : list (structfield * gotype)) | TMap | TOther.

Definition jsonFieldName (f : structfield) : string :=
  if bool_decide (f_json f = EmptyString) then f_Name f
  else let name := match split "," (f_json f) with n :: _ => n | [] => EmptyString end in
       if bool_decide (name = "-") then EmptyString
       else if bool_decide (name = EmptyString) then f_Name f
       else name.

Section fields.
Variable mapType : gotype -> option json.             (* mapFieldType: the property it adds, if any *)

Definition map_field (f : structfield) (t : gotype) (m : MappingBuilder) : MappingBuilder :=
  if negb (f_Exported f) then m
  else let name := jsonFieldName f in
       if bool_decide (name = EmptyString) then m
       else if nonempty (f_es f)
            then if bool_decide (f_es f = "-") then m else Field m name (typed (f_es f))
            else match mapType t with Some p => Field m name p | None => m end.

Fixpoint map_fields (fields : list (structfield * gotype)) (m : MappingBuilder) : MappingBuilder :=
  match fields with
  | [] => m
  | (f, t) :: fields => map_fields fields (map_field f t m)
  end.
End fields.

(** [elem]: set inside a slice or array, whose structs become nested. *)
Fixpoint mapFieldType (elem : bool) (t : gotype) : option json :=
  match t with
  | TPointer t => mapFieldType elem t
  | TTime => Some (typed "date")
  | TString => Some text_with_keyword
  | TBool => Some (typed "boolean")
  | TInt | TByte => Some (typed "long")
  | TFloat => Some (typed "double")
  | TSlice t | TArray t => mapFieldType true t
  | TStruct fields =>
      Some (with_properties (if elem then "nested" else "object") (map_fields (mapFieldType false) fields NewMapping))
  | TMap => Some (gomap [("type", JStr "object"); ("dynamic", JBool true)])
  | TOther => None
  end.

Definition autoMapStruct (t : gotype) (m : MappingBuilder) : MappingBuilder :=
  match t with TStruct fields => map_fields (mapFieldType false) fields m | _ => m end.

Definition AutoMap (t : gotype) : MappingBuilder := autoMapStruct t NewMapping.

(** A map held in an interface; nil maps have no keys. *)
Definition as_map (j : option json) : option (list (string * json)) :=
  match j with Some (JObj fs) => Some fs | Some JNull => Some [] | _ => None end.

Definition check_property (name : string) (p : json) : error :=
  match as_map (Some p) with
  | None => Some (NewErr ("elastic mapping: property " +:+ quoted name +:+ " is not an object"))
  | Some prop =>
      match alookup prop "type", alookup prop "properties" with
      | None, None => Some (NewErr ("elastic mapping: property " +:+ quoted name +:+ " has neither type nor properties"))
      | _, _ => None
      end
  end.

Fixpoint check_properties (props : list (string * json)) : error :=
  match props with
  | [] => None
  | (name, p) :: props => match check_property name p with Some e => Some e | None => check_properties props end
  end.

(** [range]: the order in which the map is visited. *)
Definition ValidateMapping (range : list (string * json) -> list (string * json)) (body : json) : error :=
  let mappings := default [] (as_map (jget body "mappings")) in
  check_properties (range (default [] (as_map (alookup mappings "properties")))).

(** ** What ValidateMapping accepts *)

Definition declared (p : json) : Prop :=
  exists fs, p = JObj fs /\ (alookup fs "type" <> None \/ alookup fs "properties" <> None).

Lemma check_property_exact name p : check_property name p = None <-> declared p.
Proof.
  unfold check_property, declared. destruct p as [| | | | | |fs]; cbn; try (split; [done|by intros (? & ? & _)]).
  destruct (alookup fs "type") eqn:Et, (alookup fs "properties") eqn:Ep; 
    (split; [intros Hn; exists fs; split; [done|]; rewrite Et, Ep; first [by left|by right|done]
            |intros (? & [= <-] & [?|?]); congruence]).
Qed.

(** A body is accepted exactly when each of its top-level properties has a type or properties. *)
Lemma ValidateMapping_exact range m :
  (forall l, Permutation (range l) l) ->
  ValidateMapping range (mb_Build m) = None <-> Forall (fun kv => declared kv.2) (properties m).
Proof.
  intros Hr. unfold ValidateMapping, mb_Build. rewrite jget_gomap, last_of_app, last_of_opt_ne by done. cbn [last_of].
  change (bool_decide ("mappings" = "mappings")) with true. cbv iota. cbn [as_map gomap from_option id].
  rewrite entries_lookup, !last_of_app, !last_of_opt_ne by done. cbn [last_of].
  change (bool_decide ("properties" = "properties")) with true. cbn. rewrite <- (Hr (properties m)) at 2.
  induction (range (properties m)) as [|[k p] ps IH]; cbn; [done|]. rewrite Forall_cons, <- IH, <- (check_property_exact k p).
  cbn. destruct (check_property k p); naive_solver.
Qed.

(** ** The documents of a type, and what a mapping makes of them *)

(** The name encoding/json gives a field that is not embedded: none for the tag "-". *)
Definition go_name (f : structfield) : option string :=
  if bool_decide (f_json f = "-") then None
  else Some (match split "," (f_json f) with
             | n :: _ => if bool_decide (n = EmptyString) then f_Name f else n
             | [] => f_Name f
             end).

(** The JSON encoding/json writes for the values of a type without a MarshalJSON of its own (time.Time
    apart): null for nil, fields under their names, some left out by omitempty. *)
Inductive value_of : gotype -> json -> Prop :=
| V_time s : value_of TTime (JStr s)
| V_string s : value_of TString (JStr s)
| V_bool b : value_of TBool (JBool b)
| V_int n : value_of TInt (JNum n)
| V_byte n : value_of TByte (JNum n)
| V_whole n : value_of TFloat (JNum n)
| V_float f : value_of TFloat (JFloat f)
| V_nil t : value_of (TPointer t) JNull
| V_pointer t j : value_of t j -> value_of (TPointer t) j
| V_nil_slice t : value_of (TSlice t) JNull
| V_bytes s : value_of (TSlice TByte) (JStr s)
| V_slice t l : t <> TByte -> (forall v, v ∈ l -> value_of t v) -> value_of (TSlice t) (JArr l)
| V_array t l : (forall v, v ∈ l -> value_of t v) -> value_of (TArray t) (JArr l)
| V_struct fields fs :
    (forall k v, (k, v) ∈ fs -> exists f t, (f, t) ∈ fields /\ f_Exported f = true /\ go_name f = Some k /\ value_of t v) ->
    value_of (TStruct fields) (JObj fs)
| V_nil_map : value_of TMap JNull
| V_map fs : value_of TMap (JObj fs).

(** A property that keeps a value as the documented types do: every field of an object is mapped,
    a single object is an object, the objects of a list stay apart, which takes nested, and null is
    anything. *)
Definition is_type (p : json) (t : string) : Prop := jget p "type" = Some (JStr t).
Definition free_form (p : json) : Prop := is_type p "object" /\ jget p "dynamic" = Some (JBool true).
Definition property (p : json) (k : string) : option json :=
  match jget p "properties" with Some (JObj ps) => alookup ps k | _ => None end.

Inductive fits : json -> json -> Prop :=
| F_null p : fits p JNull
| F_text p s : is_type p "text" -> fits p (JStr s)
| F_date p s : is_type p "date" -> fits p (JStr s)
| F_boolean p b : is_type p "boolean" -> fits p (JBool b)
| F_long p n : is_type p "long" -> fits p (JNum n)
| F_whole p n : is_type p "double" -> fits p (JNum n)
| F_double p f : is_type p "double" -> fits p (JFloat f)
| F_free p fs : free_form p -> fits p (JObj fs)
| F_object p fs : is_type p "object" -> (forall k v, (k, v) ∈ fs -> exists q, property p k = Some q /\ fits q v) -> fits p (JObj fs)
| F_list p l : ~ is_type p "object" \/ free_form p -> (forall v, v ∈ l -> fits p v) -> fits p (JArr l)
| F_nested p l : is_type p "nested" ->
    (forall v, v ∈ l -> v = JNull
       \/ exists fs, v = JObj fs /\ forall k v, (k, v) ∈ fs -> exists q, property p k = Some q /\ fits q v) ->
    fits p (JArr l).
Definition document_fits (root : json) (fs : list (string * json)) : Prop :=
  forall k v, (k, v) ∈ fs -> exists q, property root k = Some q /\ fits q v.

(** Fields whose JSON AutoMap's rules describe: not embedded, named by its tag or Go name, without
    the string option, and not called "-" (the tag "-,"). *)
Definition tag_char (c : ascii) : bool := is_alnum c || contains_char c "!#$%&()*+-./:;<=>?@[]^_{|}~ ".
Definition named_plainly (f : structfield) : bool :=
  negb (f_Anonymous f) && nonempty (f_Name f)
  && match split "," (f_json f) with
     | n :: rest => (negb (bool_decide (n = "-")) || bool_decide (f_json f = "-")) && forallb tag_char (String.list_ascii_of_string n)
                    && negb (bool_decide ("string" ∈ rest))
     | [] => false
     end.
Definition shown (f : structfield) : option string := if f_Exported f then go_name f else None.
Definition names (fields : list (structfield * gotype)) : list string := omap (fun ft => shown ft.1) fields.
Definition is_byte (t : gotype) : bool := match t with TByte => true | _ => false end.

(** Types AutoMap's rules describe at every depth: such fields, each name once, no es tag, no []byte
    and nothing without a mapping. *)
Fixpoint plain (t : gotype) : bool :=
  match t with
  | TPointer t | TArray t => plain t
  | TSlice t => negb (is_byte t) && plain t
  | TStruct fields =>
      bool_decide (NoDup (names fields))
      && forallb (fun ft => match ft with
                            | (f, t) => bool_decide (shown f = None) || (named_plainly f && negb (nonempty (f_es f)) && plain t)
                            end) fields
  | TOther => false
  | _ => true
  end.

(** *** Names and lookups *)

Lemma split_first s : exists n rest, split "," s = n :: rest.
Proof. pose proof (split_not_nil "," s). destruct (split "," s); [done|eauto]. Qed.

Lemma shown_none f mt t m : shown f = None -> map_field mt f t m = m.
Proof.
  unfold shown, go_name, map_field, jsonFieldName. destruct (f_Exported f); [|done]. cbn.
  case_bool_decide as E; [|done]. intros _. rewrite E. done.
Qed.

Lemma shown_name f k : named_plainly f = true -> shown f = Some k -> jsonFieldName f = k /\ k <> EmptyString.
Proof.
  unfold named_plainly, shown, go_name, jsonFieldName. destruct (f_Exported f); [|done].
  destruct (split_first (f_json f)) as (n & rest & Es). rewrite Es.
  destruct (bool_decide (f_json f = "-")); [done|]. rewrite orb_false_r. intros [[_ Hn]%andb_true_iff [[Hd _]%andb_true_iff _]%andb_true_iff]%andb_true_iff [= <-].
  unfold nonempty in Hn. apply negb_true_iff, bool_decide_eq_false in Hn. apply negb_true_iff in Hd. rewrite Hd.
  destruct (bool_decide (f_json f = EmptyString)) eqn:Ee; [|destruct (decide (n = EmptyString)) as [Hz|Hz]; [rewrite (bool_decide_eq_true_2 _ Hz)|rewrite (bool_decide_eq_false_2 _ Hz)]; done]. apply bool_decide_eq_true in Ee. rewrite Ee in Es. cbn in Es. injection Es as <- <-. by split.
Qed.

(** The property a field adds. *)
Definition field_property (mt : gotype -> option json) (f : structfield) (t : gotype) : option json :=
  if nonempty (f_es f) then if bool_decide (f_es f = "-") then None else Some (typed (f_es f)) else mt t.

Lemma map_field_shown f k mt t m : named_plainly f = true -> shown f = Some k ->
  map_field mt f t m = match field_property mt f t with Some p => Field m k p | None => m end.
Proof.
  intros Hp Hs. destruct (shown_name f k Hp Hs) as [Hk Hne]. unfold map_field, field_property. rewrite Hk.
  unfold shown in Hs. destruct (f_Exported f); [|done]. cbn. rewrite bool_decide_eq_false_2 by done.
  destruct (nonempty (f_es f)); [by case_bool_decide|done].
Qed.

Definition all_plain (fields : list (structfield * gotype)) : Prop :=
  Forall (fun ft => shown ft.1 <> None -> named_plainly ft.1 = true) fields.

Lemma names_cons f t fields :
  names ((f, t) :: fields) = match shown f with Some k => k :: names fields | None => names fields end.
Proof. done. Qed.

Lemma map_fields_other mt fields m k : all_plain fields -> k ∉ names fields ->
  alookup (properties (map_fields mt fields m)) k = alookup (properties m) k.
Proof.
  intros Hp. revert m. induction Hp as [|[f t] fields Hf _ IH]; intros m; [done|]. rewrite names_cons. cbn [map_fields fst] in *.
  destruct (shown f) as [k'|] eqn:Es; [|rewrite shown_none by done; apply IH].
  intros [Hk Hn]%not_elem_of_cons. rewrite IH by done. rewrite (map_field_shown f k') by (try apply Hf; done).
  destruct (field_property mt f t); [|done]. cbn. rewrite oset_lookup. by rewrite bool_decide_eq_false_2.
Qed.

Lemma map_fields_lookup mt fields m f t k :
  all_plain fields -> NoDup (names fields) -> (f, t) ∈ fields -> shown f = Some k ->
  alookup (properties (map_fields mt fields m)) k
  = match field_property mt f t with Some p => Some p | None => alookup (properties m) k end.
Proof.
  intros Hp. revert m. induction Hp as [|[f1 t1] fields Hf Hp IH]; intros m Hn; [by intros ?%elem_of_nil|].
  rewrite names_cons in Hn. cbn [map_fields fst] in *. intros [[= <- <-]|Hin]%elem_of_cons Hs.
  - rewrite Hs in Hn. apply NoDup_cons in Hn as [Hk _]. rewrite map_fields_other by done.
    rewrite (map_field_shown f k) by (try apply Hf; congruence). destruct (field_property mt f t); [|done].
    cbn. by rewrite oset_lookup, bool_decide_eq_true_2.
  - destruct (shown f1) as [k1|] eqn:E1; [|rewrite shown_none by done; by apply IH].
    apply NoDup_cons in Hn as [Hk Hn]. rewrite IH by done. rewrite (map_field_shown f1 k1) by (try apply Hf; congruence).
    destruct (field_property mt f t); [done|]. destruct (field_property mt f1 t1); [|done]. cbn.
    rewrite oset_lookup, bool_decide_eq_false_2; [done|]. intros ->. apply Hk. unfold names. apply list_elem_of_omap. by exists (f, t).
Qed.

(** *** Documents fit *)

Lemma gotype_nested_ind (P : gotype -> Prop) :
  P TTime -> P TString -> P TBool -> P TInt -> P TByte -> P TFloat ->
  (forall t, P t -> P (TPointer t)) -> (forall t, P t -> P (TSlice t)) -> (forall t, P t -> P (TArray t)) ->
  (forall fields, Forall (fun ft => P ft.2) fields -> P (TStruct fields)) -> P TMap -> P TOther ->
  forall t, P t.
Proof.
  intros H1 H2 H3 H4 H8 H5 Hp Hs Ha Hst H6 H7. fix IH 1.
  intros [| | | | | |t|t|t|fields| |];
    [exact H1|exact H2|exact H3|exact H4|exact H8|exact H5|apply Hp, IH|apply Hs, IH|apply Ha, IH| |exact H6|exact H7].
  apply Hst. revert fields. fix IHf 1. intros [|[f t] fields]; constructor; [apply IH|apply IHf].
Qed.

Lemma plain_fields fields :
  plain (TStruct fields) = true ->
  all_plain fields /\ NoDup (names fields)
  /\ forall f t k, (f, t) ∈ fields -> shown f = Some k -> nonempty (f_es f) = false /\ plain t = true.
Proof.
  cbn. intros [Hn Hf]%andb_true_iff. bools. rewrite forallb_forall in Hf. split; [|split; [done|]].
  - apply Forall_forall. intros [f t] Hin%list_elem_of_In Hs. specialize (Hf _ Hin). cbn in *.
    rewrite bool_decide_eq_false_2 in Hf by done. cbn in Hf. by bools.
  - intros f t k Hin%list_elem_of_In Hs. specialize (Hf _ Hin). cbn in Hf. rewrite bool_decide_eq_false_2 in Hf by congruence. cbn in Hf. by bools.
Qed.

(** What a list of values of [t] is kept in. *)
Lemma listed_type t : forall p, mapFieldType true t = Some p -> ~ is_type p "object" \/ free_form p.
Proof.
  induction t as [| | | | | |t IH|t IH|t IH|fields IH| |] using gotype_nested_ind; intros p; cbn [mapFieldType];
    try (intros [= <-]; left; by unfold is_type); auto.
  intros [= <-]. right. done.
Qed.

Lemma struct_property kind fields f t k :
  plain (TStruct fields) = true -> (f, t) ∈ fields -> f_Exported f = true -> go_name f = Some k ->
  property (with_properties kind (map_fields (mapFieldType false) fields NewMapping)) k = mapFieldType false t.
Proof.
  intros (Hp & Hn & He)%plain_fields Hin Hx Hk. assert (Hs : shown f = Some k) by (unfold shown; by rewrite Hx).
  change (property (with_properties kind ?m) k) with (alookup (properties m) k).
  rewrite (map_fields_lookup _ _ _ f t) by done. unfold field_property. rewrite (proj1 (He _ _ _ Hin Hs)).
  by destruct (mapFieldType false t).
Qed.

(** A type without a mapping of its own has one at every depth it is used. *)
Lemma plain_mapped t : forall elem, plain t = true -> exists p, mapFieldType elem t = Some p.
Proof.
  induction t as [| | | | | |t IH|t IH|t IH|fields IH| |] using gotype_nested_ind; intros elem; cbn [mapFieldType];
    try (intros _; by eexists); try done.
  - apply IH.
  - cbn. intros [_ ?]%andb_true_iff. by apply IH.
  - apply IH.
Qed.

Lemma values_fit t : plain t = true ->
  (forall p, mapFieldType false t = Some p -> forall j, value_of t j -> fits p j)
  /\ (forall p, mapFieldType true t = Some p -> forall l, (forall v, v ∈ l -> v = JNull \/ value_of t v) -> fits p (JArr l)).
Proof.
  assert (Hscalar : forall t s, mapFieldType false t = Some s -> mapFieldType true t = Some s ->
    (forall j, value_of t j -> fits s j) ->
    (forall p, mapFieldType false t = Some p -> forall j, value_of t j -> fits p j)
    /\ (forall p, mapFieldType true t = Some p -> forall l, (forall v, v ∈ l -> v = JNull \/ value_of t v) -> fits p (JArr l))).
  { intros t0 s Hf Ht Hfit. rewrite Hf, Ht. split; intros p [= <-]; [done|]. intros l Hl.
    apply F_list; [by apply (listed_type t0)|]. intros v Hv. destruct (Hl v Hv) as [->|?]; [constructor|auto]. }
  assert (Hslice : forall t, plain t = true ->
    (forall p, mapFieldType true t = Some p -> forall l, (forall v, v ∈ l -> v = JNull \/ value_of t v) -> fits p (JArr l)) ->
    forall p, mapFieldType true t = Some p -> forall l,
      (forall v, v ∈ l -> v = JNull \/ exists l', v = JArr l' /\ forall x, x ∈ l' -> value_of t x) -> fits p (JArr l)).
  { intros t0 _ Ht p Hp l Hl. apply F_list; [by apply (listed_type t0)|]. intros v Hv.
    destruct (Hl v Hv) as [->|(l' & -> & Hl')]; [constructor|]. apply Ht; auto. }
  induction t as [| | | | | |t IH|t IH|t IH|fields IH| |] using gotype_nested_ind; intros Hpl;
    try (eapply Hscalar; [reflexivity..|]; intros j Hj; inversion Hj; subst; by constructor).
  - destruct (IH Hpl) as [H1 H2]. split; intros p Hp.
    + intros j Hj. inversion Hj; subst; [constructor|by apply H1].
    + intros l Hl. apply H2; [done|]. intros v Hv. destruct (Hl v Hv) as [->|Hj]; [by left|]. inversion Hj; subst; auto.
  - cbn in Hpl. apply andb_true_iff in Hpl as [Hb Hpl]. destruct (IH Hpl) as [H1 H2]. split; intros p Hp.
    + intros j Hj. inversion Hj; subst; [constructor|done|]. apply H2; auto.
    + intros l Hl. apply (Hslice t Hpl H2 p Hp). intros v Hv. destruct (Hl v Hv) as [->|Hj]; [by left|].
      inversion Hj; subst; [by left|done|eauto].
  - destruct (IH Hpl) as [H1 H2]. split; intros p Hp.
    + intros j Hj. inversion Hj; subst. apply H2; auto.
    + intros l Hl. apply (Hslice t Hpl H2 p Hp). intros v Hv. destruct (Hl v Hv) as [->|Hj]; [by left|].
      inversion Hj; subst; eauto.
  - assert (Hfields : forall kind fs, value_of (TStruct fields) (JObj fs) -> forall k v, (k, v) ∈ fs ->
      exists q, property (with_properties kind (map_fields (mapFieldType false) fields NewMapping)) k = Some q /\ fits q v).
    { intros kind fs Hv k v Hin. inversion Hv as [| | | | | | | | | | | | |? ? Hfs| |]; subst.
      destruct (Hfs k v Hin) as (f & t & Hft & Hx & Hk & Hval). rewrite (struct_property kind fields f t k) by done.
      rewrite Forall_forall in IH. pose proof (IH _ Hft) as IHt. cbn in IHt.
      destruct (plain_fields _ Hpl) as (_ & _ & Hall). destruct (Hall f t k Hft) as [_ Hplt]; [unfold shown; by rewrite Hx|].
      destruct (plain_mapped t false Hplt) as [q Hq]. exists q. split; [done|]. by apply (proj1 (IHt Hplt)). }
    split; intros p [= <-].
    + intros j Hj. inversion Hj; subst. apply F_object; [done|]. by apply Hfields.
    + intros l Hl. apply F_nested; [done|]. intros v Hv. destruct (Hl v Hv) as [->|Hj]; [by left|right].
      inversion Hj; subst. eexists. split; [done|]. by apply Hfields.
  - done.
Qed.


Definition sample_fields : list (structfield * gotype) :=
  [(mkField "ID" true false "id,omitempty" EmptyString, TInt); (mkField "Tags" true false EmptyString EmptyString, TSlice TString);
   (mkField "Parts" true false "parts" EmptyString,
    TSlice (TPointer (TStruct [(mkField "At" true false "at" EmptyString, TPointer TTime)])));
   (mkField "cache" false false EmptyString EmptyString, TMap)].
Definition sample_document : list (string * json) :=
  [("id", JNum 7); ("Tags", JArr [JStr "a"]); ("parts", JArr [JObj [("at", JStr "2024-01-01T00:00:00Z")]; JNull])].

Example sample_value : value_of (TStruct sample_fields) (JObj sample_document).
Proof.
  constructor. intros k v Hin. repeat (apply elem_of_cons in Hin as [[= -> ->]|Hin]); [..|by apply elem_of_nil in Hin].
  - eexists _, TInt. split; [by left|]. repeat split. constructor.
  - eexists _, (TSlice TString). split; [right; by left|]. repeat split. apply V_slice; [done|].
    intros v ->%list_elem_of_singleton. constructor.
  - eexists _, _. split; [right; right; by left|]. repeat split. apply V_slice; [done|].
    intros v [->|[->|[]%elem_of_nil]%elem_of_cons]%elem_of_cons; [apply V_pointer|apply V_nil].
    constructor. intros k v [= -> ->]%list_elem_of_singleton.
    eexists _, _. split; [by left|]. repeat split. apply V_pointer. constructor.
Qed.


Example AutoMap_run :
  mb_Build (AutoMap (TStruct sample_fields))
  = single "mappings" (single "properties" (gomap
      [("id", typed "long"); ("Tags", text_with_keyword);
       ("parts", gomap [("type", JStr "nested"); ("properties", single "at" (typed "date"))])])).
Proof. reflexivity. Qed.

(** A []byte is mapped to long, but encoding/json writes it as a base64 string. *)
Example bytes_mapped_long :
  properties (AutoMap (TStruct [(mkField "Data" true false "data" EmptyString, TSlice TByte)])) = [("data", typed "long")]
  /\ value_of (TSlice TByte) (JStr "aGVsbG8=").
Proof. split; [reflexivity|constructor]. Qed.

(** The fields of an embedded struct are mapped below its name, where encoding/json writes them
    beside the others. *)
Example embedded_not_flattened :
  properties (AutoMap (TStruct [(mkField "Base" true true EmptyString EmptyString, TStruct [(mkField "ID" true false "id" EmptyString, TInt)])]))
  = [("Base", gomap [("type", JStr "object"); ("properties", single "id" (typed "long"))])].
Proof. reflexivity. Qed.
