(* ===== verification/EsMigrate.v ===== *)
(** * EsMigrate: database/elasticsearch/mapping — aliases, index lifecycle, migration

    Every operation is a sequence of requests; [MigrateIndex] is proved against
    what the cluster's index and alias APIs promise, at every request it makes
    and not only at its end. *)

From S2P Require Import Prelude GoStrings Http Errors Decode Url Elastic EsQuery EsRepo.

Section admin.
Context {W : Type} `{Es W}.

(** ** aliases.go *)

Definition EnsureAlias (index alias : string) : W -> error * W :=
  Do_ "PUT" ("/" +:+ PathEscape index +:+ "/_alias/" +:+ PathEscape alias) None.

Definition swap_actions (alias oldIndex newIndex : string) : json :=
  single "actions" (JArr [single "remove" (gomap [("index", JStr oldIndex); ("alias", JStr alias)]);
                          single "add" (gomap [("index", JStr newIndex); ("alias", JStr alias)])]).
Definition SwapAlias (alias oldIndex newIndex : string) : W -> error * W :=
  Do_ "POST" "/_aliases" (Some (Ok (swap_actions alias oldIndex newIndex))).

Definition PutMapping (index : string) (mapping : json) : W -> error * W :=
  Do_ "PUT" ("/" +:+ PathEscape index +:+ "/_mapping") (Some (Marshal mapping)).

(** The keys of a JSON object, each once. *)
Definition object_keys (p : payload) : res (list string) :=
  match parsed p with
  | None => Err json_error
  | Some j => match dec_fields (Some j) with Ok fs => Ok (remove_dups (map fst (default [] fs))) | Err e => Err e end
  end.
Definition AliasIndices (alias : string) (w : W) : res (list string) * W :=
  match Do "GET" ("/_alias/" +:+ PathEscape alias) None w with
  | (Err e, w) => (if IsNotFound (Some e) then Ok [] else Err e, w)
  | (Ok p, w) => (match object_keys p with
                  | Ok ks => Ok (sort_strings ks)
                  | Err e => Err (wrapf "elastic: decode alias response" e)
                  end, w)
  end.

(** ** lifecycle.go *)

Definition CreateIndex (index : string) (body : json) : W -> error * W :=
  let body := if is_nil body then gomap [] else body in
  Do_ "PUT" ("/" +:+ PathEscape index) (Some (Marshal body)).

Definition IndexExists (index : string) (w : W) : res bool * W :=
  match Do "GET" ("/" +:+ PathEscape index) None w with
  | (Err e, w) => (if IsNotFound (Some e) then Ok false else Err e, w)
  | (Ok _, w) => (Ok true, w)
  end.

Definition EnsureIndex (index : string) (body : json) (w : W) : res bool * W :=
  match IndexExists index w with
  | (Err e, w) => (Err e, w)
  | (Ok true, w) => (Ok false, w)
  | (Ok false, w) => match CreateIndex index body w with
                     | (Some e, w) => (Err e, w)
                     | (None, w) => (Ok true, w)
                     end
  end.

Definition DeleteIndex (index : string) : W -> error * W := Do_ "DELETE" ("/" +:+ PathEscape index) None.
Definition Refresh (index : string) : W -> error * W := Do_ "POST" ("/" +:+ PathEscape index +:+ "/_refresh") None.
Definition UpdateIndexSettings (index : string) (settings : json) : W -> error * W :=
  Do_ "PUT" ("/" +:+ PathEscape index +:+ "/_settings") (Some (Marshal (single "index" settings))).
Definition PutILMPolicy (name : string) (phases : json) : W -> error * W :=
  Do_ "PUT" ("/_ilm/policy/" +:+ PathEscape name) (Some (Marshal (single "policy" (single "phases" phases)))).
Definition PutIndexTemplate (name : string) (body : json) : W -> error * W :=
  Do_ "PUT" ("/_index_template/" +:+ PathEscape name) (Some (Marshal body)).
Definition DeleteIndexTemplate (name : string) : W -> error * W :=
  Do_ "DELETE" ("/_index_template/" +:+ PathEscape name) None.

Record MigrateOptions := mkMigrate { Script : string; DeleteOld : bool }.

Section migrate.
Variable alias newIndex : string.

Definition migrate_err (what : string) (e : goerr) : goerr :=
  wrapf ("elastic: migrate " +:+ alias +:+ ": " +:+ what) e.

(** A loop over the old indices: [act] for each but the new one, until the first error. *)
Fixpoint each_old (what : string -> string) (act : string -> W -> error * W) (olds : list string) (w : W) : error * W :=
  match olds with
  | [] => (None, w)
  | old :: olds =>
      if bool_decide (old = newIndex) then each_old what act olds w
      else match act old w with
           | (Some e, w) => (Some (migrate_err (what old) e), w)
           | (None, w) => each_old what act olds w
           end
  end.

Definition MigrateIndex (body : json) (opts : MigrateOptions) (w : W) : error * W :=
  if bool_decide (alias = newIndex)
  then (Some (NewErr ("elastic: alias " +:+ quoted alias +:+ " must differ from the physical index name")), w)
  else
    match AliasIndices alias w with
    | (Err e, w) => (Some (migrate_err "resolve alias" e), w)
    | (Ok olds, w) =>
        match EnsureIndex newIndex body w with
        | (Err e, w) => (Some (migrate_err ("create " +:+ newIndex) e), w)
        | (Ok _, w) =>
            match olds with
            | [] => match EnsureAlias newIndex alias w with
                    | (Some e, w) => (Some (migrate_err "point alias" e), w)
                    | (None, w) => (None, w)
                    end
            | _ =>
                match each_old (fun old => "reindex " +:+ old +:+ " → " +:+ newIndex)
                        (fun old => Reindex old newIndex (Script opts)) olds w with
                | (Some e, w) => (Some e, w)
                | (None, w) =>
                    match each_old (fun old => "swap " +:+ old +:+ " → " +:+ newIndex)
                            (fun old => SwapAlias alias old newIndex) olds w with
                    | (Some e, w) => (Some e, w)
                    | (None, w) =>
                        if DeleteOld opts then each_old (fun old => "delete old " +:+ old) DeleteIndex olds w
                        else (None, w)
                    end
                end
            end
        end
    end.
End migrate.
End admin.

(** ** What the cluster promises *)

(** A request may be applied although its answer is lost, so every law has a part for any
    outcome and one for an answer below 400.  Nobody else writes.  A reindex copies what a search
    of the source finds, and what it stores is found after the next refresh. *)
Class EsAdmin (W : Type) `{Es W} := {
  adm_docs : W -> string -> gmap string json;          (* the documents stored in an index *)
  adm_seen : W -> string -> gmap string json;          (* those a search finds: stored at its last refresh *)
  adm_alias : W -> string -> gset string;              (* the indices of an alias *)
  (* what goes wrong below the API is not one of the program's own errors *)
  law_adm_transport m path b w :
    match es_request m path with Some e => as_dx e = None | None => True end
    /\ match (es_perform m path b w).1 with Err e | Ok (_, Err e) => as_dx e = None | _ => True end;
  law_adm_get path b w :
    adm_docs (es_perform "GET" path b w).2 = adm_docs w /\ adm_alias (es_perform "GET" path b w).2 = adm_alias w;
  (* an index without new writes that has been refreshed stays so *)
  law_adm_seen m path b w i :
    let w' := (es_perform m path b w).2 in
    adm_docs w' i = adm_docs w i -> adm_seen w i = adm_docs w i -> adm_seen w' i = adm_docs w' i;
  (* the answer is an object with a field for every index of the alias *)
  law_adm_get_alias alias w status p w' :
    es_perform "GET" ("/_alias/" +:+ PathEscape alias) NoBody w = (Ok (status, Ok p), w') ->
    (status = 404 -> adm_alias w alias = ∅)
    /\ (status < 400 -> exists fs, parsed p = Some (JObj fs) /\ adm_alias w alias = list_to_set (map fst fs));
  (* the body or a template may give the new index aliases *)
  law_adm_create index body w :
    let w' := (es_perform "PUT" ("/" +:+ PathEscape index) (JsonBody body) w).2 in
    adm_docs w' = adm_docs w
    /\ forall a, adm_alias w' a = adm_alias w a \/ adm_alias w' a = {[index]} ∪ adm_alias w a;
  law_adm_put_alias index alias w r w' :
    es_perform "PUT" ("/" +:+ PathEscape index +:+ "/_alias/" +:+ PathEscape alias) NoBody w = (r, w') ->
    adm_docs w' = adm_docs w
    /\ (forall st p, r = Ok (st, Ok p) -> st < 400 -> adm_alias w' alias = {[index]} ∪ adm_alias w alias);
  law_adm_swap alias old new w r w' :
    es_perform "POST" "/_aliases"
      (JsonBody (JObj [("actions", JArr [JObj [("remove", JObj [("alias", JStr alias); ("index", JStr old)])];
                                         JObj [("add", JObj [("alias", JStr alias); ("index", JStr new)])]])])) w = (r, w') ->
    adm_docs w' = adm_docs w
    /\ (adm_alias w' alias = adm_alias w alias \/ adm_alias w' alias = {[new]} ∪ (adm_alias w alias ∖ {[old]}))
    /\ (forall st p, r = Ok (st, Ok p) -> st < 400 -> adm_alias w' alias = {[new]} ∪ (adm_alias w alias ∖ {[old]}));
  law_adm_reindex src dst w r w' :
    src <> dst ->
    es_perform "POST" "/_reindex?wait_for_completion=true"
      (JsonBody (JObj [("dest", JObj [("index", JStr dst)]); ("source", JObj [("index", JStr src)])])) w = (r, w') ->
    adm_alias w' = adm_alias w
    /\ (forall i, i <> dst -> adm_docs w' i = adm_docs w i)
    /\ (forall id, adm_docs w' dst !! id = adm_docs w dst !! id
                   \/ exists d, adm_seen w src !! id = Some d /\ adm_docs w' dst !! id = Some d)
    /\ (forall st p, r = Ok (st, Ok p) -> st < 400 ->
          forall id d, adm_seen w src !! id = Some d -> adm_docs w' dst !! id = Some d);
  law_adm_delete index w r w' :
    es_perform "DELETE" ("/" +:+ PathEscape index) NoBody w = (r, w') ->
    (forall i, i <> index -> adm_docs w' i = adm_docs w i)
    /\ (forall a, adm_alias w' a = adm_alias w a \/ adm_alias w' a = adm_alias w a ∖ {[index]})
    /\ (forall st p, r = Ok (st, Ok p) -> st < 400 -> adm_docs w' index = ∅)
}.

(** The states after every request, for statements about what other clients see meanwhile. *)
Definition recorded {W} `{Es W} : Es (W * list W) := {|
  es_request := es_request;
  es_perform m path b x := let '(r, w') := es_perform m path b x.1 in (r, (w', x.2 ++ [w']))
|}.

Section migration.
Context {W : Type} `{!Es W} `{!EsAdmin W}.
Variable alias new : string.
Variable w0 : W.

Definition body_sent (body : option (res json)) : es_body := match body with Some (Ok j) => JsonBody j | _ => NoBody end.

(** A request, recorded: nothing was sent, or one more state. *)
Lemma Do_recorded m path body w h r x' :
  @Do _ recorded m path body (w, h) = (r, x') ->
  (x' = (w, h) /\ exists e, r = Err e /\ (body = None -> IsNotFound (Some e) = false))
  \/ exists a w', es_perform m path (body_sent body) w = (a, w') /\ x' = (w', h ++ [w'])
     /\ (forall e, body <> Some (Err e))
     /\ match r with
        | Ok p => exists st, a = Ok (st, Ok p) /\ st < 400
        | Err e => IsNotFound (Some e) = true -> exists p, a = Ok (404, Ok p)
        end.
Proof.
  unfold Do. cbn [es_request es_perform recorded fst snd].
  pose proof (law_adm_transport m path (body_sent body) w) as [Hq Ht].
  destruct body as [[j|e]|]; [| intros [= <- <-]; left; eauto; split; [done|by eexists]|];
  (destruct (es_request m path) as [e|];
   [intros [= <- <-]; left; split; [done|]; eexists; split; [done|]; intros _; cbn; by rewrite Hq|]);
  cbn [body_sent] in *; destruct (es_perform m path _ w) as [[[st [p|e]]|e] w1]; cbn [fst] in Ht;
    try (intros [= <- <-]; right; eexists _, _; split; [done|]; split; [done|]; split; [done|]; cbn; by rewrite Ht).
  all: destruct (Z.leb_spec 400 st); intros [= <- <-]; right; eexists _, _;
    (split; [done|]); (split; [done|]); (split; [done|]); [|by eexists].
  all: cbn; destruct (Z.eqb_spec st 404) as [->|]; [by eexists|]; by repeat case_match.
Qed.

Lemma Do__recorded m path body w h err x' :
  @Do_ _ recorded m path body (w, h) = (err, x') ->
  (err <> None /\ x' = (w, h))
  \/ exists a w', es_perform m path (body_sent body) w = (a, w') /\ x' = (w', h ++ [w'])
     /\ (forall e, body <> Some (Err e))
     /\ (err = None -> exists st p, a = Ok (st, Ok p) /\ st < 400).
Proof.
  unfold Do_. destruct (@Do _ recorded m path body (w, h)) as [r x1] eqn:E.
  apply Do_recorded in E as [(-> & e & -> & _)|(a & w' & Hp & -> & Hb & Hr)].
  - intros [= <- <-]. by left.
  - intros Herr. right. exists a, w'. split; [done|].
    destruct r as [p|e]; injection Herr as <- <-; split; [done| |done|]; split; try done.
    intros _. destruct Hr as (st & -> & ?). eauto.
Qed.

(** ** Readers of the alias *)

(** A document stored behind the alias. *)
Definition stored (w : W) (id : string) (d : json) : Prop :=
  exists i, i ∈ adm_alias w alias /\ adm_docs w i !! id = Some d.
(** One that a search through the alias finds, now or, in the new index, after its next refresh. *)
Definition served (w : W) (id : string) (d : json) : Prop :=
  exists i, i ∈ adm_alias w alias /\ adm_docs w i !! id = Some d /\ (i = new \/ adm_seen w i !! id = Some d).

(** The alias resolves, and every document that was stored behind it at [w0] is served, as one of
    the indices had it then. *)
Definition serves (w : W) : Prop :=
  adm_alias w alias <> ∅
  /\ forall id d, stored w0 id d -> exists d', served w id d' /\ stored w0 id d'.

(** [new] holds what it held, or a copy from one of the old indices. *)
Definition copies (w : W) : Prop :=
  forall id, adm_docs w new !! id = adm_docs w0 new !! id
    \/ exists o d, o ∈ adm_alias w0 alias /\ adm_docs w0 o !! id = Some d /\ adm_docs w new !! id = Some d.
(** Every document of the indices [S] has a copy in [new]. *)
Definition covers (S : gset string) (w : W) : Prop :=
  forall o id d, o ∈ S -> adm_docs w0 o !! id = Some d ->
    exists o' d', o' ∈ adm_alias w0 alias /\ adm_docs w0 o' !! id = Some d' /\ adm_docs w new !! id = Some d'.
(** The old indices have been refreshed since their last write; they keep their documents and stay so. *)
Definition refreshed (w : W) (i : string) : Prop := adm_seen w i = adm_docs w i.
Definition others_kept (w : W) : Prop :=
  forall i, i <> new -> adm_docs w i = adm_docs w0 i /\ (refreshed w0 i -> refreshed w i).
Hypothesis olds_refreshed : forall o, o ∈ adm_alias w0 alias -> o <> new -> refreshed w0 o.

Lemma others_kept_next m path b w a w' :
  es_perform m path b w = (a, w') -> others_kept w -> (forall i, i <> new -> adm_docs w' i = adm_docs w i) -> others_kept w'.
Proof.
  intros Hp Hk Hd i Hi. destruct (Hk i Hi) as [H1 H2]. split; [by rewrite Hd|]. intros Hr.
  pose proof (law_adm_seen m path b w i) as Hl. rewrite Hp in Hl. cbn in Hl. apply Hl; [by apply Hd|by apply H2].
Qed.

Lemma serves_intro w :
  adm_alias w0 alias <> ∅ -> copies w ->
  (forall i, i ∈ adm_alias w alias -> i ∈ adm_alias w0 alias -> i <> new -> adm_docs w i = adm_docs w0 i /\ refreshed w i) ->
  (adm_alias w0 alias ⊆ adm_alias w alias
   \/ new ∈ adm_alias w alias /\ covers (adm_alias w0 alias ∖ {[new]}) w) ->
  serves w.
Proof.
  intros Hne Hc Hk Ha.
  assert (Hnew : forall id d, new ∈ adm_alias w alias -> new ∈ adm_alias w0 alias -> adm_docs w0 new !! id = Some d ->
                   exists d', served w id d' /\ stored w0 id d').
  { intros id d Hw Hi Hd. destruct (Hc id) as [E|(o & d' & Ho & Hd' & E)].
    - exists d. split; exists new; [|done]. rewrite E. auto.
    - exists d'. split; [exists new; auto|by exists o]. }
  split; [destruct Ha as [Ha|[? _]]; [|set_solver]; apply set_choose_L in Hne as [j Hj]; set_solver|].
  intros id d (i & Hi & Hd). destruct (decide (i = new)) as [->|Hin].
  - apply (Hnew id d); [|done|done]. destruct Ha as [Ha|[? _]]; [by apply Ha|done].
  - destruct Ha as [Ha|[Hn Hcov]].
    + exists d. split; exists i; [|done]. destruct (Hk i (Ha i Hi) Hi Hin) as [E Hr].
      split; [by apply Ha|]. unfold refreshed in Hr. rewrite Hr, E. auto.
    + destruct (Hcov i id d) as (o' & d' & Ho' & Hd' & E); [set_solver|done|].
      exists d'. split; [exists new; auto|by exists o'].
Qed.

Lemma kept_serve w : others_kept w ->
  forall i, i ∈ adm_alias w alias -> i ∈ adm_alias w0 alias -> i <> new -> adm_docs w i = adm_docs w0 i /\ refreshed w i.
Proof. intros Hk i _ Hi Hn. destruct (Hk i Hn) as [H1 H2]. auto. Qed.

(** The alias has its indices, and perhaps the new one. *)
Definition alias_kept (w : W) : Prop :=
  adm_alias w0 alias ⊆ adm_alias w alias /\ adm_alias w alias ⊆ {[new]} ∪ adm_alias w0 alias.

(** While copying: the alias is untouched, [S] has been copied. *)
Definition copying (S : gset string) (w : W) : Prop := alias_kept w /\ others_kept w /\ copies w /\ covers S w.

Lemma copying_serves S w : adm_alias w0 alias <> ∅ -> copying S w -> serves w.
Proof. intros Hne ([Ha _] & Hk & Hc & _). apply serves_intro; auto. by apply kept_serve. Qed.

Lemma Reindex_step o S w h err x' :
  o ∈ adm_alias w0 alias -> o <> new -> copying S w ->
  @Reindex _ recorded o new EmptyString (w, h) = (err, x') ->
  (err <> None /\ x' = (w, h))
  \/ exists w', x' = (w', h ++ [w']) /\ copying S w' /\ (err = None -> copying ({[o]} ∪ S) w').
Proof.
  intros Ho Hon (Ha & Hk & Hc & Hcov) HR.
  apply (Do__recorded "POST" "/_reindex?wait_for_completion=true" (Some (Ok _))) in HR as [?|(a & w' & Hp & -> & _ & Hok)];
    [by left|right; exists w'; split; [done|]].
  destruct (law_adm_reindex _ _ _ _ _ Hon Hp) as (Hal & Hd & Hpt & Hall).
  assert (Hsrc : adm_seen w o = adm_docs w0 o).
  { destruct (Hk o Hon) as [E Hr]. rewrite <- E. by apply Hr, olds_refreshed. }
  rewrite Hsrc in Hpt, Hall.
  assert (Hcop : copying S w').
  { split; [unfold alias_kept; by rewrite Hal|]. split; [by apply (others_kept_next _ _ _ _ _ _ Hp)|]. split.
    - intros id. destruct (Hpt id) as [-> | (d & E1 & E2)]; [apply Hc|]. right. by exists o, d.
    - intros o1 id d1 Ho1 Hd1. destruct (Hpt id) as [E|(d & E1 & E2)]; [rewrite E; by apply (Hcov o1 id d1)|].
      by exists o, d. }
  split; [done|]. intros ->. destruct (Hok eq_refl) as (st & p & -> & Hst).
  destruct Hcop as (H1 & H2 & H3 & H4). split; [done|]. split; [done|]. split; [done|].
  intros o1 id d1 [->%elem_of_singleton|Ho1]%elem_of_union Hd1; [|by apply (H4 o1 id d1)].
  exists o, d1. split; [done|]. split; [done|]. by apply (Hall st p).
Qed.

(** While swapping: everything has been copied, [S] has been swapped out. *)
Definition swapping (S : gset string) (w : W) : Prop :=
  others_kept w /\ copies w /\ covers (adm_alias w0 alias ∖ {[new]}) w
  /\ (S = ∅ /\ alias_kept w \/ adm_alias w alias = {[new]} ∪ (adm_alias w0 alias ∖ S)).

Lemma swapping_serves S w : adm_alias w0 alias <> ∅ -> swapping S w -> serves w.
Proof.
  intros Hne (Hk & Hc & Hcov & Ha). apply serves_intro; [done|done|by apply kept_serve|].
  destruct Ha as [[_ [? _]]|Ha]; [by left|]. right. split; [rewrite Ha; set_solver|done].
Qed.

Lemma Swap_step o S w h err x' :
  o <> new -> swapping S w -> adm_alias w0 alias <> ∅ ->
  @SwapAlias _ recorded alias o new (w, h) = (err, x') ->
  (err <> None /\ x' = (w, h))
  \/ exists w', x' = (w', h ++ [w']) /\ serves w' /\ (err = None -> swapping ({[o]} ∪ S) w').
Proof.
  intros Hon Hsw Hne HR. pose proof Hsw as (Hk & Hc & Hcov & Ha).
  apply Do__recorded in HR as [?|(a & w' & Hp & -> & _ & Hok)]; [by left|right; exists w'; split; [done|]].
  destruct (law_adm_swap _ _ _ _ _ _ Hp) as (Hd & Heither & Hall).
  assert (Hk' : others_kept w') by (apply (others_kept_next _ _ _ _ _ _ Hp Hk); intros i Hi; by rewrite Hd).
  assert (Hc' : copies w') by (intros id; rewrite Hd; apply Hc).
  assert (Hcov' : covers (adm_alias w0 alias ∖ {[new]}) w') by (intros o1 id d; rewrite Hd; apply Hcov).
  assert (Hnext : adm_alias w' alias = {[new]} ∪ (adm_alias w alias ∖ {[o]}) -> swapping ({[o]} ∪ S) w').
  { intros E. split; [done|]. split; [done|]. split; [done|]. right. rewrite E.
    destruct Ha as [[-> [H1 H2]]| ->]; apply set_eq; set_solver. }
  split; [|intros ->; destruct (Hok eq_refl) as (st & p & -> & Hst); apply Hnext; by apply (Hall st p)].
  destruct Heither as [E|E]; [|by apply (swapping_serves _ _ Hne (Hnext E))].
  apply (swapping_serves S); [done|]. unfold swapping, alias_kept in *. by rewrite E.
Qed.

(** While deleting: only [new] is left behind the alias. *)
Definition deleting (S : gset string) (w : W) : Prop :=
  adm_alias w alias = {[new]} /\ copies w /\ covers (adm_alias w0 alias ∖ {[new]}) w
  /\ forall o, o ∈ S -> adm_docs w o = ∅.

Lemma deleting_serves S w : adm_alias w0 alias <> ∅ -> deleting S w -> serves w.
Proof. intros Hne (Ha & Hc & Hcov & _). apply serves_intro; [done|done|set_solver|]. right. split; [set_solver|done]. Qed.

Lemma Delete_step o S w h err x' :
  o <> new -> deleting S w -> @DeleteIndex _ recorded o (w, h) = (err, x') ->
  (err <> None /\ x' = (w, h))
  \/ exists w', x' = (w', h ++ [w']) /\ deleting ∅ w' /\ (err = None -> deleting ({[o]} ∪ S) w').
Proof.
  intros Hon (Ha & Hc & Hcov & Hdel) HR.
  apply Do__recorded in HR as [?|(a & w' & Hp & -> & _ & Hok)]; [by left|right; exists w'; split; [done|]].
  destruct (law_adm_delete _ _ _ _ Hp) as (Hd & Heither & Hall).
  assert (Ha' : adm_alias w' alias = {[new]}).
  { destruct (Heither alias) as [-> | ->]; [done|]. rewrite Ha. apply set_eq. set_solver. }
  assert (Hn : adm_docs w' new = adm_docs w new) by (apply Hd; congruence).
  assert (Hc' : copies w') by (intros id; rewrite Hn; apply Hc).
  assert (Hcov' : covers (adm_alias w0 alias ∖ {[new]}) w') by (intros o1 id d; rewrite Hn; apply Hcov).
  split; [split; [done|]; split; [done|]; split; [done|set_solver]|].
  intros ->. destruct (Hok eq_refl) as (st & p & -> & Hst). split; [done|]. split; [done|]. split; [done|].
  intros o1 Ho1. destruct (decide (o1 = o)) as [->|Hne]; [by apply (Hall st p)|]. rewrite Hd by done.
  apply Hdel. set_solver.
Qed.

(** A loop over the old indices: [P] grows with the indices done, every state on the way is [serves]. *)
Lemma each_old_recorded what act olds (P : gset string -> W -> Prop) S w h err x' :
  (forall o S w h err x', o ∈ olds -> o <> new -> P S w -> act o (w, h) = (err, x') ->
     (err <> None /\ x' = (w, h))
     \/ exists w', x' = (w', h ++ [w']) /\ serves w' /\ (err = None -> P ({[o]} ∪ S) w')) ->
  P S w -> Forall serves h -> each_old alias new what act olds (w, h) = (err, x') ->
  Forall serves x'.2 /\ (err = None -> P (S ∪ (list_to_set olds ∖ {[new]})) x'.1).
Proof.
  revert S w h. induction olds as [|o olds IH]; intros S w h Hact HP Hh; cbn.
  { intros [= <- <-]. split; [done|]. intros _. replace (S ∪ (∅ ∖ {[new]})) with S; [done|]. set_solver. }
  assert (Htail : forall S w h, P S w -> Forall serves h -> each_old alias new what act olds (w, h) = (err, x') ->
    Forall serves x'.2 /\ (err = None -> P (S ∪ (list_to_set olds ∖ {[new]})) x'.1)).
  { intros S1 w1 h1 HP1 Hh1 HE. apply (IH S1 w1 h1); [|done..]. intros. eapply Hact; eauto. by right. }
  case_bool_decide as Hon.
  - intros HE. destruct (Htail _ _ _ HP Hh HE) as [H1 H2]. split; [done|]. intros He. specialize (H2 He).
    replace (S ∪ ({[o]} ∪ list_to_set olds) ∖ {[new]}) with (S ∪ list_to_set olds ∖ {[new]}); [done|]. set_solver.
  - destruct (act o (w, h)) as [[e|] x1] eqn:Ea.
    + intros [= <- <-]. destruct (Hact o S w h _ _ ltac:(by left) Hon HP Ea) as [[_ ->]|(w' & -> & Hs & _)]; [done|].
      split; [|done]. by apply Forall_snoc.
    + destruct (Hact o S w h _ _ ltac:(by left) Hon HP Ea) as [[? _]|(w' & -> & Hs & HP')]; [done|].
      intros HE. destruct (Htail _ _ _ (HP' eq_refl) (Forall_snoc _ _ _ Hh Hs) HE) as [H1 H2].
      split; [done|]. intros He. specialize (H2 He).
      replace (S ∪ ({[o]} ∪ list_to_set olds) ∖ {[new]}) with ({[o]} ∪ S ∪ list_to_set olds ∖ {[new]}); [done|].
      set_solver.
Qed.

(** Before the copy nothing a reader can see has changed. *)
Definition same (w : W) : Prop :=
  adm_docs w = adm_docs w0 /\ adm_alias w = adm_alias w0 /\ forall i, refreshed w0 i -> refreshed w i.

Lemma same_copying w : same w -> copying ∅ w.
Proof.
  intros (Hd & Ha & Hr). split; [unfold alias_kept; rewrite Ha; set_solver|].
  split; [intros i _; by rewrite Hd; auto|].
  split; [intros id; rewrite Hd; by left|]. intros o id d. set_solver.
Qed.

Lemma same_get path b w a w' : es_perform "GET" path b w = (a, w') -> same w -> same w'.
Proof.
  intros Hp (Hd & Ha & Hr). pose proof (law_adm_get path b w) as [Hgd Hga]. rewrite Hp in Hgd, Hga. cbn in Hgd, Hga.
  split; [congruence|]. split; [congruence|]. intros i Hi.
  pose proof (law_adm_seen "GET" path b w i) as Hl. rewrite Hp in Hl. cbn in Hl. apply Hl; [by rewrite Hgd|by apply Hr].
Qed.

Lemma AliasIndices_recorded w h r x' :
  same w -> @AliasIndices _ recorded alias (w, h) = (r, x') ->
  (exists w' l, x' = (w', h ++ l) /\ same w' /\ Forall same l)
  /\ forall olds, r = Ok olds -> adm_alias w0 alias = list_to_set olds.
Proof.
  intros Hs HR. pose proof Hs as (_ & Ha & _). unfold AliasIndices in HR.
  destruct (@Do _ recorded "GET" ("/_alias/" +:+ PathEscape alias) None (w, h)) as [r1 x1] eqn:E.
  apply Do_recorded in E as [(-> & e & -> & He)|(a & w' & Hp & -> & _ & Hr)].
  { rewrite (He eq_refl) in HR. injection HR as <- <-. split; [|done]. exists w, []. rewrite app_nil_r. done. }
  cbn [body_sent] in Hp. pose proof (same_get _ _ _ _ _ Hp Hs) as Hsame.
  assert (x' = (w', h ++ [w'])) as -> by (destruct r1; by injection HR).
  split; [exists w', [w']; split; [done|]; split; [done|]; by constructor|].
  intros olds ->. rewrite <- Ha. destruct r1 as [p|e].
  - destruct Hr as (st & -> & Hst). destruct (law_adm_get_alias _ _ _ _ _ Hp) as [_ Hk].
    destruct (Hk Hst) as (fs & Hfs & ->). unfold object_keys in HR. rewrite Hfs in HR. cbn in HR. injection HR as <-.
    apply set_eq. intros i. rewrite !elem_of_list_to_set, sort_strings_Permutation. by rewrite elem_of_remove_dups.
  - destruct (IsNotFound (Some e)); [|done]. destruct (Hr eq_refl) as [p ->]. injection HR as <-.
    destruct (law_adm_get_alias _ _ _ _ _ Hp) as [H4 _]. by rewrite (H4 eq_refl).
Qed.

(** Creating the index can only add it to the alias. *)
Lemma created_copying body w a w' :
  es_perform "PUT" ("/" +:+ PathEscape new) (JsonBody body) w = (a, w') -> same w -> copying ∅ w'.
Proof.
  intros Hp Hs. destruct (same_copying w Hs) as (Hak & Hk & _). destruct Hs as (Hd & Ha & _).
  pose proof (law_adm_create new body w) as [H1 H2]. rewrite Hp in H1, H2. cbn in H1, H2.
  split; [unfold alias_kept; destruct (H2 alias) as [-> | ->]; rewrite Ha; set_solver|].
  split; [apply (others_kept_next _ _ _ _ _ _ Hp Hk); intros; by rewrite H1|].
  split; [intros id; rewrite H1, Hd; by left|]. intros o id d. set_solver.
Qed.

Lemma EnsureIndex_recorded body w h r x' :
  same w -> @EnsureIndex _ recorded new body (w, h) = (r, x') ->
  exists w' l, x' = (w', h ++ l) /\ copying ∅ w' /\ Forall (copying ∅) l.
Proof.
  intros Hs HR. unfold EnsureIndex, IndexExists in HR.
  destruct (@Do _ recorded "GET" ("/" +:+ PathEscape new) None (w, h)) as [r1 x1] eqn:E.
  assert (Hget : exists w1 l, x1 = (w1, h ++ l) /\ same w1 /\ Forall (copying ∅) l).
  { apply Do_recorded in E as [(-> & _)|(a & w1 & Hp & -> & _)].
    - exists w, []. by rewrite app_nil_r.
    - cbn [body_sent] in Hp. pose proof (same_get _ _ _ _ _ Hp Hs).
      exists w1, [w1]. split; [done|]. split; [done|]. constructor; [by apply same_copying|done]. }
  assert (Hcreate : forall w1 l r x', same w1 -> Forall (copying ∅) l -> @CreateIndex _ recorded new body (w1, h ++ l) = (r, x') ->
    exists w' l', x' = (w', h ++ l') /\ copying ∅ w' /\ Forall (copying ∅) l').
  { intros w1 l r' x'' Hs1 Hl HC. apply Do__recorded in HC as [[_ ->]|(a & w2 & Hp & -> & Hm & _)].
    { exists w1, l. split; [done|]. split; [by apply same_copying|done]. }
    set (b := if is_nil body then gomap [] else body) in *.
    exists w2, (l ++ [w2]). rewrite app_assoc. split; [done|].
    assert (copying ∅ w2).
    { unfold Marshal in Hp, Hm. destruct (marshals b); cbn [body_sent] in Hp; [|by destruct (Hm (NewErr "json: unsupported value"))].
      by apply (created_copying _ _ _ _ Hp). }
    split; [done|]. by apply Forall_snoc. }
  destruct Hget as (w1 & l & -> & Hs1 & Hl). pose proof (same_copying _ Hs1).
  destruct r1 as [p|e]; [injection HR as <- <-; by exists w1, l|].
  destruct (IsNotFound (Some e)); [|injection HR as <- <-; by exists w1, l].
  destruct (@CreateIndex _ recorded new body (w1, h ++ l)) as [[e1|] x2] eqn:EC; injection HR as <- <-; eauto.
Qed.

(** The three loops, from the created index with [olds] the indices of the alias. *)
Lemma loops_recorded opts olds w h err x' :
  Script opts = EmptyString -> adm_alias w0 alias <> ∅ -> adm_alias w0 alias = list_to_set olds -> copying ∅ w -> Forall serves h ->
  match each_old alias new (fun old => "reindex " +:+ old +:+ " → " +:+ new)
          (fun old => @Reindex _ recorded old new (Script opts)) olds (w, h) with
  | (Some e, x) => (Some e, x)
  | (None, x) =>
      match each_old alias new (fun old => "swap " +:+ old +:+ " → " +:+ new)
              (fun old => @SwapAlias _ recorded alias old new) olds x with
      | (Some e, x) => (Some e, x)
      | (None, x) => if DeleteOld opts
                     then each_old alias new (fun old => "delete old " +:+ old) (@DeleteIndex _ recorded) olds x
                     else (None, x)
      end
  end = (err, x') ->
  Forall serves x'.2
  /\ (err = None -> adm_alias x'.1 alias = {[new]}
       /\ (DeleteOld opts = true -> forall o, o ∈ adm_alias w0 alias -> o <> new -> adm_docs x'.1 o = ∅)).
Proof.
  intros -> Hne Holds Hs Hh. set (rest := list_to_set olds ∖ {[new]} : gset string).
  assert (Hin : forall o, o ∈ olds -> o ∈ adm_alias w0 alias) by (intros o Ho; rewrite Holds; by apply elem_of_list_to_set).
  destruct (each_old _ _ _ _ olds (w, h)) as [e1 x1] eqn:E1.
  apply (each_old_recorded _ _ _ copying ∅) in E1 as [Hh1 Hp1]; [|
    intros o S w1 h1 e x Ho Hon HP HR; destruct (Reindex_step o S w1 h1 e x (Hin o Ho) Hon HP HR) as [?|(w' & ? & ? & ?)];
      [by left|right; exists w'; split; [done|]; split; [by apply (copying_serves S)|done]]
    |done|done].
  destruct e1 as [e|]; [by intros [= <- <-]|]. specialize (Hp1 eq_refl). destruct x1 as [w1 h1]. cbn [fst snd] in *.
  assert (Hsw : swapping ∅ w1).
  { destruct Hp1 as (Ha & Hk & Hc & Hcov). split; [done|]. split; [done|]. split; [|by left].
    rewrite Holds. fold rest. by rewrite (left_id_L ∅ (∪)) in Hcov. }
  destruct (each_old _ _ _ _ olds (w1, h1)) as [e2 x2] eqn:E2.
  apply (each_old_recorded _ _ _ swapping ∅) in E2 as [Hh2 Hp2]; [|
    intros o S w2 h2 e x Ho Hon HP HR; by apply (Swap_step o S w2 h2 e x)|done|done].
  destruct e2 as [e|]; [by intros [= <- <-]|]. specialize (Hp2 eq_refl). destruct x2 as [w2 h2]. cbn [fst snd] in *.
  rewrite (left_id_L ∅ (∪)) in Hp2. fold rest in Hp2.
  assert (Hdel : deleting ∅ w2).
  { destruct Hp2 as (_ & Hc & Hcov & Ha). split; [|by repeat split].
    assert (Hcase : forall i, i ∈ adm_alias w0 alias -> i = new \/ i ∈ rest).
    { intros i Hi. rewrite Holds in Hi. destruct (decide (i = new)); [by left|right]. subst rest. set_solver. }
    destruct Ha as [[Hr [Ha1 Ha2]]| ->]; [|set_solver].
    assert (Hnew : forall i, i ∈ adm_alias w0 alias -> i = new).
    { intros i [?|Hi]%Hcase; [done|]. rewrite Hr in Hi. set_solver. }
    apply set_choose_L in Hne as [j Hj]. pose proof (Hnew j Hj) as ->.
    apply set_eq. intros i. rewrite elem_of_singleton. split; [|intros ->; by apply Ha1].
    intros [->%elem_of_singleton|Hi]%Ha2%elem_of_union; [done|by apply Hnew]. }
  destruct (DeleteOld opts); [|intros [= <- <-]; split; [done|]; intros _; split; [apply Hdel|done]].
  intros E3. apply (each_old_recorded _ _ _ deleting ∅) in E3 as [Hh3 Hp3]; [|
    intros o S w3 h3 e x Ho Hon HP HR; destruct (Delete_step o S w3 h3 e x Hon HP HR) as [?|(w' & ? & ? & ?)];
      [by left|right; exists w'; split; [done|]; split; [by apply (deleting_serves ∅)|done]]|done|done].
  split; [done|]. intros He. specialize (Hp3 He). rewrite (left_id_L ∅ (∪)) in Hp3.
  split; [apply Hp3|]. intros _ o Ho Hon. apply Hp3. rewrite Holds in Ho. set_solver.
Qed.

End migration.

(** ** A cluster that keeps the promises *)

(** [ac_seen]: what was stored at the last refresh; no request here refreshes. *)
Record acluster := mkAC {
  ac_docs : string -> gmap string json; ac_seen : string -> gmap string json; ac_alias : string -> gset string }.

Definition ac_set_alias (c : acluster) (a : string) (s : gset string) : acluster :=
  mkAC (ac_docs c) (ac_seen c) (upd (ac_alias c) a s).

Definition ac_get (path : string) (c : acluster) : res (Z * res payload) :=
  match split "/" path with
  | [_; "_alias"; a] =>
      match PathUnescape a with
      | Some a => if bool_decide (ac_alias c a = ∅) then Ok (404, Ok (mkPayload EmptyString None))
                  else Ok (200, Ok (mkPayload EmptyString (Some (JObj (map (fun i => (i, JObj [])) (elements (ac_alias c a)))))))
      | None => Ok (400, Ok (mkPayload EmptyString None))
      end
  | _ => Ok (404, Ok (mkPayload EmptyString None))
  end.

Definition ac_put (path : string) (c : acluster) : acluster :=
  match split "/" path with
  | [_; i; "_alias"; a] => match PathUnescape i, PathUnescape a with
                           | Some i, Some a => ac_set_alias c a ({[i]} ∪ ac_alias c a)
                           | _, _ => c
                           end
  | _ => c
  end.

Definition ac_post (body : json) (c : acluster) : acluster :=
  match body with
  | JObj [(_, JArr [JObj [(_, JObj [(_, JStr a); (_, JStr old)])]; JObj [(_, JObj [_; (_, JStr new)])]])] =>
      ac_set_alias c a ({[new]} ∪ (ac_alias c a ∖ {[old]}))
  | JObj [(_, JObj [(_, JStr dst)]); (_, JObj [(_, JStr src)])] =>
      mkAC (upd (ac_docs c) dst (ac_seen c src ∪ ac_docs c dst)) (ac_seen c) (ac_alias c)
  | _ => c
  end.

Definition ac_delete (path : string) (c : acluster) : acluster :=
  match split "/" path with
  | [_; i] => match PathUnescape i with
              | Some i => mkAC (upd (ac_docs c) i ∅) (upd (ac_seen c) i ∅) (fun a => ac_alias c a ∖ {[i]})
              | None => c
              end
  | _ => c
  end.

Definition ac_ok : res (Z * res payload) := Ok (200, Ok (mkPayload EmptyString (Some (JObj [])))).
#[export] Instance ac_es : Es acluster := {
  es_request _ _ := None;
  es_perform m path b c :=
    if bool_decide (m = "GET") then (ac_get path c, c)
    else match b with
         | NoBody => if bool_decide (m = "PUT") then (ac_ok, ac_put path c) else (ac_ok, ac_delete path c)
         | JsonBody j => if bool_decide (m = "PUT") then (ac_ok, c) else (ac_ok, ac_post j c)
         | NdJson _ => (ac_ok, c)
         end
}.

Lemma split_path1 i : split "/" ("/" +:+ PathEscape i) = [EmptyString; PathEscape i].
Proof. rewrite app_String. cbn [split]. change (Ascii.eqb "/" "/") with true. cbn. by rewrite split_no_char by by apply PathEscape_no_char. Qed.

Lemma ac_get_alias alias c :
  ac_get ("/_alias/" +:+ PathEscape alias) c
  = if bool_decide (ac_alias c alias = ∅) then Ok (404, Ok (mkPayload EmptyString None))
    else Ok (200, Ok (mkPayload EmptyString (Some (JObj (map (fun i => (i, JObj [])) (elements (ac_alias c alias))))))).
Proof.
  unfold ac_get. change ("/_alias/" +:+ PathEscape alias) with (join "/" [EmptyString; "_alias"; PathEscape alias]).
  rewrite (split_join "/"); [by rewrite PathUnescape_PathEscape|done|].
  repeat constructor. by apply PathEscape_no_char.
Qed.

Lemma ac_seen_law m path b w i :
  let w' := (es_perform m path b w).2 in
  ac_docs w' i = ac_docs w i -> ac_seen w i = ac_docs w i -> ac_seen w' i = ac_docs w' i.
Proof.
  assert (Hkeep : forall c, ac_seen c = ac_seen w -> ac_docs c i = ac_docs w i -> ac_seen w i = ac_docs w i ->
    ac_seen c i = ac_docs c i) by (intros c -> ->; done).
  cbn. case_bool_decide; [by apply Hkeep|]. destruct b as [|j|ls]; try case_bool_decide; try by apply Hkeep.
  - apply Hkeep. unfold ac_put. by repeat case_match.
  - unfold ac_delete. repeat case_match; try by apply Hkeep. cbn. intros _ Hs. unfold upd. by case_bool_decide.
  - apply Hkeep. unfold ac_post. by repeat case_match.
Qed.

#[export] Instance ac_admin : EsAdmin acluster.
Proof.
  refine {| adm_docs := ac_docs; adm_seen := ac_seen; adm_alias := ac_alias |}.
  - intros m path b w. split; [done|]. cbn. case_bool_decide; cbn.
    + unfold ac_get. by repeat case_match.
    + by destruct b; repeat case_match.
  - done.
  - apply ac_seen_law.
  - intros alias w status p w' Hp. cbn -[split] in Hp. rewrite ac_get_alias in Hp. injection Hp as Hp _.
    case_bool_decide as He; injection Hp as <- <-; split; try done. intros _. eexists. split; [done|].
    rewrite map_map. cbn. rewrite map_id. apply set_eq. intros i. by rewrite elem_of_list_to_set, elem_of_elements.
  - intros index body w. cbn. split; [done|]. by left.
  - intros index alias w r w'. change (es_perform _ _ NoBody w) with (ac_ok, ac_put ("/" +:+ PathEscape index +:+ "/_alias/" +:+ PathEscape alias) w).
    unfold ac_put. change ("/" +:+ PathEscape index +:+ "/_alias/" +:+ PathEscape alias)
      with (join "/" [EmptyString; PathEscape index; "_alias"; PathEscape alias]).
    rewrite (split_join "/"); [|done|by repeat constructor; try apply PathEscape_no_char].
    rewrite !PathUnescape_PathEscape. intros [= <- <-]. split; [done|]. intros _ _ _ _. cbn. by rewrite upd_eq.
  - intros alias old new w r w' [= <- <-]. cbn. rewrite upd_eq. split; [done|]. split; [by right|done].
  - intros src dst w r w' Hne [= <- <-]. cbn. split; [done|]. rewrite upd_eq. split; [intros i Hi; by rewrite upd_ne|]. split.
    + intros id. destruct (ac_seen w src !! id) as [d|] eqn:Es; [right; exists d; split; [done|]; by apply lookup_union_Some_l|].
      left. by apply lookup_union_r.
    + intros _ _ _ _ id d Hd. by apply lookup_union_Some_l.
  - intros index w r w'. change (es_perform _ _ NoBody w) with (ac_ok, ac_delete ("/" +:+ PathEscape index) w).
    unfold ac_delete. rewrite split_path1, PathUnescape_PathEscape. intros [= <- <-]. cbn.
    split; [intros i Hi; by rewrite upd_ne|]. split; [by right|]. intros _ _ _ _. by rewrite upd_eq.
Defined.

(** Two old indices behind the alias, deleted afterwards. *)
Definition two_old : acluster :=
  let docs i := if bool_decide (i = "v1") then {["a" := JNum 1; "b" := JNum 2]}
                else if bool_decide (i = "v2") then {["c" := JNum 3]} else ∅ in
  mkAC docs docs (fun a => if bool_decide (a = "items") then {["v1"; "v2"]} else ∅).
Definition migrated : error * (acluster * list acluster) :=
  @MigrateIndex _ recorded "items" "v3" JNull (mkMigrate EmptyString true) (two_old, []).


Example migrated_run :
  (migrated.1, length migrated.2.2, map_to_list (ac_docs migrated.2.1 "v3"), elements (ac_alias migrated.2.1 "items"))
  = (None, 9%nat, [("c", JNum 3); ("a", JNum 1); ("b", JNum 2)], ["v3"]).
Proof. vm_compute. reflexivity. Qed.

(** The reads through the alias are not unaffected: nothing refreshes the new index before the
    alias moves to it, and until that happens a search finds none of the documents. *)
Example migrated_unrefreshed :
  map (fun id => (ac_seen two_old "v1" ∪ ac_seen two_old "v2") !! id) ["a"; "b"; "c"] = [Some (JNum 1); Some (JNum 2); Some (JNum 3)]
  /\ elements (ac_alias migrated.2.1 "items") = ["v3"] /\ map_to_list (ac_seen migrated.2.1 "v3") = [].
Proof. vm_compute. auto. Qed.
