(* ===== verification/Health.v ===== *)
(** * Health: health — checkers and the health, liveness and readiness handlers

    A checker runs in the world and returns a status; the handlers visit the
    registered checkers in the order the map is ranged over. *)

From S2P Require Import Prelude GoStrings GoFloat Http Errors Backoff Breaker Retry.

(** ** handler.go *)

Record ServiceStatus := mkStatus { svc_Name : string; svc_Status : string; svc_Message : string; svc_Duration : Z }.
Record HealthStatus := mkHealth { hs_Status : string; hs_Timestamp : Z; hs_Services : list ServiceStatus }.

(** omitempty leaves out an empty message and a zero duration; a Duration is written in nanoseconds. *)
Definition status_json (s : ServiceStatus) : json :=
  JObj ([("name", JStr (svc_Name s)); ("status", JStr (svc_Status s))]
        ++ (if bool_decide (svc_Message s = EmptyString) then [] else [("message", JStr (svc_Message s))])
        ++ (if svc_Duration s =? 0 then [] else [("duration_ms", JNum (svc_Duration s))])).

Section health.
Context {W : Type} `{World W}.
Variable rfc3339 : Z -> string.                          (* how encoding/json writes a time *)

Definition Checker := W -> ServiceStatus * W.
Abbreviation checkers := (list (string * Checker)).
Definition NewHandler : checkers := [].
Definition Register (h : checkers) (name : string) (c : Checker) : checkers := aset name c h.

(** The checks of a request, in the order [visit] of the map's entries. *)
Fixpoint run_checks (visit : checkers) (w : W) : list (string * ServiceStatus) * W :=
  match visit with
  | [] => ([], w)
  | (name, c) :: visit =>
      let '(svc, w) := c w in
      let '(l, w) := run_checks visit w in
      ((name, svc) :: l, w)
  end.

(** The loop body of Health: the overall status after one service. *)
Definition fold_status (overall : string) (svc : ServiceStatus) : string :=
  if negb (bool_decide (svc_Status svc = "healthy"))
  then if bool_decide (svc_Status svc = "unhealthy") then "unhealthy" else "degraded"
  else overall.

Definition health_json (h : HealthStatus) : json :=
  JObj [("status", JStr (hs_Status h)); ("timestamp", JStr (rfc3339 (hs_Timestamp h)));
        ("services", JArr (map status_json (hs_Services h)))].

Definition send_json (code : Z) (j : json) (rw : ResponseWriter) : ResponseWriter :=
  write_chunk (Encoded j) (write_header code (upd_header (hdr_set "Content-Type" "application/json") rw)).

Definition Health (visit : checkers) (rw : ResponseWriter) (w : W) : ResponseWriter * W :=
  let now := time_now w in
  let '(results, w) := run_checks visit w in
  let services := map snd results in
  let status := fold_left fold_status services "healthy" in
  let statusCode := if bool_decide (status = "unhealthy") then StatusServiceUnavailable
                    else if bool_decide (status = "degraded") then StatusOK else StatusOK in
  (send_json statusCode (health_json (mkHealth status now services)) rw, w).

Definition Live (rw : ResponseWriter) : ResponseWriter := send_json StatusOK (JObj [("status", JStr "alive")]) rw.

(** [sorted]: a map is written with its keys in order. *)
Definition ready_json (ready : bool) (statuses : list (string * string)) : json :=
  JObj [("ready", JBool ready);
        ("services", JObj (map (fun kv => (kv.1, JStr kv.2)) (merge_sort (fun a b => String.le a.1 b.1) statuses)))].

Definition Ready (visit : checkers) (rw : ResponseWriter) (w : W) : ResponseWriter * W :=
  let '(results, w) := run_checks visit w in
  let ready := forallb (fun r => bool_decide (svc_Status r.2 = "healthy")) results in
  (send_json (if ready then StatusOK else StatusServiceUnavailable)
     (ready_json ready (map (fun r => (r.1, svc_Status r.2)) results)) rw, w).

(** ** checkers.go *)

(** What every checker with a connection does: time the probe, report its error. *)
Definition probe (name : string) (message : goerr -> string) (ping : W -> error * W) : Checker := fun w =>
  let start := time_now w in
  match ping w with
  | (Some e, w) => (mkStatus name "unhealthy" (message e) (time_sub (time_now w) start), w)
  | (None, w) => (mkStatus name "healthy" EmptyString (time_sub (time_now w) start), w)
  end.
Definition failed_to_connect (e : goerr) : string := "failed to connect: " +:+ error_text e.

Definition PgxPoolChecker (ping : W -> error * W) : Checker := probe "database" failed_to_connect ping.
Definition PostgreSQLChecker (ping : W -> error * W) : Checker := probe "database" failed_to_connect ping.
Definition RedisChecker (ping : W -> error * W) : Checker := probe "redis" failed_to_connect ping.
Definition RabbitMQChecker (isConnected : W -> bool) : Checker :=
  probe "rabbitmq" (fun _ => "not connected") (fun w => (if isConnected w then None else Some (NewErr "not connected"), w)).
Definition PingChecker (name : string) (healthCheck : W -> error * W) : Checker := probe name error_text healthCheck.
Definition NewObjectStoreChecker (name : string) (store : W -> error * W) : Checker := PingChecker name store.
Definition NewElasticsearchChecker (es : W -> error * W) : Checker := PingChecker "elasticsearch" es.
Definition CustomChecker (name : string) (check : W -> error * W) : Checker := probe name error_text check.
Definition AlwaysHealthyChecker (name : string) : Checker := fun w => (mkStatus name "healthy" EmptyString 0, w).

Fixpoint multi_check (name : string) (start : Z) (cs : list Checker) (w : W) : ServiceStatus * W :=
  match cs with
  | [] => (mkStatus name "healthy" EmptyString (time_sub (time_now w) start), w)
  | c :: cs =>
      let '(st, w) := c w in
      if negb (bool_decide (svc_Status st = "healthy"))
      then (mkStatus name "unhealthy" (svc_Name st +:+ " is unhealthy") (time_sub (time_now w) start), w)
      else multi_check name start cs w
  end.
Definition MultiChecker (name : string) (cs : list Checker) : Checker := fun w => multi_check name (time_now w) cs w.

(** ** What the handlers report *)

(** Every checker of the package answers healthy or unhealthy. *)
Definition binary (c : Checker) : Prop := forall w, svc_Status (c w).1 = "healthy" \/ svc_Status (c w).1 = "unhealthy".

Lemma probe_binary name msg ping : binary (probe name msg ping).
Proof. intros w. unfold probe. destruct (ping w) as [[e|] w']; cbn; auto. Qed.

Lemma AlwaysHealthyChecker_binary name : binary (AlwaysHealthyChecker name).
Proof. intros w. by left. Qed.

Lemma MultiChecker_binary name cs : binary (MultiChecker name cs).
Proof.
  intros w. unfold MultiChecker. generalize (time_now w). intros start. revert w.
  induction cs as [|c cs IH]; intros w; cbn; [by left|]. destruct (c w) as [st w1]. case_bool_decide; cbn; auto.
Qed.

Lemma run_checks_binary visit w :
  Forall (fun kc => binary kc.2) visit ->
  Forall (fun r => svc_Status r.2 = "healthy" \/ svc_Status r.2 = "unhealthy") (run_checks visit w).1.
Proof.
  intros Hb. revert w. induction Hb as [|[name c] visit Hc Hb IH]; intros w; cbn; [done|].
  specialize (Hc w). cbn in Hc. destruct (c w) as [svc w1]. specialize (IH w1). destruct (run_checks visit w1) as [l w2].
  by constructor.
Qed.

Lemma fold_status_binary services overall :
  Forall (fun s => svc_Status s = "healthy" \/ svc_Status s = "unhealthy") services ->
  fold_left fold_status services overall
  = if forallb (fun s => bool_decide (svc_Status s = "healthy")) services then overall else "unhealthy".
Proof.
  intros Hs. revert overall. induction Hs as [|s l Hs Hl IH]; intros overall; cbn; [done|]. rewrite IH. unfold fold_status.
  destruct Hs as [-> | ->]; cbn; [done|]. by destruct (forallb _ l).
Qed.

Lemma send_json_status code j rw : rw_sent rw = None -> rw_status (send_json code j rw) = Some code.
Proof. intros Hs. unfold send_json, rw_status, write_chunk, write_header. cbn. by rewrite Hs. Qed.

Lemma forallb_results {A} (l : list (A * ServiceStatus)) :
  forallb (fun s => bool_decide (svc_Status s = "healthy")) (map snd l)
  = forallb (fun r => bool_decide (svc_Status r.2 = "healthy")) l.
Proof. induction l as [|[? ?] l IH]; [done|]. cbn. by rewrite IH. Qed.

(** With the checkers of the package, and in whatever order they are visited, the health and
    the readiness probe answer 200 exactly when every check reports healthy and 503 otherwise,
    and both agree. *)
Theorem probes_report visit rw w :
  Forall (fun kc => binary kc.2) visit -> rw_sent rw = None ->
  let healthy := forallb (fun r => bool_decide (svc_Status r.2 = "healthy")) (run_checks visit w).1 in
  rw_status (Health visit rw w).1 = Some (if healthy then 200 else 503)
  /\ rw_status (Ready visit rw w).1 = Some (if healthy then 200 else 503).
Proof.
  intros Hb Hs. cbv zeta. unfold Health, Ready. pose proof (run_checks_binary visit w Hb) as Hr.
  destruct (run_checks visit w) as [results w']. cbn [fst] in *. split; (rewrite send_json_status by done); [|done].
  rewrite fold_status_binary by (apply List.Forall_map; exact Hr). rewrite forallb_results.
  by destruct (forallb _ results).
Qed.
End health.

(** ** Runs *)

Definition down : clockw -> error * clockw := fun w => (Some (NewErr "refused"), mkClock (cw_now w + Millisecond) (cw_deadline w)).
Definition up : clockw -> error * clockw := fun w => (None, mkClock (cw_now w + Millisecond) (cw_deadline w)).

Lemma probes_report_witness :
  rw_status (Health (fun _ => EmptyString) [("es", PingChecker "elasticsearch" up); ("db", PgxPoolChecker down)] new_writer (mkClock 0 Second)).1
    = Some 503
  /\ rw_status (Ready [("es", PingChecker "elasticsearch" up); ("db", PgxPoolChecker down)] new_writer (mkClock 0 Second)).1 = Some 503.
Proof.
  apply (probes_report (fun _ => EmptyString) [("es", PingChecker "elasticsearch" up); ("db", PgxPoolChecker down)] new_writer (mkClock 0 Second)).
  - repeat constructor; apply probe_binary.
  - reflexivity.
Defined.

(** A checker that reports "degraded" hides an unhealthy one visited before it. *)
Definition degraded : @Checker clockw := fun w => (mkStatus "queue" "degraded" "slow" 0, w).
Example degraded_hides_unhealthy :
  (rw_status (Health (fun _ => EmptyString) [("db", PgxPoolChecker down); ("queue", degraded)] new_writer (mkClock 0 Second)).1,
   rw_status (Health (fun _ => EmptyString) [("queue", degraded); ("db", PgxPoolChecker down)] new_writer (mkClock 0 Second)).1)
  = (Some 200, Some 503).
Proof. vm_compute. reflexivity. Qed.
