(* ===== verification/Regexp.v ===== *)
(** * Regexp: the parts of Go's [unicode/utf8] and [regexp] the sources use

    Text is matched rune by rune.  [runes] decodes UTF-8 as [utf8.DecodeRune]
    does (an invalid byte is one U+FFFD), [parse_regexp] reads the syntax of the
    patterns the sources write (classes, escapes, literals, one repetition per
    item and the anchors at both ends; anything else is outside the subset), and
    [re_match] runs a pattern by derivatives.  [matches] is the meaning of a
    pattern as a language, which [re_match] decides. *)

From S2P Require Import Prelude GoStrings GoFloat Http Json.

(** ** UTF-8 *)

Definition RuneError : Z := 65533.

(** For a leading byte: how many bytes follow, and the range of the first of them. *)
Definition leading (b : Z) : option (nat * Z * Z) :=
  if (194 <=? b) && (b <=? 223) then Some (1%nat, 128, 191)
  else if b =? 224 then Some (2%nat, 160, 191)
  else if b =? 237 then Some (2%nat, 128, 159)
  else if (225 <=? b) && (b <=? 239) then Some (2%nat, 128, 191)
  else if b =? 240 then Some (3%nat, 144, 191)
  else if b =? 244 then Some (3%nat, 128, 143)
  else if (241 <=? b) && (b <=? 243) then Some (3%nat, 128, 191)
  else None.

Definition within (lo hi b : Z) : bool := (lo <=? b) && (b <=? hi).

Fixpoint runes (s : string) : list Z :=
  match s with
  | EmptyString => []
  | String c0 t =>
      let b0 := byte_of c0 in
      if b0 <? 128 then b0 :: runes t
      else match leading b0, t with
           | Some (1%nat, lo, hi), String c1 t1 =>
               if within lo hi (byte_of c1) then ((b0 - 192) * 64 + (byte_of c1 - 128)) :: runes t1
               else RuneError :: runes t
           | Some (2%nat, lo, hi), String c1 (String c2 t2) =>
               if within lo hi (byte_of c1) && within 128 191 (byte_of c2)
               then ((b0 - 224) * 4096 + (byte_of c1 - 128) * 64 + (byte_of c2 - 128)) :: runes t2
               else RuneError :: runes t
           | Some (3%nat, lo, hi), String c1 (String c2 (String c3 t3)) =>
               if within lo hi (byte_of c1) && within 128 191 (byte_of c2) && within 128 191 (byte_of c3)
               then ((b0 - 240) * 262144 + (byte_of c1 - 128) * 4096 + (byte_of c2 - 128) * 64 + (byte_of c3 - 128)) :: runes t3
               else RuneError :: runes t
           | _, _ => RuneError :: runes t
           end
  end.

(** utf8.RuneCountInString *)
Definition RuneCountInString (s : string) : Z := Z.of_nat (length (runes s)).

(** The bytes of a text. *)
Definition bytes (s : string) : list Z := map byte_of (String.list_ascii_of_string s).

(** ** Patterns *)

(** A character class: ranges, negated or not. *)
Record cls := mkCls { neg : bool; ranges : list (Z * Z) }.
Definition in_cls (c : cls) (r : Z) : bool := xorb (neg c) (existsb (fun '(lo, hi) => (lo <=? r) && (r <=? hi)) (ranges c)).

Inductive regex := RVoid | REps | RCls (c : cls) | RCat (a b : regex) | RAlt (a b : regex) | RStar (a : regex).

(** The language of a pattern. *)
Inductive matches : regex -> list Z -> Prop :=
| m_eps : matches REps []
| m_cls c r : in_cls c r = true -> matches (RCls c) [r]
| m_cat a b s t : matches a s -> matches b t -> matches (RCat a b) (s ++ t)
| m_alt_l a b s : matches a s -> matches (RAlt a b) s
| m_alt_r a b s : matches b s -> matches (RAlt a b) s
| m_star_nil a : matches (RStar a) []
| m_star_cons a s t : matches a s -> matches (RStar a) t -> matches (RStar a) (s ++ t).

(** ** Matching by derivatives *)

Fixpoint nullable (a : regex) : bool :=
  match a with
  | RVoid | RCls _ => false
  | REps | RStar _ => true
  | RCat a b => nullable a && nullable b
  | RAlt a b => nullable a || nullable b
  end.

Definition mk_cat (a b : regex) : regex := match a with RVoid => RVoid | REps => b | _ => RCat a b end.
Definition mk_alt (a b : regex) : regex := match a, b with RVoid, _ => b | _, RVoid => a | _, _ => RAlt a b end.

Fixpoint deriv (r : Z) (a : regex) : regex :=
  match a with
  | RVoid | REps => RVoid
  | RCls c => if in_cls c r then REps else RVoid
  | RCat a b => let d := mk_cat (deriv r a) b in if nullable a then mk_alt d (deriv r b) else d
  | RAlt a b => mk_alt (deriv r a) (deriv r b)
  | RStar a' => mk_cat (deriv r a') a
  end.

Definition re_match (a : regex) (s : list Z) : bool := nullable (fold_left (fun a r => deriv r a) s a).

Fixpoint repeat_re (n : nat) (a : regex) : regex := match n with O => REps | S n => RCat a (repeat_re n a) end.

(** ** Their syntax *)

Definition bar : Z := 124.
(** Characters with a meaning of their own outside a class. *)
Definition special (r : Z) : bool := bool_decide (r ∈ bytes "\.+*?()|[]{}^$").
Definition is_punct (r : Z) : bool :=
  ((33 <=? r) && (r <=? 47)) || ((58 <=? r) && (r <=? 64)) || ((91 <=? r) && (r <=? 96)) || ((123 <=? r) && (r <=? 126)).

Definition digit_ranges : list (Z * Z) := [(48, 57)].
Definition space_ranges : list (Z * Z) := [(9, 10); (12, 13); (32, 32)].
Definition word_ranges : list (Z * Z) := [(48, 57); (65, 90); (95, 95); (97, 122)].

(** What follows a backslash: a Perl class or an escaped punctuation character. *)
Definition escape_class (r : Z) : option (list (Z * Z)) :=
  if r =? 100 then Some digit_ranges else if r =? 115 then Some space_ranges else if r =? 119 then Some word_ranges
  else if is_punct r then Some [(r, r)] else None.

(** The items of a class up to its closing bracket.  Ranges are a-b between plain characters. *)
Fixpoint class_items (p : list Z) : option (list (Z * Z) * list Z) :=
  match p with
  | [] => None
  | 93 :: p => Some ([], p)
  | 91 :: _ => None
  | 92 :: e :: p =>
      match escape_class e, p with
      | Some rs, 45 :: h :: _ => if h =? 93 then (fun '(l, q) => (rs ++ l, q)) <$> class_items p else None
      | Some rs, _ => (fun '(l, q) => (rs ++ l, q)) <$> class_items p
      | None, _ => None
      end
  | 92 :: [] => None
  | lo :: 45 :: ((hi :: p) as q) =>
      if hi =? 93 then Some ([(lo, lo); (45, 45)], p)
      else if (hi =? 92) || (hi =? 91) || (hi <? lo) then None
      else (fun '(l, q) => ((lo, hi) :: l, q)) <$> class_items p
  | r :: p => (fun '(l, q) => ((r, r) :: l, q)) <$> class_items p
  end.
Definition parse_class (p : list Z) : option (cls * list Z) :=
  match p with
  | 94 :: 93 :: _ | 93 :: _ => None
  | 94 :: p => (fun '(l, q) => (mkCls true l, q)) <$> class_items p
  | _ => (fun '(l, q) => (mkCls false l, q)) <$> class_items p
  end.

(** One item: a class, a dot (any rune but a newline), an escape or a literal. *)
Definition parse_atom (p : list Z) : option (cls * list Z) :=
  match p with
  | [] => None
  | 91 :: p => parse_class p
  | 46 :: p => Some (mkCls true [(10, 10)], p)
  | 92 :: e :: p => (fun rs => (mkCls false rs, p)) <$> escape_class e
  | r :: p => if special r then None else Some (mkCls false [(r, r)], p)
  end.

Fixpoint number (p : list Z) (acc : nat) : nat * list Z :=
  match p with
  | d :: p' => if within 48 57 d then number p' (10 * acc + Z.to_nat (d - 48))%nat else (acc, p)
  | [] => (acc, p)
  end.

(** A repetition {n} or {n,}, of at most 1000. *)
Definition counted (a : regex) (p : list Z) : option (regex * list Z) :=
  match p with
  | d :: _ =>
      if negb (within 48 57 d) then None
      else let '(n, q) := number p 0 in
           if (1000 <? n)%nat then None
           else match q with
                | 125 :: q => Some (repeat_re n a, q)
                | 44 :: 125 :: q => Some (RCat (repeat_re n a) (RStar a), q)
                | _ => None
                end
  | [] => None
  end.
Definition parse_repeat (a : regex) (p : list Z) : option (regex * list Z) :=
  match p with
  | 43 :: p => Some (RCat a (RStar a), p)
  | 42 :: p => Some (RStar a, p)
  | 63 :: p => Some (RAlt a REps, p)
  | 123 :: p => counted a p
  | _ => Some (a, p)
  end.

(** The items of a pattern up to its end or a final dollar sign; [fuel] bounds their number. *)
Fixpoint parse_items (fuel : nat) (p : list Z) : option (regex * bool) :=
  match fuel, p with
  | _, [] => Some (REps, false)
  | _, [36] => Some (REps, true)
  | O, _ => None
  | S fuel, _ =>
      match parse_atom p with
      | None => None
      | Some (c, p) =>
          match parse_repeat (RCls c) p with
          | None => None
          | Some (a, p) =>
              match p with
              | r :: _ => if bool_decide (r ∈ [42; 43; 63; 123]) then None
                          else (fun '(b, e) => (RCat a b, e)) <$> parse_items fuel p
              | [] => (fun '(b, e) => (RCat a b, e)) <$> parse_items fuel p
              end
          end
      end
  end.

Definition any_text : regex := RStar (RCls (mkCls true [])).
Definition parse_regexp (pattern : string) : option regex :=
  let p := runes pattern in
  let '(anchored, p) := match p with 94 :: p => (true, p) | _ => (false, p) end in
  if bool_decide (RuneError ∈ p) then None
  else match parse_items (S (length p)) p with
  | None => None
  | Some (a, ended) =>
      let a := if ended then a else RCat a any_text in
      Some (if anchored then a else RCat any_text a)
  end.

(** ** The matcher decides the language *)

Lemma matches_void s : ~ matches RVoid s.
Proof. inversion 1. Qed.
Lemma matches_eps s : matches REps s <-> s = [].
Proof. split; [by inversion 1|intros ->; constructor]. Qed.
Lemma matches_cls c s : matches (RCls c) s <-> exists r, s = [r] /\ in_cls c r = true.
Proof. split; [inversion 1; subst; eauto|intros (r & -> & ?); by constructor]. Qed.
Lemma matches_cat a b s : matches (RCat a b) s <-> exists u v, s = u ++ v /\ matches a u /\ matches b v.
Proof. split; [inversion 1; subst; eauto|intros (u & v & -> & ? & ?); by constructor]. Qed.
Lemma matches_alt a b s : matches (RAlt a b) s <-> matches a s \/ matches b s.
Proof. split; [inversion 1; subst; eauto|intros [?|?]; [by apply m_alt_l|by apply m_alt_r]]. Qed.

Lemma nullable_spec a : nullable a = true <-> matches a [].
Proof.
  induction a as [| |c|a IHa b IHb|a IHa b IHb|a IHa]; cbn.
  - split; [done|intros H; by apply matches_void in H].
  - rewrite matches_eps. done.
  - rewrite matches_cls. split; [done|by intros (? & ? & _)].
  - rewrite andb_true_iff, IHa, IHb, matches_cat. split; [intros []; by exists [], []|].
    intros (u & v & [-> ->]%symmetry%app_nil & ? & ?). done.
  - by rewrite orb_true_iff, IHa, IHb, matches_alt.
  - split; [constructor|done].
Qed.

Lemma matches_mk_cat a b s : matches (mk_cat a b) s <-> matches (RCat a b) s.
Proof.
  destruct a; try done; cbn; rewrite matches_cat.
  - split; [intros H; by apply matches_void in H|intros (u & v & _ & H & _); by apply matches_void in H].
  - split; [intros H; exists [], s; by repeat constructor|].
    intros (u & v & -> & ->%matches_eps & ?). done.
Qed.
Lemma matches_mk_alt a b s : matches (mk_alt a b) s <-> matches (RAlt a b) s.
Proof. pose proof (matches_void s). destruct a, b; cbn; rewrite ?matches_alt; tauto. Qed.

(** A non-empty text of a repetition starts with a non-empty text of its body. *)
Lemma matches_star_cons a r s :
  matches (RStar a) (r :: s) -> exists u v, s = u ++ v /\ matches a (r :: u) /\ matches (RStar a) v.
Proof.
  intros H. remember (RStar a) as b eqn:Hb. remember (r :: s) as t eqn:Ht. revert r s Ht.
  induction H as [| | | | | |a' u v Hu _ Hv IH]; try done; intros r s Ht. simplify_eq.
  destruct u as [|x u]; cbn in Ht; [by apply IH|]. simplify_eq. by exists u, v.
Qed.

Lemma deriv_spec r a s : matches (deriv r a) s <-> matches a (r :: s).
Proof.
  revert s. induction a as [| |c|a IHa b IHb|a IHa b IHb|a IHa]; intros s; cbn [deriv].
  - split; intros H; by apply matches_void in H.
  - rewrite matches_eps. split; [intros H; by apply matches_void in H|done].
  - rewrite matches_cls. destruct (in_cls c r) eqn:Hc.
    + rewrite matches_eps. split; [intros ->; eauto|by intros (x & [=] & _)].
    + split; [intros H; by apply matches_void in H|intros (x & [=] & ?); by subst; congruence].
  - assert (Hd : matches (mk_cat (deriv r a) b) s <-> exists u v, s = u ++ v /\ matches a (r :: u) /\ matches b v).
    { rewrite matches_mk_cat, matches_cat. by setoid_rewrite IHa. }
    assert (Hc : matches (RCat a b) (r :: s) <->
                 (matches (mk_cat (deriv r a) b) s \/ nullable a = true /\ matches b (r :: s))).
    { rewrite Hd, matches_cat, nullable_spec. split.
      - intros (u & v & Heq & Hu & Hv). destruct u as [|x u]; cbn in Heq; subst; [by right|]. simplify_eq. left. by exists u, v.
      - intros [(u & v & -> & Hu & Hv)|[Hn Hb]]; [by exists (r :: u), v|by exists [], (r :: s)]. }
    rewrite Hc. destruct (nullable a); [rewrite matches_mk_alt, matches_alt, IHb; tauto|].
    split; [tauto|]. intros [?|[? _]]; done.
  - rewrite matches_mk_alt, !matches_alt, IHa, IHb. done.
  - rewrite matches_mk_cat, matches_cat. setoid_rewrite IHa. split.
    + intros (u & v & -> & Hu & Hv). by apply (m_star_cons a (r :: u)).
    + intros (u & v & -> & ? & ?)%matches_star_cons. by exists u, v.
Qed.

Lemma re_match_spec a s : re_match a s = true <-> matches a s.
Proof.
  revert a. induction s as [|r s IH]; intros a; cbn; [apply nullable_spec|].
  unfold re_match in *. cbn. by rewrite IH, deriv_spec.
Qed.

(** ** Patterns of fixed length *)

(** The classes of a pattern that is a sequence of them. *)
Fixpoint flat (a : regex) : option (list cls) :=
  match a with
  | REps => Some []
  | RCls c => Some [c]
  | RCat a b => match flat a, flat b with Some l, Some k => Some (l ++ k) | _, _ => None end
  | _ => None
  end.

Lemma flat_matches a l s : flat a = Some l -> matches a s <-> Forall2 (fun c r => in_cls c r = true) l s.
Proof.
  revert l s. induction a as [| |c|a IHa b IHb| |]; intros l s Hl; cbn in Hl; simplify_eq.
  - rewrite matches_eps. split; [intros ->; constructor|by inversion 1].
  - rewrite matches_cls. split; [intros (r & -> & ?); by repeat constructor|].
    intros (r & t & ? & ->%Forall2_nil_inv_l & ->)%Forall2_cons_inv_l. eauto.
  - destruct (flat a) as [la|]; [|done]. destruct (flat b) as [lb|]; [|done]. simplify_eq.
    rewrite matches_cat. split.
    + intros (u & v & -> & ?%(IHa la) & ?%(IHb lb)); [by apply Forall2_app|done|done].
    + intros (u & v & ? & ? & ->)%Forall2_app_inv_l. exists u, v. by rewrite (IHa la), (IHb lb).
Qed.

(** A repeated class matches the texts over it. *)
Lemma star_cls c s : matches (RStar (RCls c)) s <-> Forall (fun r => in_cls c r = true) s.
Proof.
  split.
  - induction s as [|r s IH]; [constructor|]. intros (u & v & -> & Hu & Hv)%matches_star_cons.
    apply matches_cls in Hu as (x & [= -> ->] & Hx). constructor; [done|]. by apply IH.
  - induction 1 as [|r s Hr _ IH]; [constructor|]. apply (m_star_cons _ [r]); [by constructor|done].
Qed.

Definition plus_re (a : regex) : regex := RCat a (RStar a).
Definition at_least (n : nat) (a : regex) : regex := RCat (repeat_re n a) (RStar a).

Lemma at_least_cls n c s :
  matches (at_least n (RCls c)) s <-> (n <= length s)%nat /\ Forall (fun r => in_cls c r = true) s.
Proof.
  unfold at_least. rewrite matches_cat. setoid_rewrite star_cls. revert s.
  induction n as [|n IH]; intros s; cbn [repeat_re].
  - split; [intros (u & v & -> & ->%matches_eps & Hv); by split; [cbn; lia|]|].
    intros [_ Hs]. exists [], s. repeat split; [constructor|done].
  - split.
    + intros (u & v & -> & (x & w & -> & (r & -> & Hr)%matches_cls & Hw)%matches_cat & Hv).
      destruct (proj1 (IH (w ++ v))) as [Hl Ha]; [by exists w, v|]. cbn. split; [lia|by constructor].
    + intros [Hl Ha]. destruct s as [|r s]; [cbn in Hl; lia|]. apply Forall_cons in Ha as [Hr Ha].
      destruct (proj2 (IH s)) as (u & v & -> & Hu & Hv); [cbn in Hl; split; [lia|done]|].
      exists (r :: u), v. split; [done|]. split; [|done]. apply (m_cat _ _ [r]); [by constructor|done].
Qed.
Lemma plus_cls c s : matches (plus_re (RCls c)) s <-> s <> [] /\ Forall (fun r => in_cls c r = true) s.
Proof.
  unfold plus_re. rewrite matches_cat. setoid_rewrite star_cls. split.
  - intros (u & v & -> & (r & -> & Hr)%matches_cls & Hv). split; [done|by constructor].
  - intros [Hne Ha]. destruct s as [|r s]; [done|]. apply Forall_cons in Ha as [Hr Ha].
    exists [r], s. repeat split; [by constructor|done].
Qed.

(** ** Decoding *)

Lemma leading_range b n lo hi : leading b = Some (n, lo, hi) ->
  match n with
  | 1%nat => 194 <= b <= 223 /\ lo = 128 /\ hi = 191
  | 2%nat => 224 <= b <= 239 /\ 128 <= lo /\ hi <= 191 /\ (b = 224 -> 160 <= lo)
  | 3%nat => 240 <= b <= 244 /\ 128 <= lo /\ hi <= 191 /\ (b = 240 -> 144 <= lo)
  | _ => False
  end.
Proof. unfold leading. intros H. repeat case_match; simplify_eq; bools; repeat split; intros; try lia. Qed.

(** A byte outside ASCII never decodes to an ASCII rune. *)
Lemma runes_high c t : 128 <= byte_of c -> exists r rs, runes (String c t) = r :: rs /\ 128 <= r.
Proof.
  intros Hc. cbn [runes]. rewrite (proj2 (Z.ltb_ge (byte_of c) 128)) by lia.
  assert (Herr : exists r rs, RuneError :: runes t = r :: rs /\ 128 <= r) by (eexists _, _; done).
  destruct (leading (byte_of c)) as [[[n lo] hi]|] eqn:Hl; [|done].
  apply leading_range in Hl.
  destruct n as [|[|[|[|n]]]]; try done; destruct t as [|c1 t1]; try done.
  - destruct (within lo hi (byte_of c1)) eqn:H1; [|done]. unfold within in H1. bools. eexists _, _. split; [done|]. lia.
  - destruct t1 as [|c2 t2]; [done|]. destruct (_ && _) eqn:H1; [|done]. unfold within in H1. bools.
    eexists _, _. split; [done|]. nia.
  - destruct t1 as [|c2 [|c3 t3]]; try done. destruct (_ && _) eqn:H1; [|done]. unfold within in H1. bools.
    eexists _, _. split; [done|]. nia.
Qed.

Lemma runes_ascii_cons c t : byte_of c < 128 -> runes (String c t) = byte_of c :: runes t.
Proof. intros. cbn [runes]. by rewrite (proj2 (Z.ltb_lt (byte_of c) 128)). Qed.

(** A text with only ASCII runes is those bytes, and the other way round. *)
Lemma runes_ascii s : Forall (fun r => r < 128) (runes s) \/ Forall (fun b => b < 128) (bytes s) -> runes s = bytes s.
Proof.
  induction s as [|c s IH]; [done|]. intros Hs.
  destruct (decide (byte_of c < 128)) as [Hc|Hc].
  - rewrite runes_ascii_cons in * by done. unfold bytes in *. cbn in *. f_equal. apply IH.
    destruct Hs as [Hs|Hs]; apply Forall_cons in Hs as [_ Hs]; auto.
  - destruct Hs as [Hs|Hs].
    + destruct (runes_high c s) as (r & rs & Heq & Hr); [lia|]. rewrite Heq in Hs. apply Forall_cons in Hs. lia.
    + unfold bytes in Hs. cbn in Hs. apply Forall_cons in Hs. lia.
Qed.

Lemma bytes_app s t : bytes (s +:+ t) = bytes s ++ bytes t.
Proof. unfold bytes. induction s as [|c s IH]; [done|]. rewrite app_String. cbn. by rewrite IH. Qed.

(** ** Encoding and decoding *)

Definition scalar (r : Z) : bool := ((0 <=? r) && (r <=? 55295)) || ((57344 <=? r) && (r <=? 1114111)).

(** What [leading] asks of the second byte, from the code point the bytes stand for. *)
Lemma leading_2 b b1 : 194 <= b <= 223 -> 128 <= b1 <= 191 ->
  exists lo hi, leading b = Some (1%nat, lo, hi) /\ within lo hi b1 = true.
Proof.
  intros. unfold leading. repeat case_match; bools; try lia.
  eexists _, _. split; [done|]. unfold within. rewrite andb_true_iff, !Z.leb_le. lia.
Qed.
Lemma leading_3 b b1 : 224 <= b <= 239 -> 128 <= b1 <= 191 -> (b = 224 -> 160 <= b1) -> (b = 237 -> b1 <= 159) ->
  exists lo hi, leading b = Some (2%nat, lo, hi) /\ within lo hi b1 = true.
Proof.
  intros. unfold leading. repeat case_match; bools; try lia;
    (eexists _, _; split; [done|]; unfold within; rewrite andb_true_iff, !Z.leb_le; lia).
Qed.
Lemma leading_4 b b1 : 240 <= b <= 244 -> 128 <= b1 <= 191 -> (b = 240 -> 144 <= b1) -> (b = 244 -> b1 <= 143) ->
  exists lo hi, leading b = Some (3%nat, lo, hi) /\ within lo hi b1 = true.
Proof.
  intros. unfold leading. repeat case_match; bools; try lia;
    (eexists _, _; split; [done|]; unfold within; rewrite andb_true_iff, !Z.leb_le; lia).
Qed.

Ltac euclid := Z.to_euclidean_division_equations; lia.
Lemma within_cont z : within 128 191 (128 + z mod 64) = true.
Proof. unfold within. rewrite andb_true_iff, !Z.leb_le. euclid. Qed.

Lemma runes_utf8_rune r t : scalar r = true -> runes (utf8_rune r +:+ t) = r :: runes t.
Proof.
  unfold scalar, utf8_rune, utf8. rewrite orb_true_iff, !andb_true_iff, !Z.leb_le. intros Hr.
  destruct (r <? 128) eqn:H1; [|destruct (r <? 2048) eqn:H2; [|destruct (r <? 65536) eqn:H3]]; bools;
    cbn [fold_right]; rewrite !app_String, app_Empty; [rewrite runes_ascii_cons|cbn [runes]..];
    rewrite !byte_of_ascii by euclid; try done.
  - rewrite (proj2 (Z.ltb_ge _ _)) by euclid.
    destruct (leading_2 (192 + r / 64) (128 + r mod 64)) as (lo & hi & -> & ->); [euclid..|]. f_equal. euclid.
  - rewrite (proj2 (Z.ltb_ge _ _)) by euclid.
    destruct (leading_3 (224 + r / 4096) (128 + r / 64 mod 64)) as (lo & hi & -> & ->); [euclid..|].
    rewrite within_cont. cbn [andb]. f_equal. euclid.
  - rewrite (proj2 (Z.ltb_ge _ _)) by euclid.
    destruct (leading_4 (240 + r / 262144) (128 + r / 4096 mod 64)) as (lo & hi & -> & ->); [euclid..|].
    rewrite !within_cont. cbn [andb]. f_equal. euclid.
Qed.

(** The text of a list of code points decodes to that list. *)
Definition encode_runes (rs : list Z) : string := fold_right (fun r s => utf8_rune r +:+ s) EmptyString rs.
Lemma runes_encode rs : Forall (fun r => scalar r = true) rs -> runes (encode_runes rs) = rs.
Proof.
  induction 1 as [|r rs Hr _ IH]; [done|].
  change (encode_runes (r :: rs)) with (utf8_rune r +:+ encode_runes rs). by rewrite runes_utf8_rune, IH.
Qed.
