(* ===== verification/Validation.v ===== *)
(** * Validation: validation — the fluent validator and request validation

    [Validator] is the errors it has collected.  Patterns are compiled by
    [Compile]: the model's own parser where it reads the syntax, and the
    interface [RegexpLib] for the rest of RE2's syntax, which only a caller's
    [Pattern] can contain.  Request bodies are texts that may end in a read
    error. *)

From S2P Require Import Prelude GoStrings GoFloat Http Json Errors Decode Request Auth Regexp.

(** Patterns outside the modelled syntax, and lower case beyond ASCII: only U+0130 (to i) and
    U+212A (to k) leave it. *)
Class RegexpLib := {
  compile_other : string -> option (list Z -> bool);
  lower_rune : Z -> Z;
  lower_high r : 128 <= r -> 128 <= lower_rune r \/ lower_rune r = 105 \/ lower_rune r = 107
}.

(** ** validator.go *)

Record Validator := mkValidator { errors : list string }.
Definition validation_New : Validator := mkValidator [].
Definition HasErrors (v : Validator) : bool := (0 <? length (errors v))%nat.
Definition Errors_ (v : Validator) : list string := errors v.
Definition addError (field message : string) (v : Validator) : Validator :=
  mkValidator (errors v ++ [field +:+ ": " +:+ message]).

Record StringConfig := mkStringConfig { MinLength : Z; MaxLength : Z; cfg_Pattern : string; cfg_OneOf : list string }.
Definition StringOption := StringConfig -> StringConfig.
Definition MinLen (min : Z) : StringOption := fun c => mkStringConfig min (MaxLength c) (cfg_Pattern c) (cfg_OneOf c).
Definition MaxLen (max : Z) : StringOption := fun c => mkStringConfig (MinLength c) max (cfg_Pattern c) (cfg_OneOf c).
Definition Pattern (p : string) : StringOption := fun c => mkStringConfig (MinLength c) (MaxLength c) p (cfg_OneOf c).
Definition OneOf (values : list string) : StringOption := fun c => mkStringConfig (MinLength c) (MaxLength c) (cfg_Pattern c) values.
Definition SkipEmpty (value : string) : StringOption := fun c => if bool_decide (value = EmptyString) then MaxLen 0 c else c.
Definition string_config (opts : list StringOption) : StringConfig :=
  fold_left (fun c opt => opt c) opts (mkStringConfig 0 10000 EmptyString []).

Record IntConfig := mkIntConfig { MinValue : Z; MaxValue : Z }.
Definition IntOption := IntConfig -> IntConfig.
Definition Min (min : Z) : IntOption := fun c => mkIntConfig min (MaxValue c).
Definition Max (max : Z) : IntOption := fun c => mkIntConfig (MinValue c) max.
Definition int_config (opts : list IntOption) : IntConfig :=
  fold_left (fun c opt => opt c) opts (mkIntConfig (-999999999) 999999999).

Definition emailPattern : string := "^[a-zA-Z0-9._%+-]+@[a-zA-Z0-9.-]+\.[a-zA-Z]{2,}$".
Definition uuidPattern : string := "^[0-9a-f]{8}-[0-9a-f]{4}-[1-8][0-9a-f]{3}-[89ab][0-9a-f]{3}-[0-9a-f]{12}$".
Definition urlPattern : string := "^https?://[^\s/$.?#].[^\s]*$".
Definition phonePattern : string := "^[\d\s\-\+\(\)]{10,}$".

(** strings.ReplaceAll(value, " ", "") *)
Fixpoint remove_spaces (s : string) : string :=
  match s with
  | EmptyString => EmptyString
  | String c s => if Ascii.eqb c " " then remove_spaces s else String c (remove_spaces s)
  end.

Section validator.
Context `{RegexpLib}.

(** strings.ToLower, on the runes of the text. *)
Definition rune_lower (r : Z) : Z := if within 65 90 r then r + 32 else if r <? 128 then r else lower_rune r.

(** regexp.Compile, with the MatchString of what it returns. *)
Definition Compile (pattern : string) : option (list Z -> bool) :=
  match parse_regexp pattern with
  | Some a => Some (re_match a)
  | None => compile_other pattern
  end.

Definition check (failed : bool) (field message : string) (v : Validator) : Validator :=
  if failed then addError field message v else v.

(** The pattern is compiled; one that does not compile checks nothing. *)
Definition pattern_fails (pattern : string) (rs : list Z) : bool :=
  match Compile pattern with Some m => negb (m rs) | None => false end.

Definition String_ (field value : string) (opts : list StringOption) (v : Validator) : Validator :=
  if bool_decide (value = EmptyString) then addError field "is required" v
  else
    let cfg := string_config opts in
    let length := RuneCountInString value in
    let v := check (length <? MinLength cfg) field ("must be at least " +:+ itoa (MinLength cfg) +:+ " characters") v in
    let v := check (MaxLength cfg <? length) field ("must be at most " +:+ itoa (MaxLength cfg) +:+ " characters") v in
    let v := check (negb (bool_decide (cfg_Pattern cfg = EmptyString)) && pattern_fails (cfg_Pattern cfg) (runes value))
               field ("must match pattern " +:+ cfg_Pattern cfg) v in
    check (negb (bool_decide (cfg_OneOf cfg = [])) && negb (bool_decide (value ∈ cfg_OneOf cfg)))
      field ("must be one of: " +:+ join ", " (cfg_OneOf cfg)) v.

(** Email, UUID, URL and Phone: required, then a fixed pattern on the text each passes to it. *)
Definition shaped (pattern message : string) (rs : list Z) (field value : string) (v : Validator) : Validator :=
  if bool_decide (value = EmptyString) then addError field "is required" v
  else check (pattern_fails pattern rs) field message v.
Definition Email (field value : string) : Validator -> Validator :=
  shaped emailPattern "must be a valid email address" (runes value) field value.
Definition UUID (field value : string) : Validator -> Validator :=
  shaped uuidPattern "must be a valid UUID" (map rune_lower (runes value)) field value.
Definition URL (field value : string) : Validator -> Validator :=
  shaped urlPattern "must be a valid URL" (runes value) field value.
Definition Phone (field value : string) : Validator -> Validator :=
  shaped phonePattern "must be a valid phone number" (runes (remove_spaces value)) field value.

Definition Integer (field : string) (value : Z) (opts : list IntOption) (v : Validator) : Validator :=
  let cfg := int_config opts in
  let v := check (value <? MinValue cfg) field ("must be at least " +:+ itoa (MinValue cfg)) v in
  check (MaxValue cfg <? value) field ("must be at most " +:+ itoa (MaxValue cfg)) v.
Definition NonEmpty (field : string) (length : Z) : Validator -> Validator := check (length =? 0) field "must not be empty".
Definition Custom (field : string) (condition : bool) (message : string) : Validator -> Validator := check condition field message.
Definition Boolean (field : string) (valuePtr : option bool) : Validator -> Validator :=
  check (negb (is_Some_b valuePtr)) field "is required".
Definition OptionalString (field : string) (value : option string) (opts : list StringOption) (v : Validator) : Validator :=
  match value with None => v | Some value => String_ field value opts v end.

(** ** request.go *)

(** Values the decoder sees the end of without reading on. *)
Definition ends_itself (j : json) : bool := match j with JObj _ | JArr _ => true | _ => false end.

(** The first value of the body, as json.Decoder reads it. *)
Definition decode_first (b : body) : option json :=
  match parse_value (S (2 * String.length (body_text b))) (body_text b) with
  | Some (j, rest) => if body_fails b && bool_decide (rest = EmptyString) && negb (ends_itself j) then None else Some j
  | None => None
  end.

(** The request (None where it is left partly decoded) and the error. *)
Definition ValidateRequest {T} (dec : json -> res T) (b : body) (validatorFunc : T -> Validator)
  : option T * option BaseDxError :=
  match (match decode_first b with Some j => dec j | None => Err json_error end) with
  | Err _ => (None, Some (NewValidation "invalid request body" []))
  | Ok req =>
      let validator := validatorFunc req in
      if HasErrors validator then (Some req, Some (NewValidation "validation failed" (Errors_ validator)))
      else (Some req, None)
  end.

Definition ValidateRawRequest {T} (dec : json -> res T) (b : body) : option T * option BaseDxError :=
  if body_fails b then (None, Some (NewValidation "failed to read request body" []))
  else match (match json_parse (body_text b) with Some j => dec j | None => Err json_error end) with
       | Err _ => (None, Some (NewValidation "invalid request body" []))
       | Ok req => (Some req, None)
       end.

Definition ValidateQueryParam (rawQuery paramName : string) : string * option BaseDxError :=
  let value := values_get (url_query rawQuery) paramName in
  if bool_decide (value = EmptyString)
  then (EmptyString, Some (NewValidation ("missing required query parameter: " +:+ paramName) []))
  else (value, None).
Definition ValidateHeaderParam (r : Auth.Request) (headerName : string) : string * option BaseDxError :=
  let value := hdr_get (req_Header r) headerName in
  if bool_decide (value = EmptyString)
  then (EmptyString, Some (NewValidation ("missing required header: " +:+ headerName) []))
  else (value, None).
End validator.

(** ** The patterns, read *)

Definition letters : list (Z * Z) := [(97, 122); (65, 90)].
Definition points (s : string) : list (Z * Z) := map (fun b => (b, b)) (bytes s).
Definition local_cls : cls := mkCls false (letters ++ [(48, 57)] ++ points "._%+-").
Definition host_cls : cls := mkCls false (letters ++ [(48, 57)] ++ points ".-").
Definition lit (c : ascii) : regex := RCls (mkCls false [(byte_of c, byte_of c)]).
Definition hex_cls : cls := mkCls false [(48, 57); (97, 102)].

Lemma emailPattern_parsed : parse_regexp emailPattern =
  Some (RCat (plus_re (RCls local_cls)) (RCat (lit "@") (RCat (plus_re (RCls host_cls))
         (RCat (lit ".") (RCat (at_least 2 (RCls (mkCls false letters))) REps))))).
Proof. vm_compute. reflexivity. Qed.
Definition uuid_classes : list cls :=
  let dash := mkCls false (points "-") in
  repeat hex_cls 8 ++ dash :: repeat hex_cls 4 ++ dash :: mkCls false [(49, 56)] :: repeat hex_cls 3
  ++ dash :: mkCls false (points "89ab") :: repeat hex_cls 3 ++ dash :: repeat hex_cls 12.
Lemma uuidPattern_parsed : flat <$> parse_regexp uuidPattern = Some (Some uuid_classes).
Proof. vm_compute. reflexivity. Qed.

Definition no_space_cls : cls := mkCls true space_ranges.
Definition host_start_cls : cls := mkCls true (space_ranges ++ points "/$.?#").
Definition lits (s : string) (a : regex) : regex := foldr (fun c a => RCat (lit c) a) a (String.list_ascii_of_string s).
Lemma urlPattern_parsed : parse_regexp urlPattern =
  Some (lits "http" (RCat (RAlt (lit "s") REps) (lits "://"
         (RCat (RCls host_start_cls) (RCat (RCls (mkCls true [(10, 10)])) (RCat (RStar (RCls no_space_cls)) REps)))))).
Proof. vm_compute. reflexivity. Qed.

Definition phone_cls : cls := mkCls false (digit_ranges ++ space_ranges ++ points "-+()").
Lemma phonePattern_parsed : parse_regexp phonePattern = Some (RCat (at_least 10 (RCls phone_cls)) REps).
Proof. vm_compute. reflexivity. Qed.

(** ** What the checks accept *)

Definition all_bytes (P : Z -> bool) (s : string) : Prop := Forall (fun b => P b = true) (bytes s).

Definition letter (b : Z) : bool := within 97 122 b || within 65 90 b.
Definition digit (b : Z) : bool := within 48 57 b.
Definition among (s : string) (b : Z) : bool := existsb (Z.eqb b) (bytes s).

(** local@host.tld *)
Definition email_form (v : string) : Prop :=
  exists l h t, v = l +:+ "@" +:+ h +:+ "." +:+ t /\ l <> EmptyString /\ h <> EmptyString /\ (2 <= String.length t)%nat
    /\ all_bytes (fun b => letter b || digit b || among "._%+-" b) l
    /\ all_bytes (fun b => letter b || digit b || among ".-" b) h /\ all_bytes letter t.

(** A UUID as 36 bytes: hexadecimal digits of either case, the hyphens, the version and the variant. *)
Definition hex (b : Z) : bool := within 48 57 b || within 97 102 b || within 65 70 b.
Definition hyphen (b : Z) : bool := b =? 45.
Definition version (b : Z) : bool := within 49 56 b.
Definition variant (b : Z) : bool := (b =? 56) || (b =? 57) || (b =? 97) || (b =? 98) || (b =? 65) || (b =? 66).
Definition uuid_template : list (Z -> bool) :=
  repeat hex 8 ++ hyphen :: repeat hex 4 ++ hyphen :: version :: repeat hex 3 ++ hyphen :: variant :: repeat hex 3
  ++ hyphen :: repeat hex 12.
Definition uuid_form (v : string) : Prop := Forall2 (fun P b => P b = true) uuid_template (bytes v).

Definition url_form (v : string) : Prop :=
  exists scheme a b rest, runes v = bytes scheme ++ [a; b] ++ rest /\ (scheme = "http://" \/ scheme = "https://")
    /\ in_cls host_start_cls a = true /\ b <> 10 /\ Forall (fun r => in_cls no_space_cls r = true) rest.

Definition phone_form (v : string) : Prop :=
  let rest := remove_spaces v in
  (10 <= String.length rest)%nat /\ all_bytes (fun b => digit b || among "-+()" b || (b =? 9) || (b =? 10) || (b =? 12) || (b =? 13)) rest.

(** ** Texts and their bytes *)

(** Evaluate the codes of literal characters. *)
Ltac eval_bytes :=
  repeat match goal with
  | |- context [byte_of ?c] => let z := eval vm_compute in (byte_of c) in change (byte_of c) with z
  end.

Lemma bytes_split v l1 l2 : bytes v = l1 ++ l2 -> exists v1 v2, v = v1 +:+ v2 /\ bytes v1 = l1 /\ bytes v2 = l2.
Proof.
  revert l1. induction v as [|c v IH]; intros l1 Hv.
  - apply symmetry, app_nil in Hv as [-> ->]. by exists EmptyString, EmptyString.
  - destruct l1 as [|b l1]; [by exists EmptyString, (String c v)|].
    unfold bytes in Hv. cbn in Hv. injection Hv as Hb Hv. destruct (IH l1 Hv) as (v1 & v2 & -> & H1 & H2).
    exists (String c v1), v2. rewrite app_String. unfold bytes in *. cbn. by rewrite H1, Hb.
Qed.
Lemma bytes_length v : length (bytes v) = String.length v.
Proof. unfold bytes. induction v as [|c v IH]; [done|]. cbn in *. by rewrite IH. Qed.
Lemma bytes_nil v : bytes v = [] <-> v = EmptyString.
Proof. split; [by destruct v|by intros ->]. Qed.
Lemma bytes_inj v w : bytes v = bytes w -> v = w.
Proof.
  revert w. induction v as [|c v IH]; intros [|d w] Hv; try done. unfold bytes in *. cbn in *. injection Hv as Hc Hv.
  rewrite (IH _ Hv), <- (ascii_of_byte_of c), <- (ascii_of_byte_of d), Hc. done.
Qed.

(** A class of ASCII characters only. *)
Definition ascii_cls (c : cls) : bool := negb (neg c) && forallb (fun '(lo, hi) => hi <? 128) (ranges c).
Lemma in_ascii_cls c r : ascii_cls c = true -> in_cls c r = true -> r < 128.
Proof.
  unfold ascii_cls, in_cls. intros Hc Hr. bools. rewrite H in Hr. cbn in Hr.
  apply existsb_exists in Hr as ([lo hi] & Hin & Hr). bools.
  pose proof (proj1 (forallb_forall _ _) H0 _ Hin) as Hhi. cbn in Hhi. bools. lia.
Qed.
Lemma Forall_ascii_cls c l : ascii_cls c = true -> Forall (fun r => in_cls c r = true) l -> Forall (fun r => r < 128) l.
Proof. intros Hc Hl. eapply Forall_impl; [exact Hl|]. intros r. by apply in_ascii_cls. Qed.

Lemma matches_lit c s : matches (lit c) s <-> s = [byte_of c].
Proof.
  unfold lit. rewrite matches_cls. split; [|intros ->; eexists; split; [done|]; unfold in_cls; cbn; by rewrite Z.leb_refl].
  intros (r & -> & Hr). unfold in_cls in Hr. cbn in Hr. rewrite orb_false_r in Hr. bools. f_equal. lia.
Qed.
Lemma matches_lits w a s : matches (lits w a) s <-> exists t, s = bytes w ++ t /\ matches a t.
Proof.
  revert s. induction w as [|c w IH]; intros s; [cbn; naive_solver|].
  change (lits (String c w) a) with (RCat (lit c) (lits w a)). rewrite matches_cat.
  setoid_rewrite matches_lit. setoid_rewrite IH. unfold bytes. cbn. naive_solver.
Qed.
Lemma matches_cat_eps a s : matches (RCat a REps) s <-> matches a s.
Proof.
  rewrite matches_cat. split; [intros (u & v & -> & ? & ->%matches_eps); by rewrite app_nil_r|].
  intros Hs. exists s, []. rewrite app_nil_r. by repeat constructor.
Qed.

Section accepted.
Context `{RegexpLib}.

Lemma pattern_accepts p a rs : parse_regexp p = Some a -> pattern_fails p rs = false <-> matches a rs.
Proof. intros Hp. unfold pattern_fails, Compile. rewrite Hp, negb_false_iff. apply re_match_spec. Qed.

(** The classes of the patterns, character by character. *)
Ltac by_codes := intros r; unfold in_cls, points, bytes, letter, digit, among, bytes, within; cbn; eval_bytes; lia.
Lemma local_chars : forall r, in_cls local_cls r = letter r || digit r || among "._%+-" r.
Proof. by_codes. Qed.
Lemma host_chars : forall r, in_cls host_cls r = letter r || digit r || among ".-" r.
Proof. by_codes. Qed.
Lemma letter_chars : forall r, in_cls (mkCls false letters) r = letter r.
Proof. by_codes. Qed.
Lemma phone_chars : forall r,
  in_cls phone_cls r = digit r || among "-+()" r || (r =? 9) || (r =? 10) || (r =? 12) || (r =? 13) || (r =? 32).
Proof. by_codes. Qed.
Lemma all_bytes_iff (P Q : Z -> bool) s : (forall r, P r = Q r) -> all_bytes P s <-> all_bytes Q s.
Proof. intros HPQ. unfold all_bytes. by setoid_rewrite HPQ. Qed.

Definition email_classes (v : string) : Prop :=
  exists l h t, v = l +:+ "@" +:+ h +:+ "." +:+ t /\ l <> EmptyString /\ h <> EmptyString /\ (2 <= String.length t)%nat
    /\ all_bytes (in_cls local_cls) l /\ all_bytes (in_cls host_cls) h /\ all_bytes (in_cls (mkCls false letters)) t.
Lemma email_classes_form v : email_classes v <-> email_form v.
Proof.
  unfold email_classes, email_form. setoid_rewrite (all_bytes_iff _ _ _ local_chars).
  setoid_rewrite (all_bytes_iff _ _ _ host_chars). by setoid_rewrite (all_bytes_iff _ _ _ letter_chars).
Qed.

Lemma email_accepts v : pattern_fails emailPattern (runes v) = false <-> email_form v.
Proof.
  rewrite <- email_classes_form.
  rewrite (pattern_accepts _ _ _ emailPattern_parsed), matches_cat. setoid_rewrite plus_cls.
  setoid_rewrite matches_cat. setoid_rewrite matches_lit. setoid_rewrite matches_cat. setoid_rewrite plus_cls.
  setoid_rewrite matches_cat. setoid_rewrite matches_lit. setoid_rewrite matches_cat_eps. setoid_rewrite at_least_cls.
  split.
  - intros (l & r1 & Hv & [Hl1 Hl2] & ? & r2 & -> & -> & h & r3 & -> & [Hh1 Hh2] & ? & t & -> & -> & Ht1 & Ht2).
    assert (Hr : runes v = bytes v).
    { apply runes_ascii. left. rewrite Hv, !Forall_app. repeat split; try (by repeat constructor);
        (eapply Forall_ascii_cls; [|done]; done). }
    rewrite Hr in Hv. apply bytes_split in Hv as (vl & v1 & -> & <- & Hv).
    apply bytes_split in Hv as (va & v2 & -> & Ha & Hv). apply bytes_split in Hv as (vh & v3 & -> & <- & Hv).
    apply bytes_split in Hv as (vd & vt & -> & Hd & <-).
    exists vl, vh, vt. rewrite (bytes_inj va "@"), (bytes_inj vd ".") by done. rewrite bytes_nil in Hl1, Hh1.
    rewrite bytes_length in Ht1. by repeat split.
  - intros (l & h & t & -> & Hl1 & Hh1 & Ht1 & Hl2 & Hh2 & Ht2).
    rewrite runes_ascii.
    + exists (bytes l), (bytes "@" ++ bytes h ++ bytes "." ++ bytes t). rewrite !bytes_app, bytes_nil.
      repeat split; try done. do 2 eexists. repeat split; try done.
      exists (bytes h), (bytes "." ++ bytes t). rewrite bytes_nil. repeat split; try done.
      do 2 eexists. repeat split; try done. by rewrite bytes_length.
    + right. rewrite !bytes_app, !Forall_app. repeat split; try (by repeat constructor);
        (eapply Forall_ascii_cls; [|done]; done).
Qed.

(** A class without i and k on lower-cased runes is the class of both cases. *)
Lemma class_lower c (P : Z -> bool) r :
  (forall r, (in_cls c r = true -> r < 128 /\ r <> 105 /\ r <> 107)
             /\ (P r = true <-> (65 <= r <= 90 /\ in_cls c (r + 32) = true) \/ (~ 65 <= r <= 90 /\ in_cls c r = true))) ->
  in_cls c (rune_lower r) = true <-> P r = true.
Proof.
  intros Hc. rewrite (proj2 (Hc r)). unfold rune_lower, within. destruct ((65 <=? r) && (r <=? 90)) eqn:Hu.
  { bools. split; [by left|]. intros [[_ ?]|[? _]]; [done|lia]. }
  assert (~ 65 <= r <= 90) by lia. destruct (r <? 128) eqn:Hr; bools.
  { split; [by right|]. intros [[? _]|[_ ?]]; [lia|done]. }
  split.
  - intros Hin. destruct (proj1 (Hc _) Hin) as (? & ? & ?). pose proof (lower_high r Hr). lia.
  - intros [[? _]|[_ Hin]]; [lia|]. apply Hc in Hin. lia.
Qed.

(** The classes of the UUID pattern on lower-cased runes are the bytes of the template. *)
Lemma uuid_classes_template :
  Forall2 (fun c P => forall r, in_cls c (rune_lower r) = true <-> P r = true) uuid_classes uuid_template.
Proof.
  unfold uuid_classes, uuid_template. cbn [repeat app].
  repeat (apply Forall2_cons_2; [intros r|]); [..|apply Forall2_nil_2]; apply class_lower; clear r; intros r;
    unfold in_cls, hex, hyphen, version, variant, points, bytes, within; cbn; eval_bytes; lia.
Qed.
Lemma uuid_template_ascii : Forall (fun P => forall r, P r = true -> r < 128) uuid_template.
Proof. repeat constructor; intros r; unfold hex, hyphen, version, variant, within; lia. Qed.

Lemma Forall2_classes cs Ps l :
  Forall2 (fun c P => forall r, in_cls c (rune_lower r) = true <-> P r = true) cs Ps ->
  Forall2 (fun c r => in_cls c r = true) cs (map rune_lower l) <-> Forall2 (fun (P : Z -> bool) r => P r = true) Ps l.
Proof.
  intros Hcs. revert l. induction Hcs as [|c P cs Ps Hc _ IH]; intros [|r l]; cbn.
  - by split; constructor.
  - split; by inversion 1.
  - split; by inversion 1.
  - rewrite !Forall2_cons, IH. by rewrite Hc.
Qed.
Lemma Forall2_ascii (Ps : list (Z -> bool)) l :
  Forall (fun P => forall r, P r = true -> r < 128) Ps -> Forall2 (fun P r => P r = true) Ps l -> Forall (fun r => r < 128) l.
Proof.
  intros HP Hl. revert HP. induction Hl as [|P r Ps l Hr _ IH]; [constructor|].
  intros [HP HPs]%Forall_cons. constructor; auto.
Qed.

Lemma uuid_accepts v : pattern_fails uuidPattern (map rune_lower (runes v)) = false <-> uuid_form v.
Proof.
  destruct (parse_regexp uuidPattern) as [a|] eqn:Ha; [|pose proof uuidPattern_parsed as Hp; by rewrite Ha in Hp].
  pose proof uuidPattern_parsed as Hp. rewrite Ha in Hp. injection Hp as Hp.
  rewrite (pattern_accepts _ _ _ Ha), (flat_matches _ _ _ Hp), (Forall2_classes _ _ _ uuid_classes_template).
  unfold uuid_form. split; intros Hv; pose proof (Forall2_ascii _ _ uuid_template_ascii Hv).
  - rewrite <- runes_ascii; auto.
  - rewrite runes_ascii; auto.
Qed.

Lemma url_accepts v : pattern_fails urlPattern (runes v) = false <-> url_form v.
Proof.
  rewrite (pattern_accepts _ _ _ urlPattern_parsed), matches_lits. setoid_rewrite matches_cat.
  setoid_rewrite matches_alt. setoid_rewrite matches_lit. setoid_rewrite matches_eps. setoid_rewrite matches_lits.
  setoid_rewrite matches_cat. setoid_rewrite matches_cls. setoid_rewrite matches_cat. setoid_rewrite matches_cls.
  setoid_rewrite matches_cat_eps. setoid_rewrite star_cls. split.
  - intros (t1 & Hv & s & t2 & -> & Hs & t3 & -> & ? & t4 & -> & (a & -> & Ha) & ? & rest & -> & (b & -> & Hb) & Hrest).
    exists (if bool_decide (s = []) then "http://" else "https://"), a, b, rest. repeat split; [|by case_bool_decide; auto|done| |done].
    + rewrite Hv. destruct Hs as [->| ->]; done.
    + intros ->. done.
  - intros (scheme & a & b & rest & Hv & Hs & Ha & Hb & Hrest). exists (skipn 4 (bytes scheme) ++ [a; b] ++ rest).
    split; [rewrite Hv; by destruct Hs as [->| ->]|].
    exists (if bool_decide (scheme = "http://") then [] else [byte_of "s"]), (bytes "://" ++ [a; b] ++ rest).
    split; [by destruct Hs as [->| ->]|]. split; [case_bool_decide; auto|].
    exists ([a; b] ++ rest). split; [done|]. exists [a], (b :: rest). split; [done|]. split; [by exists a|].
    exists [b], rest. split; [done|]. split; [|done]. exists b. split; [done|].
    change (negb ((10 <=? b) && (b <=? 10) || false) = true). lia.
Qed.

Lemma no_spaces v : Forall (fun b => b <> 32) (bytes (remove_spaces v)).
Proof.
  unfold bytes. induction v as [|c v IH]; [constructor|]. cbn [remove_spaces]. destruct (Ascii.eqb_spec c " ") as [|Hc]; [done|].
  cbn. constructor; [|done]. intros Hb. apply Hc. rewrite <- (ascii_of_byte_of c), Hb. done.
Qed.

Lemma phone_accepts v : pattern_fails phonePattern (runes (remove_spaces v)) = false <-> phone_form v.
Proof.
  rewrite (pattern_accepts _ _ _ phonePattern_parsed), matches_cat_eps, at_least_cls. unfold phone_form, all_bytes. cbv zeta.
  pose proof (no_spaces v) as Hns. rewrite Forall_forall in Hns.
  assert (Hcls : Forall (fun b => in_cls phone_cls b = true) (bytes (remove_spaces v))
    <-> Forall (fun b => digit b || among "-+()" b || (b =? 9) || (b =? 10) || (b =? 12) || (b =? 13) = true) (bytes (remove_spaces v))).
  { rewrite !Forall_forall. split; intros Hb b Hin; specialize (Hb b Hin); rewrite phone_chars in *; [|by rewrite Hb].
    destruct (b =? 32) eqn:E; [apply Z.eqb_eq in E; by destruct (Hns b Hin)|by rewrite orb_false_r in Hb]. }
  rewrite <- Hcls. split; intros [Hl Ha]; pose proof (Forall_ascii_cls phone_cls _ eq_refl Ha).
  - rewrite runes_ascii, bytes_length in * by auto. done.
  - rewrite runes_ascii, bytes_length by auto. done.
Qed.
End accepted.

(** ** Chains of rules *)

(** What a caller demands of a string or an integer, and the options that say so. *)
Record demand := mkDemand { d_min : option Z; d_max : option Z; d_like : option string; d_among : list string }.
Definition any_string : demand := mkDemand None None None [].
Definition when {A B} (f : A -> B) (o : option A) : list B := match o with Some a => [f a] | None => [] end.
Definition string_options (d : demand) : list StringOption :=
  when MinLen (d_min d) ++ when MaxLen (d_max d) ++ when Pattern (d_like d)
  ++ match d_among d with [] => [] | vs => [OneOf vs] end.
Definition int_options (lo hi : option Z) : list IntOption := when Min lo ++ when Max hi.

(** One call of a chain. *)
Inductive rule :=
| RString (field value : string) (d : demand)
| REmail (field value : string) | RUUID (field value : string) | RPhone (field value : string)
| RInteger (field : string) (value : Z) (lo hi : option Z)
| RNonEmpty (field : string) (length : Z) | RCustom (field : string) (condition : bool) (message : string)
| RBoolean (field : string) (valuePtr : option bool)
| ROptionalString (field : string) (value : option string) (d : demand).

Section rules.
Context `{RegexpLib}.

Definition apply_rule (r : rule) : Validator -> Validator :=
  match r with
  | RString f v d => String_ f v (string_options d)
  | REmail f v => Email f v | RUUID f v => UUID f v | RPhone f v => Phone f v
  | RInteger f v lo hi => Integer f v (int_options lo hi)
  | RNonEmpty f n => NonEmpty f n | RCustom f c m => Custom f c m | RBoolean f p => Boolean f p
  | ROptionalString f v d => OptionalString f v (string_options d)
  end.
Definition run_rules (rules : list rule) (v : Validator) : Validator := fold_left (fun v r => apply_rule r v) rules v.

(** A pattern describes a text: as the language of its syntax, or as the library reads it. *)
Definition describes (p v : string) : Prop :=
  match parse_regexp p with
  | Some a => matches a (runes v)
  | None => exists m, compile_other p = Some m /\ m (runes v) = true
  end.
(** Patterns are not empty and compile. *)
Definition well_formed (r : rule) : Prop :=
  match r with
  | RString _ _ d | ROptionalString _ _ d => forall p, d_like d = Some p -> p <> EmptyString /\ Compile p <> None
  | _ => True
  end.

(** What a rule asks for: a string is not empty, at most 10000 characters unless said otherwise. *)
Definition string_holds (v : string) (d : demand) : Prop :=
  let characters := Z.of_nat (length (runes v)) in
  v <> EmptyString /\ (forall n, d_min d = Some n -> n <= characters) /\ characters <= default 10000 (d_max d)
  /\ (forall p, d_like d = Some p -> describes p v)
  /\ (d_among d = [] \/ v ∈ d_among d).
Definition holds (r : rule) : Prop :=
  match r with
  | RString _ v d => string_holds v d
  | REmail _ v => email_form v | RUUID _ v => uuid_form v | RPhone _ v => phone_form v
  | RInteger _ v lo hi => default (-999999999) lo <= v <= default 999999999 hi
  | RNonEmpty _ n => n <> 0 | RCustom _ c _ => c = false | RBoolean _ p => p <> None
  | ROptionalString _ v d => match v with Some v => string_holds v d | None => True end
  end.
Definition rule_field (r : rule) : string :=
  match r with
  | RString f _ _ | REmail f _ | RUUID f _ | RPhone f _ | RInteger f _ _ _ | RNonEmpty f _ | RCustom f _ _
  | RBoolean f _ | ROptionalString f _ _ => f
  end.

(** What a call may do: append messages about its field, none exactly when [P] holds. *)
Definition judges (field : string) (P : Prop) (f : Validator -> Validator) : Prop :=
  exists ms : list string, (forall v, f v = mkValidator (errors v ++ map (fun m => field +:+ ": " +:+ m) ms)) /\ (ms = [] <-> P).

Lemma judges_check field b m (P : Prop) : (b = false <-> P) -> judges field P (check b field m).
Proof.
  intros HP. exists (if b then [m] else []). rewrite <- HP. destruct b; split; try done.
  intros v. cbn. rewrite app_nil_r. by destruct v.
Qed.
Lemma judges_seq field P Q f g : judges field P f -> judges field Q g -> judges field (P /\ Q) (fun v => g (f v)).
Proof.
  intros (ms & Hf & HP) (ns & Hg & HQ). exists (ms ++ ns). split.
  - intros v. rewrite Hf, Hg. cbn. by rewrite map_app, app_assoc.
  - rewrite <- HP, <- HQ. by rewrite app_nil.
Qed.
Lemma judges_iff field P Q f g : (P <-> Q) -> (forall v, f v = g v) -> judges field P f -> judges field Q g.
Proof. intros HPQ Hfg (ms & Hf & HP). exists ms. split; [intros v; by rewrite <- Hfg|by rewrite HP]. Qed.

Lemma judges_required field (value : string) (P : Prop) f :
  (value <> EmptyString -> judges field P f) ->
  judges field (value <> EmptyString /\ P) (fun v => if bool_decide (value = EmptyString) then addError field "is required" v else f v).
Proof.
  intros Hf. case_bool_decide as Hv; [exists ["is required"]; split; [done|]; split; [done|by intros []]|].
  eapply judges_iff; [..|exact (Hf Hv)]; [tauto|done].
Qed.

Lemma judges_shaped pattern message rs field value (P : Prop) :
  (pattern_fails pattern rs = false <-> P) -> (P -> value <> EmptyString) -> judges field P (shaped pattern message rs field value).
Proof.
  intros HP Hne. eapply judges_iff; [..|apply (judges_required field value P (check (pattern_fails pattern rs) field message))];
    [tauto|done|]. intros _. by apply judges_check.
Qed.

Lemma pattern_describes p v : Compile p <> None -> pattern_fails p (runes v) = false <-> describes p v.
Proof.
  unfold describes, pattern_fails, Compile. destruct (parse_regexp p) as [a|].
  - intros _. rewrite negb_false_iff. apply re_match_spec.
  - destruct (compile_other p) as [m|]; [|done]. intros _. rewrite negb_false_iff. split; [by exists m|by intros (? & [= <-] & ?)].
Qed.

(** The options give the configuration of the demand. *)
Lemma string_options_config d :
  string_config (string_options d)
  = mkStringConfig (default 0 (d_min d)) (default 10000 (d_max d)) (default EmptyString (d_like d)) (d_among d).
Proof. by destruct d as [[] [] [] []]. Qed.

Lemma string_holds_config v d :
  (forall p, d_like d = Some p -> p <> EmptyString /\ Compile p <> None) ->
  string_holds v d <->
  v <> EmptyString
  /\ ((default 0 (d_min d) <= RuneCountInString v /\ RuneCountInString v <= default 10000 (d_max d))
      /\ (default EmptyString (d_like d) = EmptyString \/ pattern_fails (default EmptyString (d_like d)) (runes v) = false))
      /\ (d_among d = [] \/ v ∈ d_among d).
Proof.
  intros Hp. unfold string_holds. cbv zeta. change (Z.of_nat (length (runes v))) with (RuneCountInString v).
  assert (0 <= RuneCountInString v) by (unfold RuneCountInString; lia).
  assert (Hmin : (forall n, d_min d = Some n -> n <= RuneCountInString v) <-> default 0 (d_min d) <= RuneCountInString v)
    by (destruct (d_min d) as [n|]; cbn; [split; [auto|by intros ? ? [= <-]]|done]).
  assert (Hlike : (forall p, d_like d = Some p -> describes p v)
    <-> (default EmptyString (d_like d) = EmptyString \/ pattern_fails (default EmptyString (d_like d)) (runes v) = false)).
  { destruct (d_like d) as [p|]; cbn; [|split; [by left|done]]. destruct (Hp p eq_refl) as [Hne Hc].
    rewrite (pattern_describes p v Hc). split; [auto|]. by intros [?|?] ? [= <-]. }
  rewrite Hmin, Hlike. tauto.
Qed.

Lemma judges_string field value d :
  (forall p, d_like d = Some p -> p <> EmptyString /\ Compile p <> None) ->
  judges field (string_holds value d) (String_ field value (string_options d)).
Proof.
  intros Hp. unfold String_. rewrite string_options_config. cbv zeta. cbn [MinLength MaxLength cfg_Pattern cfg_OneOf].
  eapply judges_iff; [symmetry; by apply string_holds_config|reflexivity|]. apply judges_required. intros _.
  repeat (apply (judges_seq field)); apply judges_check.
  - apply Z.ltb_ge.
  - apply Z.ltb_ge.
  - rewrite andb_false_iff, negb_false_iff, bool_decide_eq_true. done.
  - rewrite andb_false_iff, !negb_false_iff, !bool_decide_eq_true. done.
Qed.

Lemma email_not_empty v : email_form v -> v <> EmptyString.
Proof. intros (l & h & t & -> & Hl & _). by destruct l. Qed.
Lemma uuid_not_empty v : uuid_form v -> v <> EmptyString.
Proof. intros Hv ->. apply Forall2_length in Hv. done. Qed.
Lemma phone_not_empty v : phone_form v -> v <> EmptyString.
Proof. intros [Hl _] ->. cbn in Hl. lia. Qed.

Lemma apply_rule_judges r : well_formed r -> judges (rule_field r) (holds r) (apply_rule r).
Proof.
  destruct r as [f v d|f v|f v|f v|f v lo hi|f n|f c m|f p|f v d]; cbn [rule_field holds apply_rule well_formed]; intros Hwf.
  - by apply judges_string.
  - apply judges_shaped; [apply email_accepts|apply email_not_empty].
  - apply judges_shaped; [apply uuid_accepts|apply uuid_not_empty].
  - apply judges_shaped; [apply phone_accepts|apply phone_not_empty].
  - unfold Integer. replace (int_config (int_options lo hi)) with (mkIntConfig (default (-999999999) lo) (default 999999999 hi))
      by by destruct lo, hi.
    apply (judges_seq f); apply judges_check; apply Z.ltb_ge.
  - apply judges_check. by rewrite Z.eqb_neq.
  - by apply judges_check.
  - apply judges_check. rewrite negb_false_iff. by destruct p.
  - destruct v as [v|]; [by apply judges_string|]. exists []. split; [|done]. intros v. cbn. rewrite app_nil_r. by destruct v.
Qed.

(** The messages of a rule are about its field. *)
Definition about_field (field message : string) : Prop := has_prefix (field +:+ ": ") message = true.
Lemma has_prefix_app p s : has_prefix p (p +:+ s) = true.
Proof. induction p as [|c p IH]; [done|]. rewrite app_String. cbn. by rewrite Ascii.eqb_refl. Qed.

Lemma run_rules_errors rules v : Forall well_formed rules -> exists mss : list (list string),
  errors (run_rules rules v) = errors v ++ concat mss
  /\ Forall2 (fun r ms => Forall (about_field (rule_field r)) ms /\ (ms = [] <-> holds r)) rules mss.
Proof.
  revert v. induction rules as [|r rules IH]; intros v Hwf; [exists []; split; [by rewrite app_nil_r|constructor]|].
  apply Forall_cons in Hwf as [Hr0 Hwf].
  destruct (apply_rule_judges r Hr0) as (ms & Hms & HP). destruct (IH (apply_rule r v) Hwf) as (mss & He & Hr).
  exists (map (fun m => rule_field r +:+ ": " +:+ m) ms :: mss). split.
  - cbn. unfold run_rules in He. rewrite He, Hms. cbn. by rewrite app_assoc.
  - constructor; [split|done].
    + apply Forall_map, Forall_true. intros m. unfold about_field. rewrite <- string_app_assoc. apply has_prefix_app.
    + rewrite <- HP. by destruct ms.
Qed.
End rules.

(** C25. A request passes ValidateRequest exactly when its body starts with a JSON value of the
    expected type and every rule of the chain holds: a string is not empty, its characters
    number from MinLen to MaxLen (10000 when not given), its Pattern describes it and it is one
    of OneOf, where given; an email is local@host.tld, a UUID 36 hexadecimal digits and hyphens
    with a version from 1 to 8 and the variant, a phone number, without its spaces, at least ten
    digits, hyphens, plus signs, parentheses or blanks; an integer is within its bounds.  Otherwise the answer is a 400 error; for a decoded request
    its details are the messages of the failed rules, all of them, in call order, each naming
    its field.  The patterns of the chain compile; chains with SkipEmpty and URL are left out. *)
Theorem ValidateRequest_exact `{RegexpLib} {T} (dec : json -> res T) (rules : T -> list rule) b :
  (forall req, Forall well_formed (rules req)) ->
  let answer := ValidateRequest dec b (fun req => run_rules (rules req) validation_New) in
  let decoded req := exists j, decode_first b = Some j /\ dec j = Ok req in
  (answer.2 = None <-> exists req, answer.1 = Some req /\ decoded req /\ Forall holds (rules req))
  /\ forall e, answer.2 = Some e -> HTTPStatus e = 400 /\
       match answer.1 with
       | None => (forall req, ~ decoded req) /\ details e = []
       | Some req => decoded req /\ ~ Forall holds (rules req) /\ exists mss, details e = concat mss
           /\ Forall2 (fun r ms => Forall (about_field (rule_field r)) ms /\ (ms = [] <-> holds r)) (rules req) mss
       end.
Proof.
  intros Hwf.
  cbv zeta. unfold ValidateRequest. destruct (decode_first b) as [j|].
  2:{ split; [split; [done|by intros (? & ? & _)]|]. intros e [= <-]. repeat split. by intros ? (? & ? & _). }
  destruct (dec j) as [req|e0] eqn:Hd.
  2:{ split; [split; [done|by intros (? & ? & _)]|]. intros e [= <-]. repeat split. intros req (j' & [= <-] & Hr). congruence. }
  destruct (run_rules_errors (rules req) validation_New (Hwf req)) as (mss & He & Hr). cbn in He.
  assert (Hall : concat mss = [] <-> Forall holds (rules req)).
  { clear He. induction Hr as [|r ms rs mss [_ Hms] _ IH]; cbn; [done|]. by rewrite app_nil, Forall_cons, Hms, IH. }
  unfold HasErrors, Errors_. rewrite He. destruct (concat mss) as [|m ms] eqn:Hc; cbn -[run_rules].
  - split; [|done]. split; [|done]. intros _. exists req. split; [done|]. split; [by exists j|]. by apply Hall.
  - split.
    + split; [done|]. intros (req' & [= <-] & _ & Ha). by apply Hall in Ha.
    + intros e [= <-]. split; [done|]. split; [by exists j|]. split; [intros Ha; by apply Hall in Ha|].
      exists mss. by rewrite Hc.
Qed.

(** A request with an id and an email, and a library that compiles nothing else. *)
#[local] Instance no_regexps : RegexpLib := {| compile_other := fun _ => None; lower_rune := fun r => r; lower_high r Hr := or_introl Hr |}.
Definition dec_pair (j : json) : res (string * string) :=
  dec_struct (fun fs => match dec_string (jfield "id" fs), dec_string (jfield "mail" fs) with
                        | Ok i, Ok e => Ok (i, e) | Err e, _ | _, Err e => Err e end) (Some j).
Definition pair_rules (p : string * string) : list rule := [RUUID "id" p.1; REmail "mail" p.2; RString "mail" p.2 (mkDemand (Some 3) (Some 12) (Some "@") [])].
Definition good_body : body := mkBody (requote "{'id': '6F9619FF-8B86-D011-842D-00C04FC964FF', 'mail': 'a@b.io'}") false.

Lemma pair_rules_ok req : Forall well_formed (pair_rules req).
Proof. repeat constructor; injection H; intros <-; discriminate. Qed.

Lemma ValidateRequest_exact_witness :
  (ValidateRequest dec_pair good_body (fun req => run_rules (pair_rules req) validation_New)).2
    = Some (NewValidation "validation failed" ["id: must be a valid UUID"])
  /\ ~ Forall holds (pair_rules ("6F9619FF-8B86-D011-842D-00C04FC964FF", "a@b.io")).
Proof.
  assert (He : (ValidateRequest dec_pair good_body (fun req => run_rules (pair_rules req) validation_New)).2
    = Some (NewValidation "validation failed" ["id: must be a valid UUID"])) by (vm_compute; reflexivity).
  split; [exact He|].
  pose proof (proj2 (proj2 (ValidateRequest_exact dec_pair pair_rules good_body pair_rules_ok) _ He)) as Hw.
  change (ValidateRequest dec_pair good_body _).1 with (Some ("6F9619FF-8B86-D011-842D-00C04FC964FF", "a@b.io")) in Hw.
  exact (proj1 (proj2 Hw)).
Defined.

(** The version digit D is outside 1-8; with a version the same request passes. *)
Example ValidateRequest_passes :
  (ValidateRequest dec_pair (mkBody (requote "{'id': '6F9619FF-8B86-4011-842D-00C04FC964FF', 'mail': 'a@b.io'} trailing") false)
     (fun req => run_rules (pair_rules req) validation_New)).2 = None.
Proof. vm_compute. reflexivity. Qed.

(** SkipEmpty does not make an empty value pass, and its empty argument makes every other value fail. *)
Example SkipEmpty_does_not_skip :
  errors (String_ "note" EmptyString [SkipEmpty EmptyString] validation_New) = ["note: is required"]
  /\ errors (String_ "note" "x" [SkipEmpty EmptyString] validation_New) = ["note: must be at most 0 characters"].
Proof. vm_compute. done. Qed.

(** The dot of the URL pattern accepts a space behind the first character of the host; a host of
    one character is rejected. *)
Example URL_samples :
  map (fun u => HasErrors (URL "u" u validation_New)) ["https://ab"; "http://a b"; "http://a"; "ftp://ab"] = [false; false; true; true].
Proof. vm_compute. done. Qed.

(** A Pattern that does not compile accepts every value. *)
Example bad_pattern_passes : HasErrors (String_ "code" "anything" [Pattern "([a-z"] validation_New) = false.
Proof. vm_compute. done. Qed.
