(* ===== verification/Response.v ===== *)
(** * Response: response — the success envelopes and the functions that write them

    A result is its JSON (or the error json.Marshal gives) together with
    whether encoding/json counts its Go value as empty, for omitempty. *)

From S2P Require Import Prelude GoStrings GoFloat Http Errors Decode Request.

Definition StatusCreated : Z := 201.
Definition StatusAccepted : Z := 202.

(** ** urn.go *)

Definition URNRsSuccess : string := "urn:dx:rs:success".
Definition URNRsCreated : string := "urn:dx:rs:created".
(** Every constant of the file, by its name. *)
Definition urns : list (string * string) :=
  [("URNRsSuccess", "urn:dx:rs:success");
   ("URNRsCreated", "urn:dx:rs:created");
   ("URNRsNotFound", "urn:dx:rs:ResourceNotFound");
   ("URNRsInvalidParam", "urn:dx:rs:InvalidParamValue");
   ("URNRsUnauthorized", "urn:dx:rs:Unauthorized");
   ("URNRsForbidden", "urn:dx:rs:Forbidden");
   ("URNRsInternal", "urn:dx:rs:InternalServerError");
   ("URNRsConflict", "urn:dx:rs:ResourceAlreadyExists");
   ("URNAsSuccess", "urn:dx:as:success");
   ("URNAsCreated", "urn:dx:as:created");
   ("URNAsUnauthorized", "urn:dx:as:Unauthorized");
   ("URNAsForbidden", "urn:dx:as:Forbidden");
   ("URNAsNotFound", "urn:dx:as:ResourceNotFound");
   ("URNAsConflict", "urn:dx:as:ResourceAlreadyExists");
   ("URNAsInternal", "urn:dx:as:InternalServerError");
   ("URNAsInvalidParam", "urn:dx:as:InvalidParamValue");
   ("URNAsTokenExpired", "urn:dx:as:TokenExpired");
   ("URNCatSuccess", "urn:dx:cat:success");
   ("URNCatCreated", "urn:dx:cat:created");
   ("URNAclSuccess", "urn:dx:acl:success");
   ("URNAclCreated", "urn:dx:acl:created");
   ("URNAuthzSuccess", "urn:dx:authz:success");
   ("URNAuthzCreated", "urn:dx:authz:created");
   ("URNDmpSuccess", "urn:dx:dmp:success");
   ("URNDmpCreated", "urn:dx:dmp:created");
   ("URNCommunitySuccess", "urn:dx:community:success");
   ("URNCommunityCreated", "urn:dx:community:created");
   ("URNCommunityNotFound", "urn:dx:community:ResourceNotFound");
   ("URNCommunityConflict", "urn:dx:community:ResourceAlreadyExists");
   ("URNCommunityForbidden", "urn:dx:community:Forbidden");
   ("URNCommunityInternal", "urn:dx:community:InternalServerError");
   ("URNFilesSuccess", "urn:dx:files:success");
   ("URNFilesCreated", "urn:dx:files:created");
   ("URNFilesNotFound", "urn:dx:files:ResourceNotFound");
   ("URNFilesConflict", "urn:dx:files:ResourceAlreadyExists");
   ("URNFilesForbidden", "urn:dx:files:Forbidden");
   ("URNFilesInternal", "urn:dx:files:InternalServerError")].
(** Every URN is urn:dx, a service and an outcome, and no two constants are the same. *)
Example urns_wellformed :
  forallb (fun '(_, u) => match split ":" u with ["urn"; "dx"; ns; what] => negb (bool_decide (ns = EmptyString)) && negb (bool_decide (what = EmptyString)) | _ => false end) urns = true
  /\ bool_decide (NoDup (map snd urns)) = true.
Proof. split; vm_compute; reflexivity. Qed.

(** ** model.go *)

Record payload := mkPayload { pl_json : res json; pl_empty : bool }.

Record DxResponse := mkResponse {
  dr_Type : string; dr_Title : string; dr_Detail : string; dr_Result : payload;
  TotalHits : option Z; dr_Limit : option Z; dr_Offset : option Z
}.
Record PaginationInfo := mkPagInfo { pi_TotalHits : Z; pi_Limit : Z; pi_Offset : Z }.
Record DxPagedResponse := mkPaged {
  dp_Type : string; dp_Title : string; dp_Detail : string; dp_Result : payload; dp_PaginationInfo : Info
}.

(** A string, a payload and a pointer to an integer with omitempty. *)
Definition opt_string (name s : string) : list (string * json) := if bool_decide (s = EmptyString) then [] else [(name, JStr s)].
Definition opt_int (name : string) (n : option Z) : list (string * json) := match n with Some n => [(name, JNum n)] | None => [] end.
Definition opt_payload (p : payload) : res (list (string * json)) :=
  if pl_empty p then Ok [] else match pl_json p with Ok j => Ok [("result", j)] | Err e => Err e end.

Definition response_json (r : DxResponse) : res json :=
  match opt_payload (dr_Result r) with
  | Err e => Err e
  | Ok result => Ok (JObj ([("type", JStr (dr_Type r)); ("title", JStr (dr_Title r))] ++ opt_string "detail" (dr_Detail r)
      ++ result ++ opt_int "totalHits" (TotalHits r) ++ opt_int "limit" (dr_Limit r) ++ opt_int "offset" (dr_Offset r)))
  end.
Definition info_json (i : Info) : json :=
  JObj [("page", JNum (i_page i)); ("size", JNum (i_size i)); ("totalCount", JNum (i_totalCount i));
        ("totalPages", JNum (i_totalPages i)); ("hasNext", JBool (i_hasNext i)); ("hasPrevious", JBool (i_hasPrevious i))].
Definition paged_json (r : DxPagedResponse) : res json :=
  match opt_payload (dp_Result r) with
  | Err e => Err e
  | Ok result => Ok (JObj ([("type", JStr (dp_Type r)); ("title", JStr (dp_Title r))] ++ opt_string "detail" (dp_Detail r)
      ++ result ++ [("paginationInfo", info_json (dp_PaginationInfo r))]))
  end.

(** ** writer.go *)

(** Encode writes the body only when all of it could be encoded; its error is discarded. *)
Definition Write (statusCode : Z) (body : res json) (w : ResponseWriter) : ResponseWriter :=
  let w := write_header statusCode (upd_header (hdr_set "Content-Type" "application/json") w) in
  match body with Ok j => write_chunk (Encoded j) w | Err _ => w end.

Definition envelope (typ title detail : string) (result : payload) : DxResponse := mkResponse typ title detail result None None None.

Definition WriteSuccess (result : payload) (title detail : string) : ResponseWriter -> ResponseWriter :=
  Write StatusOK (response_json (envelope URNRsSuccess title detail result)).
Definition WritePaginated (results : payload) (pg : PaginationInfo) (title : string) : ResponseWriter -> ResponseWriter :=
  Write StatusOK (response_json (mkResponse URNRsSuccess title EmptyString results
    (Some (pi_TotalHits pg)) (Some (pi_Limit pg)) (Some (pi_Offset pg)))).
Definition WritePaginatedInfo (results : payload) (info : Info) (title detail : string) : ResponseWriter -> ResponseWriter :=
  Write StatusOK (paged_json (mkPaged URNRsSuccess title detail results info)).
Definition WriteCreated (result : payload) (title : string) : ResponseWriter -> ResponseWriter :=
  Write StatusCreated (response_json (envelope URNRsCreated title EmptyString result)).
Definition WriteAccepted (result : payload) (title : string) : ResponseWriter -> ResponseWriter :=
  Write StatusAccepted (response_json (envelope URNRsSuccess title EmptyString result)).
Definition WriteNoContent : ResponseWriter -> ResponseWriter := write_header StatusNoContent.

Record ServiceWriter := NewServiceWriter { sw_prefix : string }.
Definition sw_Success (sw : ServiceWriter) (result : payload) (title detail : string) : ResponseWriter -> ResponseWriter :=
  Write StatusOK (response_json (envelope (sw_prefix sw +:+ "success") title detail result)).
Definition sw_PaginatedInfo (sw : ServiceWriter) (result : payload) (info : Info) (title detail : string) : ResponseWriter -> ResponseWriter :=
  Write StatusOK (paged_json (mkPaged (sw_prefix sw +:+ "success") title detail result info)).
Definition sw_Created (sw : ServiceWriter) (result : payload) (title : string) : ResponseWriter -> ResponseWriter :=
  Write StatusCreated (response_json (envelope (sw_prefix sw +:+ "created") title EmptyString result)).
Definition sw_Accepted (sw : ServiceWriter) (result : payload) (title : string) : ResponseWriter -> ResponseWriter :=
  Write StatusAccepted (response_json (envelope (sw_prefix sw +:+ "success") title EmptyString result)).
Definition sw_NoContent (sw : ServiceWriter) : ResponseWriter -> ResponseWriter := write_header StatusNoContent.

(** ** builder.go *)

Section builder.
(** The zero value of the result type. *)
Variable zero : payload.

Definition ResponseBuilder := DxResponse.
Definition rb_New : ResponseBuilder := mkResponse EmptyString EmptyString EmptyString zero None None None.
End builder.
Definition WithType (urn : string) (r : ResponseBuilder) : ResponseBuilder :=
  mkResponse urn (dr_Title r) (dr_Detail r) (dr_Result r) (TotalHits r) (dr_Limit r) (dr_Offset r).
Definition WithTitle (title : string) (r : ResponseBuilder) : ResponseBuilder :=
  mkResponse (dr_Type r) title (dr_Detail r) (dr_Result r) (TotalHits r) (dr_Limit r) (dr_Offset r).
Definition WithDetail (detail : string) (r : ResponseBuilder) : ResponseBuilder :=
  mkResponse (dr_Type r) (dr_Title r) detail (dr_Result r) (TotalHits r) (dr_Limit r) (dr_Offset r).
Definition WithResult (result : payload) (r : ResponseBuilder) : ResponseBuilder :=
  mkResponse (dr_Type r) (dr_Title r) (dr_Detail r) result (TotalHits r) (dr_Limit r) (dr_Offset r).
Definition WithPagination (pg : PaginationInfo) (r : ResponseBuilder) : ResponseBuilder :=
  mkResponse (dr_Type r) (dr_Title r) (dr_Detail r) (dr_Result r) (Some (pi_TotalHits pg)) (Some (pi_Limit pg)) (Some (pi_Offset pg)).
Definition rb_Build (r : ResponseBuilder) : DxResponse := r.

(** ** What a client reads back *)

Definition dec_info (j : option json) : res Info :=
  dec_struct (fun fs =>
    match dec_int64 (jfield "page" fs), dec_int64 (jfield "size" fs), dec_int64 (jfield "totalCount" fs),
          dec_int64 (jfield "totalPages" fs), dec_bool (jfield "hasNext" fs), dec_bool (jfield "hasPrevious" fs) with
    | Ok p, Ok s, Ok c, Ok t, Ok n, Ok v => Ok (mkInfo p s c t n v)
    | _, _, _, _, _, _ => Err json_error
    end) j.

Lemma dec_info_json i :
  int64_ok (i_page i) && int64_ok (i_size i) && int64_ok (i_totalCount i) && int64_ok (i_totalPages i) = true ->
  dec_info (Some (info_json i)) = Ok i.
Proof.
  destruct i as [p s c t n v]. cbn [i_page i_size i_totalCount i_totalPages]. intros Hi. bools.
  unfold dec_info, dec_struct, info_json. cbn [dec_fields default id i_page i_size i_totalCount i_totalPages i_hasNext i_hasPrevious].
  set (fs := [_; _; _; _; _; _]).
  change (jfield "page" fs) with (Some (JNum p)). change (jfield "size" fs) with (Some (JNum s)).
  change (jfield "totalCount" fs) with (Some (JNum c)). change (jfield "totalPages" fs) with (Some (JNum t)).
  change (jfield "hasNext" fs) with (Some (JBool n)). change (jfield "hasPrevious" fs) with (Some (JBool v)).
  cbn [dec_int64 dec_bool]. by repeat match goal with H : int64_ok _ = true |- _ => rewrite H; clear H end.
Qed.

Lemma write_new code j w : rw_sent w = None -> rw_body w = [] ->
  let w' := Write code (Ok j) w in
  rw_status w' = Some code /\ rw_body w' = [Encoded j] /\ hdr_get (rw_header w') "Content-Type" = "application/json".
Proof.
  intros Hs Hb. cbv zeta. unfold Write, write_chunk, write_header, upd_header. cbn. rewrite Hs. cbn.
  rewrite Hb. repeat split. apply hdr_get_set_eq.
Qed.

Lemma jfield_paged typ title detail result info :
  let fs := [("type", JStr typ); ("title", JStr title)] ++ opt_string "detail" detail ++ result ++ [("paginationInfo", info)] in
  (result = [] \/ exists j, result = [("result", j)]) ->
  jfield "type" fs = Some (JStr typ) /\ jfield "title" fs = Some (JStr title)
  /\ dec_string (jfield "detail" fs) = Ok detail /\ jfield "paginationInfo" fs = Some info
  /\ jfield "result" fs = alookup result "result".
Proof.
  cbv zeta. unfold opt_string. intros [->|[j ->]]; case_bool_decide; subst; by repeat split.
Qed.

(** A paged answer carries its status, its type tagged with the service's prefix, and everything
    the handler passed in, as a client decodes it. *)
Theorem PaginatedInfo_read_back prefix result info title detail w j :
  rw_sent w = None -> rw_body w = [] -> pl_json result = Ok j ->
  int64_ok (i_page info) && int64_ok (i_size info) && int64_ok (i_totalCount info) && int64_ok (i_totalPages info) = true ->
  let w' := sw_PaginatedInfo (NewServiceWriter prefix) result info title detail w in
  rw_status w' = Some 200 /\ exists fs, rw_body w' = [Encoded (JObj fs)]
  /\ dec_string (jfield "type" fs) = Ok (prefix +:+ "success") /\ dec_string (jfield "title" fs) = Ok title
  /\ dec_string (jfield "detail" fs) = Ok detail /\ dec_info (jfield "paginationInfo" fs) = Ok info
  /\ jfield "result" fs = (if pl_empty result then None else Some j).
Proof.
  intros Hs Hb Hj Hi. cbv zeta. unfold sw_PaginatedInfo, paged_json, opt_payload. cbn [dp_Result dp_Type dp_Title dp_Detail dp_PaginationInfo sw_prefix].
  rewrite Hj. set (rs := if pl_empty result then [] else [("result", j)]).
  assert (Hrs : rs = [] \/ exists j, rs = [("result", j)]) by (subst rs; destruct (pl_empty result); eauto).
  replace (if pl_empty result then Ok [] else Ok [("result", j)]) with (Ok rs) by (by subst rs; destruct (pl_empty result)).
  destruct (write_new StatusOK (JObj ([("type", JStr (prefix +:+ "success")); ("title", JStr title)]
     ++ opt_string "detail" detail ++ rs ++ [("paginationInfo", info_json info)])) w Hs Hb) as (H1 & H2 & _).
  split; [exact H1|]. eexists. split; [exact H2|].
  destruct (jfield_paged (prefix +:+ "success") title detail rs (info_json info) Hrs) as (-> & -> & -> & -> & ->).
  repeat split; [|by subst rs; destruct (pl_empty result)].
  by apply dec_info_json.
Qed.

(** The builder assembles what WritePaginated sends. *)
Lemma builder_WritePaginated zero results pg title w :
  WritePaginated results pg title w
  = Write StatusOK (response_json (rb_Build (WithPagination pg (WithResult results (WithTitle title (WithType URNRsSuccess (rb_New zero))))))) w.
Proof. done. Qed.

(** A result that cannot be encoded is answered with the success status and no body. *)
Example unencodable_is_empty_200 :
  let w := WriteSuccess (mkPayload (Err (NewErr "json: unsupported value: NaN")) false) "ok" EmptyString new_writer in
  rw_status w = Some 200 /\ rw_body w = [].
Proof. done. Qed.
