(* ===== verification/Middleware.v ===== *)
(** * Middleware: middleware — the layers around a handler

    http.ResponseWriter is an interface, [writer S] here: its methods over a
    state [S], so that the writers the middlewares wrap are built from the one
    they are given.  What a handler does to its writer is the list of calls it
    makes, and it may end in a panic.  Middlewares that only pass a request on
    change the request, the writer or the world and call the next layer. *)

From S2P Require Import Prelude GoStrings GoFloat Http Json Errors Auth Regexp.

(** ** Requests, writers and handlers *)

Record hreq := mkHReq {
  Method : string; Path : string; hr_Header : headers; RemoteAddr : string;
  hr_Body : body; hr_user : option DxUser; hr_requestID : option string     (* values of the context *)
}.

Record writer (S : Type) := mkWriter {
  w_Header : S -> headers;
  w_updHeader : (headers -> headers) -> S -> S;      (* changes made through w.Header() *)
  w_WriteHeader : Z -> S -> S;
  w_Write : chunk -> S -> S
}.
Arguments mkWriter {S}. Arguments w_Header {S}. Arguments w_updHeader {S}. Arguments w_WriteHeader {S}. Arguments w_Write {S}.

(** The server's own writer. *)
Definition base_writer : writer ResponseWriter := mkWriter rw_header upd_header write_header write_chunk.

Inductive call := CSet (k v : string) | CAdd (k v : string) | CDel (k : string) | CWriteHeader (code : Z) | CWrite (c : chunk).
Definition do_call {S} (wr : writer S) (s : S) (c : call) : S :=
  match c with
  | CSet k v => w_updHeader wr (hdr_set k v) s
  | CAdd k v => w_updHeader wr (hdr_add k v) s
  | CDel k => w_updHeader wr (hdr_del k) s
  | CWriteHeader code => w_WriteHeader wr code s
  | CWrite b => w_Write wr b s
  end.
Definition run_calls {S} (wr : writer S) (cs : list call) (s : S) : S := fold_left (do_call wr) cs s.

(** dxerrors.WriteError, on any writer. *)
Definition error_calls (e : BaseDxError) : list call :=
  [CSet "Content-Type" "application/json"; CWriteHeader (HTTPStatus e);
   CWrite (Encoded (encode_error_response (mkErrResp (URN e) (Title e) (message e) (details e))))].

Lemma error_calls_WriteError e w : run_calls base_writer (error_calls e) w = WriteError e w.
Proof. done. Qed.

Definition mhandler (W : Type) := forall S : Type, writer S -> hreq -> S -> W -> S * W * option panicv.
Definition mware (W : Type) := mhandler W -> mhandler W.
Definition leaf {W} (h : hreq -> list call * option panicv) : mhandler W := fun S wr r s w =>
  let '(cs, p) := h r in (run_calls wr cs s, w, p).

(** What the layers log, and the world they need: the clock, uuid.NewString and the log. *)
Inductive log_entry :=
| LogRequest (method path : string) (status duration bytes : Z) (request_id remote : string)
| LogPanic (p : panicv) (method path request_id : string).
Class MwWorld (W : Type) := {
  mw_now : W -> Z;
  new_uuid : W -> string * W;
  mw_log : log_entry -> W -> W
}.

(** ** requestid.go *)

Definition RequestIDFromCtx (r : hreq) : string := default EmptyString (hr_requestID r).
Definition GetUserFromCtx (r : hreq) : option DxUser := hr_user r.
Definition with_request_id (r : hreq) (id : string) : hreq :=
  mkHReq (Method r) (Path r) (hr_Header r) (RemoteAddr r) (hr_Body r) (hr_user r) (Some id).

Definition RequestID {W} `{MwWorld W} : mware W := fun next S wr r s w =>
  let id := hdr_get (hr_Header r) "X-Request-ID" in
  let '(id, w) := if bool_decide (id = EmptyString) then new_uuid w else (id, w) in
  let s := w_updHeader wr (hdr_set "X-Request-ID" id) s in
  next S wr (with_request_id r id) s w.

(** ** logging.go *)

Section rendering.
(** The text json.Encoder writes. *)
Variable render : json -> string.
Definition chunk_text (c : chunk) : string := match c with Raw s => s | Encoded j => render j end.
Definition body_string (cs : list chunk) : string := fold_right (fun c s => chunk_text c +:+ s) EmptyString cs.

(** responseWriter: the last status passed to WriteHeader and the bytes written. *)
Definition responseWriter {S} (wr : writer S) : writer (S * (Z * Z)) := {|
  w_Header s := w_Header wr s.1;
  w_updHeader f s := (w_updHeader wr f s.1, s.2);
  w_WriteHeader code s := (w_WriteHeader wr code s.1, (code, s.2.2));
  w_Write c s := (w_Write wr c s.1, (s.2.1, s.2.2 + Z.of_nat (String.length (chunk_text c))))
|}.

Definition Logger {W} `{MwWorld W} : mware W := fun next S wr r s w =>
  let start := mw_now w in
  let '(s, (status, bytes), w, p) := next _ (responseWriter wr) r (s, (200, 0)) w in
  match p with
  | Some p => (s, w, Some p)
  | None => (s, mw_log (LogRequest (Method r) (Path r) status (mw_now w - start) bytes (RequestIDFromCtx r) (RemoteAddr r)) w, None)
  end.

(** ** recovery.go *)

Definition Recovery {W} `{MwWorld W} : mware W := fun next S wr r s w =>
  match next S wr r s w with
  | (s, w, None) => (s, w, None)
  | (s, w, Some p) => (run_calls wr (error_calls (NewInternal "internal server error" [])) s,
                       mw_log (LogPanic p (Method r) (Path r) (RequestIDFromCtx r)) w, None)
  end.

(** ** cors.go *)

Record CORSConfig := mkCORS { AllowedOrigins : list string; AllowedMethods : list string; AllowedHeaders : list string; MaxAge : Z }.
Definition DefaultCORSConfig : CORSConfig :=
  mkCORS ["*"] ["GET"; "POST"; "PUT"; "PATCH"; "DELETE"; "OPTIONS"] ["Accept"; "Authorization"; "Content-Type"; "X-Request-ID"] 86400.

Definition allowedOrigin (cfg : CORSConfig) (origin : string) : string :=
  default EmptyString (List.find (fun o => bool_decide (o = "*") || bool_decide (o = origin)) (AllowedOrigins cfg)).

Definition cors_calls (cfg : CORSConfig) (r : hreq) : list call :=
  let allowed := allowedOrigin cfg (hdr_get (hr_Header r) "Origin") in
  (if bool_decide (allowed = EmptyString) then []
   else CSet "Access-Control-Allow-Origin" allowed :: if bool_decide (allowed = "*") then [] else [CAdd "Vary" "Origin"])
  ++ [CSet "Access-Control-Allow-Methods" (join ", " (AllowedMethods cfg));
      CSet "Access-Control-Allow-Headers" (join ", " (AllowedHeaders cfg))]
  ++ (if 0 <? MaxAge cfg then [CSet "Access-Control-Max-Age" (itoa (MaxAge cfg))] else []).

Definition CORS {W} (cfg : CORSConfig) : mware W := fun next S wr r s w =>
  let s := run_calls wr (cors_calls cfg r) s in
  if bool_decide (Method r = "OPTIONS") then (w_WriteHeader wr StatusNoContent s, w, None)
  else next S wr r s w.

(** ** compression.go *)

(** compress/gzip: a stream is a header, written with the first bytes, and the rest, here written when it is closed. *)
Class Gzip := { gz_header : string; gz_rest : string -> string }.
Context `{Gzip}.

(** gzip.Writer: what was written to it; None before the header went out. *)
Record gzipWriter := mkGz { gz_started : bool; gz_input : string }.
Definition gz_start {S} (wr : writer S) (s : S * gzipWriter) : S :=
  if gz_started s.2 then s.1 else w_Write wr (Raw gz_header) s.1.
Definition gz_Write {S} (wr : writer S) (c : chunk) (s : S * gzipWriter) : S * gzipWriter :=
  (gz_start wr s, mkGz true (gz_input s.2 +:+ chunk_text c)).
Definition gz_Close {S} (wr : writer S) (s : S * gzipWriter) : S := w_Write wr (Raw (gz_rest (gz_input s.2))) (gz_start wr s).

Definition gzipResponseWriter {S} (wr : writer S) : writer (S * gzipWriter) := {|
  w_Header s := w_Header wr s.1;
  w_updHeader f s := (w_updHeader wr f s.1, s.2);
  w_WriteHeader code s := (w_WriteHeader wr code s.1, s.2);
  w_Write := gz_Write wr
|}.

Definition accepts_gzip (r : hreq) : bool := contains (hdr_get (hr_Header r) "Accept-Encoding") "gzip".

(** The stream is closed by a deferred call, on a panic too. *)
Definition Compression {W} : mware W := fun next S wr r s w =>
  if negb (accepts_gzip r) then next S wr r s w
  else
    let s := w_updHeader wr (hdr_del "Content-Length") (w_updHeader wr (hdr_set "Content-Encoding" "gzip") s) in
    let '(s, w, p) := next _ (gzipResponseWriter wr) r (s, mkGz false EmptyString) w in
    (gz_Close wr s, w, p).

(** responseWriterWrapper: whether anything was written, and the gzip writer if one was started. *)
Record wrapper := mkWrap { written : bool; wr_gw : option gzipWriter }.
Definition shouldCompress (types : list string) (contentType : string) : bool := existsb (contains contentType) types.

Definition gz_on {S} (wr : writer S) (g : gzipWriter) (c : chunk) (s : S) : S * wrapper :=
  let '(s, g) := gz_Write wr c (s, g) in (s, mkWrap true (Some g)).
Definition wrapper_Write {S} (wr : writer S) (types : list string) (c : chunk) (s : S * wrapper) : S * wrapper :=
  let '(s, g) := s in
  if negb (written g) && shouldCompress types (hdr_get (w_Header wr s) "Content-Type")
  then gz_on wr (mkGz false EmptyString) c
         (w_updHeader wr (hdr_del "Content-Length") (w_updHeader wr (hdr_set "Content-Encoding" "gzip") s))
  else match wr_gw g with
       | Some gw => gz_on wr gw c s
       | None => (w_Write wr c s, mkWrap true None)
       end.
Definition responseWriterWrapper {S} (wr : writer S) (types : list string) : writer (S * wrapper) := {|
  w_Header s := w_Header wr s.1;
  w_updHeader f s := (w_updHeader wr f s.1, s.2);
  w_WriteHeader code s := (w_WriteHeader wr code s.1, s.2);
  w_Write := wrapper_Write wr types
|}.
Definition wrapper_Close {S} (wr : writer S) (s : S * wrapper) : S :=
  match wr_gw s.2 with Some g => gz_Close wr (s.1, g) | None => s.1 end.

(** Flush: the gzip stream's header goes out if it has not, what is pending is left to Close here;
    then the writer below is flushed, if it can be. *)
Definition gz_Flush {S} (wr : writer S) (s : S * gzipWriter) : S * gzipWriter := (gz_start wr s, mkGz true (gz_input s.2)).
Definition wrapper_Flush {S} (wr : writer S) (flusher : option (S -> S)) (s : S * wrapper) : S * wrapper :=
  let s := match wr_gw s.2 with
           | Some g => let '(s', g) := gz_Flush wr (s.1, g) in (s', mkWrap (written s.2) (Some g))
           | None => s
           end in
  match flusher with Some f => (f s.1, s.2) | None => s end.

Definition typesToCompress (contentTypes : list string) : list string :=
  match contentTypes with
  | [] => ["application/json"; "text/html"; "text/plain"; "text/css"; "application/javascript"]
  | _ => contentTypes
  end.
Definition SelectiveCompression {W} (contentTypes : list string) : mware W := fun next S wr r s w =>
  if negb (accepts_gzip r) then next S wr r s w
  else
    let '(s, w, p) := next _ (responseWriterWrapper wr (typesToCompress contentTypes)) r (s, mkWrap false None) w in
    match p with
    | Some p => (s.1, w, Some p)
    | None => (wrapper_Close wr s, w, None)
    end.

(** ** standard.go, tracing.go *)

(** chi's RealIP, Recoverer and Timeout and the OpenTelemetry layer are parameters. *)
Record chi_layers (W : Type) := mkChi { RealIP : mware W; Recoverer : mware W; chi_Timeout : Z -> mware W; otel : mware W }.
Arguments mkChi {W}. Arguments RealIP {W}. Arguments Recoverer {W}. Arguments chi_Timeout {W}. Arguments otel {W}.

(** Layers added with Use: the first one is the outermost. *)
Definition use_all {W} (layers : list (mware W)) (h : mhandler W) : mhandler W := fold_right (fun m h => m h) h layers.
Definition StandardStack {W} `{MwWorld W} (chi : chi_layers W) (timeout : Z) : list (mware W) :=
  [RequestID; RealIP chi; Logger; CORS DefaultCORSConfig; Compression; Recoverer chi; chi_Timeout chi timeout].
Definition WithTracing (_ : bool) : bool := true.
Definition Standard {W} `{MwWorld W} (chi : chi_layers W) (timeout : Z) (opts : list (bool -> bool)) : list (mware W) :=
  let tracing := fold_left (fun c opt => opt c) opts false in
  (if tracing then [otel chi] else []) ++ StandardStack chi timeout.
Definition MetricsHandler {W} (handler : option (mhandler W)) : mhandler W :=
  match handler with
  | Some h => h
  | None => leaf (fun _ => ([CWriteHeader StatusOK; CWrite (Raw ("# no metrics registered" +:+ String (ascii_of_byte 10) EmptyString))], None))
  end.
End rendering.

(** ** Compression loses nothing *)

Class GzipLaws `{Gzip} := {
  gunzip : string -> option string;
  gunzip_gzip s : gunzip (gz_header +:+ gz_rest s) = Some s;
  gz_header_bytes : gz_header <> EmptyString
}.

Section compression.
Context (render : json -> string) `{GzipLaws}.

(** The status and headers once the handler has returned. *)
Definition finished (w : ResponseWriter) : Z * headers := default (200, rw_header w) (rw_sent w).

(** http.DetectContentType, of the first 512 bytes. *)
Variable DetectContentType : string -> string.

(** What net/http makes of them: a status of 204 or 304 has no body and loses the headers that
    describe one; a body without a Content-Type gets the detected one, unless it is encoded; the
    answer to HEAD is sent without its body.  The framing (Content-Length, Transfer-Encoding)
    is the server's. *)
Definition body_allowed (code : Z) : bool := negb (code =? 204) && negb (code =? 304).
Definition suppressed (code : Z) (h : headers) : headers :=
  let h := delete "Content-Length" (delete "Transfer-Encoding" h) in
  if code =? 304 then delete "Content-Type" h else h.
Definition with_type (h : headers) (text : string) : headers :=
  if bool_decide (h !! "Content-Type" = None) && bool_decide (hdr_get h "Content-Encoding" = EmptyString)
     && bool_decide (hdr_get h "Transfer-Encoding" = EmptyString) && negb (bool_decide (text = EmptyString))
  then <["Content-Type" := [DetectContentType (String.substring 0 512 text)]]> h else h.
Definition on_wire (method : string) (w : ResponseWriter) : Z * headers * string :=
  let '(code, h) := finished w in
  let text := body_string render (rw_body w) in
  if body_allowed code
  then (code, with_type h text, if bool_decide (method = "HEAD") then EmptyString else text)
  else (code, suppressed code h, EmptyString).

(** The body as the client reads it; without one there is nothing to decode. *)
Definition client_body (h : headers) (text : string) : option string :=
  if bool_decide (text = EmptyString) then Some EmptyString
  else if bool_decide (hdr_get h "Content-Encoding" = "gzip") then gunzip text else Some text.

(** The keys the middleware owns. *)
Definition reserved (k : string) : bool := bool_decide (k = "Content-Encoding") || bool_decide (k = "Content-Length").
Definition final_status (c : call) : Prop := match c with CWriteHeader code => 200 <= code <= 999 | _ => True end.
Definition call_key (c : call) : string := match c with CSet k _ | CAdd k _ | CDel k => canonical_key k | _ => EmptyString end.
Definition agree (h1 h2 : headers) : Prop := (forall k, reserved k = false -> h1 !! k = h2 !! k) /\ h2 !! "Content-Encoding" = Some ["gzip"].

Lemma agree_call f k v (h1 h2 : headers) : reserved (canonical_key k) = false -> agree h1 h2 ->
  f = hdr_set k v \/ f = hdr_add k v \/ f = hdr_del k -> agree (f h1) (f h2).
Proof.
  unfold agree, hdr_set, hdr_add, hdr_del. intros Hk [Hag Hce] Hf.
  assert (canonical_key k <> "Content-Encoding") by (intros E; by rewrite E in Hk).
  assert (Hkeep : f h2 !! "Content-Encoding" = Some ["gzip"]).
  { destruct Hf as [->|[->| ->]]; by rewrite ?lookup_insert_ne, ?lookup_delete_ne. }
  split; [|done]. intros k' Hk'. destruct (decide (canonical_key k = k')) as [<-|?].
  - destruct Hf as [->|[->| ->]]; by rewrite ?lookup_insert_eq, ?lookup_delete_eq, ?(Hag _ Hk).
  - destruct Hf as [->|[->| ->]]; rewrite ?lookup_insert_ne, ?lookup_delete_ne by done; auto.
Qed.

Record simulates (w1 : ResponseWriter) (s : ResponseWriter * gzipWriter) : Prop := {
  sim_header : agree (rw_header w1) (rw_header s.1);
  sim_sent : match rw_sent w1, rw_sent s.1 with
             | None, None => True
             | Some (c1, h1), Some (c2, h2) => c1 = c2 /\ agree h1 h2
             | _, _ => False
             end;
  sim_input : body_string render (rw_body w1) = gz_input s.2;
  sim_body : rw_body s.1 = if gz_started s.2 then [Raw gz_header] else [];
  sim_started : gz_started s.2 = true -> is_Some (rw_sent s.1)
}.

Lemma body_string_app cs ds : body_string render (cs ++ ds) = body_string render cs +:+ body_string render ds.
Proof.
  induction cs as [|c cs IH]; [done|].
  change (chunk_text render c +:+ body_string render (cs ++ ds) = (chunk_text render c +:+ body_string render cs) +:+ body_string render ds).
  by rewrite IH, string_app_assoc.
Qed.

Lemma simulates_commit code w1 w2 g : simulates w1 (w2, g) -> simulates (write_header code w1) (write_header code w2, g).
Proof.
  intros [Hh Hs Hi Hb Hst]. unfold write_header. cbn in *. destruct (rw_sent w1) as [[]|] eqn:E1, (rw_sent w2) as [[]|] eqn:E2; try done.
  all: constructor; cbn; rewrite ?E1, ?E2; eauto.
Qed.

Lemma simulates_update f w1 w2 g : agree (f (rw_header w1)) (f (rw_header w2)) ->
  simulates w1 (w2, g) -> simulates (upd_header f w1) (upd_header f w2, g).
Proof. intros Hf []. by constructor. Qed.

Lemma simulates_call c w1 s : reserved (call_key c) = false -> simulates w1 s ->
  simulates (do_call base_writer w1 c) (do_call (gzipResponseWriter render base_writer) s c).
Proof.
  destruct s as [w2 g]. intros Hk Hs. destruct c as [k v|k v|k|code|b]; cbn [do_call base_writer gzipResponseWriter w_updHeader w_WriteHeader fst snd].
  - apply simulates_update; [|done]. eapply agree_call; eauto using sim_header. exact (sim_header _ _ Hs).
  - apply simulates_update; [|done]. eapply agree_call; eauto. exact (sim_header _ _ Hs).
  - apply simulates_update; [|done]. eapply (agree_call _ k EmptyString); eauto. exact (sim_header _ _ Hs).
  - by apply simulates_commit.
  - pose proof (sim_started _ _ Hs) as Hst. apply (simulates_commit 200) in Hs. destruct Hs as [Hh Hse Hi Hb _]. cbn in *.
    assert (Hin : body_string render (rw_body (write_header 200 w1) ++ [b]) = gz_input g +:+ chunk_text render b).
    { rewrite body_string_app, Hi. cbn. by rewrite app_Empty_r. }
    unfold gz_Write, gz_start. cbn. destruct (gz_started g) eqn:Hg.
    + destruct (Hst eq_refl) as [r Hr]. rewrite (write_header_sent _ _ r Hr) in *. constructor; cbn; eauto.
    + constructor; cbn; auto; [by rewrite Hb|]. intros _. destruct (rw_sent (write_header 200 w2)) eqn:E; [done|].
      unfold write_header in E. destruct (rw_sent w2) eqn:E2; cbn in E; congruence.
Qed.

Lemma simulates_calls cs w1 s : Forall (fun c => reserved (call_key c) = false) cs -> simulates w1 s ->
  simulates (run_calls base_writer cs w1) (run_calls (gzipResponseWriter render base_writer) cs s).
Proof. intros Hcs. revert w1 s. induction Hcs as [|c cs Hc _ IH]; [done|]. intros w1 s Hs. cbn. by apply IH, simulates_call. Qed.

(** Closing the stream sends the rest of it. *)
Lemma simulates_close w1 s : simulates w1 s ->
  let w2 := gz_Close base_writer s in
  (finished w2).1 = (finished w1).1 /\ agree (finished w1).2 (finished w2).2
  /\ body_string render (rw_body w2) = gz_header +:+ gz_rest (body_string render (rw_body w1)).
Proof.
  destruct s as [w2 g]. intros Hs. pose proof (simulates_commit 200 _ _ _ Hs) as Hc. cbv zeta.
  assert (Hw : gz_Close base_writer (w2, g) = mkRW (rw_header w2) (rw_sent (write_header 200 w2)) [Raw gz_header; Raw (gz_rest (gz_input g))]).
  { destruct Hs as [_ _ _ Hb Hst]. cbn in *. unfold gz_Close, gz_start, write_chunk, write_header. cbn.
    destruct w2 as [h2 sent2 b2]. cbn in *. subst b2.
    destruct (gz_started g); [destruct (Hst eq_refl) as [r Hr]; by subst|]. by destruct sent2. }
  rewrite Hw. destruct Hs as [Hh _ Hi _ _], Hc as [_ Hse _ _ _]. cbn in *. unfold finished. rewrite Hi, app_Empty_r.
  unfold write_header in Hse |- *. cbn.
  destruct w1 as [h1 [[c1 k1]|] b1], w2 as [h2 [[c2 k2]|] b2]; cbn in *; try done.
  all: destruct Hse as [Hc Ha]; try subst c2; (split; [done|]; split; [exact Ha|done]).
Qed.

(** A handler that does not touch Content-Encoding sends none. *)
Lemma plain_unencoded cs w1 : Forall (fun c => reserved (call_key c) = false) cs ->
  (finished w1).2 !! "Content-Encoding" = None /\ rw_header w1 !! "Content-Encoding" = None ->
  (finished (run_calls base_writer cs w1)).2 !! "Content-Encoding" = None.
Proof.
  intros Hcs. revert w1. induction Hcs as [|c cs Hc _ IH]; [by intros ? []|]. intros w1 Hw. apply IH. clear IH.
  assert (Hne : call_key c <> "Content-Encoding") by (intros E; by rewrite E in Hc).
  destruct w1 as [h1 sent b1], Hw as [H1 H2]. cbn in H2. unfold finished in *.
  destruct c as [k v|k v|k|code|b]; cbn in *; unfold hdr_set, hdr_add, hdr_del;
    rewrite ?lookup_insert_ne, ?lookup_delete_ne by done; destruct sent as [[]|]; cbn in *;
    rewrite ?lookup_insert_ne, ?lookup_delete_ne by done; auto.
Qed.

Lemma with_type_ne h text k : k <> "Content-Type" -> with_type h text !! k = h !! k.
Proof. intros. unfold with_type. case_match; [by rewrite lookup_insert_ne|done]. Qed.

Lemma suppressed_ext code h1 h2 k : h1 !! k = h2 !! k -> suppressed code h1 !! k = suppressed code h2 !! k.
Proof. intros E. unfold suppressed. destruct (code =? 304); rewrite !lookup_delete; by repeat case_decide. Qed.

(** Two responses that agree on the writer agree on the wire. *)
Lemma agree_wire method w1 w2 :
  (finished w2).1 = (finished w1).1 -> agree (finished w1).2 (finished w2).2 ->
  body_string render (rw_body w2) = gz_header +:+ gz_rest (body_string render (rw_body w1)) ->
  let '(c1, h1, t1) := on_wire method w1 in
  let '(c2, h2, t2) := on_wire method w2 in
  c2 = c1
  /\ (forall k, reserved k = false -> k <> "Content-Type" \/ (finished w1).2 !! k <> None -> h2 !! k = h1 !! k)
  /\ client_body h2 t2 = Some t1.
Proof.
  intros Hc [Ha He] Ht. unfold on_wire. rewrite Ht. destruct (finished w1) as [c1 h1], (finished w2) as [c2 h2]. cbn in *. subst c2.
  destruct (body_allowed c1).
  - split; [done|]. split.
    + intros k Hk Hct. destruct (decide (k = "Content-Type")) as [->|Hne]; [|by rewrite !with_type_ne by done; rewrite Ha].
      destruct Hct as [?|Hct]; [done|]. unfold with_type.
      rewrite !(bool_decide_eq_false_2 (_ = None)) by (by rewrite <- ?Ha). cbn. by rewrite Ha.
    + case_bool_decide; [done|]. unfold client_body. rewrite bool_decide_eq_false_2.
      * unfold hdr_get. change (canonical_key "Content-Encoding") with "Content-Encoding". rewrite with_type_ne, He by done. apply gunzip_gzip.
      * pose proof gz_header_bytes. by destruct gz_header.
  - split; [done|]. split; [|done]. intros k Hk _. by apply suppressed_ext; rewrite Ha.
Qed.

Lemma plain_wire method w1 : (finished w1).2 !! "Content-Encoding" = None ->
  let '(_, h, t) := on_wire method w1 in client_body h t = Some t.
Proof.
  unfold on_wire, client_body. destruct (finished w1) as [c1 h1]. cbn. intros He. destruct (body_allowed c1); [|done].
  case_bool_decide; [by do 2 f_equal|]. unfold hdr_get. change (canonical_key "Content-Encoding") with "Content-Encoding".
  by rewrite with_type_ne, He by done.
Qed.

(** C19. Compression is transparent: for a response not begun, to a handler that leaves
    Content-Encoding and Content-Length alone and sends statuses from 200 to 999, net/http puts
    the same status on the wire with the middleware as without, the same other headers (for
    Content-Type, when one was set), and a body that, decoded as Content-Encoding says, has the
    same bytes; the stream is complete on a panic too. *)
Theorem Compression_transparent {W} (h : hreq -> list call * option panicv) r w0 (w : W) :
  rw_sent w0 = None -> rw_body w0 = [] -> rw_header w0 !! "Content-Encoding" = None -> rw_header w0 !! "Content-Length" = None ->
  Forall (fun c => reserved (call_key c) = false /\ final_status c) (h r).1 ->
  let '(plain, _, p) := @leaf W h _ base_writer r w0 w in
  let '(packed, _, p') := @Compression render _ W (leaf h) _ base_writer r w0 w in
  let '(c1, h1, t1) := on_wire (Method r) plain in
  let '(c2, h2, t2) := on_wire (Method r) packed in
  p' = p /\ c2 = c1
  /\ (forall k, reserved k = false -> k <> "Content-Type" \/ (finished plain).2 !! k <> None -> h2 !! k = h1 !! k)
  /\ client_body h2 t2 = Some t1.
Proof.
  intros Hs Hb Hce Hcl Hcs. unfold Compression, leaf. destruct (h r) as [cs p]. cbn [fst] in Hcs.
  apply Forall_and in Hcs as [Hcs _]. destruct (accepts_gzip r); cbn [negb].
  - destruct (simulates_close (run_calls base_writer cs w0)
      (run_calls (gzipResponseWriter render base_writer) cs
         (upd_header (hdr_del "Content-Length") (upd_header (hdr_set "Content-Encoding" "gzip") w0), mkGz false EmptyString)))
      as (H1 & H2 & H4).
    { apply simulates_calls; [done|]. constructor; cbn; rewrite ?Hs, ?Hb; try done. unfold hdr_del, hdr_set.
      change (canonical_key "Content-Encoding") with "Content-Encoding". change (canonical_key "Content-Length") with "Content-Length".
      split; [|by rewrite lookup_delete_ne, lookup_insert_eq by done].
      intros k Hk. unfold reserved in Hk. bools. by rewrite lookup_delete_ne, lookup_insert_ne by done. }
    cbn [base_writer w_updHeader]. pose proof (agree_wire (Method r) _ _ H1 H2 H4) as Hw.
    destruct (on_wire _ (run_calls base_writer cs w0)) as [[c1 h1] t1].
    destruct (on_wire _ (gz_Close _ _)) as [[c2 h2] t2]. done.
  - pose proof (plain_wire (Method r) (run_calls base_writer cs w0)) as Hp.
    destruct (on_wire _ _) as [[c1 h1] t1]. repeat split. apply Hp, plain_unencoded; [done|]. unfold finished. by rewrite Hs.
Qed.
End compression.

(** A stand-in for the format: the text behind a mark. *)
#[local] Instance marked : Gzip := {| gz_header := "GZ:"; gz_rest s := s |}.
#[local] Program Instance marked_laws : GzipLaws := {|
  gunzip s := if has_prefix "GZ:" s then Some (drop 3 s) else None
|}.
Next Obligation. done. Qed.
Next Obligation. done. Qed.
Definition plain_text (_ : string) : string := "text/plain; charset=utf-8".
Definition some_json (_ : json) : string := "{}".
Definition get_ (headers : list (string * string)) : hreq :=
  mkHReq "GET" "/items" (fold_right (fun '(k, v) h => hdr_set k v h) ∅ headers) "10.0.0.1:99" (mkBody EmptyString false) None None.
Definition hello (_ : hreq) : list call * option panicv :=
  ([CSet "Content-Type" "text/plain"; CWriteHeader 201; CWrite (Raw "hel"); CWrite (Raw "lo")], None).

Lemma Compression_transparent_witness :
  let '(packed, _, _) := @Compression some_json _ unit (leaf hello) _ base_writer (get_ [("Accept-Encoding", "gzip, br")]) new_writer tt in
  let '(code, h, text) := on_wire some_json plain_text "GET" packed in
  text = "GZ:hello" /\ code = 201 /\ h !! "Content-Type" = Some ["text/plain"] /\ client_body h text = Some "hello".
Proof.
  pose proof (Compression_transparent some_json plain_text hello (get_ [("Accept-Encoding", "gzip, br")]) new_writer tt) as Hw.
  assert (Hc : Forall (fun c => reserved (call_key c) = false /\ final_status c) (hello (get_ [("Accept-Encoding", "gzip, br")])).1)
    by (repeat constructor; cbn; lia).
  specialize (Hw eq_refl eq_refl eq_refl eq_refl Hc). destruct Hw as (_ & H1 & H2 & H3). split; [reflexivity|].
  split; [exact H1|]. split; [|exact H3]. refine (eq_trans (H2 "Content-Type" eq_refl (or_intror _)) _); [discriminate|reflexivity].
Defined.

(** A handler that sets no Content-Type relies on net/http detecting it; with compression the
    client gets none. *)
Example Compression_untyped :
  let h _ := ([CWrite (Raw "hello")], None) in
  let r := get_ [("Accept-Encoding", "gzip")] in
  let '(plain, _, _) := @leaf unit h _ base_writer r new_writer tt in
  let '(packed, _, _) := @Compression some_json _ unit (leaf h) _ base_writer r new_writer tt in
  (on_wire some_json plain_text "GET" plain).1.2 !! "Content-Type" = Some ["text/plain; charset=utf-8"]
  /\ (on_wire some_json plain_text "GET" packed).1.2 !! "Content-Type" = None.
Proof. vm_compute. done. Qed.

(** The selective variant sets Content-Encoding at the first Write, after a handler that called
    WriteHeader has sent its headers: the client gets compressed bytes it is not told about. *)
Example SelectiveCompression_unlabelled :
  let '(packed, _, _) := @SelectiveCompression some_json _ unit [] (leaf hello) _ base_writer (get_ [("Accept-Encoding", "gzip")]) new_writer tt in
  rw_body packed = [Raw "GZ:"; Raw "hello"] /\ hdr_get (finished packed).2 "Content-Encoding" = EmptyString
  /\ (let '(_, h, text) := on_wire some_json plain_text "GET" packed in client_body h text) = Some "GZ:hello".
Proof. vm_compute. done. Qed.

(** A Content-Length the handler sets survives, with the length of the uncompressed body. *)
Example Compression_keeps_Content_Length :
  let h _ := ([CSet "Content-Length" "2"; CWrite (Raw "ok")], None) in
  let '(packed, _, _) := @Compression some_json _ unit (leaf h) _ base_writer (get_ [("Accept-Encoding", "gzip")]) new_writer tt in
  hdr_get (finished packed).2 "Content-Length" = "2" /\ body_string some_json (rw_body packed) = "GZ:ok".
Proof. vm_compute. done. Qed.

(** ** CORS *)

(** The allowed origin is one of the configured ones, and is the wildcard or the caller's. *)
Lemma allowedOrigin_listed cfg origin : allowedOrigin cfg origin <> EmptyString ->
  allowedOrigin cfg origin ∈ AllowedOrigins cfg /\ (allowedOrigin cfg origin = "*" \/ allowedOrigin cfg origin = origin).
Proof.
  unfold allowedOrigin. destruct (List.find _ _) as [o|] eqn:Hf; [|done]. intros _. cbn.
  apply List.find_some in Hf as [Hin Ho]. split; [by apply list_elem_of_In|].
  apply orb_true_iff in Ho as [?|?]; bools; auto.
Qed.

Lemma set_get_ne k k' v (h : headers) : canonical_key k <> canonical_key k' -> hdr_get (hdr_set k v h) k' = hdr_get h k'.
Proof. intros. unfold hdr_get, hdr_set. by rewrite lookup_insert_ne. Qed.

(** Without a wildcard in the configuration, a cross-origin permission is granted only to a
    listed origin and names exactly that origin; a pre-flight is answered with 204, no body and
    without running the handler. *)
Theorem CORS_grants_listed {W} cfg next r w0 (w : W) :
  rw_sent w0 = None -> hdr_get (rw_header w0) "Access-Control-Allow-Origin" = EmptyString -> "*" ∉ AllowedOrigins cfg ->
  let origin := hdr_get (hr_Header r) "Origin" in
  let granted w' := hdr_get (rw_header w') "Access-Control-Allow-Origin" in
  exists w1, granted w1 = (if bool_decide (origin ∈ AllowedOrigins cfg) then origin else EmptyString) /\ rw_sent w1 = None /\ rw_body w1 = rw_body w0
  /\ CORS cfg next _ base_writer r w0 w
     = if bool_decide (Method r = "OPTIONS") then (write_header 204 w1, w, None) else next _ base_writer r w1 w.
Proof.
  intros Hs Hg Hstar. cbv zeta. set (origin := hdr_get (hr_Header r) "Origin").
  exists (run_calls base_writer (cors_calls cfg r) w0).
  assert (Hall : allowedOrigin cfg origin = if bool_decide (origin ∈ AllowedOrigins cfg) then origin else EmptyString).
  { unfold allowedOrigin. destruct (List.find _ _) as [o|] eqn:Hf; cbn.
    - apply List.find_some in Hf as [Hin Ho]. apply list_elem_of_In in Hin.
      apply orb_true_iff in Ho as [Ho|Ho]; bools; subst; [done|]. by rewrite bool_decide_eq_true_2.
    - case_bool_decide as Hin; [|done]. apply list_elem_of_In in Hin.
      apply (List.find_none _ _ Hf) in Hin. bools. done. }
  split; [|split; [|split; [|done]]]; unfold cors_calls; fold origin; rewrite Hall.
  - destruct (bool_decide (origin ∈ AllowedOrigins cfg)) eqn:Hin; [bools|].
    + assert (origin <> "*") by (intros E; by rewrite E in Hin). rewrite (bool_decide_eq_false_2 (origin = "*")) by done.
      case_bool_decide as He; [|].
      * rewrite He. destruct (0 <? MaxAge cfg); cbn; rewrite !set_get_ne by done; exact Hg.
      * destruct (0 <? MaxAge cfg); cbn; rewrite !set_get_ne by done; unfold hdr_add, hdr_get; cbn;
          rewrite lookup_insert_ne by done; unfold hdr_set; by rewrite lookup_insert_eq.
    + change (bool_decide (EmptyString = EmptyString)) with true. destruct (0 <? MaxAge cfg); cbn; rewrite !set_get_ne by done; exact Hg.
  - destruct (bool_decide (_ ∈ _)), (0 <? MaxAge cfg); repeat case_bool_decide; cbn; done.
  - destruct (bool_decide (_ ∈ _)), (0 <? MaxAge cfg); repeat case_bool_decide; cbn; done.
Qed.

Lemma CORS_grants_listed_witness :
  let cfg := mkCORS ["https://a.example"; "https://b.example"] ["GET"] [] 0 in
  exists w1, hdr_get (rw_header w1) "Access-Control-Allow-Origin" = "https://b.example"
  /\ CORS cfg (leaf hello) _ base_writer (get_ [("Origin", "https://b.example")]) new_writer tt
     = leaf hello _ base_writer (get_ [("Origin", "https://b.example")]) w1 tt.
Proof.
  cbv zeta.
  destruct (CORS_grants_listed (mkCORS ["https://a.example"; "https://b.example"] ["GET"] [] 0) (leaf hello)
    (get_ [("Origin", "https://b.example")]) new_writer tt eq_refl eq_refl) as (w1 & H1 & _ & _ & H2);
    [apply (bool_decide_unpack _); exact I|].
  exists w1. split; [exact H1|exact H2].
Defined.
