(* ===== verification/Upload.v ===== *)
(** * Upload: middleware/upload.go — body limits and multipart validation

    Parsing a multipart form, opening an uploaded file and sniffing its type
    are parameters; the files of the form come in the order the map of fields is
    ranged over. *)

From S2P Require Import Prelude GoStrings GoFloat Http Json Errors Auth Regexp Middleware.

Record UploadConfig := mkUpload { MaxFileSize : Z; MaxMemory : Z; AllowedMimeTypes : list string }.
Definition DefaultUploadConfig : UploadConfig := mkUpload (100 * 1024 * 1024) (10 * 1024 * 1024) [].

(** http.MaxBytesReader: reading fails behind the limit. *)
Definition with_body (r : hreq) (b : body) : hreq :=
  mkHReq (Method r) (Path r) (hr_Header r) (RemoteAddr r) b (hr_user r) (hr_requestID r).
Definition max_bytes (n : Z) (b : body) : body :=
  let n := Z.max 0 n in
  if Z.of_nat (String.length (body_text b)) <=? n then b else mkBody (String.substring 0 (Z.to_nat n) (body_text b)) true.
Definition MaxUploadSize {W} (maxSize : Z) : mware W := fun next S wr r s w => next S wr (with_body r (max_bytes maxSize (hr_Body r))) s w.

(** string(rune(n)): the code point, not the number. *)
Definition wrap32 (z : Z) : Z := (z + 2 ^ 31) mod 2 ^ 32 - 2 ^ 31.
Definition rune_string (n : Z) : string := let r := wrap32 n in utf8_rune (if scalar r then r else RuneError).
Definition formatBytes (bytes : Z) : string :=
  let KB := 1024 in let MB := 1024 * KB in let GB := 1024 * MB in
  if bytes <? KB then "bytes"
  else if bytes <? MB then rune_string (bytes / KB) +:+ " KB"
  else if bytes <? GB then rune_string (bytes / MB) +:+ " MB"
  else rune_string (bytes / GB) +:+ " GB".

(** An uploaded file: Open may fail, and so may the first Read; io.EOF reads nothing. *)
Inductive read_result := ReadData (bytes : string) | ReadEOF | ReadFails (e : goerr).
Record fileHeader := mkFile { Filename : string; file_Size : Z; file_Open : res read_result }.

Section upload.
Variable DetectContentType : string -> string.
Variable ParseMultipartForm : hreq -> Z -> res (list (string * list fileHeader)).
Variable cfg : UploadConfig.

(** The 512 bytes of the buffer: what was read, and zeros behind it. *)
Fixpoint zeros (n : nat) : string := match n with O => EmptyString | S n => String (ascii_of_byte 0) (zeros n) end.
Definition buffer (read : string) : string := read +:+ zeros (512 - String.length read).

Definition too_large (f : fileHeader) : BaseDxError :=
  NewValidation ("file too large: " +:+ Filename f) ["maximum size is " +:+ formatBytes (MaxFileSize cfg)].
Definition sniffed (f : fileHeader) : res string :=
  match file_Open f with
  | Err e | Ok (ReadFails e) => Err e
  | Ok ReadEOF => Ok (DetectContentType (buffer EmptyString))
  | Ok (ReadData b) => Ok (DetectContentType (buffer b))
  end.

Definition check_file (fieldName : string) (f : fileHeader) : option BaseDxError :=
  if MaxFileSize cfg <? file_Size f then Some (too_large f)
  else match AllowedMimeTypes cfg with
       | [] => None
       | types =>
           match sniffed f with
           | Err _ => Some (NewInternal "failed to process uploaded file" [])
           | Ok mimeType =>
               if bool_decide (mimeType ∈ types) then None
               else Some (NewValidation ("invalid file type for " +:+ fieldName) ["file type " +:+ mimeType +:+ " not allowed"])
           end
       end.

(** The first error over all files of all fields. *)
Fixpoint first_error (l : list (string * fileHeader)) : option BaseDxError :=
  match l with
  | [] => None
  | (name, f) :: l => match check_file name f with Some e => Some e | None => first_error l end
  end.
Definition all_files (form : list (string * list fileHeader)) : list (string * fileHeader) :=
  concat (map (fun '(name, fs) => map (pair name) fs) form).

Definition ValidateMultipartUpload {W} : mware W := fun next S wr r s w =>
  if bool_decide (hdr_get (hr_Header r) "Content-Type" = EmptyString)
     || (negb (bool_decide (Method r = "POST")) && negb (bool_decide (Method r = "PUT")))
  then next S wr r s w
  else match ParseMultipartForm r (MaxMemory cfg) with
       | Err _ => (run_calls wr (error_calls (NewValidation "failed to parse multipart form" [])) s, w, None)
       | Ok form =>
           match first_error (all_files form) with
           | Some e => (run_calls wr (error_calls e) s, w, None)
           | None => next S wr r s w
           end
       end.

(** ** What reaches the handler *)

(** A file and its content: its size is the content's, and a read gives its first 512 bytes. *)
Definition first_bytes (content : string) : string := String.substring 0 512 content.
Definition holds_content (f : fileHeader) (content : string) : Prop :=
  file_Size f = Z.of_nat (String.length content)
  /\ match file_Open f with
     | Ok (ReadData b) => b = first_bytes content
     | Ok ReadEOF => content = EmptyString
     | _ => True
     end.
Definition opens (f : fileHeader) : Prop := exists b, file_Open f = Ok (ReadData b).

(** A file is allowed when it is within the size limit and, if types are restricted, it can be read and
    its content is of one of them. *)
Definition file_allowed (f : fileHeader) (content : string) : Prop :=
  Z.of_nat (String.length content) <= MaxFileSize cfg
  /\ (AllowedMimeTypes cfg = [] \/ opens f /\ DetectContentType (first_bytes content) ∈ AllowedMimeTypes cfg).
(** Detection sees the content alone: no zeros behind it. *)
Definition detectable (content : string) : Prop := AllowedMimeTypes cfg = [] \/ (512 <= String.length content)%nat.

Lemma substring_full_length n m s : (n + m <= String.length s)%nat -> String.length (String.substring n m s) = m.
Proof.
  revert n m. induction s as [|c s IH]; intros [|n] [|m] Hl; cbn in *; try lia; try done.
  - f_equal. apply (IH 0%nat m). lia.
  - apply (IH n 0%nat). lia.
  - apply (IH n (S m)). lia.
Qed.

Lemma buffer_full content : (512 <= String.length content)%nat -> buffer (first_bytes content) = first_bytes content.
Proof.
  intros Hl. unfold buffer. assert (String.length (first_bytes content) = 512)%nat as -> by (by apply substring_full_length).
  apply app_Empty_r.
Qed.

Lemma check_file_spec name f content :
  holds_content f content -> detectable content -> check_file name f = None <-> file_allowed f content.
Proof.
  intros [Hsz Hr] Hd. unfold check_file, file_allowed. rewrite Hsz.
  destruct (Z.ltb_spec (MaxFileSize cfg) (Z.of_nat (String.length content))); [split; [done|intros []; lia]|].
  unfold detectable in Hd. destruct (AllowedMimeTypes cfg) as [|t ts]; [split; auto|]. destruct Hd as [?|Hd]; [done|].
  unfold sniffed, opens. destruct (file_Open f) as [[b| |e]|e] eqn:Ho.
  - subst b. rewrite buffer_full by done. case_bool_decide; split; try done; [|by intros (_ & [?|[_ ?]])].
    intros _. split; [done|]. right. by eauto.
  - subst content. cbn in Hd. lia.
  - split; [done|]. by intros (_ & [?|[[? ?] _]]).
  - split; [done|]. by intros (_ & [?|[[? ?] _]]).
Qed.
Lemma first_error_spec content l :
  Forall (fun nf => holds_content nf.2 (content nf.2) /\ detectable (content nf.2)) l ->
  first_error l = None <-> Forall (fun nf => file_allowed nf.2 (content nf.2)) l.
Proof.
  induction 1 as [|[n f] l [Hc Hd] _ IH]; cbn; [done|]. rewrite Forall_cons, <- IH, <- (check_file_spec n) by done. cbn.
  destruct (check_file n f); [split; [done|by intros []]|]. tauto.
Qed.
Lemma check_file_status name f e : check_file name f = Some e -> HTTPStatus e = 400 \/ HTTPStatus e = 500.
Proof. unfold check_file. repeat case_match; intros [= <-]; auto. Qed.
Lemma first_error_status l e : first_error l = Some e -> HTTPStatus e = 400 \/ HTTPStatus e = 500.
Proof.
  induction l as [|[n f] l IH]; cbn; [done|]. destruct (check_file n f) eqn:Hf; [|exact IH].
  intros [= <-]. by eapply check_file_status.
Qed.
Lemma elem_of_all_files form name f : (name, f) ∈ all_files form <-> exists fs, (name, fs) ∈ form /\ f ∈ fs.
Proof.
  unfold all_files. rewrite !list_elem_of_In, in_concat. split.
  - intros (l & ([n fs] & <- & Hin)%in_map_iff & (x & [= -> ->] & Hx)%in_map_iff). exists fs. by rewrite !list_elem_of_In.
  - intros (fs & Hin%list_elem_of_In & Hf%list_elem_of_In). exists (map (pair name) fs).
    split; apply in_map_iff; [by exists (name, fs)|by exists f].
Qed.

(** C40. A multipart/form-data POST or PUT reaches the handler exactly when its form parses and every
    file of every field is within the size limit and, if types are restricted, can be read and
    its first 512 bytes are detected as an allowed type, whatever the order of the fields;
    otherwise it is answered with 400 or 500 and the handler does not run.  (Where types are
    restricted, for files of at least 512 bytes.) *)
Theorem ValidateMultipartUpload_enforces {W} (next : mhandler W) content r w0 (w : W) :
  rw_sent w0 = None -> has_prefix "multipart/form-data" (hdr_get (hr_Header r) "Content-Type") = true ->
  Method r = "POST" \/ Method r = "PUT" ->
  (forall form name fs f, ParseMultipartForm r (MaxMemory cfg) = Ok form -> (name, fs) ∈ form -> f ∈ fs ->
     holds_content f (content f) /\ detectable (content f)) ->
  let valid := exists form, ParseMultipartForm r (MaxMemory cfg) = Ok form
                 /\ forall name fs f, (name, fs) ∈ form -> f ∈ fs -> file_allowed f (content f) in
  let answer := ValidateMultipartUpload next _ base_writer r w0 w in
  (valid /\ answer = next _ base_writer r w0 w)
  \/ (~ valid /\ (rw_status answer.1.1 = Some 400 \/ rw_status answer.1.1 = Some 500) /\ answer.1.2 = w /\ answer.2 = None).
Proof.
  intros Hs Hct Hm Hcont. cbv zeta. unfold ValidateMultipartUpload.
  replace (_ || _) with false.
  2:{ symmetry. apply orb_false_iff. split; [apply bool_decide_eq_false; by intros E; rewrite E in Hct|].
      destruct Hm as [->| ->]; done. }
  assert (Hst : forall e, rw_status (run_calls base_writer (error_calls e) w0) = Some (HTTPStatus e)).
  { intros e. rewrite error_calls_WriteError. by apply WriteError_status. }
  destruct (ParseMultipartForm r (MaxMemory cfg)) as [form|e].
  2:{ right. split; [by intros (? & ? & _)|]. cbn [fst snd]. rewrite Hst. auto. }
  assert (Hall : first_error (all_files form) = None <-> forall name fs f, (name, fs) ∈ form -> f ∈ fs -> file_allowed f (content f)).
  { rewrite (first_error_spec content).
    - rewrite Forall_forall. split.
      + intros Hf name fs f Hn Hin. apply (Hf (name, f)). rewrite elem_of_all_files. eauto.
      + intros Hf [name f] (fs & ? & ?)%elem_of_all_files. by eapply Hf.
    - apply Forall_forall. intros [name f] (fs & ? & ?)%elem_of_all_files. by eapply Hcont. }
  destruct (first_error (all_files form)) as [e|] eqn:He.
  - right. split; [intros (? & [= <-] & Hf); by apply Hall in Hf|]. cbn [fst snd]. rewrite Hst.
    apply first_error_status in He as [->| ->]; auto.
  - left. split; [exists form; split; [done|]; by apply Hall|done].
Qed.
End upload.

(** A JSON post: the middleware is documented for multipart requests only, but a body that is not
    multipart does not parse and is refused. *)
Definition not_multipart (_ : hreq) (_ : Z) : res (list (string * list fileHeader)) :=
  Err (NewErr "request Content-Type isn't multipart/form-data").
Definition post_ (ctype : string) : hreq :=
  mkHReq "POST" "/items" (hdr_set "Content-Type" ctype ∅) "10.0.0.1:99" (mkBody EmptyString false) None None.
Example json_post_refused :
  let '(rw, _, _) := ValidateMultipartUpload (fun _ => EmptyString) not_multipart DefaultUploadConfig
                       (@leaf unit (fun _ => ([CWriteHeader 200], None))) _ base_writer (post_ "application/json") new_writer tt in
  rw_status rw = Some 400.
Proof. vm_compute. done. Qed.

(** The limit is reported as a code point: 100 MB reads "d MB". *)
Example formatBytes_code_point : formatBytes (100 * 1024 * 1024) = "d MB" /\ formatBytes 500 = "bytes".
Proof. vm_compute. done. Qed.

(** A short text file is sniffed with the zeros of the buffer behind it; content sniffing never
    reports text for a text with binary bytes, so a restriction to plain text refuses it. *)
Example short_text_refused (sniff : string -> string) :
  (forall s, contains_char (ascii_of_byte 0) s = true -> sniff s <> "text/plain; charset=utf-8") ->
  check_file sniff (mkUpload 1000 1000 ["text/plain; charset=utf-8"]) "doc" (mkFile "a.txt" 5 (Ok (ReadData "hello"))) <> None.
Proof.
  intros Hs. unfold check_file, sniffed. cbn [MaxFileSize file_Size AllowedMimeTypes file_Open Z.ltb Z.compare Pos.compare Pos.compare_cont].
  case_bool_decide as Hin; [|done]. apply list_elem_of_singleton in Hin. exfalso. revert Hin. apply Hs. by vm_compute.
Qed.

Fixpoint times (n : nat) (s : string) : string := match n with O => EmptyString | S n => s +:+ times n s end.
Definition png (n : nat) : string := "PNG" +:+ times n "....".
Definition png_file (name : string) (n : nat) : fileHeader :=
  mkFile name (Z.of_nat (String.length (png n))) (Ok (ReadData (first_bytes (png n)))).
Definition png_content (f : fileHeader) : string := if bool_decide (Filename f = "a.png") then png 200 else png 400.
Definition png_form (r : hreq) (_ : Z) : res (list (string * list fileHeader)) :=
  Ok [("photo", [png_file "a.png" 200; png_file "b.png" 400])].
Definition sniff_png (s : string) : string := if has_prefix "PNG" s then "image/png" else "application/octet-stream".

Lemma ValidateMultipartUpload_enforces_witness :
  let answer max := ValidateMultipartUpload sniff_png png_form (mkUpload max 100 ["image/png"])
      (@leaf unit (fun _ => ([CWriteHeader 201], None))) _ base_writer (post_ "multipart/form-data; boundary=x") new_writer tt in
  rw_status (answer 5000).1.1 = Some 201
  /\ (rw_status (answer 1000).1.1 = Some 400 \/ rw_status (answer 1000).1.1 = Some 500).
Proof.
  cbv zeta. split; [vm_compute; reflexivity|].
  destruct (ValidateMultipartUpload_enforces sniff_png png_form (mkUpload 1000 100 ["image/png"])
    (@leaf unit (fun _ => ([CWriteHeader 201], None))) png_content (post_ "multipart/form-data; boundary=x") new_writer tt eq_refl
    ltac:(by vm_compute) (or_introl eq_refl)) as [[(form & [= <-] & Hall) _]|(_ & H & _)]; [| |exact H].
  - intros form name fs f [= <-] [= -> ->]%list_elem_of_singleton Hf.
    apply elem_of_cons in Hf as [->|[->|[]%elem_of_nil]%elem_of_cons];
      (split; [split; vm_compute; reflexivity|right; apply Nat.leb_le; vm_compute; reflexivity]).
  - exfalso. destruct (Hall "photo" _ (png_file "b.png" 400) ltac:(by apply list_elem_of_In; left)
      ltac:(by apply list_elem_of_In; right; left)) as [Hsize _]. vm_compute in Hsize. by destruct Hsize.
Defined.
