(* ===== verification/RateLimit.v ===== *)
(** * RateLimit: middleware/ratelimit.go — token buckets per caller and per endpoint

    golang.org/x/time/rate is an interface: a limiter is a token bucket, its
    documented behaviour the laws [LimiterLaws].  Limiters are shared by
    pointer, so the registry maps keys to places of a heap.  [rstep] interleaves
    the requests of many goroutines at the points where the code takes a lock. *)

From S2P Require Import Prelude GoStrings GoFloat Http Json Errors Backoff Auth Regexp Middleware.

Class Limiters (lim : Type) := {
  NewLimiter : Z -> Z -> lim;            (* tokens per second, burst *)
  Allow : Z -> lim -> bool * lim;        (* at a time, in nanoseconds *)
  Tokens : Z -> lim -> Z                 (* whole tokens at a time *)
}.

(** A bucket of [b] tokens, full at first, refilled at [r] tokens per second; Allow takes one
    token when there is one.  [level] counts billionths of a token, so it grows by [r] a nanosecond. *)
Definition token : Z := 1000000000.
Class LimiterLaws (lim : Type) `{Limiters lim} := {
  level : lim -> Z -> Z;
  bucket : lim -> Z -> Z -> Prop;
  bucket_new r b : 0 <= r -> bucket (NewLimiter r b) r b;
  bucket_allow t l r b : bucket l r b -> bucket (Allow t l).2 r b;
  level_new r b t : 0 <= r -> level (NewLimiter r b) t = b * token;
  level_cap l r b t : bucket l r b -> level l t <= b * token;
  level_grows l r b t t' : bucket l r b -> t <= t' -> level l t' <= level l t + r * (t' - t);
  allow_true t l : (Allow t l).1 = true -> token <= level l t /\ level (Allow t l).2 t = level l t - token;
  allow_false t l : (Allow t l).1 = false -> level l t < token /\ level (Allow t l).2 t = level l t
}.

Record RateLimitConfig := mkRate { RequestsPerSecond : Z; BurstSize : Z; PerUser : bool }.
Definition normalize (cfg : RateLimitConfig) : RateLimitConfig :=
  let rps := if RequestsPerSecond cfg =? 0 then 100 else RequestsPerSecond cfg in
  mkRate rps (if BurstSize cfg =? 0 then rps else BurstSize cfg) (PerUser cfg).

Section ratelimit.
Context {lim : Type} `{Limiters lim}.

(** The registry of a RateLimiter and the limiters it points to. *)
Record RateLimiter := mkRL { rl_cfg : RateLimitConfig; limiters : gmap string nat; heap : list lim }.
Definition NewRateLimiter (cfg : RateLimitConfig) : RateLimiter := mkRL (normalize cfg) ∅ [].

(** The two critical sections of getLimiter: the lookup, and the creation, which looks again. *)
Definition find_limiter (key : string) (rl : RateLimiter) : option nat := limiters rl !! key.
Definition create_limiter (key : string) (rl : RateLimiter) : nat * RateLimiter :=
  match limiters rl !! key with
  | Some p => (p, rl)
  | None =>
      let p := length (heap rl) in
      (p, mkRL (rl_cfg rl) (<[key := p]> (limiters rl))
            (heap rl ++ [NewLimiter (RequestsPerSecond (rl_cfg rl)) (BurstSize (rl_cfg rl))]))
  end.
Definition getLimiter (key : string) (rl : RateLimiter) : nat * RateLimiter :=
  match find_limiter key rl with Some p => (p, rl) | None => create_limiter key rl end.

Definition getKey (cfg : RateLimitConfig) (r : hreq) : string :=
  let ip := hdr_get (hr_Header r) "X-Forwarded-For" in
  let by_ip := "ip:" +:+ if bool_decide (ip = EmptyString) then RemoteAddr r else ip in
  if PerUser cfg
  then match GetUserFromCtx r with
       | Some u => if bool_decide (user_ID u = EmptyString) then by_ip else "user:" +:+ user_ID u
       | None => by_ip
       end
  else by_ip.

(** Allow on the limiter at a place. *)
Definition allow_at (p : nat) (now : Z) (rl : RateLimiter) : bool * RateLimiter :=
  match heap rl !! p with
  | Some l => let '(ok, l) := Allow now l in (ok, mkRL (rl_cfg rl) (limiters rl) (<[p := l]> (heap rl)))
  | None => (false, rl)
  end.
Definition tokens_at (p : nat) (now : Z) (rl : RateLimiter) : Z := match heap rl !! p with Some l => Tokens now l | None => 0 end.

Definition too_many (cfg : RateLimitConfig) : BaseDxError :=
  NewTooManyRequests ("rate limit exceeded: " +:+ itoa (RequestsPerSecond cfg) +:+ " requests per second") [].
Definition limit_calls (cfg : RateLimitConfig) (remaining : Z) : list call :=
  [CSet "X-RateLimit-Limit" (itoa (RequestsPerSecond cfg)); CSet "X-RateLimit-Remaining" (itoa remaining)].
(** Unix seconds of a time in nanoseconds. *)
Definition unix (t : Z) : Z := t / Second.

(** Whether a request passes, and the limiter it leaves behind. *)
Definition admission (rl : RateLimiter) (r : hreq) (now : Z) : bool * Z * RateLimiter :=
  let '(p, rl) := getLimiter (getKey (rl_cfg rl) r) rl in
  let '(ok, rl) := allow_at p now rl in
  (ok, tokens_at p now rl, rl).

Definition rl_Middleware {W} `{MwWorld W} : mware (W * RateLimiter) := fun next S wr r s w =>
  let '(w, rl) := w in
  let cfg := rl_cfg rl in
  let '(ok, remaining, rl) := admission rl r (mw_now w) in
  if negb ok then (run_calls wr (error_calls (too_many cfg)) s, (w, rl), None)
  else next S wr r (run_calls wr (limit_calls cfg remaining ++ [CSet "X-RateLimit-Reset" (itoa (unix (mw_now w + Second)))]) s) (w, rl).

(** ** Per endpoint *)

Record RateLimitByEndpoint := mkByEndpoint { ep_limiters : gmap string RateLimiter; defaults : RateLimitConfig }.
Definition NewRateLimitByEndpoint (d : RateLimitConfig) : RateLimitByEndpoint := mkByEndpoint ∅ d.
Definition SetLimit (pattern : string) (cfg : RateLimitConfig) (e : RateLimitByEndpoint) : RateLimitByEndpoint :=
  mkByEndpoint (<[pattern := NewRateLimiter cfg]> (ep_limiters e)) (defaults e).

(** The limiter of a path and where it is kept: nowhere for the fresh one of an unlisted path. *)
Definition GetLimiter (path : string) (e : RateLimitByEndpoint) : RateLimiter * option string :=
  match ep_limiters e !! path with
  | Some rl => (rl, Some path)
  | None => match ep_limiters e !! "*" with
            | Some rl => (rl, Some "*")
            | None => (NewRateLimiter (defaults e), None)
            end
  end.
Definition put_back (place : option string) (rl : RateLimiter) (e : RateLimitByEndpoint) : RateLimitByEndpoint :=
  match place with Some k => mkByEndpoint (<[k := rl]> (ep_limiters e)) (defaults e) | None => e end.

Definition ep_admission (e : RateLimitByEndpoint) (r : hreq) (now : Z) : bool * Z * RateLimitByEndpoint :=
  let '(rl, place) := GetLimiter (Path r) e in
  let '(ok, remaining, rl) := admission rl r now in
  (ok, remaining, put_back place rl e).
Definition ep_Middleware {W} `{MwWorld W} : mware (W * RateLimitByEndpoint) := fun next S wr r s w =>
  let '(w, e) := w in
  let cfg := rl_cfg (GetLimiter (Path r) e).1 in
  let '(ok, remaining, e) := ep_admission e r (mw_now w) in
  if negb ok then (run_calls wr (error_calls (too_many cfg)) s, (w, e), None)
  else next S wr r (run_calls wr (limit_calls cfg remaining) s) (w, e).

(** ** Many requests at once *)

(** A request: not there, before its lookup, behind a lookup that missed, with its limiter, decided. *)
Inductive rpc := RIdle | RStart (r : hreq) | RMissed (r : hreq) | RHas (r : hreq) (p : nat) | RDone (ok : bool).
Record rsys := mkRSys { rs_rl : RateLimiter; rs_now : Z; rs_pcs : nat -> rpc; rs_admitted : list (hreq * Z) }.

Inductive rstep : rsys -> rsys -> Prop :=
| R_arrive i r rl now pcs adm : pcs i = RIdle ->
    rstep (mkRSys rl now pcs adm) (mkRSys rl now (upd pcs i (RStart r)) adm)
| R_lookup i r rl now pcs adm : pcs i = RStart r ->
    rstep (mkRSys rl now pcs adm)
          (mkRSys rl now (upd pcs i match find_limiter (getKey (rl_cfg rl) r) rl with Some p => RHas r p | None => RMissed r end) adm)
| R_create i r rl now pcs adm : pcs i = RMissed r ->
    rstep (mkRSys rl now pcs adm)
          (mkRSys (create_limiter (getKey (rl_cfg rl) r) rl).2 now
             (upd pcs i (RHas r (create_limiter (getKey (rl_cfg rl) r) rl).1)) adm)
| R_allow i r p rl now pcs adm : pcs i = RHas r p ->
    rstep (mkRSys rl now pcs adm)
          (mkRSys (allow_at p now rl).2 now (upd pcs i (RDone (allow_at p now rl).1))
             (if (allow_at p now rl).1 then (r, now) :: adm else adm))
| R_tick rl now now' pcs adm : now <= now' -> rstep (mkRSys rl now pcs adm) (mkRSys rl now' pcs adm).
Inductive rsteps : rsys -> rsys -> Prop :=
| rs_refl s : rsteps s s
| rs_step s1 s2 s3 : rsteps s1 s2 -> rstep s2 s3 -> rsteps s1 s3.
Definition rinit (cfg : RateLimitConfig) (now : Z) : rsys := mkRSys (NewRateLimiter cfg) now (fun _ => RIdle) [].

(** ** Callers *)

(** Whom a request counts for: with per-user limits the authenticated user, else what the request says in
    X-Forwarded-For, else the remote address of its connection (host and port). *)
Inductive caller := CUser (id : string) | CForwarded (value : string) | CAddress (addr : string).
Definition user_id (r : hreq) : string := match GetUserFromCtx r with Some u => user_ID u | None => EmptyString end.
Definition signed_in (cfg : RateLimitConfig) (r : hreq) : bool := PerUser cfg && negb (bool_decide (user_id r = EmptyString)).
Definition sent_by (cfg : RateLimitConfig) (c : caller) (r : hreq) : bool :=
  let forwarded := hdr_get (hr_Header r) "X-Forwarded-For" in
  match c with
  | CUser id => signed_in cfg r && bool_decide (user_id r = id)
  | CForwarded v => negb (signed_in cfg r) && bool_decide (forwarded = v) && negb (bool_decide (v = EmptyString))
  | CAddress a => negb (signed_in cfg r) && bool_decide (forwarded = EmptyString) && bool_decide (RemoteAddr r = a)
  end.

(** How many requests of a caller were admitted in a window. *)
Definition admitted_of (cfg : RateLimitConfig) (adm : list (hreq * Z)) (c : caller) (t1 t2 : Z) : Z :=
  Z.of_nat (length (List.filter (fun a => sent_by cfg c a.1 && (t1 <=? a.2) && (a.2 <=? t2)) adm)).

(** How many requests of a key were admitted in a window. *)
Definition in_window (key : string) (t1 t2 : Z) (a : string * Z) : bool :=
  bool_decide (a.1 = key) && (t1 <=? a.2) && (a.2 <=? t2).
Definition admitted_in (adm : list (string * Z)) (key : string) (t1 t2 : Z) : Z :=
  Z.of_nat (length (List.filter (in_window key t1 t2) adm)).
End ratelimit.
Arguments RateLimiter : clear implicits.
Arguments RateLimitByEndpoint : clear implicits.
Arguments rsys : clear implicits.

(** ** The invariant *)

Section bound.
Context {lim : Type} `{LimiterLaws lim}.
Variables (C : RateLimitConfig) (R B : Z).

(** Admissions by key. *)
Definition keyed (adm : list (hreq * Z)) : list (string * Z) := map (fun a => (getKey C a.1, a.2)) adm.
#[local] Arguments keyed : simpl never.

(** The budget of a window that ends now, paid for by admissions and by what is left in the bucket. *)
Definition paid (adm : list (string * Z)) (key : string) (now : Z) (l : lim) : Prop :=
  forall t1, t1 <= now -> admitted_in adm key t1 now * token + level l now <= B * token + R * (now - t1).

Record rinv (s : rsys lim) : Prop := {
  inv_cfg : rl_cfg (rs_rl s) = C;
  inv_limiter key p : limiters (rs_rl s) !! key = Some p ->
    exists l, heap (rs_rl s) !! p = Some l /\ bucket l R B /\ paid (keyed (rs_admitted s)) key (rs_now s) l;
  inv_unknown key : limiters (rs_rl s) !! key = None -> forall a, a ∈ keyed (rs_admitted s) -> a.1 <> key;
  inv_inj key key' p : limiters (rs_rl s) !! key = Some p -> limiters (rs_rl s) !! key' = Some p -> key = key';
  inv_pc i r p : rs_pcs s i = RHas r p -> limiters (rs_rl s) !! getKey C r = Some p;
  inv_past a : a ∈ keyed (rs_admitted s) -> a.2 <= rs_now s;
  inv_bound key t1 t2 : t1 <= t2 -> admitted_in (keyed (rs_admitted s)) key t1 t2 * token <= B * token + R * (t2 - t1)
}.

Lemma admitted_none adm key t1 t2 : (forall a, a ∈ adm -> a.1 <> key) -> admitted_in adm key t1 t2 = 0.
Proof.
  intros Ha. unfold admitted_in. rewrite filter_none; [done|]. apply Forall_forall. intros a Hin.
  unfold in_window. by rewrite (bool_decide_eq_false_2 _ (Ha a Hin)).
Qed.
Lemma admitted_future adm key t1 now t2 : (forall a, a ∈ adm -> a.2 <= now) -> now <= t2 ->
  admitted_in adm key t1 t2 = admitted_in adm key t1 now.
Proof.
  intros Ha Ht. unfold admitted_in. f_equal. f_equal. induction adm as [|a adm IH]; [done|]. cbn.
  assert (Ha' : a.2 <= now) by (apply Ha; left).
  assert (Hw : in_window key t1 t2 a = in_window key t1 now a)
    by (unfold in_window; by rewrite (proj2 (Z.leb_le a.2 t2)), (proj2 (Z.leb_le a.2 now)) by lia).
  rewrite Hw, IH; [done|]. intros b Hb. apply Ha. by right.
Qed.
Lemma admitted_empty adm key t1 now : (forall a, a ∈ adm -> a.2 <= now) -> forall now', now < t1 -> admitted_in adm key t1 now' = 0.
Proof.
  intros Ha now' Ht. unfold admitted_in. rewrite filter_none; [done|]. apply Forall_forall. intros a Hin. apply Ha in Hin.
  unfold in_window. rewrite (proj2 (Z.leb_gt t1 a.2)) by lia. by rewrite andb_false_r.
Qed.
Lemma admitted_cons a adm key t1 t2 :
  admitted_in (a :: adm) key t1 t2 = (if in_window key t1 t2 a then 1 else 0) + admitted_in adm key t1 t2.
Proof. unfold admitted_in. cbn. destruct (in_window key t1 t2 a); cbn; lia. Qed.

Hypothesis (HR : 0 <= R) (HB : 0 <= B) (HCR : RequestsPerSecond C = R) (HCB : BurstSize C = B).

Lemma paid_tick adm key now now' l : bucket l R B -> (forall a, a ∈ adm -> a.2 <= now) -> now <= now' ->
  paid adm key now l -> paid adm key now' l.
Proof.
  intros Hb Ha Ht Hp t1 Ht1. rewrite (admitted_future _ _ _ now) by done.
  destruct (decide (t1 <= now)) as [Hle|Hgt].
  - pose proof (Hp t1 Hle). pose proof (level_grows l R B now now' Hb Ht). lia.
  - rewrite (admitted_empty _ _ _ now Ha) by lia. pose proof (level_cap l R B now' Hb). nia.
Qed.

(** A token taken for a request of the key is paid for by the bucket. *)
Lemma paid_allow adm key now l : (Allow now l).1 = true -> paid adm key now l -> paid ((key, now) :: adm) key now (Allow now l).2.
Proof.
  intros Hok Hp t1 Ht1. destruct (allow_true now l Hok) as [_ Hl]. rewrite Hl, admitted_cons. specialize (Hp t1 Ht1).
  unfold token in *. destruct (in_window _ _ _ _); lia.
Qed.
Lemma paid_refused adm key now l : (Allow now l).1 = false -> paid adm key now l -> paid adm key now (Allow now l).2.
Proof. intros Hok Hp t1 Ht1. destruct (allow_false now l Hok) as [_ ->]. by apply Hp. Qed.
Lemma paid_other adm key key' now t l : key <> key' -> paid adm key' now l -> paid ((key, t) :: adm) key' now l.
Proof.
  intros Hne Hp t1 Ht1. rewrite admitted_cons. unfold in_window. cbn. rewrite bool_decide_eq_false_2 by done. cbn. by apply Hp.
Qed.

Lemma bound_allow adm key now l : (forall a, a ∈ adm -> a.2 <= now) -> paid adm key now l -> (Allow now l).1 = true ->
  (forall k t1 t2, t1 <= t2 -> admitted_in adm k t1 t2 * token <= B * token + R * (t2 - t1)) ->
  forall k t1 t2, t1 <= t2 -> admitted_in ((key, now) :: adm) k t1 t2 * token <= B * token + R * (t2 - t1).
Proof.
  intros Ha Hp Hok Hb k t1 t2 Ht. rewrite admitted_cons. destruct (in_window _ _ _ _) eqn:Hw; [|by apply Hb].
  unfold in_window in Hw. cbn in Hw. bools. subst k. rewrite (admitted_future _ _ _ now) by done.
  specialize (Hp t1 ltac:(lia)). destruct (allow_true now l Hok) as [Hl _]. unfold token in *. nia.
Qed.

(** Creating a limiter, unless another request did: the new bucket is full and no request of its key was admitted. *)
Lemma create_inv i r rl now pcs adm : rinv (mkRSys rl now pcs adm) ->
  rinv (mkRSys (create_limiter (getKey C r) rl).2 now (upd pcs i (RHas r (create_limiter (getKey C r) rl).1)) adm).
Proof.
  intros [Hc Hl Hu Hj Hp Hpa Hb]. cbn in *. remember (getKey C r) as key eqn:Ekey. unfold create_limiter. destruct (limiters rl !! key) as [p|] eqn:Hk; cbn.
  { constructor; cbn; auto. intros j r' p'. upd_cases j i; [intros [= <- <-]; congruence|apply Hp]. }
  assert (Hfresh : forall k p, limiters rl !! k = Some p -> (p < length (heap rl))%nat).
  { intros k p Hkp. destruct (Hl k p Hkp) as (l & ? & _). by eapply lookup_lt_Some. }
  constructor; cbn; auto.
  - intros k p'. destruct (decide (key = k)) as [<-|Hne]; [rewrite lookup_insert_eq|rewrite lookup_insert_ne by done].
    + intros [= <-]. eexists. split; [by apply list_lookup_middle|]. rewrite Hc, HCR, HCB. split; [by apply bucket_new|].
      intros t1 Ht1. rewrite level_new by done. rewrite admitted_none by (by apply Hu). nia.
    + intros Hkp. destruct (Hl k p' Hkp) as (l & Hh & ?). exists l. split; [|done]. by apply lookup_app_l_Some.
  - intros k. destruct (decide (key = k)) as [<-|Hne]; [by rewrite lookup_insert_eq|]. rewrite lookup_insert_ne by done. apply Hu.
  - intros k k' p'. destruct (decide (key = k)) as [<-|Hne], (decide (key = k')) as [<-|Hne'];
      rewrite ?lookup_insert_eq, ?lookup_insert_ne by done; [done| | |apply Hj].
    + intros [= <-] Hk'. apply Hfresh in Hk'. lia.
    + intros Hk' [= <-]. apply Hfresh in Hk'. lia.
  - intros j r' p'. upd_cases j i; [intros [= <- <-]; by rewrite <- Ekey, lookup_insert_eq|].
    intros Hjk. apply Hp in Hjk. rewrite lookup_insert_ne; [done|]. congruence.
Qed.

(** Taking a token from the limiter of a request, or failing to. *)
Lemma allow_inv i r p rl now pcs adm : rinv (mkRSys rl now pcs adm) -> pcs i = RHas r p ->
  rinv (mkRSys (allow_at p now rl).2 now (upd pcs i (RDone (allow_at p now rl).1))
          (if (allow_at p now rl).1 then (r, now) :: adm else adm)).
Proof.
  intros [Hc Hl Hu Hj Hp Hpa Hb] Hi. cbn in *. pose proof (Hp i r p Hi) as Hk.
  remember (getKey C r) as key eqn:Ekey. destruct (Hl key p Hk) as (l & Hh & Hbk & Hpd).
  unfold allow_at. rewrite Hh. pose proof (bucket_allow now l R B Hbk) as Hbk'. pose proof (paid_allow (keyed adm) key now l) as Hpa1.
  pose proof (paid_refused (keyed adm) key now l) as Hpa0. pose proof (bound_allow (keyed adm) key now l Hpa Hpd) as Hba.
  destruct (Allow now l) as [ok l'] eqn:Ha. cbn in *.
  assert (Ek : keyed (if ok then (r, now) :: adm else adm) = if ok then (key, now) :: keyed adm else keyed adm)
    by (destruct ok; [by rewrite Ekey|done]).
  revert Ek. generalize (if ok then (r, now) :: adm else adm) as adm'. intros adm' Ek.
  assert (Hadm : forall a, a ∈ (if ok then (key, now) :: keyed adm else keyed adm) -> a = (key, now) \/ a ∈ keyed adm).
  { intros a. destruct ok; [|by right]. rewrite elem_of_cons. tauto. }
  constructor; cbn; rewrite ?Ek; auto.
  - intros k p' Hkp. destruct (decide (key = k)) as [<-|Hne].
    + assert (p' = p) as -> by congruence. exists l'. rewrite list_lookup_insert_eq by (by eapply lookup_lt_Some).
      split; [done|]. split; [done|]. destruct ok; auto.
    + destruct (Hl k p' Hkp) as (l0 & Hh0 & ? & ?). exists l0.
      rewrite list_lookup_insert_ne by (intros ->; by eapply Hne, Hj). split; [done|]. split; [done|].
      destruct ok; [by apply paid_other|done].
  - intros k Hkn a [->|Hin]%Hadm; [|by eapply Hu]. cbn. congruence.
  - intros j r' p'. upd_cases j i; [done|apply Hp].
  - intros a [->|Hin]%Hadm; cbn; [lia|auto].
  - destruct ok; auto.
Qed.

Lemma rstep_inv s s' : rinv s -> rstep s s' -> rinv s'.
Proof.
  intros Hs Hst. pose proof (inv_cfg _ Hs) as HC. destruct Hst as [i r rl now pcs adm Hi|i r rl now pcs adm Hi|i r rl now pcs adm Hi
    |i r p rl now pcs adm Hi|rl now now' pcs adm Ht]; cbn in HC; [..|rewrite HC; by apply create_inv|by eapply allow_inv|];
    destruct Hs as [Hc Hl Hu Hj Hp Hpa Hb]; cbn in *; constructor; cbn; auto.
  - intros j r' p'. upd_cases j i; [done|apply Hp].
  - intros j r' p'. upd_cases j i; [|apply Hp]. unfold find_limiter. rewrite Hc. case_match; [|done]. by intros [= <- <-].
  - intros k p Hk. destruct (Hl k p Hk) as (l & ? & ? & ?). exists l. repeat split; [done|done|]. by eapply paid_tick.
  - intros a Hin. specialize (Hpa a Hin). lia.
Qed.
Lemma rsteps_inv s s' : rinv s -> rsteps s s' -> rinv s'.
Proof. intros Hs Hst. induction Hst; [done|]. eauto using rstep_inv. Qed.
Lemma rinit_inv cfg now : normalize cfg = C -> rinv (rinit cfg now).
Proof.
  intros HC. constructor; cbn; try done; [intros ? ? ?; set_solver..|].
  intros key t1 t2 Ht. unfold admitted_in, keyed, token. cbn [map length List.filter Z.of_nat]. nia.
Qed.

(** The requests of one caller share a key. *)
Definition caller_key (c : caller) : string :=
  match c with CUser id => "user:" +:+ id | CForwarded v => "ip:" +:+ v | CAddress a => "ip:" +:+ a end.
Lemma sent_by_key c r : sent_by C c r = true -> getKey C r = caller_key c.
Proof.
  unfold sent_by, signed_in, user_id, getKey. cbv zeta. destruct (PerUser C); cbn.
  - destruct (GetUserFromCtx r) as [u|]; destruct c as [id|v|a]; repeat case_bool_decide; cbn; try done; congruence.
  - destruct c as [id|v|a]; repeat case_bool_decide; cbn; try done; congruence.
Qed.

Lemma admitted_of_key adm c t1 t2 : admitted_of C adm c t1 t2 <= admitted_in (keyed adm) (caller_key c) t1 t2.
Proof.
  unfold admitted_of, admitted_in. induction adm as [|[r t] adm IH]; [done|].
  change (keyed ((r, t) :: adm)) with ((getKey C r, t) :: keyed adm).
  cbn [List.filter]. unfold in_window at 1. cbn [fst snd]. destruct (sent_by C c r) eqn:Es; cbn [andb].
  - rewrite (sent_by_key _ _ Es), bool_decide_eq_true_2 by done. cbn [andb].
    destruct ((t1 <=? t) && (t <=? t2)); cbn [length]; lia.
  - destruct (_ && _ && _); cbn [length]; lia.
Qed.
End bound.

(** The middleware decides by exactly these steps, one request at a time. *)
Lemma admission_steps {lim} `{Limiters lim} (rl : RateLimiter lim) r now pcs adm i : pcs i = RIdle ->
  exists pcs' adm', rsteps (mkRSys rl now pcs adm) (mkRSys (admission rl r now).2 now pcs' adm')
    /\ pcs' i = RDone (admission rl r now).1.1
    /\ adm' = if (admission rl r now).1.1 then (r, now) :: adm else adm.
Proof.
  intros Hi. unfold admission, getLimiter.
  pose proof (R_arrive i r rl now pcs adm Hi) as H1.
  assert (H2 := R_lookup i r rl now (upd pcs i (RStart r)) adm (upd_eq _ _ _)).
  destruct (find_limiter (getKey (rl_cfg rl) r) rl) as [p|] eqn:Hf.
  - pose proof (R_allow i r p rl now _ adm (upd_eq (upd pcs i (RStart r)) i (RHas r p))) as H3.
    destruct (allow_at p now rl) as [ok rl'] eqn:Ha. cbn in *. eexists _, _. split; [|split; [apply upd_eq|done]].
    eapply rs_step; [eapply rs_step; [eapply rs_step; [constructor|exact H1]|exact H2]|exact H3].
  - pose proof (R_create i r rl now _ adm (upd_eq (upd pcs i (RStart r)) i (RMissed r))) as H3.
    destruct (create_limiter (getKey (rl_cfg rl) r) rl) as [p rl1]. cbn in H3.
    set (pcs3 := upd _ i (RHas r p)) in H3. pose proof (R_allow i r p rl1 now pcs3 adm (upd_eq _ _ _)) as H4.
    destruct (allow_at p now rl1) as [ok rl'] eqn:Ha. cbn in *. eexists _, _. split; [|split; [apply upd_eq|done]].
    eapply rs_step; [eapply rs_step; [eapply rs_step; [eapply rs_step; [constructor|exact H1]|exact H2]|exact H3]|exact H4].
Qed.

(** C17. With a non-negative rate and burst (after the defaults), however the requests of many
    goroutines interleave with each other and with time, the requests of one caller admitted in any
    window [t1, t2] never exceed the burst plus the rate times its length; concurrent first requests
    of a caller share one bucket.  A caller is an authenticated user when limits are per user, else
    a value of X-Forwarded-For, else a remote address with its port.  The decision of the middleware
    on a request is a run of these interleaved steps, after which the request counts as admitted
    exactly if it was let through. *)
Theorem rate_bounded {lim} `{LimiterLaws lim} cfg now :
  let R := RequestsPerSecond (normalize cfg) in
  let B := BurstSize (normalize cfg) in
  0 <= R -> 0 <= B ->
  (forall (s : rsys lim) c t1 t2, rsteps (rinit cfg now) s -> t1 <= t2 ->
     admitted_of cfg (rs_admitted s) c t1 t2 * token <= B * token + R * (t2 - t1))
  /\ (forall (s : rsys lim) r i, rs_pcs s i = RIdle ->
        let '(ok, _, rl) := admission (rs_rl s) r (rs_now s) in
        exists pcs', rsteps s (mkRSys rl (rs_now s) pcs' (if ok then (r, rs_now s) :: rs_admitted s else rs_admitted s))
          /\ pcs' i = RDone ok).
Proof.
  cbv zeta. intros HR HB. split.
  - intros s c t1 t2 Hst Ht.
    assert (Hinv : rinv (normalize cfg) (RequestsPerSecond (normalize cfg)) (BurstSize (normalize cfg)) s).
    { eapply rsteps_inv; eauto. by apply rinit_inv. }
    pose proof (inv_bound _ _ _ _ Hinv (caller_key c) t1 t2 Ht).
    pose proof (admitted_of_key (normalize cfg) (rs_admitted s) c t1 t2) as Hle.
    change (admitted_of (normalize cfg)) with (admitted_of cfg) in Hle. unfold token in *. lia.
  - intros [rl now' pcs adm] r i Hi. cbn [rs_rl rs_now rs_pcs rs_admitted] in *.
    destruct (admission_steps rl r now' pcs adm i Hi) as (pcs' & adm' & Hs & Hd & ->).
    destruct (admission rl r now') as [[ok n] rl']. eauto.
Qed.

(** ** Unlisted endpoints *)

(** A path without a limit of its own, with no wildcard, gets a new limiter for every request:
    with a burst of at least one every request is admitted, however many there are. *)
Theorem unlisted_never_limited {lim} `{LimiterLaws lim} (e : RateLimitByEndpoint lim) r now :
  ep_limiters e !! Path r = None -> ep_limiters e !! "*" = None ->
  0 <= RequestsPerSecond (normalize (defaults e)) -> 1 <= BurstSize (normalize (defaults e)) ->
  (ep_admission e r now).1.1 = true /\ (ep_admission e r now).2 = e.
Proof.
  intros Hp Hs HR HB. unfold ep_admission, GetLimiter. rewrite Hp, Hs. unfold admission, getLimiter, find_limiter, create_limiter.
  cbn. rewrite lookup_empty. cbn. unfold allow_at. cbn.
  destruct (Allow now _) as [ok l] eqn:Ha. cbn. split; [|done]. destruct ok; [done|].
  pose proof (allow_false now (NewLimiter (RequestsPerSecond (normalize (defaults e))) (BurstSize (normalize (defaults e))))) as Hf.
  cbn in Hf. rewrite Ha in Hf. destruct (Hf eq_refl) as [Hlt _]. rewrite level_new in Hlt by done. unfold token in Hlt. cbn in Hlt, HB. lia.
Qed.

(** Without an authenticated user the key is the X-Forwarded-For header as the client sent it, so
    one client has as many buckets as it sends different values. *)
Example forwarded_for_chooses_the_bucket :
  getKey (mkRate 1 1 true) (get_ [("X-Forwarded-For", "a")]) = "ip:a" /\ getKey (mkRate 1 1 true) (get_ [("X-Forwarded-For", "b")]) = "ip:b".
Proof. vm_compute. done. Qed.

(** Without the header the key is the remote address with the client's port: a client has a bucket
    for each of its connections. *)
Definition from_addr (addr : string) : hreq := mkHReq "GET" "/items" ∅ addr (mkBody EmptyString false) None None.
Example port_chooses_the_bucket :
  getKey (mkRate 1 1 true) (from_addr "10.0.0.1:99") <> getKey (mkRate 1 1 true) (from_addr "10.0.0.1:100").
Proof. vm_compute. done. Qed.

(** ** An exact bucket *)

Record tbucket := mkBucket { tb_rate : Z; tb_burst : Z; tb_level : Z; tb_at : Z }.
Definition tb_now (l : tbucket) (t : Z) : Z := Z.min (tb_burst l * token) (tb_level l + tb_rate l * Z.max 0 (t - tb_at l)).
#[local] Instance tbuckets : Limiters tbucket := {|
  NewLimiter r b := mkBucket r b (b * token) 0;
  Allow t l := if token <=? tb_now l t then (true, mkBucket (tb_rate l) (tb_burst l) (tb_now l t - token) t)
               else (false, mkBucket (tb_rate l) (tb_burst l) (tb_now l t) t);
  Tokens t l := tb_now l t / token
|}.
#[local] Instance tbuckets_laws : LimiterLaws tbucket.
Proof.
  refine {| level := tb_now; bucket l r b := tb_rate l = r /\ tb_burst l = b /\ 0 <= r |}.
  - done.
  - intros t l r b. cbn. by destruct (token <=? tb_now l t).
  - intros r b t Hr. unfold tb_now. cbn. nia.
  - intros l r b t (<- & <- & _). unfold tb_now. lia.
  - intros l r b t t' (<- & <- & Hr) Ht. unfold tb_now. nia.
  - intros t l. cbn. destruct (token <=? tb_now l t) eqn:Hl; [|done]. intros _. bools. split; [done|].
    unfold tb_now at 1. cbn. rewrite Z.sub_diag. assert (tb_now l t <= tb_burst l * token) by (unfold tb_now; lia). unfold token in *. lia.
  - intros t l. cbn. destruct (token <=? tb_now l t) eqn:Hl; [done|]. intros _. bools. split; [done|].
    unfold tb_now at 1. cbn. rewrite Z.sub_diag. assert (tb_now l t <= tb_burst l * token) by (unfold tb_now; lia). lia.
Qed.

(** Two requests of one caller that both miss the lookup, on a bucket of one token. *)
Definition one_per_second : RateLimitConfig := mkRate 1 1 false.
Lemma rate_bounded_witness : exists s : rsys tbucket,
  rsteps (rinit one_per_second 0) s /\ rs_pcs s 0%nat = RDone true /\ rs_pcs s 1%nat = RDone false
  /\ admitted_of one_per_second (rs_admitted s) (CAddress "10.0.0.1:99") 0 0 = 1
  /\ admitted_of one_per_second (rs_admitted s) (CAddress "10.0.0.1:99") 0 0 * token <= 1 * token + 1 * (0 - 0).
Proof.
  assert (Hst : exists s : rsys tbucket, rsteps (rinit one_per_second 0) s /\ rs_pcs s 0%nat = RDone true /\ rs_pcs s 1%nat = RDone false
    /\ admitted_of one_per_second (rs_admitted s) (CAddress "10.0.0.1:99") 0 0 = 1).
  { eexists. split; [|split; [|split]].
    - eapply rs_step; [eapply rs_step; [eapply rs_step; [eapply rs_step; [eapply rs_step; [eapply rs_step; [eapply rs_step;
        [eapply rs_step; [apply rs_refl|apply (R_arrive 0%nat (get_ [])); done]|apply (R_arrive 1%nat (get_ [])); done]
        |apply (R_lookup 0%nat (get_ [])); done]|apply (R_lookup 1%nat (get_ [])); done]
        |apply (R_create 0%nat (get_ [])); done]|apply (R_create 1%nat (get_ [])); done]
        |apply (R_allow 0%nat (get_ []) 0%nat); done]|apply (R_allow 1%nat (get_ []) 0%nat); done].
    - reflexivity.
    - reflexivity.
    - vm_compute. reflexivity. }
  destruct Hst as (s & Hst & H0 & H1 & H2). exists s. split; [exact Hst|]. split; [exact H0|]. split; [exact H1|]. split; [exact H2|].
  destruct (rate_bounded (lim := tbucket) one_per_second 0) as [H _]; [cbn; lia|cbn; lia|].
  apply (H s (CAddress "10.0.0.1:99") 0 0 Hst). lia.
Defined.
