(* ===== verification/Timeout.v ===== *)
(** * Timeout: middleware/timeout.go — answering when the handler is late

    The handler runs in a goroutine of its own on a buffering writer; the
    middleware waits for it or for the deadline.  [tmstep] interleaves the
    handler's calls with that wait. *)

From S2P Require Import Prelude GoStrings GoFloat Http Json Errors Auth Regexp Middleware.

(** ** The buffering writer *)

Record timeoutWriter := mkTW { tw_buf : list chunk; tw_code : Z; tw_headers : headers; timedOut : bool }.
Definition new_tw : timeoutWriter := mkTW [] 0 ∅ false.

Definition timeout_writer : writer timeoutWriter := {|
  w_Header := tw_headers;
  w_updHeader f tw := mkTW (tw_buf tw) (tw_code tw) (f (tw_headers tw)) (timedOut tw);
  w_WriteHeader code tw := if timedOut tw then tw else mkTW (tw_buf tw) code (tw_headers tw) (timedOut tw);
  w_Write c tw := if timedOut tw then tw else mkTW (tw_buf tw ++ [c]) (tw_code tw) (tw_headers tw) (timedOut tw)
|}.

(** The buffered headers added one by one, whatever the order they are ranged over. *)
Definition add_all (k : string) (vs : list string) (h : headers) : headers := fold_left (fun h v => hdr_add k v h) vs h.

Section timeout.
Context (render : json -> string).

Definition flush (tw : timeoutWriter) (w : ResponseWriter) : ResponseWriter :=
  if timedOut tw then w
  else
    let w := upd_header (fun h => map_fold add_all h (tw_headers tw)) w in
    let w := if tw_code tw =? 0 then w else write_header (tw_code tw) w in
    let buf := body_string render (tw_buf tw) in
    if bool_decide (buf = EmptyString) then w else write_chunk (Raw buf) w.
Definition mark_late (tw : timeoutWriter) : timeoutWriter := mkTW (tw_buf tw) (tw_code tw) (tw_headers tw) true.
Definition timeout_error : BaseDxError := NewServiceUnavailable "request timeout" [].

(** ** The two goroutines *)

(** The handler has calls left (and may then panic), or has closed the done channel. *)
Inductive hstate := Running (todo : list call) (p : option panicv) | Closed | Crashed.
(** The middleware waits in its select, or has answered. *)
Record tmsys := mkTm { tm_tw : timeoutWriter; tm_handler : hstate; tm_expired : bool; tm_waiting : bool; tm_rw : ResponseWriter }.

Inductive tmstep : tmsys -> tmsys -> Prop :=
| T_call tw c cs p ex wt rw :
    tmstep (mkTm tw (Running (c :: cs) p) ex wt rw) (mkTm (do_call timeout_writer tw c) (Running cs p) ex wt rw)
| T_close tw ex wt rw : tmstep (mkTm tw (Running [] None) ex wt rw) (mkTm tw Closed ex wt rw)
| T_panic tw p ex wt rw : tmstep (mkTm tw (Running [] (Some p)) ex wt rw) (mkTm tw Crashed ex wt rw)
| T_expire tw h wt rw : tmstep (mkTm tw h false wt rw) (mkTm tw h true wt rw)
| T_answer tw ex rw : tmstep (mkTm tw Closed ex true rw) (mkTm tw Closed ex false (flush tw rw))
| T_late tw h rw : h <> Crashed -> tmstep (mkTm tw h true true rw) (mkTm (mark_late tw) h true false (WriteError timeout_error rw)).
Inductive tmsteps : tmsys -> tmsys -> Prop :=
| tm_refl s : tmsteps s s
| tm_step s1 s2 s3 : tmsteps s1 s2 -> tmstep s2 s3 -> tmsteps s1 s3.
Definition tminit (cs : list call) (p : option panicv) (w0 : ResponseWriter) : tmsys := mkTm new_tw (Running cs p) false true w0.

(** ** Buffering loses nothing *)

(** A handler sets its headers, sends its status and writes, in this order. *)
Definition header_call (c : call) : bool := match c with CSet _ _ | CAdd _ _ | CDel _ => true | _ => false end.
Definition orderly (hs : list call) (code : option Z) (body : list chunk) : list call :=
  hs ++ match code with Some c => [CWriteHeader c] | None => [] end ++ map CWrite body.

Lemma run_calls_app {S} (wr : writer S) cs ds s : run_calls wr (cs ++ ds) s = run_calls wr ds (run_calls wr cs s).
Proof. apply fold_left_app. Qed.

(** Header calls, as a function on headers. *)
Definition header_fn (c : call) : headers -> headers :=
  match c with CSet k v => hdr_set k v | CAdd k v => hdr_add k v | CDel k => hdr_del k | _ => id end.
Definition header_run (hs : list call) (h : headers) : headers := fold_left (fun h c => header_fn c h) hs h.

Lemma tw_headers_run hs tw : forallb header_call hs = true ->
  run_calls timeout_writer hs tw = mkTW (tw_buf tw) (tw_code tw) (header_run hs (tw_headers tw)) (timedOut tw).
Proof.
  revert tw. induction hs as [|c hs IH]; intros tw Hh; [by destruct tw|]. cbn in Hh. bools. cbn [run_calls fold_left].
  unfold run_calls in IH. rewrite IH by done. by destruct c.
Qed.
Lemma base_headers_run hs w : forallb header_call hs = true ->
  run_calls base_writer hs w = mkRW (header_run hs (rw_header w)) (rw_sent w) (rw_body w).
Proof.
  revert w. induction hs as [|c hs IH]; intros w Hh; [by destruct w|]. cbn in Hh. bools. cbn [run_calls fold_left].
  unfold run_calls in IH. rewrite IH by done. by destruct c.
Qed.
Lemma tw_writes body tw : timedOut tw = false ->
  run_calls timeout_writer (map CWrite body) tw = mkTW (tw_buf tw ++ body) (tw_code tw) (tw_headers tw) false.
Proof.
  revert tw. induction body as [|c body IH]; intros tw Ht; cbn [map run_calls fold_left].
  - rewrite app_nil_r, <- Ht. by destruct tw.
  - unfold run_calls in IH. cbn. rewrite Ht, IH by done. cbn. by rewrite <- app_assoc.
Qed.
Lemma base_writes body w r : rw_sent w = Some r ->
  run_calls base_writer (map CWrite body) w = mkRW (rw_header w) (Some r) (rw_body w ++ body).
Proof.
  revert w. induction body as [|c body IH]; intros w Ht; cbn [map run_calls fold_left].
  - rewrite app_nil_r, <- Ht. by destruct w.
  - unfold run_calls in IH. cbn. unfold write_chunk. rewrite (write_header_sent 200 w r Ht), IH by exact Ht. cbn. by rewrite <- app_assoc.
Qed.

Definition wf_headers (h : headers) : Prop := forall k vs, h !! k = Some vs -> canonical_key k = k /\ vs <> [].
Lemma wf_insert k vs h : vs <> [] -> wf_headers h -> wf_headers (<[canonical_key k := vs]> h).
Proof.
  intros Hv Hh k' vs'. destruct (decide (canonical_key k = k')) as [<-|Hne].
  - rewrite lookup_insert_eq. intros [= <-]. by rewrite canonical_idem.
  - rewrite lookup_insert_ne by done. apply Hh.
Qed.
Lemma header_run_wf hs h : wf_headers h -> wf_headers (header_run hs h).
Proof.
  revert h. induction hs as [|c hs IH]; intros h Hh; [done|]. cbn. apply IH.
  destruct c; cbn; try done; [by apply wf_insert|apply wf_insert; [by destruct (default [] _)|done]|].
  intros k' vs'. unfold hdr_del. intros [_ Hl]%lookup_delete_Some. by apply Hh.
Qed.

Lemma add_all_lookup k vs (h : headers) k' : canonical_key k = k ->
  add_all k vs h !! k' = if bool_decide (k' = k) then (match vs with [] => h !! k | _ => Some (default [] (h !! k) ++ vs) end) else h !! k'.
Proof.
  intros Hk. revert h. induction vs as [|v vs IH]; intros h; cbn.
  - case_bool_decide; by subst.
  - unfold add_all in IH. rewrite IH. unfold hdr_add. rewrite Hk.
    case_bool_decide; [|by rewrite lookup_insert_ne]. rewrite lookup_insert_eq. cbn.
    destruct vs as [|v' vs]; [done|]. by rewrite <- app_assoc.
Qed.
(** The values of [m] behind those of [h]. *)
Definition behind (h m : headers) (k : string) : option (list string) :=
  match h !! k with Some vs => Some (vs ++ default [] (m !! k)) | None => m !! k end.

Lemma map_fold_add_all (h : headers) m k : wf_headers m -> map_fold add_all h m !! k = behind h m k.
Proof.
  revert k. apply (map_fold_weak_ind (fun r m => forall k, wf_headers m -> r !! k = behind h m k) add_all h).
  { intros k _. unfold behind. rewrite lookup_empty. destruct (h !! k); [cbn; by rewrite app_nil_r|done]. }
  intros k vs m0 r Hk IH k' Hwf. destruct (Hwf k vs) as [Hc Hv]; [apply lookup_insert_eq|].
  assert (Hr : forall k, r !! k = behind h m0 k).
  { intros k1. apply IH. intros k2 vs2 Hl. apply Hwf. rewrite lookup_insert_ne; [done|by intros ->; congruence]. }
  rewrite add_all_lookup, !Hr by done. unfold behind. rewrite Hk.
  case_bool_decide; [subst; rewrite lookup_insert_eq; destruct vs; [done|]; destruct (h !! k); cbn; by rewrite ?app_nil_r|].
  by rewrite lookup_insert_ne.
Qed.

(** Headers already there, which the handler's calls only add to. *)
Definition beside (h : headers) (c : call) : bool :=
  match c with CSet k _ | CDel k => bool_decide (h !! canonical_key k = None) | _ => true end.

Lemma header_run_behind hs (h : headers) k : forallb (beside h) hs = true -> header_run hs h !! k = behind h (header_run hs ∅) k.
Proof.
  revert k. induction hs as [|c hs IH] using rev_ind; intros k.
  { intros _. unfold behind. cbn. rewrite lookup_empty. destruct (h !! k); [cbn; by rewrite app_nil_r|done]. }
  rewrite forallb_app. intros [Hb [Hc _]%andb_true_iff]%andb_true_iff. unfold header_run in *. rewrite !fold_left_app. cbn [fold_left].
  specialize (fun k => IH k Hb). revert IH. generalize (fold_left (fun h c => header_fn c h) hs h),
    (fold_left (fun h c => header_fn c h) hs ∅). intros r m IH. unfold behind in *.
  destruct c as [k1 v|k1 v|k1| |]; cbn in *; [| | |apply IH..].
  - bools. unfold hdr_set. destruct (decide (canonical_key k1 = k)) as [<-|].
    + by rewrite !lookup_insert_eq, Hc.
    + rewrite !lookup_insert_ne by done. apply IH.
  - unfold hdr_add. destruct (decide (canonical_key k1 = k)) as [<-|].
    + rewrite !lookup_insert_eq, IH. destruct (h !! _); cbn; [by rewrite <- app_assoc|done].
    + rewrite !lookup_insert_ne by done. apply IH.
  - bools. unfold hdr_del. destruct (decide (canonical_key k1 = k)) as [<-|].
    + by rewrite !lookup_delete_eq, Hc.
    + rewrite !lookup_delete_ne by done. apply IH.
Qed.

Lemma flush_headers hs (h : headers) : forallb (beside h) hs = true -> map_fold add_all h (header_run hs ∅) = header_run hs h.
Proof.
  intros Hb. apply map_eq. intros k. rewrite map_fold_add_all, header_run_behind; [done|done|].
  apply header_run_wf. intros k' vs'. by rewrite lookup_empty.
Qed.

(** The buffered response, flushed, is the response the handler would have sent itself. *)
Definition same_response (a b : ResponseWriter) : Prop :=
  finished a = finished b /\ body_string render (rw_body a) = body_string render (rw_body b).

Lemma flush_direct hs code body w0 :
  rw_sent w0 = None -> rw_body w0 = [] ->
  forallb header_call hs = true -> forallb (beside (rw_header w0)) hs = true -> code <> Some 0 ->
  same_response (run_calls base_writer (orderly hs code body) w0)
                (flush (run_calls timeout_writer (orderly hs code body) new_tw) w0).
Proof.
  intros Hs0 Hb0 Hh Hbe Hc. unfold orderly. rewrite !run_calls_app, (tw_headers_run hs), (base_headers_run hs) by done.
  cbn [tw_buf tw_code tw_headers timedOut new_tw]. rewrite Hs0, Hb0.
  pose proof (flush_headers hs (rw_header w0) Hbe) as Hw. set (H := header_run hs (rw_header w0)) in *. set (H0 := header_run hs ∅) in *.
  assert (Hb : body_string render [Raw (body_string render body)] = body_string render body) by apply app_Empty_r.
  destruct code as [c|].
  - cbn [run_calls fold_left do_call timeout_writer w_WriteHeader timedOut tw_buf tw_code tw_headers base_writer].
    fold (run_calls timeout_writer) (run_calls base_writer).
    change (fold_left (do_call timeout_writer) ?l ?x) with (run_calls timeout_writer l x).
    change (fold_left (do_call base_writer) ?l ?x) with (run_calls base_writer l x).
    rewrite tw_writes, (base_writes _ _ (c, H)) by done. unfold flush, same_response. cbn -[body_string].
    destruct (c =? 0) eqn:E; [apply Z.eqb_eq in E; congruence|]. unfold upd_header, write_header. cbn -[body_string]. rewrite Hw, Hs0, Hb0.
    case_bool_decide as He; cbn -[body_string]; [by rewrite He|by rewrite Hb].
  - cbn [app run_calls fold_left]. change (fold_left (do_call timeout_writer) ?l ?x) with (run_calls timeout_writer l x).
    change (fold_left (do_call base_writer) ?l ?x) with (run_calls base_writer l x).
    rewrite tw_writes by done. unfold flush, same_response. cbn -[body_string run_calls map]. unfold upd_header. cbn -[body_string run_calls map].
    rewrite Hw, Hs0, Hb0. destruct body as [|b body]; [done|].
    change (run_calls base_writer (map CWrite (b :: body)) ?w) with (run_calls base_writer (map CWrite body) (write_chunk b w)).
    rewrite (base_writes _ _ (200, H)) by done.
    case_bool_decide as He; cbn -[body_string]; [by rewrite He|]. split; [done|]. by rewrite Hb.
Qed.

(** While the middleware waits, the client's writer is untouched and the buffer holds the calls made so far. *)
Definition tminv (cs : list call) (w0 : ResponseWriter) (s : tmsys) : Prop :=
  if tm_waiting s
  then tm_rw s = w0 /\
       match tm_handler s with
       | Running todo _ => exists made, cs = made ++ todo /\ tm_tw s = run_calls timeout_writer made new_tw
       | Closed => tm_tw s = run_calls timeout_writer cs new_tw
       | Crashed => True
       end
  else tm_rw s = flush (run_calls timeout_writer cs new_tw) w0 \/ tm_rw s = WriteError timeout_error w0.

Lemma tmstep_inv cs w0 s s' : tminv cs w0 s -> tmstep s s' -> tminv cs w0 s'.
Proof.
  unfold tminv. intros Hs Hst. destruct Hst as [tw c todo p ex wt rw|tw ex wt rw|tw p ex wt rw|tw h wt rw|tw ex rw|tw h rw Hh]; cbn in *.
  - destruct wt; [|done]. destruct Hs as (-> & made & -> & ->). split; [done|]. exists (made ++ [c]).
    rewrite <- app_assoc, run_calls_app. done.
  - destruct wt; [|done]. destruct Hs as (-> & made & -> & ->). by rewrite app_nil_r.
  - destruct wt; [|done]. by destruct Hs as [-> _].
  - done.
  - destruct Hs as [-> ->]. by left.
  - destruct Hs as [-> _]. by right.
Qed.
Lemma tmsteps_inv cs p w0 s : tmsteps (tminit cs p w0) s -> tminv cs w0 s.
Proof.
  intros Hst. remember (tminit cs p w0) as s0 eqn:E. induction Hst as [s1|s1 s2 s3 _ IH Hst]; [|by eapply tmstep_inv; eauto].
  subst. split; [done|]. by exists [].
Qed.

(** C18. All or nothing: whatever the interleaving of the handler's goroutine, its deadline and the
    select, once the middleware has answered the client has either exactly the response the
    handler would have sent without the middleware, or exactly the 503 error, both on top of the
    headers the layers outside had set; nothing the handler writes after the deadline reaches it.
    This is for a handler that changes headers, then sends at most one status (from 200 to 999),
    then writes, on a response not begun, and only adds to the headers set outside. *)
Theorem Timeout_all_or_nothing hs code body p w0 s :
  rw_sent w0 = None -> rw_body w0 = [] ->
  forallb header_call hs = true -> forallb (beside (rw_header w0)) hs = true ->
  (forall c, code = Some c -> 200 <= c <= 999) ->
  tmsteps (tminit (orderly hs code body) p w0) s -> tm_waiting s = false ->
  same_response (run_calls base_writer (orderly hs code body) w0) (tm_rw s)
  \/ tm_rw s = WriteError timeout_error w0.
Proof.
  intros Hs0 Hb0 Hh Hbe Hc Hst Hw. apply tmsteps_inv in Hst. unfold tminv in Hst. rewrite Hw in Hst.
  destruct Hst as [->| ->]; [left|by right]. apply flush_direct; try done. intros E. specialize (Hc 0 E). lia.
Qed.

(** The middleware always answers once the handler has closed its channel or the deadline has passed. *)
Lemma Timeout_answers s : tm_waiting s = true -> tm_handler s = Closed \/ (tm_expired s = true /\ tm_handler s <> Crashed) ->
  exists s', tmstep s s' /\ tm_waiting s' = false.
Proof.
  destruct s as [tw h ex wt rw]. cbn. intros -> [->|[-> Hc]]; eexists; split; [apply T_answer|done|by apply T_late|done].
Qed.
End timeout.

(** A late handler below a layer that set a header: the first write is buffered, the deadline
    passes, the second write is dropped. *)
Definition outer_writer : ResponseWriter := upd_header (hdr_set "Vary" "Origin") new_writer.
Definition late_calls : list call := orderly [CSet "Content-Type" "text/plain"; CAdd "Vary" "Accept"] (Some 201) [Raw "a"; Raw "b"].

Lemma Timeout_all_or_nothing_witness : exists s,
  tmsteps some_json (tminit late_calls None outer_writer) s /\ tm_handler s = Closed
  /\ (same_response some_json (run_calls base_writer late_calls outer_writer) (tm_rw s) \/ tm_rw s = WriteError timeout_error outer_writer)
  /\ rw_status (tm_rw s) = Some 503.
Proof.
  assert (Hst : exists s, tmsteps some_json (tminit late_calls None outer_writer) s
    /\ tm_waiting s = false /\ tm_handler s = Closed /\ rw_status (tm_rw s) = Some 503).
  { eexists. split.
    - eapply tm_step; [eapply tm_step; [eapply tm_step; [eapply tm_step; [eapply tm_step; [eapply tm_step; [eapply tm_step; [eapply tm_step;
        [apply tm_refl|apply T_call]|apply T_call]|apply T_call]|apply T_call]|apply T_expire]|by apply T_late]|apply T_call]|apply T_close].
    - by repeat split. }
  destruct Hst as (s & Hst & Hw & Hc & H503). exists s. split; [exact Hst|]. split; [exact Hc|]. split; [|exact H503].
  apply (Timeout_all_or_nothing some_json [CSet "Content-Type" "text/plain"; CAdd "Vary" "Accept"] (Some 201) [Raw "a"; Raw "b"] None outer_writer s);
    [reflexivity..|intros c [= <-]; lia|exact Hst|exact Hw].
Defined.

(** A header set outside that the handler sets too reaches the client with both values, where
    without the middleware the handler's replaces the other. *)
Example flush_keeps_outer_value :
  let w0 := upd_header (hdr_set "Content-Type" "application/json") new_writer in
  let cs := [CSet "Content-Type" "text/plain"; CWrite (Raw "a")] in
  (finished (run_calls base_writer cs w0)).2 !! "Content-Type" = Some ["text/plain"]
  /\ (finished (flush some_json (run_calls timeout_writer cs new_tw) w0)).2 !! "Content-Type" = Some ["application/json"; "text/plain"].
Proof. vm_compute. done. Qed.

(** A second status overwrites the first in the buffer, where net/http keeps the first. *)
Example buffered_status_overwritten :
  rw_status (run_calls base_writer [CWriteHeader 404; CWriteHeader 200] new_writer) = Some 404
  /\ rw_status (flush some_json (run_calls timeout_writer [CWriteHeader 404; CWriteHeader 200] new_tw) new_writer) = Some 200.
Proof. done. Qed.

(** A panic of the handler ends its goroutine, out of reach of a recovery layer around the
    middleware: no step answers the client any more (the process dies). *)
Example handler_panic_never_answered tw rw s :
  ~ tmstep some_json (mkTm tw Crashed true true rw) s.
Proof. inversion 1; congruence. Qed.
