(* ===== verification/Fga.v ===== *)
(** * Fga: auth/fga — the client of the authorization service

    The HTTP client (the resilient one of resilience, modelled in HttpRetry) is
    an interface; everything else the package does is here: its configuration,
    the requests with their signed service identity, and how answers are read. *)

From S2P Require Import Prelude GoStrings GoFloat Http Json Errors Decode Backoff SqlQuery Request Auth Headers Url Response.

(** ** config.go, types.go *)

Record fga_Config := mkFga { BaseURL : string; fga_Timeout : Z; ServiceToken : string; SharedSecret : string; ServiceName : string }.

Definition SubjectType := string.
Record CheckRequest := mkCheck {
  cq_SubjectType : SubjectType; cq_SubjectID : string; cq_OrganisationID : string;
  cq_ResourceType : string; cq_ResourceID : string; cq_Relation : string
}.
(** PolicyRequest has the same fields and the same JSON. *)
Definition PolicyRequest := CheckRequest.
Record CheckResponse := mkCheckResp { Allowed : bool; cr_Subject : string; cr_Object : string; cr_Relation : string }.
Record PolicyAcceptedResponse := mkAccepted { pa_Status : string; pa_RequestID : string }.
Record ListPoliciesRequest := mkList {
  lq_SubjectType : SubjectType; lq_SubjectID : string; lq_OrganisationID : string; lq_ResourceType : string;
  lq_ResourceID : string; lq_PageSize : Z; lq_ContinuationToken : string
}.
Record PolicyTuple := mkTuple { pt_Subject : string; pt_Relation : string; pt_Object : string }.
Record ListPoliciesResponse := mkListResp { Tuples : list PolicyTuple; lr_ContinuationToken : string }.

Definition check_json (r : CheckRequest) : json :=
  JObj ([("subject_type", JStr (cq_SubjectType r)); ("subject_id", JStr (cq_SubjectID r))]
        ++ opt_string "organisation_id" (cq_OrganisationID r)
        ++ [("resource_type", JStr (cq_ResourceType r)); ("resource_id", JStr (cq_ResourceID r)); ("relation", JStr (cq_Relation r))]).
Definition member_json (userID : string) : json := JObj [("user_id", JStr userID)].

Definition dec_check : option json -> res CheckResponse := dec_struct (fun fs =>
  match dec_bool (jfield "allowed" fs), dec_string (jfield "subject" fs), dec_string (jfield "object" fs), dec_string (jfield "relation" fs) with
  | Ok a, Ok s, Ok o, Ok r => Ok (mkCheckResp a s o r)
  | _, _, _, _ => Err json_error
  end).
Definition dec_accepted : option json -> res PolicyAcceptedResponse := dec_struct (fun fs =>
  match dec_string (jfield "status" fs), dec_string (jfield "request_id" fs) with
  | Ok s, Ok r => Ok (mkAccepted s r)
  | _, _ => Err json_error
  end).
Definition dec_tuple (j : json) : res PolicyTuple := dec_struct (fun fs =>
  match dec_string (jfield "subject" fs), dec_string (jfield "relation" fs), dec_string (jfield "object" fs) with
  | Ok s, Ok r, Ok o => Ok (mkTuple s r o)
  | _, _, _ => Err json_error
  end) (Some j).
Definition dec_listing : option json -> res ListPoliciesResponse := dec_struct (fun fs =>
  match dec_list dec_tuple (jfield "tuples" fs), dec_string (jfield "continuation_token" fs) with
  | Ok l, Ok t => Ok (mkListResp l t)
  | _, _ => Err json_error
  end).

(** ** client.go *)

Definition fga_New (cfg : fga_Config) : res fga_Config :=
  if bool_decide (BaseURL cfg = EmptyString) then Err (NewErr "fga.New: BaseURL is required")
  else if negb (bool_decide (SharedSecret cfg = EmptyString)) && bool_decide (ServiceName cfg = EmptyString)
  then Err (NewErr "fga.New: ServiceName is required when SharedSecret is set")
  else Ok (mkFga (trim_right_char "/" (BaseURL cfg)) (if fga_Timeout cfg =? 0 then 2 * Second else fga_Timeout cfg)
             (ServiceToken cfg) (SharedSecret cfg) (ServiceName cfg)).

Record http_request := mkHttpReq { hq_method : string; hq_url : string; hq_header : headers; hq_body : option json }.
Class FgaHttp (W : Type) := {
  fga_now : W -> Z;
  fga_url_error : string -> error;                       (* http.NewRequest on a URL *)
  fga_Do : http_request -> W -> res (Z * string) * W     (* the status and the body read *)
}.

Section fga.
Variable hmac : string -> string -> string.
(** The order in which Apply ranges over a header map. *)
Variable range_keys : headers -> list string.
Context {W : Type} `{FgaHttp W}.
Variable cfg : fga_Config.

Definition service_user : DxUser := mkUser ("svc:" +:+ ServiceName cfg) "" "" ["service"] "" "" "" [].
Definition service_headers : HeadersConfig := mkHeadersCfg (SharedSecret cfg) [] 0.

(** The headers of a request. *)
Definition request_headers (has_body : bool) (now : Z) : res headers :=
  let h := if has_body then hdr_set "Content-Type" "application/json" ∅ else ∅ in
  let h := hdr_set "Accept" "application/json" h in
  let h := if bool_decide (ServiceToken cfg = EmptyString) then h else hdr_set "Authorization" ("Bearer " +:+ ServiceToken cfg) h in
  if bool_decide (SharedSecret cfg = EmptyString) then Ok h
  else match Sign hmac service_user service_headers now with
       | Err e => Err (wrapf "fga client: sign service identity" e)
       | Ok signed => Ok (Apply signed (range_keys signed) h)
       end.

(** The payload of a successful answer: under results, or else the whole body. *)
Definition read_answer {A} (dec : option json -> res A) (text : string) : res A :=
  if bool_decide (text = EmptyString) then dec None
  else
    let direct := match (match json_parse text with Some j => dec (Some j) | None => Err json_error end) with
                  | Ok a => Ok a | Err e => Err (wrapf "fga client: decode response" e) end in
    match json_parse text with
    | Some (JObj fs) => match jfield "results" fs with
                        | Some r => match dec (Some r) with Ok a => Ok a | Err e => Err (wrapf "fga client: decode results" e) end
                        | None => direct
                        end
    | _ => direct
    end.

(** do; [read] is what it does with the body of a successful answer. *)
Definition fga_do {A} (method path : string) (body : option json) (read : string -> res A) (w : W) : res A * W :=
  match fga_url_error (BaseURL cfg +:+ path) with
  | Some e => (Err (wrapf "fga client: new request" e), w)
  | None =>
      match request_headers (is_Some_b body) (fga_now w) with
      | Err e => (Err e, w)
      | Ok h =>
          match fga_Do (mkHttpReq method (BaseURL cfg +:+ path) h body) w with
          | (Err e, w) => (Err (wrapf ("fga client: " +:+ method +:+ " " +:+ path) e), w)
          | (Ok (status, text), w) =>
              if 400 <=? status
              then (Err (NewErr ("fga client: " +:+ method +:+ " " +:+ path +:+ ": status " +:+ itoa status +:+ ": " +:+ trim_space text)), w)
              else (read text, w)
          end
      end
  end.

Definition fga_Check (req : CheckRequest) : W -> res CheckResponse * W := fga_do "POST" "/v1/check" (Some (check_json req)) (read_answer dec_check).
Definition CreatePolicy (req : PolicyRequest) : W -> res PolicyAcceptedResponse * W :=
  fga_do "POST" "/v1/policies" (Some (check_json req)) (read_answer dec_accepted).
Definition DeletePolicy (req : PolicyRequest) : W -> res PolicyAcceptedResponse * W :=
  fga_do "DELETE" "/v1/policies" (Some (check_json req)) (read_answer dec_accepted).

Definition set_some (k v : string) (q : gmap string string) : gmap string string :=
  if bool_decide (v = EmptyString) then q else <[k := v]> q.
Definition list_filters (req : ListPoliciesRequest) : gmap string string :=
  let q := set_some "subject_type" (lq_SubjectType req) ∅ in
  let q := set_some "subject_id" (lq_SubjectID req) q in
  let q := set_some "organisation_id" (lq_OrganisationID req) q in
  let q := set_some "resource_type" (lq_ResourceType req) q in
  let q := set_some "resource_id" (lq_ResourceID req) q in
  let q := if 0 <? lq_PageSize req then <["page_size" := itoa (lq_PageSize req)]> q else q in
  set_some "continuation_token" (lq_ContinuationToken req) q.
Definition list_path (req : ListPoliciesRequest) : string :=
  let q := list_filters req in
  "/v1/policies" +:+ if bool_decide (q = ∅) then EmptyString else "?" +:+ Encode q.
Definition ListPolicies (req : ListPoliciesRequest) : W -> res ListPoliciesResponse * W := fga_do "GET" (list_path req) None (read_answer dec_listing).

(** Without an output the answer is not looked at. *)
Definition no_output (_ : string) : res unit := Ok tt.
Definition members_path (orgID groupID : string) : string := "/v1/groups/" +:+ PathEscape orgID +:+ "/" +:+ PathEscape groupID +:+ "/members".
Definition AddGroupMember (orgID groupID userID : string) (w : W) : error * W :=
  let '(r, w) := fga_do "POST" (members_path orgID groupID) (Some (member_json userID)) no_output w in
  (match r with Ok _ => None | Err e => Some e end, w).
Definition RemoveGroupMember (orgID groupID userID : string) (w : W) : error * W :=
  let '(r, w) := fga_do "DELETE" (members_path orgID groupID +:+ "/" +:+ PathEscape userID) None no_output w in
  (match r with Ok _ => None | Err e => Some e end, w).
End fga.

(** ** The service identity of a request *)

Lemma Apply_get signed keys h k :
  hdr_get (Apply signed keys h) k
  = if bool_decide (canonical_key k ∈ map canonical_key keys) then hdr_get signed k else hdr_get h k.
Proof.
  unfold Apply. revert h. induction keys as [|k' keys IH]; intros h; cbn [fold_left map].
  - by rewrite bool_decide_eq_false_2 by apply not_elem_of_nil.
  - rewrite IH. destruct (decide (canonical_key k = canonical_key k')) as [E|E].
    + rewrite (bool_decide_eq_true_2 (canonical_key k ∈ _ :: _)) by (rewrite E; left).
      case_bool_decide; [done|]. unfold hdr_get at 1, hdr_set. rewrite E, lookup_insert_eq. unfold hdr_get. by rewrite E.
    + rewrite hdr_get_set_ne by done. by rewrite (bool_decide_ext (canonical_key k ∈ map canonical_key keys)
        (canonical_key k ∈ canonical_key k' :: map canonical_key keys)) by (rewrite elem_of_cons; tauto).
Qed.

Section identity.
Variable hmac : string -> string -> string.
Variable range_keys : headers -> list string.
Hypothesis range_keys_all : forall m k, k ∈ range_keys m <-> is_Some (m !! k).

Lemma Apply_all signed h k : hdr_get h k = EmptyString -> hdr_get (Apply signed (range_keys signed) h) k = hdr_get signed k.
Proof.
  intros Hk. rewrite Apply_get. case_bool_decide as Hin; [done|]. rewrite Hk. unfold hdr_get.
  destruct (signed !! canonical_key k) as [vs|] eqn:E; [|done]. destruct Hin.
  rewrite <- canonical_idem. apply list_elem_of_In, in_map. by apply list_elem_of_In, range_keys_all.
Qed.

(** Every request of the client carries a service identity the service accepts: with a
    shared secret configured, the headers of the request verify at any service that holds the
    secret as its active or an additional key, from ten seconds before to max age after the
    request was made, as the user svc:<ServiceName> with the one role service. *)
Theorem fga_request_verifies cfg has_body tn h vcfg now :
  request_headers hmac range_keys cfg has_body tn = Ok h -> SharedSecret cfg <> EmptyString ->
  hmac (SharedSecret cfg) (minted_string (service_user cfg) tn) <> EmptyString ->
  SharedSecret cfg ∈ Secret vcfg :: AdditionalSecrets vcfg ->
  0 <= tn <= max_int64 -> 0 <= now <= max_int64 ->
  to_Unix tn * Second - 10 * Second <= now <= to_Unix tn * Second + max_age vcfg ->
  Verify hmac h vcfg now = Ok (mkUser ("svc:" +:+ ServiceName cfg) "" "" ["service"] "" "" "" []).
Proof.
  intros Hh Hsec Hmac Hkey Htn Hnow Hwin. unfold request_headers in Hh. rewrite (bool_decide_eq_false_2 (SharedSecret cfg = _)) in Hh by done.
  destruct (Sign hmac (service_user cfg) (service_headers cfg) tn) as [signed|e] eqn:Hs; [|done]. injection Hh as <-.
  change (mkUser _ _ _ _ _ _ _ _) with (carried (service_user cfg)).
  apply (Verify_minted hmac _ (service_headers cfg) tn signed); [done| |done..].
  unfold subject_headers. repeat constructor; apply Apply_all; destruct has_body, (bool_decide (ServiceToken cfg = EmptyString));
    rewrite !hdr_get_set_ne by done; apply hdr_get_empty.
Qed.
End identity.

(** ** The filters of a listing *)

(** The query of a request as the service reads it. *)
Definition server_query (path : string) : values := match cut "?" path with Some (_, raw) => url_query raw | None => ∅ end.

Lemma server_query_list req : server_query (list_path req) = (fun v => [v]) <$> list_filters req.
Proof.
  unfold server_query, list_path. case_bool_decide as E.
  - rewrite app_Empty_r, E. by rewrite fmap_empty.
  - change ("?" +:+ ?t) with (String "?" t). rewrite (cut_app_sep _ _ "?") by done. by apply url_query_Encode.
Qed.
Lemma values_get_single q k : values_get ((fun v => [v]) <$> q) k = default EmptyString (q !! k).
Proof. unfold values_get. rewrite lookup_fmap. by destruct (q !! k). Qed.
Lemma set_some_eq k v q : q !! k = None -> default EmptyString (set_some k v q !! k) = v.
Proof. unfold set_some. case_bool_decide; [intros ->; by subst|]. by rewrite lookup_insert_eq. Qed.
Lemma set_some_ne k k' v q : k <> k' -> set_some k v q !! k' = q !! k'.
Proof. unfold set_some. case_bool_decide; [done|]. intros. by rewrite lookup_insert_ne. Qed.

Lemma page_ne (b : bool) k k' v (q : gmap string string) : k <> k' -> (if b then <[k := v]> q else q) !! k' = q !! k'.
Proof. intros. destruct b; [by rewrite lookup_insert_ne|done]. Qed.
(** Look a filter up through the ones set after it. *)
Ltac peel_filters :=
  repeat first [rewrite set_some_eq; [reflexivity|] | rewrite set_some_ne by done | rewrite page_ne by done | rewrite lookup_empty];
  try done.

(** A listing asks for what the caller asked: the service reads back from the URL every
    filter with exactly its bytes, whatever they contain, absent filters as absent, and the page
    size only when it is positive. *)
Theorem ListPolicies_filters_read_back req :
  let q := server_query (list_path req) in
  values_get q "subject_type" = lq_SubjectType req /\ values_get q "subject_id" = lq_SubjectID req
  /\ values_get q "organisation_id" = lq_OrganisationID req /\ values_get q "resource_type" = lq_ResourceType req
  /\ values_get q "resource_id" = lq_ResourceID req /\ values_get q "continuation_token" = lq_ContinuationToken req
  /\ values_get q "page_size" = (if 0 <? lq_PageSize req then itoa (lq_PageSize req) else EmptyString)
  /\ forall k, is_Some (q !! k) -> k ∈ ["subject_type"; "subject_id"; "organisation_id"; "resource_type"; "resource_id"; "continuation_token"; "page_size"].
Proof.
  cbv zeta. rewrite server_query_list, !values_get_single. unfold list_filters.
  split_and!; [peel_filters..| |].
  - peel_filters. destruct (0 <? lq_PageSize req); [by rewrite lookup_insert_eq|]. peel_filters.
  - intros k [vs Hk]. rewrite lookup_fmap in Hk. rewrite !elem_of_cons.
    destruct (decide (k ∈ ["subject_type"; "subject_id"; "organisation_id"; "resource_type"; "resource_id"; "continuation_token"; "page_size"])) as [Hin|Hin];
      [by rewrite !elem_of_cons in Hin|]. exfalso. rewrite !not_elem_of_cons in Hin. destruct Hin as (?&?&?&?&?&?&?&_).
    by rewrite set_some_ne, page_ne, !set_some_ne, lookup_empty in Hk by done.
Qed.

(** What a service built on this library answers with is not what the client reads: the
    success envelope has its payload under result, the client looks under results, and reads
    the envelope itself as a denial. *)
Definition allowed_answer : json :=
  JObj [("allowed", JBool true); ("subject", JStr "user:u1"); ("object", JStr "item:i1"); ("relation", JStr "viewer")].
Definition envelope_text : string :=
  requote "{'type':'urn:dx:rs:success','title':'checked','result':{'allowed':true,'subject':'user:u1','object':'item:i1','relation':'viewer'}}".
Example Check_reads_envelope_as_denied :
  Ok <$> json_parse envelope_text = Some (response_json (envelope URNRsSuccess "checked" EmptyString (mkPayload (Ok allowed_answer) false)))
  /\ read_answer dec_check envelope_text = Ok (mkCheckResp false EmptyString EmptyString EmptyString)
  /\ read_answer dec_check (requote "{'results':{'allowed':true,'subject':'user:u1','object':'item:i1','relation':'viewer'}}")
     = Ok (mkCheckResp true "user:u1" "item:i1" "viewer").
Proof. vm_compute. done. Qed.

Definition fga_cfg : fga_Config := mkFga "http://authz:8080" (2 * Second) EmptyString "s3cret" "gateway".
Lemma fga_request_verifies_witness : exists h,
  request_headers (fun k m => k +:+ m) keys_of fga_cfg true (100 * Second) = Ok h
  /\ Verify (fun k m => k +:+ m) h (mkHeadersCfg "new" ["s3cret"] 0) (130 * Second) = Ok (mkUser "svc:gateway" "" "" ["service"] "" "" "" []).
Proof.
  eexists. split; [vm_compute; reflexivity|].
  apply (fga_request_verifies (fun k m => k +:+ m) keys_of elem_of_keys_of fga_cfg true (100 * Second)).
  - vm_compute. reflexivity.
  - discriminate.
  - discriminate.
  - apply (bool_decide_unpack _). exact I.
  - vm_compute. by split.
  - vm_compute. by split.
  - vm_compute. by split.
Defined.
