(* ===== verification/Auditing.v ===== *)
(** * Auditing: auditing, notify/email and middleware/audit.go

    Records and email requests leave through an interface, [JsonPublisher],
    which the reliable publisher of messaging/rabbitmq implements.  The audit
    middleware gives the handler a record it may fill in, shared by reference;
    a handler here returns the record as it left it.  The audit worker of the
    middleware package is a bounded queue drained by a goroutine; [astep]
    interleaves senders, the drain loop and Stop. *)

From S2P Require Import Prelude GoStrings GoFloat Http Json Errors Backoff Auth Regexp Middleware Timeout Response Amqp.

(** ** The publishing capability *)

Class JsonPublisher (P W : Type) := { publish_json : P -> string -> string -> res json -> W -> error * P * W }.

(** PublishJSON of the reliable publisher; [render] is json.Marshal's text. *)
#[export] Instance reliable_json {W} `{Amqp W} (render : json -> string) : JsonPublisher ReliablePublisher W := {|
  publish_json p exchange key v w := rp_PublishJSON exchange key (match v with Ok j => Ok (render j) | Err e => Err e end) p w
|}.

(** ** notify/email *)

Definition DefaultQueue : string := "email-notification".
Definition TemplateTypePath : string := "PATH".
Definition TemplateTypeInline : string := "INLINE".
Record email_Request := mkEmail {
  ConsumerUserID : string; TemplateType : string; TemplateStructure : string; IsCreated : bool; ProviderUserID : string;
  em_AssetType : string; ItemID : string; ShortDescription : string; em_Status : string; em_AssetName : string; ExpiryAt : string
}.
Definition email_json (r : email_Request) : json :=
  JObj ([("consumerUserId", JStr (ConsumerUserID r)); ("templateType", JStr (TemplateType r));
         ("templateStructure", JStr (TemplateStructure r)); ("isCreated", JBool (IsCreated r))]
        ++ opt_string "providerUserId" (ProviderUserID r) ++ opt_string "assetType" (em_AssetType r) ++ opt_string "itemId" (ItemID r)
        ++ opt_string "shortDescription" (ShortDescription r) ++ opt_string "status" (em_Status r)
        ++ opt_string "assetName" (em_AssetName r) ++ opt_string "expiryAt" (ExpiryAt r)).

Definition email_validate (r : email_Request) : error :=
  if bool_decide (ConsumerUserID r = EmptyString) then Some (NewErr "email: consumerUserId is required")
  else if negb (bool_decide (TemplateType r = TemplateTypePath)) && negb (bool_decide (TemplateType r = TemplateTypeInline))
  then Some (NewErr "email: templateType must be PATH or INLINE")
  else if bool_decide (TemplateStructure r = EmptyString) then Some (NewErr "email: templateStructure is required")
  else None.

Record email_Config := mkEmailCfg { em_Enabled : bool; em_Queue : string; cfg_TemplateType : string; cfg_TemplateStructure : string }.
Definition NewNotifier (cfg : email_Config) : email_Config :=
  mkEmailCfg (em_Enabled cfg) (if bool_decide (em_Queue cfg = EmptyString) then DefaultQueue else em_Queue cfg)
    (cfg_TemplateType cfg) (cfg_TemplateStructure cfg).

Definition or_default (s d : string) : string := if bool_decide (s = EmptyString) then d else s.
Definition with_template (cfg : email_Config) (r : email_Request) : email_Request :=
  mkEmail (ConsumerUserID r) (or_default (TemplateType r) (cfg_TemplateType cfg)) (or_default (TemplateStructure r) (cfg_TemplateStructure cfg))
    (IsCreated r) (ProviderUserID r) (em_AssetType r) (ItemID r) (ShortDescription r) (em_Status r) (em_AssetName r) (ExpiryAt r).

Section email.
Context {P W : Type} `{JsonPublisher P W}.
(** Send; None is the nil notifier. *)
Definition Send (n : option email_Config) (p : P) (req : email_Request) (w : W) : error * P * W :=
  match n with
  | None => (None, p, w)
  | Some cfg =>
      if negb (em_Enabled cfg) then (None, p, w)
      else
        let req := with_template cfg req in
        match email_validate req with
        | Some e => (Some e, p, w)
        | None => match publish_json p EmptyString (em_Queue cfg) (Ok (email_json req)) w with
                  | (Some e, p, w) => (Some (wrapf "email: publish" e), p, w)
                  | (None, p, w) => (None, p, w)
                  end
        end
  end.
End email.

(** ** auditing/record.go *)

Definition LogTypeUserAction : string := "USER_ACTION".

(** A date and time of the proleptic Gregorian calendar, from days since 1970-01-01. *)
Definition civil (days : Z) : Z * Z * Z :=
  let z := days + 719468 in
  let era := z / 146097 in
  let doe := z - era * 146097 in
  let yoe := (doe - doe / 1460 + doe / 36524 - doe / 146096) / 365 in
  let doy := doe - (365 * yoe + yoe / 4 - yoe / 100) in
  let mp := (5 * doy + 2) / 153 in
  let d := doy - (153 * mp + 2) / 5 + 1 in
  let m := if mp <? 10 then mp + 3 else mp - 9 in
  (yoe + era * 400 + (if m <=? 2 then 1 else 0), m, d).
(** Decimal digits with leading zeros. *)
Fixpoint padded (width : nat) (n : Z) : string :=
  match width with O => EmptyString | S k => padded k (n / 10) +:+ String (digit_char (n mod 10)) EmptyString end.
(** t.UTC().Format("2006-01-02T15:04:05.000000"), for years of four digits. *)
Definition format_created (t : Z) : string :=
  let s := t / Second in
  let '(y, m, d) := civil (s / 86400) in
  let sod := s mod 86400 in
  padded 4 y +:+ "-" +:+ padded 2 m +:+ "-" +:+ padded 2 d +:+ "T" +:+ padded 2 (sod / 3600) +:+ ":" +:+ padded 2 (sod / 60 mod 60)
  +:+ ":" +:+ padded 2 (sod mod 60) +:+ "." +:+ padded 6 (t mod Second / 1000).
Example format_created_sample :
  format_created 0 = "1970-01-01T00:00:00.000000" /\ format_created (1709210096 * Second + 123456789) = "2024-02-29T12:34:56.123456".
Proof. vm_compute. done. Qed.

Record AuditRecord := mkRecord {
  rec_ID : string; rec_UserID : string; rec_UserName : string; rec_Role : string; rec_Issuer : string; rec_OrgID : string;
  rec_OrgName : string; rec_OrgType : string; rec_AppID : string; rec_DelegatorID : string; rec_DelegatorRole : string;
  rec_API : string; rec_Method : string; rec_Action : string; rec_OriginServer : string;
  rec_AssetID : string; rec_AssetName : string; rec_AssetShortDescription : string; rec_AssetType : string;
  rec_AssetAccessPolicy : string; rec_AssetOrgID : string; rec_AssetOrgName : string; rec_AssetOrgType : string;
  rec_AssetProviderID : string; rec_AssetProviderName : string;
  rec_SizeBytes : Z; rec_Amount : string; rec_RequestID : string; rec_LogType : string; rec_SandboxType : string;
  rec_IPAddress : string; rec_UserAgent : string; rec_CreatedAt : string; rec_Context : option json
}.
Definition opt_num (name : string) (n : Z) : list (string * json) := if n =? 0 then [] else [(name, JNum n)].
Definition record_json (r : AuditRecord) : json := JObj
  (opt_string "id" (rec_ID r) ++ opt_string "user_id" (rec_UserID r) ++ opt_string "user_name" (rec_UserName r)
   ++ opt_string "role" (rec_Role r) ++ opt_string "issuer" (rec_Issuer r) ++ opt_string "org_id" (rec_OrgID r)
   ++ opt_string "org_name" (rec_OrgName r) ++ opt_string "org_type" (rec_OrgType r) ++ opt_string "app_id" (rec_AppID r)
   ++ opt_string "delegator_id" (rec_DelegatorID r) ++ opt_string "delegator_role" (rec_DelegatorRole r)
   ++ opt_string "api" (rec_API r) ++ opt_string "method" (rec_Method r) ++ opt_string "action" (rec_Action r)
   ++ opt_string "origin_server" (rec_OriginServer r) ++ opt_string "asset_id" (rec_AssetID r) ++ opt_string "asset_name" (rec_AssetName r)
   ++ opt_string "asset_sort_discription" (rec_AssetShortDescription r) ++ opt_string "asset_type" (rec_AssetType r)
   ++ opt_string "asset_access_policy" (rec_AssetAccessPolicy r) ++ opt_string "asset_org_id" (rec_AssetOrgID r)
   ++ opt_string "asset_org_name" (rec_AssetOrgName r) ++ opt_string "asset_org_type" (rec_AssetOrgType r)
   ++ opt_string "asset_provider_id" (rec_AssetProviderID r) ++ opt_string "asset_provider_name" (rec_AssetProviderName r)
   ++ opt_num "size_bytes" (rec_SizeBytes r) ++ opt_string "amount" (rec_Amount r) ++ opt_string "request_id" (rec_RequestID r)
   ++ opt_string "log_type" (rec_LogType r) ++ opt_string "sandbox_type" (rec_SandboxType r) ++ opt_string "ip_address" (rec_IPAddress r)
   ++ opt_string "user_agent" (rec_UserAgent r) ++ opt_string "created_at" (rec_CreatedAt r)
   ++ match rec_Context r with Some j => [("context", j)] | None => [] end).

Definition rolePrecedence : list string := ["cos_admin"; "org_admin"; "provider"; "consumer"].
Definition EffectiveRole (roles : list string) : string :=
  match List.find (fun want => bool_decide (want ∈ roles)) rolePrecedence with
  | Some want => want
  | None => match roles with r :: _ => r | [] => EmptyString end
  end.

Section record.
(** uuid.Parse succeeds. *)
Variable uuid_Parse : string -> bool.

Definition if_uuid (id v : string) : string := if uuid_Parse id then v else EmptyString.
Definition BaseRecord (newID : string) (now : Z) (user : DxUser) (originServer api method ip userAgent requestID : string) : AuditRecord :=
  let e := EmptyString in
  mkRecord newID (if_uuid (user_ID user) (user_ID user)) (user_Name user) (EffectiveRole (user_Roles user)) e
    (if_uuid (OrganisationID user) (OrganisationID user)) (if_uuid (OrganisationID user) (OrganisationName user)) e e
    (if_uuid (DelegatorID user) (DelegatorID user)) e api method e originServer e e e e e e e e e e 0 e
    (if_uuid requestID requestID) LogTypeUserAction e ip userAgent (format_created now) None.

Definition set_action (action : string) (r : AuditRecord) : AuditRecord :=
  mkRecord (rec_ID r) (rec_UserID r) (rec_UserName r) (rec_Role r) (rec_Issuer r) (rec_OrgID r) (rec_OrgName r) (rec_OrgType r) (rec_AppID r)
    (rec_DelegatorID r) (rec_DelegatorRole r) (rec_API r) (rec_Method r) action (rec_OriginServer r) (rec_AssetID r) (rec_AssetName r)
    (rec_AssetShortDescription r) (rec_AssetType r) (rec_AssetAccessPolicy r) (rec_AssetOrgID r) (rec_AssetOrgName r) (rec_AssetOrgType r)
    (rec_AssetProviderID r) (rec_AssetProviderName r) (rec_SizeBytes r) (rec_Amount r) (rec_RequestID r) (rec_LogType r) (rec_SandboxType r)
    (rec_IPAddress r) (rec_UserAgent r) (rec_CreatedAt r) (rec_Context r).
(** SetAction on the record of the context; None where auditing is not wired. *)
Definition SetAction (ctx : option AuditRecord) (action : string) : option AuditRecord := set_action action <$> ctx.

(** ** auditing/middleware.go *)

(** Everything before the last colon, unless a closing bracket comes behind it. *)
Fixpoint clientIP_rev (rev_host : list ascii) : option (list ascii) :=
  match rev_host with
  | [] => None
  | c :: rest => if Ascii.eqb c ":" then Some rest else if Ascii.eqb c "]" then None else clientIP_rev rest
  end.
Definition clientIP (remoteAddr : string) : string :=
  match clientIP_rev (List.rev (String.list_ascii_of_string remoteAddr)) with
  | Some rest => String.string_of_list_ascii (List.rev rest)
  | None => remoteAddr
  end.

Definition statusesToAudit : list Z := [StatusOK; StatusCreated; StatusNoContent].

Definition statusWriter {S} (wr : writer S) : writer (S * Z) := {|
  w_Header s := w_Header wr s.1;
  w_updHeader f s := (w_updHeader wr f s.1, s.2);
  w_WriteHeader code s := (w_WriteHeader wr code s.1, code);
  w_Write c s := (w_Write wr c s.1, s.2)
|}.

(** A handler that may change the record it is given. *)
Definition ahandler (W : Type) := forall S : Type, writer S -> hreq -> AuditRecord -> S -> W -> S * W * option panicv * AuditRecord.
(** Goroutines started to publish a record. *)
Class Spawner (W : Type) := { spawn_publish : AuditRecord -> W -> W }.

Definition zero_user : DxUser := mkUser "" "" "" [] "" "" "" [].
Definition base_record {W} `{MwWorld W} (originServer : string) (req : hreq) (w : W) : AuditRecord * W :=
  let '(id, w) := new_uuid w in
  (BaseRecord id (mw_now w) (default zero_user (hr_user req)) originServer (Path req) (Method req) (clientIP (RemoteAddr req))
     (hdr_get (hr_Header req) "User-Agent") (RequestIDFromCtx req), w).
Definition audited (pub : bool) (rec : AuditRecord) (status : Z) : bool :=
  pub && negb (bool_decide (rec_Action rec = EmptyString)) && bool_decide (status ∈ statusesToAudit).

(** Middleware; [pub] tells whether there is a publisher. *)
Definition audit_Middleware {W} `{MwWorld W} `{Spawner W} (pub : bool) (originServer : string) (next : ahandler W) : mhandler W :=
  fun S wr req s w =>
    let '(rec, w) := base_record originServer req w in
    match next _ (statusWriter wr) req rec (s, StatusOK) w with
    | (s, _, w, Some p, _) => (s, w, Some p)
    | (s, status, w, None, rec) => (s, if audited pub rec status then spawn_publish rec w else w, None)
    end.

(** ** auditing/publisher.go, gatewayevent.go *)

Record audit_Config := mkAuditCfg { au_Enabled : bool; au_URL : string; au_Exchange : string; au_RoutingKey : string }.
Definition applyDefaults (c : audit_Config) : audit_Config :=
  mkAuditCfg (au_Enabled c) (au_URL c) (or_default (au_Exchange c) "auditing") (or_default (au_RoutingKey c) "##").

Record Publisher := mkPubl { pu_pub : ReliablePublisher; pu_exchange : string; pu_routingKey : string }.
Definition NewPublisher {W} `{Amqp W} (cfg : audit_Config) (w : W) : res (option Publisher) * W :=
  if negb (au_Enabled cfg) then (Ok None, w)
  else
    let cfg := applyDefaults cfg in
    match NewReliablePublisher (mkPubCfg (au_URL cfg) (au_Exchange cfg) "topic" false) w with
    | (Err e, w) => (Err e, w)
    | (Ok p, w) => (Ok (Some (mkPubl p (au_Exchange cfg) (au_RoutingKey cfg))), w)
    end.

Record GatewayEvent := mkEvent {
  ge_RequestID : string; ge_Event : string; ge_UserID : string; ge_Method : string; ge_API : string; ge_Status : Z; ge_AuthPath : string;
  ge_FgaRelation : string; ge_FgaResource : string; ge_Upstream : string; ge_IPAddress : string; ge_UserAgent : string;
  ge_Detail : option json; ge_CreatedAt : string
}.
Definition NewGatewayEvent (event : string) (now : Z) : GatewayEvent :=
  let e := EmptyString in mkEvent e event e e e 0 e e e e e e None (format_created now).
Definition event_json (g : GatewayEvent) : json := JObj
  (opt_string "request_id" (ge_RequestID g) ++ [("event", JStr (ge_Event g))] ++ opt_string "user_id" (ge_UserID g)
   ++ opt_string "method" (ge_Method g) ++ opt_string "api" (ge_API g) ++ opt_num "status" (ge_Status g)
   ++ opt_string "auth_path" (ge_AuthPath g) ++ opt_string "fga_relation" (ge_FgaRelation g) ++ opt_string "fga_resource" (ge_FgaResource g)
   ++ opt_string "upstream" (ge_Upstream g) ++ opt_string "ip_address" (ge_IPAddress g) ++ opt_string "user_agent" (ge_UserAgent g)
   ++ match ge_Detail g with Some j => [("detail", j)] | None => [] end ++ opt_string "created_at" (ge_CreatedAt g)).

(** Publish and PublishEvent: the error is only logged, which [failed] counts. *)
Definition publish_value {W} `{Amqp W} (render : json -> string) (p : option Publisher) (v : option json) (w : W) : bool * option Publisher * W :=
  match p, v with
  | Some p, Some j =>
      match @publish_json _ _ (reliable_json render) (pu_pub p) (pu_exchange p) (pu_routingKey p) (Ok j) w with
      | (Some _, rp, w) => (true, Some (mkPubl rp (pu_exchange p) (pu_routingKey p)), w)
      | (None, rp, w) => (false, Some (mkPubl rp (pu_exchange p) (pu_routingKey p)), w)
      end
  | _, _ => (false, p, w)
  end.
Definition audit_Publish {W} `{Amqp W} render p (rec : option AuditRecord) (w : W) := publish_value render p (record_json <$> rec) w.
Definition PublishEvent {W} `{Amqp W} render p (ev : option GatewayEvent) (w : W) := publish_value render p (event_json <$> ev) w.
Definition audit_Close {W} `{Amqp W} (p : option Publisher) (w : W) : W := match p with Some p => rp_Close (pu_pub p) w | None => w end.
End record.

(** ** What is audited *)

(** The highest role of the precedence list that the user has; the first role otherwise. *)
Lemma EffectiveRole_highest (roles : list string) :
  match List.find (fun want => bool_decide (want ∈ roles)) rolePrecedence with
  | Some r => r ∈ roles /\ exists before after, rolePrecedence = before ++ r :: after /\ Forall (fun q => q ∉ roles) before
  | None => Forall (fun q => q ∉ roles) rolePrecedence
  end.
Proof.
  generalize rolePrecedence as l. intros l. induction l as [|q l IH]; cbn; [constructor|].
  case_bool_decide as Hq; [split; [done|]; by exists [], l|].
  destruct (List.find _ l) as [r|].
  - destruct IH as (Hr & before & after & -> & Hb). split; [done|]. exists (q :: before), after. by repeat constructor.
  - by constructor.
Qed.

Definition aleaf {W} (h : hreq -> AuditRecord -> list call * option panicv * AuditRecord) : ahandler W := fun S wr req rec s w =>
  let '(cs, p, rec) := h req rec in (run_calls wr cs s, w, p, rec).

(** The status writer follows the response and keeps the last status. *)
Definition last_status (cs : list call) (status : Z) : Z :=
  fold_left (fun st c => match c with CWriteHeader code => code | _ => st end) cs status.
Lemma statusWriter_run {S} (wr : writer S) cs s status :
  run_calls (statusWriter wr) cs (s, status) = (run_calls wr cs s, last_status cs status).
Proof.
  revert s status. induction cs as [|c cs IH]; intros s status; [done|]. unfold run_calls, last_status in *. cbn [fold_left].
  rewrite <- IH. by destruct c.
Qed.
Lemma last_status_orderly hs code body w0 : forallb header_call hs = true -> rw_sent w0 = None ->
  last_status (orderly hs code body) StatusOK = (finished (run_calls base_writer (orderly hs code body) w0)).1.
Proof.
  intros Hh Hs. unfold orderly, last_status. rewrite !fold_left_app, !run_calls_app, (base_headers_run hs) by done. rewrite Hs.
  assert (Hhs : fold_left (fun st c => match c with CWriteHeader code => code | _ => st end) hs StatusOK = StatusOK).
  { clear Hs. induction hs as [|c hs IH]; [done|]. cbn in Hh. bools. destruct c; cbn; auto; done. }
  assert (Hb : forall st, fold_left (fun st c => match c with CWriteHeader code => code | _ => st end) (map CWrite body) st = st).
  { intros st. induction body as [|b body IH]; [done|]. cbn. exact IH. }
  rewrite Hhs, Hb. destruct code as [c|]; cbn [fold_left run_calls].
  - change (fold_left (do_call base_writer) ?l ?x) with (run_calls base_writer l x). by rewrite (base_writes _ _ (c, header_run hs (rw_header w0))).
  - change (fold_left (do_call base_writer) ?l ?x) with (run_calls base_writer l x). destruct body as [|b body]; [done|].
    change (run_calls base_writer (map CWrite (b :: body)) ?w) with (run_calls base_writer (map CWrite body) (write_chunk b w)).
    by rewrite (base_writes _ _ (200, header_run hs (rw_header w0))).
Qed.

(** Auditing is invisible and exact: the client gets the response the handler sends without
    the middleware, and one record, the one the handler filled in, is handed to the publisher
    exactly when there is a publisher, the handler returned without a panic, set an action, and
    the client's status is 200, 201 or 204. *)
Theorem audit_published_iff {W} `{MwWorld W} `{Spawner W} uuid_Parse pub origin h req w0 (w : W) rec0 w1 hs code body p rec :
  base_record uuid_Parse origin req w = (rec0, w1) -> h req rec0 = (orderly hs code body, p, rec) ->
  forallb header_call hs = true -> rw_sent w0 = None ->
  let response := run_calls base_writer (orderly hs code body) w0 in
  let publish := pub && bool_decide (p = None) && negb (bool_decide (rec_Action rec = EmptyString))
                 && bool_decide ((finished response).1 ∈ [200; 201; 204]) in
  audit_Middleware uuid_Parse pub origin (aleaf h) _ base_writer req w0 w = (response, if publish then spawn_publish rec w1 else w1, p).
Proof.
  intros Hb Hh Hhs Hs. cbv zeta. unfold audit_Middleware, aleaf. rewrite Hb, Hh, statusWriter_run.
  rewrite (last_status_orderly hs code body w0) by done. unfold audited. destruct p as [p|].
  - rewrite (bool_decide_eq_false_2 (Some p = None)) by done. by rewrite andb_false_r.
  - rewrite (bool_decide_eq_true_2 (None = None)) by done. by rewrite andb_true_r.
Qed.

(** Identifiers of the base record are valid or absent. *)
Lemma BaseRecord_uuids uuid_Parse id now u o a m ip ua rid :
  let r := BaseRecord uuid_Parse id now u o a m ip ua rid in
  Forall (fun v => v = EmptyString \/ uuid_Parse v = true) [rec_UserID r; rec_OrgID r; rec_DelegatorID r; rec_RequestID r].
Proof. cbv zeta. cbn. unfold if_uuid. rewrite !Forall_cons. split_and!; try case_match; auto. Qed.

(** ** middleware/audit.go *)

Record AuditEvent := mkAE {
  ae_RequestID : string; ae_UserID : string; ae_Action : string; ae_Resource : string; ae_ResourceID : string;
  ae_Method : string; ae_Path : string; ae_StatusCode : Z; ae_Timestamp : Z
}.

(** A worker: its channel, and what happened to the events so far.  The drain loop holds the
    event it is emitting. *)
Record AuditWorker := mkWorker {
  aw_cap : Z; aw_queue : list AuditEvent; aw_closed : bool; aw_current : option AuditEvent; aw_exited : bool;
  aw_accepted : list AuditEvent; aw_dropped : list AuditEvent; aw_emitted : list AuditEvent
}.
Definition NewAuditWorker (queueSize : Z) : AuditWorker :=
  mkWorker (if queueSize <=? 0 then 256 else queueSize) [] false None false [] [] [].

(** Send: the event is dropped when the queue is full; None is the panic of a closed channel. *)
Definition worker_Send (event : AuditEvent) (a : AuditWorker) : option AuditWorker :=
  if aw_closed a then None
  else if Z.of_nat (length (aw_queue a)) <? aw_cap a
  then Some (mkWorker (aw_cap a) (aw_queue a ++ [event]) false (aw_current a) (aw_exited a) (aw_accepted a ++ [event]) (aw_dropped a) (aw_emitted a))
  else Some (mkWorker (aw_cap a) (aw_queue a) false (aw_current a) (aw_exited a) (aw_accepted a) (aw_dropped a ++ [event]) (aw_emitted a)).

Inductive astep : AuditWorker -> AuditWorker -> Prop :=
| A_send event a a' : worker_Send event a = Some a' -> astep a a'
| A_take cap event q cl acc dr em :            (* for event := range w.events *)
    astep (mkWorker cap (event :: q) cl None false acc dr em) (mkWorker cap q cl (Some event) false acc dr em)
| A_emit cap q cl event acc dr em :            (* w.emitter.Emit, its error logged or not *)
    astep (mkWorker cap q cl (Some event) false acc dr em) (mkWorker cap q cl None false acc dr (em ++ [event]))
| A_close cap q cur ex acc dr em :             (* Stop: close(w.events) *)
    astep (mkWorker cap q false cur ex acc dr em) (mkWorker cap q true cur ex acc dr em)
| A_exit cap acc dr em :                       (* the loop ends, w.wg.Done() *)
    astep (mkWorker cap [] true None false acc dr em) (mkWorker cap [] true None true acc dr em).
Inductive asteps : AuditWorker -> AuditWorker -> Prop :=
| as_refl a : asteps a a
| as_step a b c : asteps a b -> astep b c -> asteps a c.

(** AuditWithWorker: the event of a request that was handled without a panic. *)
Definition audit_event {W} `{MwWorld W} (resource action : string) (r : hreq) (status : Z) (w : W) : AuditEvent :=
  mkAE (RequestIDFromCtx r) (user_ID (default zero_user (hr_user r))) action resource EmptyString (Method r) (Path r) status (mw_now w).
Definition AuditWithWorker {W} `{MwWorld W} (render : json -> string) (send : AuditEvent -> W -> W) (resource action : string) : mware W :=
  fun next S wr r s w =>
    match next _ (responseWriter render wr) r (s, (StatusOK, 0)) w with
    | (s, _, w, Some p) => (s, w, Some p)
    | (s, (status, _), w, None) => (s, send (audit_event resource action r status w) w, None)
    end.

(** Audit: a worker of its own, which nothing can stop. *)
Definition Audit {W} `{MwWorld W} (render : json -> string) (start : AuditWorker -> AuditEvent -> W -> W) (resource action : string) : mware W :=
  AuditWithWorker render (start (NewAuditWorker 256)) resource action.
(** LogAuditEmitter.Emit: the fields of the log line, the status and the time as numbers; it never fails. *)
Definition log_Emit (e : AuditEvent) : list (string * (string + Z)) * error :=
  ([("request_id", inl (ae_RequestID e)); ("user_id", inl (ae_UserID e)); ("action", inl (ae_Action e)); ("resource", inl (ae_Resource e));
    ("resource_id", inl (ae_ResourceID e)); ("method", inl (ae_Method e)); ("path", inl (ae_Path e));
    ("status_code", inr (ae_StatusCode e)); ("timestamp", inr (ae_Timestamp e))], None).

(** Nothing accepted is lost or repeated, and the queue stays within its size. *)
Definition ainv (a : AuditWorker) : Prop :=
  aw_accepted a = aw_emitted a ++ option_list (aw_current a) ++ aw_queue a
  /\ Z.of_nat (length (aw_queue a)) <= aw_cap a /\ (aw_exited a = true -> aw_queue a = [] /\ aw_current a = None /\ aw_closed a = true).

Lemma astep_inv a b : ainv a -> astep a b -> ainv b.
Proof.
  intros (Ha & Hq & He) Hst. destruct Hst as [event a a' Hs|cap event q cl acc dr em|cap q cl event acc dr em|cap q cur ex acc dr em|cap acc dr em].
  - unfold worker_Send in Hs. destruct (aw_closed a) eqn:Hc; [done|].
    assert (Hex : aw_exited a = false) by (destruct (aw_exited a); [by destruct (He eq_refl) as (_ & _ & ?)|done]).
    destruct (_ <? _) eqn:Hl; injection Hs as <-; bools; unfold ainv; cbn; rewrite Hex; (split; [|split]); try done.
    + by rewrite Ha, <- !app_assoc.
    + rewrite length_app. cbn. lia.
  - cbn in *. split_and!; cbn; [by rewrite Ha|lia|done].
  - cbn in *. split_and!; cbn; [by rewrite Ha, <- app_assoc|done|done].
  - cbn in *. split_and!; cbn; [done|done|]. intros ->. destruct (He eq_refl) as (? & ? & ?). by split_and!.
  - cbn in *. by split_and!.
Qed.

Lemma as_trans a b c : asteps a b -> asteps b c -> asteps a c.
Proof. intros H1 H2. induction H2 as [b|b c d _ IH Hst]; [done|]. eapply as_step; [by apply IH|done]. Qed.
(** The drain loop of a closed channel: it emits the event it holds, then the queue. *)
Lemma drain_finishes cap q cur acc dr em : exists a, asteps (mkWorker cap q true cur false acc dr em) a
  /\ aw_exited a = true /\ aw_accepted a = acc /\ aw_emitted a = em ++ option_list cur ++ q.
Proof.
  revert cur em. induction q as [|event q IH]; intros cur em.
  - destruct cur as [event|]; eexists.
    + split; [eapply as_step; [eapply as_step; [apply as_refl|apply A_emit]|apply A_exit]|]. auto.
    + split; [eapply as_step; [apply as_refl|apply A_exit]|]. cbn. rewrite app_nil_r. auto.
  - assert (Htake : forall em, exists a, asteps (mkWorker cap (event :: q) true None false acc dr em) a
        /\ aw_exited a = true /\ aw_accepted a = acc /\ aw_emitted a = em ++ event :: q).
    { intros em'. destruct (IH (Some event) em') as (a & Hs & He). exists a. split; [|done].
      eapply as_trans; [eapply as_step; [apply as_refl|apply A_take]|exact Hs]. }
    destruct cur as [held|]; [|by destruct (Htake em) as (a & Hs & He); exists a].
    destruct (Htake (em ++ [held])) as (a & Hs & He & Ha & Hem). exists a.
    split; [eapply as_trans; [eapply as_step; [apply as_refl|apply A_emit]|exact Hs]|]. split; [done|]. split; [done|].
    by rewrite Hem, <- app_assoc.
Qed.

(** C20. Delivery: however senders, the drain loop and Stop interleave, the emitted events are
    always a prefix of the accepted ones, in order and none twice, the queue never exceeds its
    size, and when Stop has returned every accepted event was emitted; an event is lost only by
    being refused at a full queue.  And Stop always can return: once the channel is closed the
    drain loop, left alone, emits what is queued and ends. *)
Theorem audit_worker_delivers size a :
  asteps (NewAuditWorker size) a ->
  (exists rest, aw_accepted a = aw_emitted a ++ rest) /\ Z.of_nat (length (aw_queue a)) <= aw_cap a
  /\ (aw_exited a = true -> aw_emitted a = aw_accepted a)
  /\ (aw_closed a = true -> exists a', asteps a a' /\ aw_exited a' = true /\ aw_accepted a' = aw_accepted a /\ aw_emitted a' = aw_accepted a).
Proof.
  intros Hst. assert (Hinv : ainv a).
  { remember (NewAuditWorker size) as a0 eqn:E. induction Hst as [|a b c _ IH Hst]; [|by eapply astep_inv; eauto].
    subst. split_and!; cbn; [done| |done]. destruct (size <=? 0) eqn:Hs; bools; lia. }
  destruct Hinv as (Ha & Hq & He). split; [by eexists|]. split; [done|].
  assert (Hdone : aw_exited a = true -> aw_emitted a = aw_accepted a).
  { intros Hex. destruct (He Hex) as (Hq' & Hc & _). rewrite Ha, Hq', Hc. cbn. by rewrite app_nil_r. }
  split; [done|]. intros Hcl. destruct a as [cap q cl cur ex acc dr em]. cbn in *. destruct ex.
  - eexists. split; [apply as_refl|]. auto.
  - subst cl. destruct (drain_finishes cap q cur acc dr em) as (a' & Hs & Hx & Hacc & Hem).
    exists a'. split; [done|]. split; [done|]. split; [done|]. by rewrite Hem, Ha.
Qed.

(** A queue of one: the second event is refused, the first survives the shutdown. *)
Definition an_event (path : string) : AuditEvent := mkAE "r" "u" "read" "item" EmptyString "GET" path 200 0.
Lemma audit_worker_delivers_witness : exists a, asteps (NewAuditWorker 1) a /\ aw_exited a = true
  /\ aw_emitted a = aw_accepted a /\ aw_emitted a = [an_event "/a"] /\ aw_dropped a = [an_event "/b"].
Proof.
  assert (Hst : exists a, asteps (NewAuditWorker 1) a /\ aw_exited a = true /\ aw_emitted a = [an_event "/a"] /\ aw_dropped a = [an_event "/b"]).
  { eexists. split; [|split; [|split]].
    - eapply as_step; [eapply as_step; [eapply as_step; [eapply as_step; [eapply as_step; [eapply as_step; [apply as_refl
        |apply (A_send (an_event "/a")); reflexivity]|apply (A_send (an_event "/b")); reflexivity]|apply A_close]|apply A_take]|apply A_emit]|apply A_exit].
    - reflexivity.
    - reflexivity.
    - reflexivity. }
  destruct Hst as (a & Hst & Hex & He & Hd). exists a. split; [exact Hst|]. split; [exact Hex|].
  split; [exact (proj1 (proj2 (proj2 (audit_worker_delivers 1 a Hst))) Hex)|]. split; [exact He|exact Hd].
Defined.

(** A request finished after Stop panics in Send. *)
Example Send_after_Stop_panics event : exists a, asteps (NewAuditWorker 0) a /\ worker_Send event a = None.
Proof. eexists. split; [eapply as_step; [apply as_refl|apply A_close]|reflexivity]. Qed.

(** ** An audited request *)

#[local] Instance plain_world : MwWorld (list AuditRecord) := {| mw_now _ := 0; new_uuid w := ("id-1", w); mw_log _ w := w |}.
#[local] Instance plain_spawner : Spawner (list AuditRecord) := {| spawn_publish r w := r :: w |}.
Definition creating (req : hreq) (rec : AuditRecord) : list call * option panicv * AuditRecord :=
  (orderly [] (Some 201) [Raw "made"], None, set_action "create" rec).
Definition rec_of (req : hreq) : AuditRecord := (base_record (fun _ => true) "files" req ([] : list AuditRecord)).1.
Lemma audit_published_iff_witness :
  (audit_Middleware (fun _ => true) true "files" (aleaf creating) _ base_writer (get_ []) new_writer []).1.2
  = [set_action "create" (rec_of (get_ []))].
Proof.
  rewrite (audit_published_iff (fun _ => true) true "files" creating (get_ []) new_writer [] (rec_of (get_ [])) []
    [] (Some 201) [Raw "made"] None (set_action "create" (rec_of (get_ [])))); [|reflexivity..].
  reflexivity.
Defined.

(** A handler that sends 403 and calls WriteHeader again with 200 is audited as a success. *)
Example second_status_is_audited :
  let h (_ : hreq) rec := ([CWriteHeader 403; CWriteHeader 200], None, set_action "read" rec) in
  let '(rw, published, _) := audit_Middleware (fun _ => true) true "files" (aleaf h) _ base_writer (get_ []) new_writer [] in
  rw_status rw = Some 403 /\ length published = 1%nat.
Proof. vm_compute. done. Qed.

Example clientIP_samples : map clientIP ["10.0.0.1:99"; "[::1]:80"; "[::1]"; "host"; "::1"] = ["10.0.0.1"; "[::1]"; "[::1]"; "host"; ":"].
Proof. vm_compute. done. Qed.
