(* ===== verification/Storage.v ===== *)
(** * Storage: storage/s3 and storage/s3/sts — object storage and scoped credentials

    The AWS SDK is an interface, one operation per call the package makes.
    Policies are the JSON the package builds; [allows] evaluates them the way IAM
    documents it, for the elements they use. *)

From S2P Require Import Prelude GoStrings GoFloat Http Json Errors Decode Backoff SqlQuery Request Url.

(** ** config.go, store.go *)

Record s3_Config := mkS3Cfg {
  s3_Provider : string; s3_Endpoint : string; s3_Region : string; s3_AccessKeyID : string; s3_SecretAccessKey : string;
  s3_Bucket : string; UseSSL : bool; ForcePathStyle : bool
}.
Record ObjectInfo := mkObject { obj_Key : string; obj_Size : Z; obj_ETag : string; obj_ContentType : string; obj_LastModified : Z }.
Record CompletedPart := mkPart { PartNumber : Z; part_ETag : string }.
Record MultipartUpload := mkUpload_ { up_Key : string; UploadID : string; Initiated : Z }.

(** What the SDK is called with; an option is a pointer that may be nil. *)
Record put_input := mkPut { put_Key : string; put_Body : string; put_ContentType : option string; put_Length : option Z }.
Record page A := mkPage { page_items : list A; page_next : option (string * string) }.
Arguments mkPage {A}. Arguments page_items {A}. Arguments page_next {A}.

Class S3 (W : Type) := {
  api_PutObject : string -> put_input -> W -> error * W;
  api_GetObject : string -> string -> option string -> W -> res (string * ObjectInfo) * W;    (* bucket, key, range *)
  api_HeadObject : string -> string -> W -> res ObjectInfo * W;
  api_DeleteObject : string -> string -> W -> error * W;
  api_CopyObject : string -> string -> string -> W -> error * W;                              (* bucket, copy source, key *)
  api_HeadBucket : string -> W -> error * W;
  api_ListObjects : string -> option string -> option string -> option (string * string) -> W -> res (page ObjectInfo) * W;
  api_Presign : string -> string -> string -> option string -> Z -> W -> res string * W;      (* method, bucket, key, detail, expiry *)
  api_CreateMultipart : string -> string -> option string -> W -> res string * W;
  api_UploadPart : string -> string -> string -> Z -> string -> option Z -> W -> res string * W;
  api_CompleteMultipart : string -> string -> string -> list CompletedPart -> W -> error * W;
  api_AbortMultipart : string -> string -> string -> W -> error * W;
  api_ListUploads : string -> option (string * string) -> W -> res (page MultipartUpload) * W
}.

(** ** client.go *)

Definition normalizeEndpoint (endpoint : string) (useSSL : bool) : string :=
  if bool_decide (endpoint = EmptyString) then EmptyString
  else if contains endpoint "://" then endpoint
  else (if useSSL then "https" else "http") +:+ "://" +:+ endpoint.

(** The client keeps its bucket; [load] is the SDK reading its configuration. *)
Definition s3_NewClient (load : error) (cfg : s3_Config) : res string :=
  if bool_decide (s3_Bucket cfg = EmptyString) then Err (NewErr "s3.NewClient: bucket is required")
  else match load with
       | Some e => Err (wrapf "s3.NewClient: load config" e)
       | None => Ok (s3_Bucket cfg)
       end.

Section client.
Context {W : Type} `{S3 W}.
Variable bucket : string.

Definition Bucket : string := bucket.
Definition fails (what key : string) (r : error * W) : error * W :=
  match r with (Some e, w) => (Some (wrapf (what +:+ " " +:+ quoted key) e), w) | (None, w) => (None, w) end.
Definition opt_of (s : string) : option string := if bool_decide (s = EmptyString) then None else Some s.
Definition opt_pos (n : Z) : option Z := if 0 <? n then Some n else None.

(** ** object.go, health.go *)

Definition PutObject (key contentType body : string) (size : Z) (w : W) : error * W :=
  fails "s3.PutObject" key (api_PutObject bucket (mkPut key body (opt_of contentType) (opt_pos size)) w).

Definition getObject (key rng : string) (w : W) : res (string * ObjectInfo) * W :=
  match api_GetObject bucket key (opt_of rng) w with
  | (Err e, w) => (Err (wrapf ("s3.GetObject " +:+ quoted key) e), w)
  | (Ok (body, o), w) => (Ok (body, mkObject key (obj_Size o) (obj_ETag o) (obj_ContentType o) (obj_LastModified o)), w)
  end.
Definition GetObject (key : string) : W -> res (string * ObjectInfo) * W := getObject key EmptyString.
Definition range_header (offset length : Z) : string :=
  if 0 <? length then "bytes=" +:+ itoa offset +:+ "-" +:+ itoa (wrap64 (wrap64 (offset + length) - 1))
  else "bytes=" +:+ itoa offset +:+ "-".
Definition GetObjectRange (key : string) (offset length : Z) : W -> res (string * ObjectInfo) * W := getObject key (range_header offset length).

Definition HeadObject (key : string) (w : W) : res ObjectInfo * W :=
  match api_HeadObject bucket key w with
  | (Err e, w) => (Err (wrapf ("s3.HeadObject " +:+ quoted key) e), w)
  | (Ok o, w) => (Ok (mkObject key (obj_Size o) (obj_ETag o) (obj_ContentType o) (obj_LastModified o)), w)
  end.
Definition ObjectExists (key : string) (w : W) : res bool * W :=
  match api_HeadObject bucket key w with
  | (Err e, w) => (if errors_is e "types.NotFound" then Ok false else Err (wrapf ("s3.ObjectExists " +:+ quoted key) e), w)
  | (Ok _, w) => (Ok true, w)
  end.
Definition DeleteObject (key : string) (w : W) : error * W := fails "s3.DeleteObject" key (api_DeleteObject bucket key w).
Definition CopyObject (srcKey dstKey : string) (w : W) : error * W :=
  match api_CopyObject bucket (bucket +:+ "/" +:+ srcKey) dstKey w with
  | (Some e, w) => (Some (wrapf ("s3.CopyObject " +:+ quoted srcKey +:+ " -> " +:+ quoted dstKey) e), w)
  | (None, w) => (None, w)
  end.
Definition s3_HealthCheck (w : W) : error * W := fails "s3.HealthCheck bucket" bucket (api_HeadBucket bucket w).

(** ** list.go *)

Definition WithDelimiter (delimiter : string) (_ : string) : string := delimiter.
(** The pages of a listing; [fuel] bounds them (None when it is used up). *)
Fixpoint all_pages {A} (fuel : nat) (next : option (string * string) -> W -> res (page A) * W) (token : option (string * string)) (w : W)
  : option (res (list A) * W) :=
  match fuel with
  | O => None
  | S fuel =>
      match next token w with
      | (Err e, w) => Some (Err e, w)
      | (Ok p, w) =>
          match page_next p with
          | None => Some (Ok (page_items p), w)
          | Some t => match all_pages fuel next (Some t) w with
                      | Some (Ok l, w) => Some (Ok (page_items p ++ l), w)
                      | r => r
                      end
          end
      end
  end.
Definition wrapped {A} (what : string) (r : option (res A * W)) : option (res A * W) :=
  match r with Some (Err e, w) => Some (Err (wrapf what e), w) | r => r end.
Definition ListObjects (fuel : nat) (prefix : string) (opts : list (string -> string)) (w : W) : option (res (list ObjectInfo) * W) :=
  let delimiter := fold_left (fun o opt => opt o) opts EmptyString in
  wrapped ("s3.ListObjects " +:+ quoted prefix)
    (all_pages fuel (fun t w => match api_ListObjects bucket (opt_of prefix) (opt_of delimiter) t w with
                                | (Ok p, w) => (Ok (mkPage (map (fun o => mkObject (obj_Key o) (obj_Size o) (obj_ETag o) EmptyString (obj_LastModified o))
                                                              (page_items p)) (page_next p)), w)
                                | r => r
                                end) None w).

(** ** presign.go *)

Definition presigned (what key : string) (r : res string * W) : res string * W :=
  match r with (Err e, w) => (Err (wrapf (what +:+ " " +:+ key) e), w) | r => r end.
Definition PresignGetURL (key : string) (expiry : Z) (w : W) : res string * W :=
  presigned "s3.PresignGetURL" (quoted key) (api_Presign "GET" bucket key None expiry w).
Definition PresignPutURL (key contentType : string) (expiry : Z) (w : W) : res string * W :=
  presigned "s3.PresignPutURL" (quoted key) (api_Presign "PUT" bucket key (opt_of contentType) expiry w).
Definition PresignUploadPart (key uploadID : string) (partNumber expiry : Z) (w : W) : res string * W :=
  presigned "s3.PresignUploadPart" (quoted key +:+ " part " +:+ itoa partNumber)
    (api_Presign "PUT" bucket key (Some (uploadID +:+ "/" +:+ itoa partNumber)) expiry w).

(** ** multipart.go *)

Definition InitiateMultipartUpload (key contentType : string) (w : W) : res string * W :=
  presigned "s3.InitiateMultipartUpload" (quoted key) (api_CreateMultipart bucket key (opt_of contentType) w).
Definition UploadPart (key uploadID : string) (partNumber : Z) (body : string) (size : Z) (w : W) : res string * W :=
  presigned "s3.UploadPart" (quoted key +:+ " part " +:+ itoa partNumber)
    (api_UploadPart bucket key uploadID partNumber body (opt_pos size) w).
Definition CompleteMultipartUpload (key uploadID : string) (parts : list CompletedPart) (w : W) : error * W :=
  fails "s3.CompleteMultipartUpload" key (api_CompleteMultipart bucket key uploadID parts w).
Definition AbortMultipartUpload (key uploadID : string) (w : W) : error * W :=
  fails "s3.AbortMultipartUpload" key (api_AbortMultipart bucket key uploadID w).
Definition ListMultipartUploads (fuel : nat) (w : W) : option (res (list MultipartUpload) * W) :=
  wrapped "s3.ListMultipartUploads" (all_pages fuel (api_ListUploads bucket) None w).
End client.

(** ** sts/policy.go, sts/vendor.go *)

Definition ReadActions : list string := ["s3:GetObject"].
Definition ReadWriteActions : list string := ["s3:GetObject"; "s3:PutObject"; "s3:DeleteObject"].
(** strings.TrimSuffix(s, "/") *)
Fixpoint trim_slash (s : string) : string :=
  match s with
  | EmptyString => EmptyString
  | String c EmptyString => if Ascii.eqb c "/" then EmptyString else s
  | String c s => String c (trim_slash s)
  end.
Definition as_folder (prefix : string) : string := trim_slash prefix +:+ "/".

Definition str_array (l : list string) : json := JArr (map JStr l).
Definition PrefixPolicy (bucket prefix : string) (objectActions : list string) : res json :=
  if bool_decide (bucket = EmptyString) then Err (NewErr "sts.PrefixPolicy: bucket is required")
  else if bool_decide (objectActions = []) then Err (NewErr "sts.PrefixPolicy: at least one object action is required")
  else
    let prefix := as_folder prefix in
    Ok (JObj [("Statement", JArr [
          JObj [("Action", str_array objectActions); ("Effect", JStr "Allow");
                ("Resource", str_array ["arn:aws:s3:::" +:+ bucket +:+ "/" +:+ prefix +:+ "*"])];
          JObj [("Action", str_array ["s3:ListBucket"]);
                ("Condition", JObj [("StringLike", JObj [("s3:prefix", str_array [prefix +:+ "*"])])]); ("Effect", JStr "Allow");
                ("Resource", str_array ["arn:aws:s3:::" +:+ bucket])]]); ("Version", JStr "2012-10-17")]).
Definition PrefixReadOnlyPolicy (bucket prefix : string) : res json := PrefixPolicy bucket prefix ReadActions.

Record sts_Request := mkSts { RoleARN : string; SessionName : string; sts_Duration : Z; sts_Policy : string }.
Record Credentials := mkCreds { cr_AccessKeyID : string; cr_SecretAccessKey : string; SessionToken : string; Expiration : Z }.
Definition NewVendor (load : error) : res unit :=
  match load with Some e => Err (wrapf "sts.NewVendor: load config" e) | None => Ok tt end.
(** int32(d.Seconds()), for durations an int32 of seconds holds. *)
Definition duration_seconds (d : Z) : Z := Z.quot d Second.
Definition AssumeRole {W} (assume : string -> string -> Z -> option string -> W -> res Credentials * W) (req : sts_Request) (w : W)
  : res Credentials * W :=
  if bool_decide (RoleARN req = EmptyString) || bool_decide (SessionName req = EmptyString)
  then (Err (NewErr "sts.AssumeRole: RoleARN and SessionName are required"), w)
  else
    let duration := duration_seconds (sts_Duration req) in
    let duration := if duration <=? 0 then 3600 else duration in
    match assume (RoleARN req) (SessionName req) duration (opt_of (sts_Policy req)) w with
    | (Err e, w) => (Err (wrapf "sts.AssumeRole" e), w)
    | (Ok c, w) => (Ok c, w)
    end.

(** ** What a policy allows *)

(** IAM's wildcards: * is any text, ? any one character. *)
Fixpoint glob (p : string) : string -> bool :=
  match p with
  | EmptyString => fun s => bool_decide (s = EmptyString)
  | String c p' =>
      if Ascii.eqb c "*"
      then fix any (s : string) := glob p' s || match s with String _ s' => any s' | EmptyString => false end
      else fun s => match s with String d s' => (Ascii.eqb c "?" || Ascii.eqb c d) && glob p' s' | EmptyString => false end
  end.

Definition arr_strings (j : option json) : list string :=
  match j with Some (JArr l) => omap (fun x => match x with JStr s => Some s | _ => None end) l | _ => [] end.
(** The prefix condition of a statement: met when there is none, or when the request has a prefix it likes. *)
Definition condition_met (fs : list (string * json)) (asked : option string) : bool :=
  match alookup fs "Condition" with
  | Some (JObj c) =>
      match alookup c "StringLike" with
      | Some (JObj l) => match asked with
                         | Some q => existsb (fun p => glob p q) (arr_strings (alookup l "s3:prefix"))
                         | None => false
                         end
      | _ => false
      end
  | _ => true
  end.
Definition statement_allows (action resource : string) (asked : option string) (st : json) : bool :=
  match st with
  | JObj fs => match alookup fs "Effect" with Some (JStr e) => bool_decide (e = "Allow") | _ => false end
               && existsb (fun a => glob a action) (arr_strings (alookup fs "Action"))
               && existsb (fun p => glob p resource) (arr_strings (alookup fs "Resource"))
               && condition_met fs asked
  | _ => false
  end.
(** Whether a policy allows an action on a resource; [asked] is the prefix of a listing. *)
Definition allows (policy : json) (action resource : string) (asked : option string) : bool :=
  match policy with
  | JObj fs => match alookup fs "Statement" with Some (JArr sts) => existsb (statement_allows action resource asked) sts | _ => false end
  | _ => false
  end.

Definition object_arn (bucket key : string) : string := "arn:aws:s3:::" +:+ bucket +:+ "/" +:+ key.
Definition bucket_arn (bucket : string) : string := "arn:aws:s3:::" +:+ bucket.
Definition no_wildcard (s : string) : bool := negb (contains_char "*" s) && negb (contains_char "?" s).

Lemma glob_any s : glob "*" s = true.
Proof.
  induction s as [|c s IH]; [done|]. change (bool_decide (String c s = EmptyString) || glob "*" s = true). by rewrite IH, orb_true_r.
Qed.
Lemma glob_literal p q s : no_wildcard p = true -> glob (p +:+ q) s = true <-> exists t, s = p +:+ t /\ glob q t = true.
Proof.
  revert s. induction p as [|c p IH]; intros s Hp.
  - rewrite app_Empty. split; [intros Hq; by exists s|]. intros (t & -> & Ht). by rewrite app_Empty.
  - unfold no_wildcard in Hp. cbn [contains_char] in Hp. apply andb_true_iff in Hp as [Ha Hb].
    apply negb_true_iff, orb_false_iff in Ha as [H1 H2]. apply negb_true_iff, orb_false_iff in Hb as [H3 H4].
    rewrite app_String. cbn [glob]. rewrite Ascii.eqb_sym in H1. rewrite Ascii.eqb_sym in H3. rewrite H1, H3. cbn [orb].
    destruct s as [|d s]; [split; [done|]; by intros (t & ? & _)|].
    rewrite andb_true_iff, IH by (unfold no_wildcard; by rewrite H2, H4). split.
    + intros [->%Ascii.eqb_eq (t & -> & Ht)]. exists t. by rewrite app_String.
    + intros (t & Hs & Ht). rewrite app_String in Hs. injection Hs as -> ->. split; [apply Ascii.eqb_refl|by exists t].
Qed.
Lemma glob_prefix p s : no_wildcard p = true -> glob (p +:+ "*") s = true <-> exists t, s = p +:+ t.
Proof. intros Hp. rewrite glob_literal by done. split; [intros (t & -> & _)|intros (t & ->)]; exists t; [done|]. by rewrite glob_any. Qed.
Lemma glob_exact p s : no_wildcard p = true -> glob p s = true <-> s = p.
Proof.
  intros Hp. rewrite <- (app_Empty_r p) at 1. rewrite glob_literal by done. cbn. split.
  - intros (t & -> & ->%bool_decide_eq_true). by rewrite app_Empty_r.
  - intros ->. exists EmptyString. by rewrite app_Empty_r.
Qed.

Lemma no_wildcard_app s t : no_wildcard (s +:+ t) = no_wildcard s && no_wildcard t.
Proof. unfold no_wildcard. rewrite !contains_char_app, !negb_orb. by destruct (contains_char "*" s), (contains_char "?" s), (contains_char "*" t), (contains_char "?" t). Qed.
Lemma trim_slash_chars c s : contains_char c s = false -> contains_char c (trim_slash s) = false.
Proof.
  induction s as [|d s IH]; [done|]. cbn [contains_char]. intros [Hd Hs]%orb_false_iff.
  destruct s as [|e s]; [cbn [trim_slash]; case_match; cbn [contains_char]; by rewrite ?Hd|].
  change (trim_slash (String d (String e s))) with (String d (trim_slash (String e s))). cbn [contains_char]. by rewrite Hd, IH.
Qed.
Lemma as_folder_plain p : no_wildcard p = true -> no_wildcard (as_folder p) = true.
Proof.
  unfold as_folder. rewrite no_wildcard_app. unfold no_wildcard. intros Hp. bools. by rewrite !trim_slash_chars.
Qed.

(** Equal texts behind the same separator-free beginning. *)
Lemma app_inj_l (s t u : string) : s +:+ t = s +:+ u -> t = u.
Proof. induction s as [|c s IH]; [done|]. rewrite !app_String. by intros [= ?%IH]. Qed.
Lemma split_slash a b s t : contains_char "/" a = false -> contains_char "/" b = false ->
  a +:+ String "/" s = b +:+ String "/" t -> a = b /\ s = t.
Proof.
  intros Ha Hb E. apply (f_equal (cut "/")) in E. rewrite !cut_app_sep in E by (by apply cut_None). by injection E.
Qed.

Lemma arr_strings_array l : arr_strings (Some (str_array l)) = l.
Proof. unfold arr_strings, str_array. induction l as [|s l IH]; [done|]. cbn. by rewrite IH. Qed.

(** A name without the characters policies give a meaning to (wildcards and variables). *)
Definition plain_name (s : string) : bool := no_wildcard s && negb (contains_char "$" s).

Lemma plain_arn b p : plain_name b = true -> no_wildcard p = true -> no_wildcard ("arn:aws:s3:::" +:+ b +:+ p) = true.
Proof. unfold plain_name. intros Hb Hp. bools. rewrite !no_wildcard_app. cbn. by rewrite Hp, H. Qed.

(** An action one of the patterns covers. *)
Definition covers (actions : list string) (action : string) : Prop := exists a, a ∈ actions /\ glob a action = true.
Lemma existsb_covers actions action : existsb (fun a => glob a action) actions = true <-> covers actions action.
Proof. rewrite existsb_exists. unfold covers. by setoid_rewrite list_elem_of_In. Qed.

(** The two statements of a prefix policy. *)
Lemma PrefixPolicy_allows bucket prefix actions policy action resource asked :
  PrefixPolicy bucket prefix actions = Ok policy -> plain_name bucket = true -> plain_name prefix = true ->
  allows policy action resource asked = true <->
  (covers actions action /\ exists rest, resource = object_arn bucket (as_folder prefix +:+ rest))
  \/ (action = "s3:ListBucket" /\ resource = bucket_arn bucket /\ exists rest, asked = Some (as_folder prefix +:+ rest)).
Proof.
  unfold PrefixPolicy. case_bool_decide; [done|]. case_bool_decide; [done|]. intros [= <-] Hb Hp.
  assert (Hf : no_wildcard (as_folder prefix) = true) by (unfold plain_name in Hp; bools; by apply as_folder_plain).
  unfold allows, statement_allows, condition_met. cbn iota.
  change (alookup _ "Statement") with (Some (JArr [
    JObj [("Action", str_array actions); ("Effect", JStr "Allow"); ("Resource", str_array ["arn:aws:s3:::" +:+ bucket +:+ "/" +:+ as_folder prefix +:+ "*"])];
    JObj [("Action", str_array ["s3:ListBucket"]); ("Condition", JObj [("StringLike", JObj [("s3:prefix", str_array [as_folder prefix +:+ "*"])])]);
          ("Effect", JStr "Allow"); ("Resource", str_array ["arn:aws:s3:::" +:+ bucket])]])).
  cbn iota. cbn [existsb]. rewrite orb_false_r, orb_true_iff.
  apply Morphisms_Prop.or_iff_morphism.
  - change (alookup _ "Action") with (Some (str_array actions)). change (alookup _ "Effect") with (Some (JStr "Allow")).
    change (alookup _ "Resource") with (Some (str_array ["arn:aws:s3:::" +:+ bucket +:+ "/" +:+ as_folder prefix +:+ "*"])).
    change (alookup _ "Condition") with (@None json).
    rewrite !arr_strings_array, andb_true_r, !andb_true_iff, existsb_covers, !bool_decide_eq_true. cbn [existsb]. rewrite ?orb_false_r.
    replace ("arn:aws:s3:::" +:+ bucket +:+ "/" +:+ as_folder prefix +:+ "*")
      with (("arn:aws:s3:::" +:+ bucket +:+ "/" +:+ as_folder prefix) +:+ "*") by (by rewrite !string_app_assoc).
    rewrite glob_prefix by (apply plain_arn; [done|]; by rewrite no_wildcard_app, Hf).
    unfold object_arn. split.
    + intros [[_ Ha] [t ->]]. split; [done|]. exists t. by rewrite !string_app_assoc.
    + intros [Ha [t ->]]. split; [done|]. exists t. by rewrite !string_app_assoc.
  - change (alookup _ "Action") with (Some (str_array ["s3:ListBucket"])). change (alookup _ "Effect") with (Some (JStr "Allow")).
    change (alookup _ "Resource") with (Some (str_array ["arn:aws:s3:::" +:+ bucket])).
    change (alookup _ "Condition") with (Some (JObj [("StringLike", JObj [("s3:prefix", str_array [as_folder prefix +:+ "*"])])])).
    cbn iota. change (alookup _ "StringLike") with (Some (JObj [("s3:prefix", str_array [as_folder prefix +:+ "*"])])). cbn iota.
    change (alookup _ "s3:prefix") with (Some (str_array [as_folder prefix +:+ "*"])).
    rewrite !arr_strings_array. cbn [existsb]. rewrite !orb_false_r, !andb_true_iff, !bool_decide_eq_true.
    rewrite (glob_exact "s3:ListBucket") by done.
    rewrite glob_exact by (rewrite <- (app_Empty_r bucket); by apply plain_arn).
    unfold bucket_arn. destruct asked as [q|]; [|naive_solver].
    rewrite ?orb_false_r, (glob_prefix (as_folder prefix) q Hf). naive_solver.
Qed.

Definition no_slash (s : string) : bool := negb (contains_char "/" s).

(** C21. A session with a prefix policy is confined to its folder, for bucket and
    prefix names without the characters a policy interprets (the wildcards * and ?
    and the $ of a variable) and bucket names without a slash: whatever object
    of whatever bucket is asked for, an action is allowed exactly when the policy
    was built with it, the bucket is the policy's and the key lies below the
    folder; on a bucket only the listing of that bucket below the folder is
    allowed, and never a listing without a prefix. A sibling folder whose name
    merely starts the same way is outside. *)
Theorem PrefixPolicy_confines bucket prefix actions policy :
  PrefixPolicy bucket prefix actions = Ok policy -> plain_name bucket = true -> plain_name prefix = true -> no_slash bucket = true ->
  (forall action b key asked, no_slash b = true ->
     allows policy action (object_arn b key) asked = true <-> covers actions action /\ b = bucket /\ exists rest, key = trim_slash prefix +:+ "/" +:+ rest)
  /\ (forall action b asked, no_slash b = true ->
     allows policy action (bucket_arn b) asked = true <->
       action = "s3:ListBucket" /\ b = bucket /\ exists rest, asked = Some (trim_slash prefix +:+ "/" +:+ rest)).
Proof.
  intros Hpol Hb Hp Hs. unfold no_slash in *. apply negb_true_iff in Hs.
  split; [intros action b key asked Hn%negb_true_iff|intros action b asked Hn%negb_true_iff];
    rewrite (PrefixPolicy_allows _ _ _ _ _ _ _ Hpol Hb Hp); unfold object_arn, bucket_arn;
    setoid_rewrite (fun r => string_app_assoc (trim_slash prefix) "/" r).
  - split.
    + intros [[Ha [rest E%app_inj_l]]|(_ & E%app_inj_l & _)].
      * apply split_slash in E as [-> ->]; [|done..]. eauto.
      * exfalso. by rewrite <- E, contains_char_app, orb_true_r in Hs.
    + intros (Ha & -> & rest & ->). left. eauto.
  - split.
    + intros [[_ [rest E%app_inj_l]]|(-> & ->%app_inj_l & Hq)]; [|done].
      exfalso. by rewrite E, contains_char_app, orb_true_r in Hn.
    + intros (-> & -> & Hq). by right.
Qed.

(** What [PrefixPolicy_confines] says of one policy: team10 is not part of team1. *)
Lemma PrefixPolicy_confines_witness : exists policy,
  PrefixPolicy "datasets" "team1" ReadActions = Ok policy
  /\ allows policy "s3:GetObject" (object_arn "datasets" "team1/a.csv") None = true
  /\ allows policy "s3:GetObject" (object_arn "datasets" "team10/a.csv") None <> true.
Proof.
  eexists. split; [reflexivity|].
  destruct (PrefixPolicy_confines "datasets" "team1" ReadActions _ eq_refl eq_refl eq_refl eq_refl) as [Ho _]. split.
  - apply Ho; [reflexivity|]. split; [exists "s3:GetObject"; split; [by left|reflexivity]|]. split; [done|]. by exists "a.csv".
  - rewrite Ho by reflexivity. intros (_ & _ & rest & E). discriminate E.
Defined.

(** A prefix with a wildcard is not escaped: the session reads the other teams too. *)
Example prefix_wildcard_widens : exists policy,
  PrefixReadOnlyPolicy "datasets" "team*" = Ok policy
  /\ allows policy "s3:GetObject" (object_arn "datasets" "team2/a.csv") None = true
  /\ has_prefix (as_folder "team*") "team2/a.csv" = false.
Proof. eexists. split; [reflexivity|]. split; vm_compute; reflexivity. Qed.
(** The empty prefix is not the whole bucket but the folder of an empty name. *)
Example empty_prefix_is_a_folder : exists policy,
  PrefixReadOnlyPolicy "datasets" EmptyString = Ok policy
  /\ allows policy "s3:GetObject" (object_arn "datasets" "a.csv") None = false
  /\ allows policy "s3:GetObject" (object_arn "datasets" "/a.csv") None = true.
Proof. eexists. split; [reflexivity|]. split; vm_compute; reflexivity. Qed.

(** ** The client against a bucket *)

(** The copy source is sent as it is; S3 reads it percent-decoded, so a key with a
    percent sign names another object. *)
Example copy_source_decoded :
  PathUnescape ("datasets" +:+ "/" +:+ "a%2Fb") = Some "datasets/a/b".
Proof. reflexivity. Qed.

Section listing.
Context {W : Type} `{S3 W} (bucket : string).
(** A service that serves the uploads in pages, the token saying where a page starts. *)
Variable pages : list (list MultipartUpload).
Variable enc : nat -> string * string.
Variable dec : string * string -> nat.
Hypothesis dec_enc : forall n, dec (enc n) = n.
Definition page_at (token : option (string * string)) : page MultipartUpload :=
  let n := match token with Some t => dec t | None => O end in
  mkPage (nth n pages []) (if (S n <? Datatypes.length pages)%nat then Some (enc (S n)) else None).
Hypothesis serves : forall token w, api_ListUploads bucket token w = (Ok (page_at token), w).

Lemma all_pages_from fuel token n w :
  match token with Some t => dec t | None => O end = n -> (n < Datatypes.length pages)%nat -> (Datatypes.length pages - n <= fuel)%nat ->
  all_pages fuel (api_ListUploads bucket) token w = Some (Ok (List.concat (skipn n pages)), w).
Proof.
  revert token n. induction fuel as [|fuel IH]; [lia|]. intros token n Ht Hn Hf. cbn [all_pages]. rewrite serves. unfold page_at.
  cbn zeta. cbn [page_next page_items]. rewrite Ht.
  rewrite (drop_S pages (nth n pages []) n) by (rewrite nth_lookup; by destruct (lookup_lt_is_Some_2 pages n Hn) as [x ->]).
  cbn [List.concat]. destruct (S n <? Datatypes.length pages)%nat eqn:E.
  - apply Nat.ltb_lt in E. by rewrite (IH _ (S n)) by (rewrite ?dec_enc; lia).
  - apply Nat.ltb_ge in E. by rewrite (drop_ge pages (S n)), app_nil_r by done.
Qed.

(** The reaper sees every upload in progress, over any number of pages. *)
Theorem ListMultipartUploads_complete fuel w : (Datatypes.length pages < fuel)%nat ->
  ListMultipartUploads bucket fuel w = Some (Ok (List.concat pages), w).
Proof.
  intros Hf. unfold ListMultipartUploads. destruct (Nat.eq_dec (Datatypes.length pages) O) as [E|E].
  - destruct fuel as [|fuel]; [lia|]. cbn [all_pages]. rewrite serves. unfold page_at. cbn zeta. rewrite E.
    apply length_zero_iff_nil in E. by rewrite E.
  - by rewrite (all_pages_from _ None O) by (done || lia).
Qed.
End listing.
