(* ===== verification/ObjectStore.v ===== *)
(** * ObjectStore: storage/s3/store.go — the interface services depend on

    The four interfaces and their sum, the S3 client as an implementation, and the
    contract a service may rely on: against S3's documented behaviour the client is
    a map from keys to contents, with exact ranges. *)

From S2P Require Import Prelude GoStrings Errors Url Storage.

(** ** store.go *)

Record Reader (W : Type) := mkReader {
  os_GetObject : string -> W -> res (string * ObjectInfo) * W;
  os_GetObjectRange : string -> Z -> Z -> W -> res (string * ObjectInfo) * W;
  os_HeadObject : string -> W -> res ObjectInfo * W;
  os_ObjectExists : string -> W -> res bool * W;
  os_ListObjects : nat -> string -> list (string -> string) -> W -> option (res (list ObjectInfo) * W)
}.
Record Writer (W : Type) := mkWriter {
  os_PutObject : string -> string -> string -> Z -> W -> error * W;
  os_DeleteObject : string -> W -> error * W;
  os_CopyObject : string -> string -> W -> error * W
}.
Record Presigner (W : Type) := mkPresigner {
  os_PresignGetURL : string -> Z -> W -> res string * W;
  os_PresignPutURL : string -> string -> Z -> W -> res string * W;
  os_PresignUploadPart : string -> string -> Z -> Z -> W -> res string * W
}.
Record Multipart (W : Type) := mkMultipart {
  os_InitiateMultipartUpload : string -> string -> W -> res string * W;
  os_UploadPart : string -> string -> Z -> string -> Z -> W -> res string * W;
  os_CompleteMultipartUpload : string -> string -> list CompletedPart -> W -> error * W;
  os_AbortMultipartUpload : string -> string -> W -> error * W;
  os_ListMultipartUploads : nat -> W -> option (res (list MultipartUpload) * W)
}.
Record ObjectStore (W : Type) := mkObjectStore {
  os_reader : Reader W; os_writer : Writer W; os_presigner : Presigner W; os_multipart : Multipart W; os_Bucket : string
}.
Arguments mkReader {W}. Arguments os_GetObject {W}. Arguments os_GetObjectRange {W}. Arguments os_HeadObject {W}.
Arguments os_ObjectExists {W}. Arguments os_ListObjects {W}. Arguments mkWriter {W}. Arguments os_PutObject {W}.
Arguments os_DeleteObject {W}. Arguments os_CopyObject {W}. Arguments mkPresigner {W}. Arguments mkMultipart {W}.
Arguments mkObjectStore {W}. Arguments os_reader {W}. Arguments os_writer {W}. Arguments os_presigner {W}.
Arguments os_multipart {W}. Arguments os_Bucket {W}.

(** var _ ObjectStore = ( *Client)(nil) *)
Definition Client_store {W} `{S3 W} (bucket : string) : ObjectStore W := mkObjectStore
  (mkReader (GetObject bucket) (GetObjectRange bucket) (HeadObject bucket) (ObjectExists bucket) (Storage.ListObjects bucket))
  (mkWriter (PutObject bucket) (DeleteObject bucket) (CopyObject bucket))
  (mkPresigner (PresignGetURL bucket) (PresignPutURL bucket) (PresignUploadPart bucket))
  (mkMultipart (InitiateMultipartUpload bucket) (UploadPart bucket) (CompleteMultipartUpload bucket) (AbortMultipartUpload bucket)
     (ListMultipartUploads bucket))
  (Bucket bucket).

(** ** What S3 documents *)

(** The contents of every object, by bucket and key. *)
Class S3View (W : Type) := objects : W -> gmap (string * string) string.

Definition from_byte (n : Z) (s : string) : string := String.substring (Z.to_nat n) (String.length s - Z.to_nat n) s.

(** Reads see every completed write; a request that was answered with success took effect; a
    byte range is inclusive at both ends; a copy source is percent-decoded. *)
Class S3Laws (W : Type) `{S3 W} `{!S3View W} := {
  s3_put b i w w' : api_PutObject b i w = (None, w') -> objects w' = <[(b, put_Key i) := put_Body i]> (objects w);
  s3_get b k w body o w' : api_GetObject b k None w = (Ok (body, o), w') -> objects w !! (b, k) = Some body /\ objects w' = objects w;
  s3_range b k lo hi w body o w' : 0 <= lo <= hi ->
    api_GetObject b k (Some ("bytes=" +:+ itoa lo +:+ "-" +:+ itoa hi)) w = (Ok (body, o), w') ->
    objects w' = objects w /\ exists all, objects w !! (b, k) = Some all /\ body = String.substring (Z.to_nat lo) (Z.to_nat (hi + 1 - lo)) all;
  s3_range_from b k lo w body o w' : 0 <= lo ->
    api_GetObject b k (Some ("bytes=" +:+ itoa lo +:+ "-")) w = (Ok (body, o), w') ->
    objects w' = objects w /\ exists all, objects w !! (b, k) = Some all /\ body = from_byte lo all;
  s3_head b k w o w' : api_HeadObject b k w = (Ok o, w') -> is_Some (objects w !! (b, k)) /\ objects w' = objects w;
  s3_head_missing b k w e w' : api_HeadObject b k w = (Err e, w') -> errors_is e "types.NotFound" = true ->
    objects w !! (b, k) = None /\ objects w' = objects w;
  s3_delete b k w w' : api_DeleteObject b k w = (None, w') -> objects w' = delete (b, k) (objects w);
  s3_copy b src dst w w' k : api_CopyObject b src dst w = (None, w') -> PathUnescape src = Some (b +:+ "/" +:+ k) ->
    exists body, objects w !! (b, k) = Some body /\ objects w' = <[(b, dst) := body]> (objects w)
}.

(** ** The contract of an object store *)

Section contract.
Context {W : Type} (os : ObjectStore W) (view : W -> string -> option string).

(** What a successful call says of the keys of the bucket. *)
Record object_map : Prop := {
  om_put key ctype body size w w' : os_PutObject (os_writer os) key ctype body size w = (None, w') ->
    forall k, view w' k = if bool_decide (k = key) then Some body else view w k;
  om_get key w body o w' : os_GetObject (os_reader os) key w = (Ok (body, o), w') -> view w key = Some body /\ obj_Key o = key /\ view w' = view w;
  om_range key offset length w body o w' : 0 <= offset -> offset + length <= max_int64 ->
    os_GetObjectRange (os_reader os) key offset length w = (Ok (body, o), w') ->
    view w' = view w /\ exists all, view w key = Some all
      /\ body = if 0 <? length then String.substring (Z.to_nat offset) (Z.to_nat length) all else from_byte offset all;
  om_exists key w b w' : os_ObjectExists (os_reader os) key w = (Ok b, w') -> (b = true <-> is_Some (view w key)) /\ view w' = view w;
  om_delete key w w' : os_DeleteObject (os_writer os) key w = (None, w') -> forall k, view w' k = if bool_decide (k = key) then None else view w k;
  om_copy src dst w w' : contains_char "%" src = false -> os_CopyObject (os_writer os) src dst w = (None, w') ->
    exists body, view w src = Some body /\ forall k, view w' k = if bool_decide (k = dst) then Some body else view w k
}.

(** What a service does with it: an upload can be read back, in whole or in part, until it is deleted. *)
Lemma upload_range key ctype body size offset length w1 w2 part o w3 :
  object_map -> 0 <= offset -> 0 < length -> offset + length <= max_int64 ->
  os_PutObject (os_writer os) key ctype body size w1 = (None, w2) ->
  os_GetObjectRange (os_reader os) key offset length w2 = (Ok (part, o), w3) ->
  part = String.substring (Z.to_nat offset) (Z.to_nat length) body.
Proof.
  intros M Ho Hl Hm Hp Hg. destruct (om_range M _ _ _ _ _ _ _ Ho Hm Hg) as (_ & all & Hv & ->).
  rewrite (om_put M _ _ _ _ _ _ Hp), bool_decide_eq_true_2 in Hv by done. injection Hv as <-.
  by rewrite (proj2 (Z.ltb_lt _ _) Hl).
Qed.
Lemma delete_removes key w1 w2 b w3 :
  object_map -> os_DeleteObject (os_writer os) key w1 = (None, w2) -> os_ObjectExists (os_reader os) key w2 = (Ok b, w3) -> b = false.
Proof.
  intros M Hd He. destruct (om_exists M _ _ _ _ He) as [Hb _]. rewrite (om_delete M _ _ _ Hd), bool_decide_eq_true_2 in Hb by done.
  destruct b; [|done]. by destruct (proj1 Hb eq_refl).
Qed.
End contract.

(** ** The S3 client keeps the contract *)

Lemma PathUnescape_plain s : contains_char "%" s = false -> PathUnescape s = Some s.
Proof.
  induction s as [|c s IH]; [done|]. cbn [contains_char PathUnescape]. intros [Hc Hs]%orb_false_iff.
  rewrite Ascii.eqb_sym, Hc, (IH Hs). done.
Qed.

Lemma fails_None {W} what key (r : error * W) w : fails what key r = (None, w) -> r = (None, w).
Proof. unfold fails. by destruct r as [[e|] w0]. Qed.

Section client_store.
Context {W : Type} `{S3Laws W} (bucket : string).
Definition bucket_view (w : W) (key : string) : option string := objects w !! (bucket, key).

Lemma view_insert w w' key body : objects w' = <[(bucket, key) := body]> (objects w) ->
  forall k, bucket_view w' k = if bool_decide (k = key) then Some body else bucket_view w k.
Proof.
  intros E k. unfold bucket_view. rewrite E. case_bool_decide; subst; [by rewrite lookup_insert_eq|].
  rewrite lookup_insert_ne; [done|]. congruence.
Qed.
Lemma view_same w w' : objects w' = objects w -> bucket_view w' = bucket_view w.
Proof. intros E. unfold bucket_view. by rewrite E. Qed.
Lemma getObject_Ok key rng w body o w' : getObject bucket key rng w = (Ok (body, o), w') ->
  obj_Key o = key /\ exists o', api_GetObject bucket key (opt_of rng) w = (Ok (body, o'), w').
Proof. unfold getObject. destruct (api_GetObject _ _ _ _) as [[[b o']|e] w0]; [|done]. intros [= <- <- <-]. eauto. Qed.
Lemma range_header_some offset length : opt_of (range_header offset length) = Some (range_header offset length).
Proof. unfold opt_of, range_header. by destruct (0 <? length). Qed.

(** The client over S3 is a map from keys to contents: what was put is what a get returns,
    a range is the bytes asked for, the existence check and the deletion agree with it, and a
    copy carries the source's contents over, for keys without percent signs. *)
Theorem Client_store_map : contains_char "%" bucket = false -> object_map (Client_store bucket) bucket_view.
Proof.
  intros Hb. split; cbn.
  - intros key ctype body size w w' E%fails_None. apply s3_put in E. by apply view_insert.
  - intros key w body o w' [Hk [o' E]]%getObject_Ok. apply s3_get in E as [Ho ?%view_same]. done.
  - intros key offset length w body o w' Ho Hl [_ [o' E]]%getObject_Ok. rewrite range_header_some in E.
    unfold range_header in E. destruct (Z.ltb_spec 0 length).
    + rewrite !wrap64_id in E by (rewrite ?wrap64_id; unfold min_int64, max_int64 in *; lia).
      apply s3_range in E as (?%view_same & all & ? & ->); [|lia]. split; [done|]. exists all. split; [done|]. f_equal. lia.
    + apply s3_range_from in E as (?%view_same & all & ? & ->); [|done]. split; [done|]. by exists all.
  - intros key w b w'. unfold ObjectExists. destruct (api_HeadObject bucket key w) as [[o|e] w0] eqn:E.
    + intros [= <- <-]. apply s3_head in E as [? ?%view_same]. done.
    + destruct (errors_is e "types.NotFound") eqn:Hn; [|done]. intros [= <- <-].
      apply (s3_head_missing _ _ _ _ _ E) in Hn as [Hm ?%view_same]. unfold bucket_view. rewrite Hm. split; [|done].
      split; [done|by intros [? ?]].
  - intros key w w' E%fails_None. apply s3_delete in E. intros k. unfold bucket_view. rewrite E.
    case_bool_decide; subst; [by rewrite lookup_delete_eq|]. rewrite lookup_delete_ne; [done|]. congruence.
  - intros src dst w w' Hs. unfold CopyObject. destruct (api_CopyObject _ _ _ _) as [[e|] w0] eqn:E; [done|]. intros [= <-].
    apply (s3_copy _ _ _ _ _ src) in E as (body & Hv & E);
      [|rewrite PathUnescape_plain; [done|by rewrite !contains_char_app, Hb, Hs]].
    exists body. split; [done|]. by apply view_insert.
Qed.
End client_store.

(** ** A bucket in memory *)

Definition memory : Type := gmap (string * string) string.
Definition no_such_key : goerr := Sentinel "types.NotFound" "NotFound".
Definition answer_range (rng all : string) : option string :=
  match strip "bytes=" rng with
  | Some r => match cut "-" r with
              | Some (a, b) => match parse_unsigned a with
                               | Some lo => match parse_unsigned b with
                                            | Some hi => Some (String.substring (Z.to_nat lo) (Z.to_nat (hi + 1 - lo)) all)
                                            | None => Some (from_byte lo all)
                                            end
                               | None => None
                               end
              | None => None
              end
  | None => None
  end.
Definition plain_info (key : string) : ObjectInfo := mkObject key 0 EmptyString EmptyString 0.
#[export] Instance memory_s3 : S3 memory := {
  api_PutObject b i w := (None, <[(b, put_Key i) := put_Body i]> w);
  api_GetObject b k rng w := (match w !! (b, k) with
                              | None => Err no_such_key
                              | Some all => match rng with
                                            | None => Ok (all, plain_info k)
                                            | Some r => match answer_range r all with Some s => Ok (s, plain_info k) | None => Err no_such_key end
                                            end
                              end, w);
  api_HeadObject b k w := (match w !! (b, k) with Some _ => Ok (plain_info k) | None => Err no_such_key end, w);
  api_DeleteObject b k w := (None, delete (b, k) w);
  api_CopyObject b src dst w :=
    match PathUnescape src with
    | Some s => match strip (b +:+ "/") s with
                | Some k => match w !! (b, k) with Some body => (None, <[(b, dst) := body]> w) | None => (Some no_such_key, w) end
                | None => (Some no_such_key, w)
                end
    | None => (Some no_such_key, w)
    end;
  api_HeadBucket b w := (None, w);
  api_ListObjects b prefix delimiter token w := (Ok (mkPage [] None), w);
  api_Presign method b k detail expiry w := (Err no_such_key, w);
  api_CreateMultipart b k ctype w := (Err no_such_key, w);
  api_UploadPart b k id n body size w := (Err no_such_key, w);
  api_CompleteMultipart b k id parts w := (Some no_such_key, w);
  api_AbortMultipart b k id w := (Some no_such_key, w);
  api_ListUploads b token w := (Ok (mkPage [] None), w)
}.
#[export] Instance memory_view : S3View memory := fun w => w.

Lemma digits_no_dash n : 0 <= n -> cut "-" (digits n) = None.
Proof. intros Hn. apply cut_None, (all_chars_no_char is_digit); [done|]. by apply digits_all. Qed.
Lemma itoa_digits n : 0 <= n -> itoa n = digits n.
Proof. intros Hn. unfold itoa. by rewrite (proj2 (Z.ltb_ge _ _) Hn). Qed.
Lemma answer_range_between lo hi all : 0 <= lo <= hi ->
  answer_range ("bytes=" +:+ itoa lo +:+ "-" +:+ itoa hi) all = Some (String.substring (Z.to_nat lo) (Z.to_nat (hi + 1 - lo)) all).
Proof.
  intros Hr. unfold answer_range. rewrite strip_app, !itoa_digits by lia. rewrite app_String, app_Empty.
  rewrite cut_app_sep by (apply digits_no_dash; lia). by rewrite !parse_unsigned_digits by lia.
Qed.
Lemma answer_range_from lo all : 0 <= lo -> answer_range ("bytes=" +:+ itoa lo +:+ "-") all = Some (from_byte lo all).
Proof.
  intros Hr. unfold answer_range. rewrite strip_app, itoa_digits by lia.
  rewrite cut_app_sep by (apply digits_no_dash; lia). by rewrite parse_unsigned_digits by lia.
Qed.

#[export] Instance memory_laws : S3Laws memory.
Proof.
  split; unfold objects, memory_view; cbn -[String.append answer_range PathUnescape].

  - by intros b i w w' [= <-].
  - intros b k w body o w'. destruct (w !! (b, k)) as [all|] eqn:E; [|done]. by intros [= <- <- <-].
  - intros b k lo hi w body o w' Hr. destruct (w !! (b, k)) as [all|] eqn:E; [|done]. rewrite answer_range_between by done.
    intros [= <- <- <-]. split; [done|]. by exists all.
  - intros b k lo w body o w' Hr. destruct (w !! (b, k)) as [all|] eqn:E; [|done]. rewrite answer_range_from by done.
    intros [= <- <- <-]. split; [done|]. by exists all.
  - intros b k w o w'. destruct (w !! (b, k)) as [all|] eqn:E; [|done]. intros [= <- <-]. split; [by exists all|done].
  - intros b k w e w'. destruct (w !! (b, k)) eqn:E; [done|]. by intros [= <- <-].
  - by intros b k w w' [= <-].
  - intros b src dst w w' k E Hs. rewrite Hs, <- string_app_assoc, strip_app in E.
    destruct (w !! (b, k)) as [body|] eqn:Hk; [|done]. injection E as <-. by exists body.
Qed.

(** What [Client_store_map] says of a bucket in memory: the preview of an upload. *)
Lemma Client_store_map_witness : exists (w2 : memory) part o,
  os_PutObject (os_writer (Client_store "datasets")) "a.csv" "text/csv" "id,name" 7 ∅ = (None, w2)
  /\ os_GetObjectRange (os_reader (Client_store "datasets")) "a.csv" 3 4 w2 = (Ok (part, o), w2) /\ part = "name".
Proof.
  eexists _, _, _. split; [reflexivity|]. split; [vm_compute; reflexivity|].
  change "name" with (String.substring (Z.to_nat 3) (Z.to_nat 4) "id,name").
  eapply (upload_range (Client_store "datasets") (bucket_view "datasets") "a.csv" "text/csv" "id,name" 7 3 4 ∅).
  - exact (Client_store_map "datasets" eq_refl).
  - lia.
  - lia.
  - vm_compute. discriminate.
  - reflexivity.
  - vm_compute. reflexivity.
Defined.
