(* ===== verification/Migrations.v ===== *)
(** * Migrations: database/postgres/migrate and cmd/dx — schema evolution

    migrate runs the embedded migrations through golang-migrate, here an
    interface; cmd/dx numbers and writes new ones. A file system is a map from
    paths to contents with an oracle for the calls that fail. *)

From S2P Require Import Prelude GoStrings Http Errors Regexp.

(** ** migrate/config.go, embed.go, runner.go, version.go *)

Definition ModeNone : string := "none".
Definition ModeMigrate : string := "migrate".
Record mig_Config := mkMig { mig_Mode : string; mig_DSN : string; TableName : string; mig_SearchPath : string }.

Definition DirtyStateError (version : Z) (table : string) : goerr :=
  Sentinel "migrate.DirtyStateError"
    ("migrate: migrations table " +:+ quoted table +:+ " is dirty at version " +:+ itoa version
     +:+ " — a prior migration failed partway through; fix the database by hand, then `migrate force "
     +:+ itoa version +:+ "` before restarting").

(** What Up reports, as its caller tells the errors apart. *)
Inductive up_outcome := UpOk | ErrNoChange | ErrDirty (version : Z) | UpErr (e : goerr).
Inductive version_outcome := Version_ (version : Z) (dirty : bool) | ErrNilVersion | VersionErr (e : goerr).

(** golang-migrate on a database [D]; the connection parameters are what it was opened with. *)
Class GolangMigrate (D : Type) := {
  iofs_New : string -> error;
  pgx_ParseConfig : string -> res (gmap string string);          (* the runtime parameters of the DSN *)
  driver_init : gmap string string -> string -> D -> error * D;   (* parameters, history table *)
  new_instance : error;
  m_Up : gmap string string -> string -> D -> up_outcome * D;
  m_Version : gmap string string -> string -> D -> version_outcome
}.

(** The database and the connections open to it. *)
Record mig_world (D : Type) := mkMW { mw_db : D; mw_open : Z }.
Arguments mkMW {D}. Arguments mw_db {D}. Arguments mw_open {D}.

Section migrate.
Context {D : Type} `{GolangMigrate D}.

Definition opened (n : Z) (w : mig_world D) : mig_world D := mkMW (mw_db w) (mw_open w + n).

(** The runtime parameters a connection is opened with: the DSN's, with the configured search path. *)
Definition search_params (path : string) (params : gmap string string) : gmap string string :=
  if bool_decide (path = EmptyString) then params else <["search_path" := path]> params.

Definition mig_open (cfg : mig_Config) (dir : string) (w : mig_world D) : res (gmap string string) * mig_world D :=
  match iofs_New dir with
  | Some e => (Err (wrapf ("migrate: open source " +:+ quoted dir) e), w)
  | None =>
      match pgx_ParseConfig (mig_DSN cfg) with
      | Err e => (Err (wrapf "migrate: parse DSN" e), w)
      | Ok params =>
          let params := search_params (mig_SearchPath cfg) params in
          let w := opened 1 w in
          match driver_init params (TableName cfg) (mw_db w) with
          | (Some e, db) => (Err (wrapf "migrate: init driver" e), opened (-1) (mkMW db (mw_open w)))
          | (None, db) =>
              let w := mkMW db (mw_open w) in
              match new_instance with
              | Some e => (Err (wrapf "migrate: new instance" e), opened (-1) w)
              | None => (Ok params, w)
              end
          end
      end
  end.

Definition Run (cfg : mig_Config) (dir : string) (w : mig_world D) : error * mig_world D :=
  if negb (bool_decide (mig_Mode cfg = ModeMigrate)) then (None, w)
  else match mig_open cfg dir w with
       | (Err e, w) => (Some e, w)
       | (Ok params, w) =>
           let '(r, db) := m_Up params (TableName cfg) (mw_db w) in
           let w := opened (-1) (mkMW db (mw_open w)) in                    (* defer closeFn() *)
           match r with
           | ErrNoChange => (None, w)
           | ErrDirty v => (Some (DirtyStateError v (TableName cfg)), w)
           | UpErr e => (Some (wrapf "migrate: up" e), w)
           | UpOk => (None, w)
           end
       end.

Definition Status (cfg : mig_Config) (dir : string) (w : mig_world D) : res (Z * bool) * mig_world D :=
  match mig_open cfg dir w with
  | (Err e, w) => (Err e, w)
  | (Ok params, w) =>
      let v := m_Version params (TableName cfg) (mw_db w) in
      let w := opened (-1) w in
      match v with
      | ErrNilVersion => (Ok (0, false), w)
      | VersionErr e => (Err (wrapf "migrate: version" e), w)
      | Version_ version dirty => (Ok (version, dirty), w)
      end
  end.

(** A connection is open after [mig_open] exactly when it succeeded. *)
Lemma mig_open_handles cfg dir w r w' : mig_open cfg dir w = (r, w') ->
  mw_open w' = mw_open w + match r with Ok _ => 1 | Err _ => 0 end.
Proof.
  unfold mig_open. intros E. repeat case_match; simplify_eq; cbn; lia.
Qed.

(** Every outcome of a run releases the connection it opened. *)
Theorem Run_releases cfg dir w : mw_open (Run cfg dir w).2 = mw_open w.
Proof.
  unfold Run. case_match; [done|]. destruct (mig_open cfg dir w) as [[params|e] w1] eqn:E; apply mig_open_handles in E; [|cbn; lia].
  destruct (m_Up params (TableName cfg) (mw_db w1)) as [r db]. destruct r; cbn; lia.
Qed.
Theorem Status_releases cfg dir w : mw_open (Status cfg dir w).2 = mw_open w.
Proof.
  unfold Status. destruct (mig_open cfg dir w) as [[params|e] w1] eqn:E; apply mig_open_handles in E; [|cbn; lia].
  case_match; cbn; lia.
Qed.

(** A run and the application agree on the schema: the search path of the
    configuration wins over the one in the DSN. *)
Lemma mig_open_search_path cfg dir w params w' : mig_open cfg dir w = (Ok params, w') ->
  mig_SearchPath cfg <> EmptyString -> params !! "search_path" = Some (mig_SearchPath cfg).
Proof.
  unfold mig_open, search_params. intros E Hp. rewrite bool_decide_false in E by done. repeat case_match; simplify_eq. by simpl_map.
Qed.
End migrate.

(** ** cmd/dx: newmigration.go, sqlcinit.go, main.go *)

(** Files by path; directories are the beginnings of paths. The oracle says which calls fail. *)
Abbreviation files := (gmap string string).
Record io := mkIo { mkdir_err : string -> error; readdir_err : string -> error; write_err : string -> error }.

Definition migrationsDir : string := "db/migrations".
Definition in_dir (dir name : string) : string := dir +:+ "/" +:+ name.
(** Whether os.Stat finds a path: a file, or a directory some file is in. *)
Definition stat (fs : files) (path : string) : bool :=
  bool_decide (is_Some (fs !! path)) || existsb (fun '(p, _) => has_prefix (path +:+ "/") p) (map_to_list fs).
(** The entry of a directory a path is in: its next component. *)
Definition entry (dir path : string) : option string :=
  rest ← strip (dir +:+ "/") path; Some (match cut "/" rest with Some (name, _) => name | None => rest end).
Definition entries (fs : files) (dir : string) : list string := omap (fun '(p, _) => entry dir p) (map_to_list fs).

(** migrationPrefix, ^(\d{4})_, and the number it captures. *)
Definition migration_number (name : string) : option Z :=
  match name with
  | String a (String b (String c (String d (String u _)))) =>
      if is_digit a && is_digit b && is_digit c && is_digit d && Ascii.eqb u "_"
      then atoi (String a (String b (String c (String d EmptyString)))) else None
  | _ => None
  end.
Definition nextMigrationNumber (o : io) (fs : files) (dir : string) : res Z :=
  match readdir_err o dir with
  | Some e => if errors_is e "os.ErrNotExist" then Ok 1 else Err (wrapf ("read " +:+ dir) e)
  | None => Ok (fold_left (fun m name => match migration_number name with Some n => if m <? n then n else m | None => m end)
                  (entries fs dir) 0 + 1)
  end.

(** unicode.ToLower where it matters: besides A-Z only these two runes have an ASCII
    lower case, and the lower case of every other one is replaced like the rune itself. *)
Definition lower_rune (r : Z) : Z :=
  if (65 <=? r) && (r <=? 90) then r + 32 else if r =? 304 then 105 else if r =? 8490 then 107 else r.
Definition is_slug (r : Z) : bool := ((97 <=? r) && (r <=? 122)) || ((48 <=? r) && (r <=? 57)).
(** slugPattern.ReplaceAllString(_, "_"): every maximal run of other runes becomes one underscore. *)
Fixpoint collapse (in_run : bool) (rs : list Z) : string :=
  match rs with
  | [] => EmptyString
  | r :: rs => if is_slug r then String (ascii_of_byte r) (collapse false rs)
               else if in_run then collapse true rs else String "_" (collapse true rs)
  end.
Definition slugify (name : string) : string := trim_char "_" (collapse false (map lower_rune (runes name))).

Definition writeIfAbsent (o : io) (path contents : string) (fs : files) : error * files :=
  if stat fs path then (Some (NewErr (path +:+ " already exists")), fs)
  else match write_err o path with
       | Some e => (Some e, fs)
       | None => (None, <[path := contents]> fs)
       end.

(** fmt's %04d, of a number that is not negative *)
Fixpoint zeros (n : nat) : string := match n with O => EmptyString | S n => String "0" (zeros n) end.
Definition pad4 (n : Z) : string := zeros (4 - String.length (itoa n)) +:+ itoa n.

Definition migration_base (n : Z) (slug : string) : string := pad4 n +:+ "_" +:+ slug.
Definition up_path (base : string) : string := in_dir migrationsDir (base +:+ ".up.sql").
Definition down_path (base : string) : string := in_dir migrationsDir (base +:+ ".down.sql").
Definition newline : string := String (ascii_of_nat 10) EmptyString.
Definition up_text (base : string) : string := "-- " +:+ base +:+ ": describe the schema change here." +:+ newline.
Definition down_text (base : string) : string := "-- " +:+ base +:+ ": reverse of the .up.sql migration." +:+ newline.

Definition cmdNewMigration (o : io) (args : list string) (fs : files) : error * files :=
  match args with
  | [name] =>
      if bool_decide (trim_space name = EmptyString) then (Some (NewErr "usage: dx new migration <name>"), fs)
      else
        let slug := slugify name in
        if bool_decide (slug = EmptyString)
        then (Some (NewErr ("migration name " +:+ quoted name +:+ " has no usable characters")), fs)
        else match mkdir_err o migrationsDir with
             | Some e => (Some (wrapf ("create " +:+ migrationsDir) e), fs)
             | None =>
                 match nextMigrationNumber o fs migrationsDir with
                 | Err e => (Some e, fs)
                 | Ok next =>
                     let base := migration_base next slug in
                     match writeIfAbsent o (up_path base) (up_text base) fs with
                     | (Some e, fs) => (Some e, fs)
                     | (None, fs) => writeIfAbsent o (down_path base) (down_text base) fs
                     end
                 end
             end
  | _ => (Some (NewErr "usage: dx new migration <name>"), fs)
  end.

(** The texts of sqlc.yaml and schema.sql are constants of the tool. *)
Definition cmdSqlcInit (canonicalSqlcYAML schemaPlaceholder : string) (o : io) (args : list string) (fs : files) : error * files :=
  if negb (bool_decide (args = [])) then (Some (NewErr "usage: dx sqlc init"), fs)
  else match writeIfAbsent o "sqlc.yaml" canonicalSqlcYAML fs with
       | (Some e, fs) => (Some e, fs)
       | (None, fs) =>
           match mkdir_err o "db/sqlc/queries" with
           | Some e => (Some (wrapf "create db/sqlc/queries" e), fs)
           | None =>
               match writeIfAbsent o "db/sqlc/schema.sql" schemaPlaceholder fs with
               | (Some e, fs) => (Some e, fs)
               | (None, fs) =>
                   let gitkeep := "db/sqlc/queries/.gitkeep" in
                   if stat fs gitkeep then (None, fs)
                   else match write_err o gitkeep with
                        | Some e => (Some (wrapf ("create " +:+ gitkeep) e), fs)
                        | None => (None, <[gitkeep := EmptyString]> fs)
                        end
               end
           end
       end.

(** The exit status of the command line. *)
Definition dx_main (yaml placeholder : string) (o : io) (argv : list string) (fs : files) : Z * files :=
  match argv with
  | _ :: group :: sub :: rest =>
      let status (r : error * files) := match r with (Some _, fs) => (1, fs) | (None, fs) => (0, fs) end in
      if bool_decide (group = "new") && bool_decide (sub = "migration") then status (cmdNewMigration o rest fs)
      else if bool_decide (group = "sqlc") && bool_decide (sub = "init") then status (cmdSqlcInit yaml placeholder o rest fs)
      else (2, fs)
  | _ => (2, fs)
  end.

(** ** Lemmas *)

Definition slug_char (c : ascii) : bool := is_slug (byte_of c) || Ascii.eqb c "_".
Lemma collapse_chars run rs : all_chars slug_char (collapse run rs) = true.
Proof.
  revert run. induction rs as [|r rs IH]; intros run; [done|]. cbn [collapse]. destruct (is_slug r) eqn:E.
  - cbn [all_chars]. rewrite IH, andb_true_r. unfold slug_char. rewrite byte_of_ascii; [by rewrite E|]. unfold is_slug in E. lia.
  - destruct run; [apply IH|]. cbn [all_chars]. by rewrite IH.
Qed.
Lemma trim_char_chars P c s : all_chars P s = true -> all_chars P (trim_char c s) = true.
Proof.
  intros Hs. unfold trim_char. assert (Hl : all_chars P (trim_left_char c s) = true).
  { induction s as [|d s IH]; [done|]. cbn [trim_left_char]. case_match; [|done]. apply IH. cbn in Hs. by apply andb_true_iff in Hs as [_ Hs]. }
  induction (trim_left_char c s) as [|d t IH]; [done|]. cbn [trim_right_char]. cbn [all_chars] in Hl. apply andb_true_iff in Hl as [Hd Ht].
  case_match; [done|]. cbn [all_chars]. by rewrite Hd, IH.
Qed.
(** A slug cannot leave the directory: it has no slash and no dot. *)
Lemma slugify_chars name : all_chars slug_char (slugify name) = true.
Proof. apply trim_char_chars, collapse_chars. Qed.

Lemma entry_in_dir dir name : contains_char "/" name = false -> entry dir (in_dir dir name) = Some name.
Proof.
  intros Hn. unfold entry, in_dir. rewrite <- string_app_assoc, strip_app. cbn [mbind option_bind]. by rewrite cut_None.
Qed.

(** The four digits of the tool are the ones it reads back. *)
Definition pad4_ok (n : Z) : bool :=
  match pad4 n with
  | String a (String b (String c (String d EmptyString))) =>
      is_digit a && is_digit b && is_digit c && is_digit d
      && bool_decide (atoi (String a (String b (String c (String d EmptyString)))) = Some n)
  | _ => false
  end.
Lemma pad4_all : forallb pad4_ok (seqZ 0 10000) = true.
Proof. vm_compute. reflexivity. Qed.
Lemma migration_number_pad4 n rest : 0 <= n <= 9999 -> migration_number (pad4 n +:+ "_" +:+ rest) = Some n.
Proof.
  intros Hn. pose proof (proj1 (forallb_forall pad4_ok (seqZ 0 10000)) pad4_all n) as Hp.
  rewrite <- list_elem_of_In, elem_of_seqZ in Hp. specialize (Hp ltac:(lia)). unfold pad4_ok in Hp.
  destruct (pad4 n) as [|a [|b [|c [|d [|e s]]]]]; try done. apply andb_true_iff in Hp as [Hd Ha%bool_decide_eq_true].
  rewrite !app_String, !app_Empty. cbn [migration_number]. by rewrite Hd, Ascii.eqb_refl.
Qed.

Lemma pad4_chars n : 0 <= n -> all_chars is_digit (pad4 n) = true.
Proof.
  intros Hn. unfold pad4. rewrite all_chars_app. apply andb_true_iff. split.
  - by induction (4 - String.length (itoa n))%nat.
  - unfold itoa. destruct (Z.ltb_spec n 0); [lia|]. by apply digits_all.
Qed.

Definition numbers (fs : files) (dir : string) : list Z := omap migration_number (entries fs dir).
Definition zmax (l : list Z) : Z := fold_right Z.max 0 l.

Lemma zmax_nonneg l : 0 <= zmax l.
Proof. unfold zmax. induction l; cbn; lia. Qed.
Lemma next_fold names m : 0 <= m ->
  fold_left (fun m name => match migration_number name with Some n => if m <? n then n else m | None => m end) names m
  = Z.max m (zmax (omap migration_number names)).
Proof.
  unfold zmax. revert m. induction names as [|s names IH]; intros m Hm; cbn; [lia|].
  destruct (migration_number s) as [n|]; cbn; [|by apply IH]. destruct (Z.ltb_spec m n); rewrite IH by lia; lia.
Qed.
Lemma nextMigrationNumber_max o fs dir : readdir_err o dir = None -> nextMigrationNumber o fs dir = Ok (zmax (numbers fs dir) + 1).
Proof.
  intros E. unfold nextMigrationNumber. rewrite E, next_fold by lia. f_equal. unfold numbers.
  pose proof (zmax_nonneg (omap migration_number (entries fs dir))). lia.
Qed.
Lemma zmax_ge l n : n ∈ l -> n <= zmax l.
Proof. unfold zmax. induction 1; cbn; lia. Qed.
Lemma zmax_unique l n : n ∈ l -> (forall k, k ∈ l -> k <= n) -> 0 <= n -> zmax l = n.
Proof.
  intros Hn Hl H0. apply Z.le_antisymm; [|by apply zmax_ge].
  clear Hn. unfold zmax. induction l as [|k l IH]; cbn; [lia|]. pose proof (Hl k ltac:(by left)). specialize (IH ltac:(intros; apply Hl; by right)). lia.
Qed.
Lemma elem_of_numbers fs dir n : n ∈ numbers fs dir <-> exists p t name, fs !! p = Some t /\ entry dir p = Some name /\ migration_number name = Some n.
Proof.
  unfold numbers, entries. rewrite list_elem_of_omap. setoid_rewrite list_elem_of_omap. split.
  - intros (name & ([p t] & Hp%elem_of_map_to_list & He) & Hn). eauto 8.
  - intros (p & t & name & Hp & He & Hn). exists name. split; [|done]. exists (p, t). by rewrite elem_of_map_to_list.
Qed.

Lemma writeIfAbsent_ok o path text fs fs' : writeIfAbsent o path text fs = (None, fs') -> fs !! path = None /\ fs' = <[path := text]> fs.
Proof.
  unfold writeIfAbsent. destruct (stat fs path) eqn:E; [done|]. intros Hw. split; [|by case_match; simplify_eq].
  apply orb_false_iff in E as [E%bool_decide_eq_false _]. by apply eq_None_not_Some.
Qed.

(** The file names of a migration are entries of the directory, and carry its number. *)
Lemma migration_entry n name suffix : 0 <= n -> contains_char "/" suffix = false ->
  entry migrationsDir (in_dir migrationsDir (migration_base n (slugify name) +:+ suffix)) = Some (migration_base n (slugify name) +:+ suffix).
Proof.
  intros Hn Hs. apply entry_in_dir. unfold migration_base. rewrite !contains_char_app, Hs.
  rewrite (all_chars_no_char is_digit "/" (pad4 n)) by (done || by apply pad4_chars).
  by rewrite (all_chars_no_char slug_char "/" (slugify name)) by (done || apply slugify_chars).
Qed.
Lemma migration_base_number n slug suffix : 0 <= n <= 9999 -> migration_number (migration_base n slug +:+ suffix) = Some n.
Proof. intros Hn. unfold migration_base. rewrite !string_app_assoc. by apply migration_number_pad4. Qed.

(** Writing a migration adds its number and no other. *)
Lemma numbers_insert fs n name suffix text k : 0 <= n <= 9999 -> contains_char "/" suffix = false ->
  k ∈ numbers (<[in_dir migrationsDir (migration_base n (slugify name) +:+ suffix) := text]> fs) migrationsDir ->
  k = n \/ k ∈ numbers fs migrationsDir.
Proof.
  intros Hn Hs. rewrite !elem_of_numbers. intros (p & t & e & Hp & He & Hk).
  destruct (decide (p = in_dir migrationsDir (migration_base n (slugify name) +:+ suffix))) as [->|Hne].
  - rewrite migration_entry in He by (done || lia). simplify_eq. rewrite migration_base_number in Hk by done. left. congruence.
  - rewrite lookup_insert_ne in Hp by done. right. eauto 8.
Qed.

(** `dx new migration` keeps the migrations a sequence: the pair it writes is
    numbered above every migration present, was absent before, is all that changes
    in the file system, and — up to the four digits of the naming scheme — is what
    the next invocation counts on from. *)
Theorem cmdNewMigration_sequence o name fs fs' :
  readdir_err o migrationsDir = None -> cmdNewMigration o [name] fs = (None, fs') ->
  exists n, (forall k, k ∈ numbers fs migrationsDir -> k < n)
    /\ let base := migration_base n (slugify name) in
       fs !! up_path base = None /\ fs !! down_path base = None
       /\ fs' = <[down_path base := down_text base]> (<[up_path base := up_text base]> fs)
       /\ (n <= 9999 -> nextMigrationNumber o fs' migrationsDir = Ok (n + 1)).
Proof.
  intros Ho E. cbn [cmdNewMigration] in E. case_bool_decide; [done|]. case_bool_decide; [done|].
  destruct (mkdir_err o migrationsDir); [done|]. rewrite nextMigrationNumber_max in E by done.
  pose proof (zmax_nonneg (numbers fs migrationsDir)) as Hz. set (n := zmax (numbers fs migrationsDir) + 1) in *. cbn zeta in E.
  destruct (writeIfAbsent o (up_path _) _ fs) as [[e|] fs1] eqn:E1; [done|].
  apply writeIfAbsent_ok in E1 as [Hu ->]. apply writeIfAbsent_ok in E as [Hd ->].
  exists n. split; [intros k Hk%zmax_ge; lia|]. cbn zeta. split; [done|].
  split; [by apply lookup_insert_None in Hd as [? _]|]. split; [done|]. intros Hn.
  rewrite nextMigrationNumber_max by done. f_equal. f_equal. apply zmax_unique; [| |lia].
  - apply elem_of_numbers. do 3 eexists. split; [apply lookup_insert_eq|].
    split; [apply migration_entry; [lia|done]|]. apply migration_base_number. lia.
  - intros k Hk. apply numbers_insert in Hk as [->|Hk]; [lia| |lia|done].
    apply numbers_insert in Hk as [->|Hk%zmax_ge]; [lia|lia|lia|done].
Qed.

Definition calm : io := mkIo (fun _ => None) (fun _ => None) (fun _ => None).
Definition baseline : files := {[ "db/migrations/0001_baseline.up.sql" := EmptyString ]}.

(** What [cmdNewMigration_sequence] says of one directory. *)
Lemma cmdNewMigration_sequence_witness : exists fs' n,
  cmdNewMigration calm ["Add Users, v2!"] baseline = (None, fs') /\ 1 < n
  /\ (n <= 9999 -> nextMigrationNumber calm fs' migrationsDir = Ok (n + 1)).
Proof.
  assert (E : cmdNewMigration calm ["Add Users, v2!"] baseline = (None, (cmdNewMigration calm ["Add Users, v2!"] baseline).2))
    by (vm_compute; reflexivity).
  destruct (cmdNewMigration_sequence calm "Add Users, v2!" baseline _ eq_refl E) as (n & Hn & _ & _ & _ & Hnext).
  eexists _, n. split; [exact E|]. split; [|exact Hnext]. apply Hn.
  apply elem_of_numbers. exists "db/migrations/0001_baseline.up.sql", EmptyString, "0001_baseline.up.sql". vm_compute. auto.
Defined.

Example slugify_sample : slugify "  Add Users, v2! " = "add_users_v2".
Proof. vm_compute. reflexivity. Qed.
(** A name without a letter or digit of its own is refused. *)
Example slug_refused : (cmdNewMigration calm ["--"] baseline).1 <> None.
Proof. vm_compute. discriminate. Qed.
(** After number 9999 the scheme breaks: the five digits of the next migration are not
    read back, so the one after it gets the same number. *)
Definition at_9999 : files := {[ "db/migrations/9999_last.up.sql" := EmptyString ]}.
Example numbers_repeat_after_9999 :
  let fs1 := (cmdNewMigration calm ["a"] at_9999).2 in
  let fs2 := (cmdNewMigration calm ["b"] fs1).2 in
  fs2 !! "db/migrations/10000_a.up.sql" <> None /\ fs2 !! "db/migrations/10000_b.up.sql" <> None.
Proof. vm_compute. split; discriminate. Qed.
(** A second `dx sqlc init` fails on sqlc.yaml and creates nothing of what is missing. *)
Example sqlc_init_not_rerunnable :
  cmdSqlcInit "yaml" "schema" calm [] {[ "sqlc.yaml" := "yaml" ]} = (Some (NewErr "sqlc.yaml already exists"), {[ "sqlc.yaml" := "yaml" ]}).
Proof. reflexivity. Qed.
(** A failure between the two files leaves the first one behind. *)
Example half_a_migration :
  let o := mkIo (fun _ => None) (fun _ => None) (fun p => if contains p ".down." then Some (NewErr "disk full") else None) in
  let '(err, fs) := cmdNewMigration o ["a"] ∅ in err <> None /\ fs !! "db/migrations/0001_a.up.sql" <> None.
Proof. vm_compute. split; discriminate. Qed.
