(* ===== verification/Runner.v ===== *)
(** * Runner: the loops of scheduler/runner.go and messaging/outbox/dispatcher.go

    Start runs one goroutine per job; each loops over runs (the resumptions of
    Scheduler) and waits for the context, its ticker or a kick.  The goroutines,
    the channels and the callers of Kick are a transition system, whose runs are
    runs of the system of Scheduler. *)

From S2P Require Import Prelude GoStrings Errors GoFloat Backoff Breaker Retry Scheduler Outbox.

(** ** Start and runLoop *)

(** Where a goroutine is: before its first run, in runOnce, in the select, returned. *)
Inductive phase := Spawned | Working | Waiting | Exited.
#[export] Instance phase_eq_dec : EqDecision phase.
Proof. solve_decision. Defined.

Inductive revent := Kicked (i : nat) | RunStarted (i : nat) | RunEnded (i : nat).
#[export] Instance revent_eq_dec : EqDecision revent.
Proof. solve_decision. Defined.

(** One replica's runner: the jobs with their kick channels, the goroutines, the channels
    of their tickers, the context, whether Start has returned, the runs and locks of all
    replicas, and what happened so far. *)
Record runner := mkRun {
  rn_jobs : list registeredJob; rn_phase : nat -> phase; rn_tick : nat -> bool;
  rn_cancelled : bool; rn_returned : bool; rn_sys : sys; rn_trace : list revent
}.

Definition set_jobs (l : list registeredJob) (x : runner) : runner :=
  mkRun l (rn_phase x) (rn_tick x) (rn_cancelled x) (rn_returned x) (rn_sys x) (rn_trace x).
Definition set_phase (i : nat) (p : phase) (x : runner) : runner :=
  mkRun (rn_jobs x) (upd (rn_phase x) i p) (rn_tick x) (rn_cancelled x) (rn_returned x) (rn_sys x) (rn_trace x).
Definition set_tick (i : nat) (b : bool) (x : runner) : runner :=
  mkRun (rn_jobs x) (rn_phase x) (upd (rn_tick x) i b) (rn_cancelled x) (rn_returned x) (rn_sys x) (rn_trace x).
Definition set_sys (s : sys) (x : runner) : runner :=
  mkRun (rn_jobs x) (rn_phase x) (rn_tick x) (rn_cancelled x) (rn_returned x) s (rn_trace x).
Definition cancel (x : runner) : runner :=
  mkRun (rn_jobs x) (rn_phase x) (rn_tick x) true (rn_returned x) (rn_sys x) (rn_trace x).
Definition return_ (x : runner) : runner :=
  mkRun (rn_jobs x) (rn_phase x) (rn_tick x) (rn_cancelled x) true (rn_sys x) (rn_trace x).
Definition log (e : revent) (x : runner) : runner :=
  mkRun (rn_jobs x) (rn_phase x) (rn_tick x) (rn_cancelled x) (rn_returned x) (rn_sys x) (rn_trace x ++ [e]).

(** Goroutine [i] calls runOnce. *)
Definition begin_run (i : nat) (rj : registeredJob) (x : runner) : runner :=
  log (RunStarted i) (set_phase i Working
    (set_sys (mkSys (upd (procs (rn_sys x)) i (Scheduler.runOnce rj)) (sessions (rn_sys x)) (locks (rn_sys x))) x)).

(** Start: a goroutine per job. *)
Definition start (jobs : list registeredJob) (cancelled : bool) (l : Z -> option (nat * nat)) : runner :=
  mkRun jobs (fun _ => Spawned) (fun _ => false) cancelled false (idle l) [].

Section loops.
(** All loops of all replicas; this runner's come first. *)
Variable all : nat -> registeredJob.
Variable int63n : Z -> Z.

Inductive rstep : runner -> runner -> Prop :=
  (* a caller of Kick, at any time *)
  | R_kick i rj x : rn_jobs x !! i = Some rj ->
      rstep x (log (Kicked i) (set_jobs (Scheduler.Kick (Name (rj_job rj)) (rn_jobs x)) x))
  | R_cancel x : rstep x (cancel x)
  (* the ticker exists between the first run and the return of the loop *)
  | R_tick i x : rn_phase x i = Working \/ rn_phase x i = Waiting -> rstep x (set_tick i true x)
  (* a call of a run, or any step of another replica *)
  | R_sys y x : step all (rn_sys x) y ->
      (forall i, (i < length (rn_jobs x))%nat -> procs (rn_sys x) i = Done -> procs y i = Done) ->
      rstep x (set_sys y x)
  (* runLoop: the jittered delay is over, or there is none *)
  | R_first i rj x : rn_jobs x !! i = Some rj -> rn_phase x i = Spawned -> rstep x (begin_run i rj x)
  | R_jitter_cancelled i rj x : rn_jobs x !! i = Some rj -> rn_phase x i = Spawned ->
      is_Some (first_delay int63n (rj_job rj)) -> rn_cancelled x = true -> rstep x (set_phase i Exited x)
  (* runOnce returns *)
  | R_end i x : (i < length (rn_jobs x))%nat -> rn_phase x i = Working -> procs (rn_sys x) i = Done ->
      rstep x (log (RunEnded i) (set_phase i Waiting x))
  (* the select; when several channels are ready any of them may be taken *)
  | R_wake_done i x : (i < length (rn_jobs x))%nat -> rn_phase x i = Waiting -> rn_cancelled x = true ->
      rstep x (set_phase i Exited x)
  | R_wake_tick i rj rj' x : rn_jobs x !! i = Some rj -> rn_phase x i = Waiting -> rn_tick x i = true ->
      after_wait WakeTick rj = Some rj' ->
      rstep x (begin_run i rj' (set_tick i false (set_jobs (<[i := rj']> (rn_jobs x)) x)))
  | R_wake_kick i rj rj' x : rn_jobs x !! i = Some rj -> rn_phase x i = Waiting -> rj_kick rj = true ->
      after_wait WakeKick rj = Some rj' ->
      rstep x (begin_run i rj' (set_jobs (<[i := rj']> (rn_jobs x)) x))
  (* wg.Wait() returns *)
  | R_return x : (forall i, (i < length (rn_jobs x))%nat -> rn_phase x i = Exited) -> rstep x (return_ x).

Inductive rsteps : runner -> runner -> Prop :=
  | Rsteps_nil x : rsteps x x
  | Rsteps_snoc x y z : rsteps x y -> rstep y z -> rsteps x z.
End loops.

(** A runner built by Register calls. *)
Inductive registered : list registeredJob -> Prop :=
  | Reg_nil : registered []
  | Reg_snoc j opts r r' : registered r -> Scheduler.Register j opts r = Fine r' ->
      Forall (fun o => o = WithSingleton) opts -> registered r'.

(** ** messaging/outbox/dispatcher.go: Run and Job *)

(** Run with what its select receives; the fuel bounds the batches of a drain. *)
Fixpoint Dispatcher_Run {W} `{Store W} (publish : Row -> W -> error * W) (fuel : nat) (wakes : list wakeup) (d : Dispatcher) (w : W)
  : option (W * list oevent) :=
  match wakes with
  | [] => Some (w, [])                                  (* still waiting *)
  | WakeCtx :: _ => Some (w, [])
  | u :: wakes =>
      let d := match u with WakeKick => mkDispatcher (interval d) (batch d) false | _ => d end in
      match drain publish fuel d w with
      | None => None
      | Some (w, tr) => match Dispatcher_Run publish fuel wakes d w with
                        | Some (w, tr') => Some (w, tr ++ tr')
                        | None => None
                        end
      end
  end.

Definition Dispatcher_Job (d : Dispatcher) (name : string) : Job := mkJob name (interval d) 0 0.

(** ** Lemmas *)

(** What a run depends on: the channel does not matter. *)
Definition core (rj : registeredJob) : Job * bool := (rj_job rj, singleton rj).
Lemma runOnce_core a b : core a = core b -> Scheduler.runOnce a = Scheduler.runOnce b.
Proof. intros [= Ej Es]. unfold Scheduler.runOnce. by rewrite Ej, Es. Qed.
Lemma core_Kick name r : core <$> Scheduler.Kick name r = core <$> r.
Proof. induction r as [|rj r IH]; [done|]. cbn. case_bool_decide; [done|]. cbn. by rewrite IH. Qed.
Lemma core_after_wait u rj rj' : after_wait u rj = Some rj' -> core rj' = core rj.
Proof. destruct u; intros [= <-]; done. Qed.
Lemma core_insert (r : list registeredJob) i rj rj' : r !! i = Some rj -> core rj' = core rj -> core <$> <[i := rj']> r = core <$> r.
Proof. intros Hi E. rewrite list_fmap_insert, E. apply list_insert_id. by rewrite list_lookup_fmap, Hi. Qed.
Lemma core_length (r r' : list registeredJob) : core <$> r = core <$> r' -> length r = length r'.
Proof. intros E%(f_equal length). by rewrite !length_fmap in E. Qed.

(** With distinct names a kick reaches its job and no other. *)
Definition names (r : list registeredJob) : list string := (fun rj => Name (rj_job rj)) <$> r.
Lemma names_core r r' : core <$> r = core <$> r' -> names r = names r'.
Proof.
  intros E. transitivity ((fun c : Job * bool => Name c.1) <$> (core <$> r)); [by rewrite <- list_fmap_compose|].
  rewrite E. by rewrite <- list_fmap_compose.
Qed.
Lemma Kick_lookup r i rj : NoDup (names r) -> r !! i = Some rj ->
  Scheduler.Kick (Name (rj_job rj)) r = <[i := mkRJob (rj_job rj) (singleton rj) true]> r.
Proof.
  revert i. induction r as [|a r IH]; intros i Hn Hi; [done|]. cbn in Hn. apply NoDup_cons in Hn as [Ha Hn]. cbn [Scheduler.Kick].
  destruct i as [|i]; cbn in Hi; simplify_eq.
  - by rewrite bool_decide_true.
  - rewrite bool_decide_false; [by rewrite (IH i)|]. intros E. apply Ha. rewrite E. apply list_elem_of_fmap. exists rj.
    split; [done|]. by eapply list_elem_of_lookup_2.
Qed.

Lemma WithSingleton_core opts rj : Forall (fun o => o = WithSingleton) opts ->
  rj_job (fold_left (fun rj (o : JobOption) => o rj) opts rj) = rj_job rj.
Proof. intros H. revert rj. induction H as [|o opts -> H IH]; intros rj; [done|]. cbn. by rewrite IH. Qed.
Lemma registered_names r : registered r -> NoDup (names r).
Proof.
  induction 1 as [|j opts r r' Hr IH HR Hopts]; [constructor|]. unfold Scheduler.Register in HR.
  destruct (Every j <=? 0); [done|]. destruct (existsb _ r) eqn:E; [done|]. injection HR as <-.
  unfold names. rewrite fmap_app. apply NoDup_app. split; [done|]. cbn. rewrite WithSingleton_core by done. cbn. split; [|repeat constructor; set_solver].
  intros n (rj & -> & Hrj)%list_elem_of_fmap. rewrite list_elem_of_singleton. intros En.
  apply not_true_iff_false in E. apply E, existsb_exists. exists rj. split; [by apply list_elem_of_In|]. by rewrite bool_decide_true.
Qed.

(** Every kick of [i] in the trace is followed by the start of a run. *)
Definition served (i : nat) (tr : list revent) : Prop := forall tr1 tr2, tr = tr1 ++ Kicked i :: tr2 -> RunStarted i ∈ tr2.
Lemma served_snoc i e tr : e = RunStarted i \/ (e <> Kicked i /\ served i tr) -> served i (tr ++ [e]).
Proof.
  intros H tr1 tr2 E. destruct tr2 as [|b tr2 _] using rev_ind.
  - apply app_inj_tail in E as [-> ->]. naive_solver.
  - rewrite app_comm_cons, app_assoc in E. apply app_inj_tail in E as [-> ->]. apply elem_of_app.
    destruct H as [->|[_ H]]; [right; by left|]. left. by apply (H tr1).
Qed.
Definition kick_pending (x : runner) (i : nat) : Prop := exists rj, rn_jobs x !! i = Some rj /\ rj_kick rj = true.

(** How often an event happened. *)
Definition occurs (e : revent) (tr : list revent) : nat := length (filter (.= e) tr).
#[local] Arguments occurs : simpl never.
Lemma occurs_snoc e f tr : occurs e (tr ++ [f]) = (occurs e tr + if decide (f = e) then 1 else 0)%nat.
Proof. unfold occurs. rewrite filter_app, length_app. f_equal. rewrite filter_cons. by destruct (decide (f = e)). Qed.
Definition starts (i : nat) (x : runner) : nat := occurs (RunStarted i) (rn_trace x).
Definition ends (i : nat) (x : runner) : nat := occurs (RunEnded i) (rn_trace x).
Definition in_flight (i : nat) (x : runner) : nat := if decide (rn_phase x i = Working) then 1 else 0.

Section invariant.
Variable all : nat -> registeredJob.
Variable int63n : Z -> Z.
Variable jobs : list registeredJob.
Variable l : Z -> option (nat * nat).
Variable cancelled : bool.
Hypothesis distinct : NoDup (names jobs).
Hypothesis ours : forall i rj, jobs !! i = Some rj -> core (all i) = core rj.

Record rinv (x : runner) : Prop := {
  ri_core : core <$> rn_jobs x = core <$> jobs;
  ri_steps : steps all (idle l) (rn_sys x);
  ri_done : forall i, (i < length jobs)%nat -> rn_phase x i <> Working -> procs (rn_sys x) i = Done;
  ri_kick : forall i, served i (rn_trace x) \/ kick_pending x i;
  ri_runs : forall i, starts i x = (ends i x + in_flight i x)%nat;
  ri_exit : forall i, rn_phase x i = Exited -> rn_cancelled x = true;
  ri_returned : rn_returned x = true -> forall i, (i < length jobs)%nat -> rn_phase x i = Exited
}.

Lemma rinv_start : rinv (start jobs cancelled l).
Proof. split; cbn; try done; [constructor|]. left. intros [|] ? [=]. Qed.

Lemma rinv_length x : rinv x -> length (rn_jobs x) = length jobs.
Proof. intros [H]. by apply core_length. Qed.
Lemma rinv_job x i rj : rinv x -> rn_jobs x !! i = Some rj -> core (all i) = core rj /\ (i < length jobs)%nat.
Proof.
  intros H Hi. assert (Hf : core <$> rn_jobs x !! i = core <$> jobs !! i) by (rewrite <- !list_lookup_fmap; by rewrite (ri_core x H)).
  rewrite Hi in Hf. destruct (jobs !! i) as [rj0|] eqn:E0; [|done]. cbn in Hf. injection Hf as Hj Hs.
  split; [rewrite (ours i rj0 E0); unfold core; congruence|]. by eapply lookup_lt_Some.
Qed.

(** Starting a run of goroutine [i], which may take a kick out of its channel. *)
Lemma rinv_begin i rj rj' x jobs' :
  rinv x -> rn_jobs x !! i = Some rj -> rn_phase x i <> Working -> rn_phase x i <> Exited -> core rj' = core rj ->
  jobs' = <[i := rj']> (rn_jobs x) -> rinv (begin_run i rj' (set_jobs jobs' x)).
Proof.
  intros H Hi Hw Hx Hc ->. destruct (rinv_job x i rj H Hi) as [Hall Hlt]. pose proof (ri_done x H i Hlt Hw) as Hd.
  split; cbn.
  - rewrite (core_insert _ i rj rj') by done. apply (ri_core x H).
  - eapply Steps_snoc; [apply (ri_steps x H)|]. rewrite (runOnce_core rj' (all i)) by congruence. by apply S_start.
  - intros j Hj. upd_cases j i; [done|]. apply (ri_done x H j Hj).
  - intros j. destruct (decide (j = i)) as [->|Hj]; [left; apply served_snoc; by left|].
    destruct (ri_kick x H j) as [Hs|(r & Hr & Hk)]; [left; apply served_snoc; right; naive_solver|].
    right. exists r. cbn. by rewrite list_lookup_insert_ne.
  - intros j. pose proof (ri_runs x H j) as Hj. unfold starts, ends, in_flight in *. cbn. rewrite !occurs_snoc.
    rewrite (decide_False (P := RunStarted i = RunEnded j)) by done. destruct (decide (j = i)) as [->|Hne].
    + rewrite upd_eq, !decide_True by done. rewrite decide_False in Hj by done. lia.
    + rewrite upd_ne, (decide_False (P := RunStarted i = RunStarted j)) by congruence. lia.
  - intros j. upd_cases j i; [done|]. apply (ri_exit x H).
  - intros Hr j Hj. exfalso. by rewrite (ri_returned x H Hr i Hlt) in Hx.
Qed.

Lemma rinv_tick i b x : rinv x -> rinv (set_tick i b x).
Proof. intros []. by split. Qed.
Lemma rinv_exit i x : rinv x -> rn_phase x i <> Working -> rn_cancelled x = true -> rinv (set_phase i Exited x).
Proof.
  intros H Hw Hc. destruct H as [H1 H2 H3 H4 H5 H6 H7]. split; cbn; try done.
  - intros j Hj. upd_cases j i; [intros _; by apply H3|]. by apply H3.
  - intros j. pose proof (H5 j) as Hj. unfold starts, ends, in_flight in *. cbn. upd_cases j i; [|done].
    rewrite decide_False in Hj by done. by rewrite decide_False by done.
  - intros Hr j Hj. upd_cases j i; [done|]. by apply H7.
Qed.
Lemma rinv_end i x : rinv x -> (i < length jobs)%nat -> rn_phase x i = Working -> procs (rn_sys x) i = Done ->
  rinv (log (RunEnded i) (set_phase i Waiting x)).
Proof.
  intros H Hi Hw Hd. destruct H as [H1 H2 H3 H4 H5 H6 H7]. split; cbn; try done.
  - intros j Hj. upd_cases j i; [done|]. by apply H3.
  - intros j. destruct (H4 j) as [Hs|Hk]; [|by right]. left. apply served_snoc. by right.
  - intros j. pose proof (H5 j) as Hj. unfold starts, ends, in_flight in *. cbn. rewrite !occurs_snoc.
    rewrite (decide_False (P := RunEnded i = RunStarted j)) by done. destruct (decide (j = i)) as [->|Hne].
    + rewrite upd_eq, (decide_True (P := RunEnded i = RunEnded i)), (decide_False (P := Waiting = Working)) by done.
      rewrite decide_True in Hj by done. lia.
    + rewrite upd_ne, (decide_False (P := RunEnded i = RunEnded j)) by congruence. lia.
  - intros j. upd_cases j i; [done|]. apply H6.
  - intros Hr j Hj. exfalso. by rewrite (H7 Hr i Hi) in Hw.
Qed.
Lemma rinv_kick i rj x : rinv x -> rn_jobs x !! i = Some rj ->
  rinv (log (Kicked i) (set_jobs (Scheduler.Kick (Name (rj_job rj)) (rn_jobs x)) x)).
Proof.
  intros H Hi. pose proof (lookup_lt_Some _ _ _ Hi) as Hlt.
  assert (HK : Scheduler.Kick (Name (rj_job rj)) (rn_jobs x) = <[i := mkRJob (rj_job rj) (singleton rj) true]> (rn_jobs x)).
  { apply Kick_lookup; [|done]. by rewrite (names_core _ jobs) by apply (ri_core x H). }
  destruct H as [H1 H2 H3 H4 H5 H6 H7]. split; cbn; try done.
  - by rewrite core_Kick.
  - intros j. rewrite HK. destruct (decide (j = i)) as [->|Hne].
    + right. eexists. cbn. by rewrite list_lookup_insert_eq.
    + destruct (H4 j) as [Hs|(r & Hr & Hk)]; [left; apply served_snoc; right; naive_solver|].
      right. exists r. cbn. by rewrite list_lookup_insert_ne.
  - intros j. pose proof (H5 j) as Hj. unfold starts, ends, in_flight in *. cbn. rewrite !occurs_snoc, !decide_False by done.
    rewrite !Nat.add_0_r. exact Hj.
Qed.

Lemma rinv_step x y : rinv x -> rstep all int63n x y -> rinv y.
Proof.
  intros H Hst. pose proof (rinv_length x H) as Hlen.
  destruct Hst as [i rj x Hi|x|i x _|y x Hst Hd|i rj x Hi Hp|i rj x Hi Hp _ Hc|i x Hi Hp Hd|i x Hi Hp Hc
                  |i rj rj' x Hi Hp _ Hw|i rj rj' x Hi Hp _ Hw|x Hall].
  - by apply rinv_kick.
  - destruct H as [H1 H2 H3 H4 H5 H6 H7]. by split.
  - by apply rinv_tick.
  - rewrite Hlen in Hd. destruct H as [H1 H2 H3 H4 H5 H6 H7]. split; cbn; try done; [by eapply Steps_snoc|eauto].
  - replace x with (set_jobs (rn_jobs x) x) at 1 by (by destruct x).
    apply (rinv_begin i rj); try done; [by rewrite Hp..|]. by rewrite list_insert_id.
  - apply rinv_exit; [done|by rewrite Hp|done].
  - apply rinv_end; try done. lia.
  - apply rinv_exit; [done|by rewrite Hp|done].
  - change (rinv (begin_run i rj' (set_jobs (<[i := rj']> (rn_jobs (set_tick i false x))) (set_tick i false x)))).
    eapply (rinv_begin i rj rj' (set_tick i false x)); try done; [by apply rinv_tick|cbn; by rewrite Hp..|by eapply core_after_wait].
  - eapply (rinv_begin i rj); try done; [by rewrite Hp..|by eapply core_after_wait].
  - rewrite Hlen in Hall. destruct H as [H1 H2 H3 H4 H5 H6 H7]. by split.
Qed.
Lemma rinv_steps x : rsteps all int63n (start jobs cancelled l) x -> rinv x.
Proof.
  remember (start jobs cancelled l) as x0 eqn:E. induction 1 as [x|x y z _ IH Hst]; subst; [apply rinv_start|].
  eapply rinv_step; [|done]. by apply IH.
Qed.
End invariant.

(** ** Shutdown *)

Section shutdown.
Variable all : nat -> registeredJob.
Variable int63n : Z -> Z.
#[local] Abbreviation rstep' := (rstep all int63n).
#[local] Abbreviation rsteps' := (rsteps all int63n).

Lemma rsteps_trans x y z : rsteps' x y -> rsteps' y z -> rsteps' x z.
Proof. intros Hx Hy. revert x Hx. induction Hy as [y|y z u _ IH Hst]; intros x Hx; [done|]. eapply Rsteps_snoc; [by apply IH|done]. Qed.
Lemma rsteps_cons x y z : rstep' x y -> rsteps' y z -> rsteps' x z.
Proof. intros Hx. apply rsteps_trans. eapply Rsteps_snoc; [constructor|done]. Qed.

(** A call of a run that is under way. *)
Lemma rstep_call i x p ss ll : procs (rn_sys x) i <> Done -> step all (rn_sys x) (mkSys (upd (procs (rn_sys x)) i p) ss ll) ->
  rstep' x (set_sys (mkSys (upd (procs (rn_sys x)) i p) ss ll) x).
Proof. intros Hi Hst. apply R_sys; [done|]. intros j _ Hj. cbn. by upd_cases j i. Qed.

(** A run that makes a call and then can end. *)
Lemma run_call i x p ss ll : procs (rn_sys x) i <> Done -> step all (rn_sys x) (mkSys (upd (procs (rn_sys x)) i p) ss ll) ->
  (forall y, procs (rn_sys y) i = p -> exists s, rsteps' y (set_sys s y) /\ procs s i = Done) ->
  exists s, rsteps' x (set_sys s x) /\ procs s i = Done.
Proof.
  intros Hi Hst Hnext. destruct (Hnext (set_sys (mkSys (upd (procs (rn_sys x)) i p) ss ll) x)) as (s & Hs & Hd); [cbn; by rewrite upd_eq|].
  exists s. split; [|done]. eapply rsteps_cons; [by apply rstep_call|exact Hs].
Qed.

(** Whatever it is doing, a run can end: the calls of a cancelled context fail, the job returns. *)
Lemma run_ends p i x : procs (rn_sys x) i = p -> exists s, rsteps' x (set_sys s x) /\ procs s i = Done.
Proof.
  revert x. induction p as [|k IH|s key k IH|k IH|s key k IH|s p IH|m p IH]; intros x E.
  - exists (rn_sys x). split; [|done]. replace (set_sys (rn_sys x) x) with x by (by destruct x). constructor.
  - eapply run_call; [by rewrite E|by apply (S_acquire_fails all i (rn_sys x) k context_Canceled)|apply IH].
  - eapply run_call; [by rewrite E|by apply (S_lock_fails all i (rn_sys x) s key k context_Canceled)|apply IH].
  - eapply run_call; [by rewrite E|by apply (S_job all i (rn_sys x) k (FnRet None))|apply IH].
  - eapply run_call; [by rewrite E|by apply (S_unlock all i (rn_sys x) s key k)|apply IH].
  - eapply run_call; [by rewrite E|by apply (S_release all i (rn_sys x) s p)|apply IH].
  - eapply run_call; [by rewrite E|by apply (S_count all i (rn_sys x) m p)|apply IH].
Qed.

(** Goroutine [i] returns, the others stay where they are; it runs once more only if it had not yet run. *)
Definition leaves (i : nat) (x y : runner) : Prop :=
  rsteps' x y /\ rn_jobs y = rn_jobs x /\ rn_cancelled y = true /\ rn_phase y i = Exited
  /\ (forall j, j <> i -> rn_phase y j = rn_phase x j)
  /\ exists tr, rn_trace y = rn_trace x ++ tr /\ forall j, RunStarted j ∈ tr -> j = i /\ rn_phase x i = Spawned.

Lemma waiting_leaves i x : rn_cancelled x = true -> (i < length (rn_jobs x))%nat -> rn_phase x i = Waiting -> exists y, leaves i x y.
Proof.
  intros Hc Hi Hp. exists (set_phase i Exited x). split; [eapply Rsteps_snoc; [constructor|by apply R_wake_done]|].
  cbn. rewrite upd_eq. split_and!; try done; [intros j Hj; by rewrite upd_ne|]. exists []. rewrite app_nil_r. split; [done|set_solver].
Qed.
Lemma working_leaves i x : rn_cancelled x = true -> (i < length (rn_jobs x))%nat -> rn_phase x i = Working -> exists y, leaves i x y.
Proof.
  intros Hc Hi Hp. destruct (run_ends _ i x eq_refl) as (s & Hs & Hd).
  destruct (waiting_leaves i (log (RunEnded i) (set_phase i Waiting (set_sys s x)))) as (y & Hy & Hj & Hcy & Hpy & Ho & tr & Htr & Hst);
    [done|done|cbn; by rewrite upd_eq|].
  exists y. split; [|split_and!; try done].
  - eapply rsteps_trans; [exact Hs|]. eapply rsteps_cons; [|exact Hy]. by apply R_end.
  - intros j Hne. rewrite (Ho j Hne). cbn. by rewrite upd_ne.
  - exists (RunEnded i :: tr). rewrite Htr. cbn. rewrite <- app_assoc. split; [done|]. intros j [|Hin]%elem_of_cons; [done|].
    destruct (Hst j Hin) as [_ E]. cbn in E. by rewrite upd_eq in E.
Qed.
Lemma loop_leaves i x : rn_cancelled x = true -> (i < length (rn_jobs x))%nat -> exists y, leaves i x y.
Proof.
  intros Hc Hi. destruct (rn_phase x i) eqn:Hp; [|by apply working_leaves|by apply waiting_leaves|].
  - destruct (lookup_lt_is_Some_2 _ _ Hi) as [rj Hrj].
    destruct (working_leaves i (begin_run i rj x)) as (y & Hy & Hj & Hcy & Hpy & Ho & tr & Htr & Hst); [done|done|cbn; by rewrite upd_eq|].
    exists y. split; [|split_and!; try done].
    + eapply rsteps_cons; [|exact Hy]. by apply R_first.
    + intros j Hne. rewrite (Ho j Hne). cbn. by rewrite upd_ne.
    + exists (RunStarted i :: tr). rewrite Htr. cbn. rewrite <- app_assoc. split; [done|].
      intros j [[= ->]|Hin]%elem_of_cons; [done|]. destruct (Hst j Hin) as [_ E]. cbn in E. by rewrite upd_eq in E.
  - exists x. split; [constructor|]. split_and!; try done. exists []. rewrite app_nil_r. split; [done|set_solver].
Qed.

(** Once the context is cancelled, Start can return. *)
Lemma can_return x : rn_cancelled x = true -> exists y, rsteps' x y /\ rn_returned y = true
  /\ exists tr, rn_trace y = rn_trace x ++ tr /\ forall j, RunStarted j ∈ tr -> rn_phase x j = Spawned.
Proof.
  intros Hc.
  assert (H : forall n, (n <= length (rn_jobs x))%nat -> exists y, rsteps' x y /\ rn_jobs y = rn_jobs x /\ rn_cancelled y = true
    /\ (forall i, (i < n)%nat -> rn_phase y i = Exited) /\ (forall i, (n <= i)%nat -> rn_phase y i = rn_phase x i)
    /\ exists tr, rn_trace y = rn_trace x ++ tr /\ forall j, RunStarted j ∈ tr -> rn_phase x j = Spawned).
  { induction n as [|n IH]; intros Hn.
    - exists x. split; [constructor|]. split_and!; try done; [lia|]. exists []. rewrite app_nil_r. split; [done|set_solver].
    - destruct IH as (y & Hxy & Hj & Hcy & Hex & Hsame & tr & Htr & Hst); [lia|].
      destruct (loop_leaves n y Hcy ltac:(rewrite Hj; lia)) as (z & Hyz & Hjz & Hcz & Hpz & Ho & tr' & Htr' & Hst').
      exists z. split; [by eapply rsteps_trans|]. split_and!; [congruence|done| | |].
      + intros i Hi. destruct (decide (i = n)) as [->|]; [done|]. rewrite Ho by done. apply Hex. lia.
      + intros i Hi. rewrite Ho by lia. apply Hsame. lia.
      + exists (tr ++ tr'). rewrite Htr', Htr, app_assoc. split; [done|]. intros j [Hin|Hin]%elem_of_app; [by apply Hst|].
        destruct (Hst' j Hin) as [-> E]. by rewrite <- Hsame. }
  destruct (H (length (rn_jobs x)) ltac:(lia)) as (y & Hxy & Hj & Hcy & Hex & _ & tr & Htr & Hst).
  exists (return_ y). split; [eapply Rsteps_snoc; [done|]; apply R_return; by rewrite Hj|]. split; [done|]. by exists tr.
Qed.
End shutdown.

(** C22. The scheduler's loops, in every interleaving of jobs, tickers, kicks, the cancellation
    and other replicas: a kick is never lost — a run of the job starts after it, unless the
    kick still waits in the channel; a job never runs twice at a time in one runner; the runs
    are runs of the locked system, so singletons stay exclusive across replicas; Start
    returns only after the cancellation, with every run it started ended; and once
    cancelled it can always return, starting no further run except a loop's first. *)
Theorem Start_correct all int63n jobs l cancelled x :
  registered jobs -> (forall i rj, jobs !! i = Some rj -> core (all i) = core rj) ->
  rsteps all int63n (start jobs cancelled l) x ->
  (forall i tr1 tr2, rn_trace x = tr1 ++ Kicked i :: tr2 -> RunStarted i ∈ tr2 \/ kick_pending x i)
  /\ (forall i, (ends i x <= starts i x <= S (ends i x))%nat)
  /\ steps all (idle l) (rn_sys x)
  /\ (rn_returned x = true -> forall i, (i < length jobs)%nat ->
        rn_cancelled x = true /\ starts i x = ends i x /\ procs (rn_sys x) i = Done)
  /\ (rn_cancelled x = true -> exists y, rsteps all int63n x y /\ rn_returned y = true
        /\ exists tr, rn_trace y = rn_trace x ++ tr /\ forall j, RunStarted j ∈ tr -> rn_phase x j = Spawned).
Proof.
  intros Hreg Hall Hx. apply registered_names in Hreg. pose proof (rinv_steps all int63n jobs l cancelled Hreg Hall x Hx) as H.
  split_and!.
  - intros i tr1 tr2 E. destruct (ri_kick _ _ _ _ H i) as [Hs|Hk]; [left; by apply (Hs tr1)|by right].
  - intros i. rewrite (ri_runs _ _ _ _ H i). unfold in_flight. case_decide; lia.
  - apply H.
  - intros Hr i Hi. pose proof (ri_returned _ _ _ _ H Hr i Hi) as Hp. split; [by eapply ri_exit|].
    split; [rewrite (ri_runs _ _ _ _ H i); unfold in_flight; rewrite decide_False by (by rewrite Hp); lia|].
    eapply (ri_done _ _ _ _ H); [done|by rewrite Hp].
  - apply can_return.
Qed.

(** A job that was kicked while its first run was under way, and then the cancellation. *)
Definition poll : registeredJob := mkRJob (mkJob "poll" Second 0 0) false false.
Definition kicked_run : runner :=
  cancel (log (Kicked 0) (set_jobs (Scheduler.Kick "poll" [poll]) (begin_run 0 poll (start [poll] false (fun _ => None))))).
Lemma Start_correct_witness :
  registered [poll] /\ kick_pending kicked_run 0
  /\ exists y, rsteps (fun _ => poll) (fun n => n - 1) kicked_run y /\ rn_returned y = true.
Proof.
  assert (Hreg : registered [poll]) by (eapply (Reg_snoc (rj_job poll) [] [] [poll]); [constructor|reflexivity|constructor]).
  assert (Hall : forall i rj, [poll] !! i = Some rj -> core poll = core rj).
  { intros [|i] rj; [by intros [= <-]|done]. }
  assert (Hx : rsteps (fun _ => poll) (fun n => n - 1) (start [poll] false (fun _ => None)) kicked_run).
  { eapply Rsteps_snoc; [|apply R_cancel]. eapply Rsteps_snoc; [|by apply (R_kick _ _ 0 poll (begin_run 0 poll (start [poll] false (fun _ => None))))].
    eapply Rsteps_snoc; [constructor|]. by apply R_first. }
  destruct (Start_correct (fun _ => poll) (fun n => n - 1) [poll] (fun _ => None) false kicked_run Hreg Hall Hx) as (Hk & _ & _ & _ & Hret).
  split; [exact Hreg|]. split.
  - destruct (Hk O [RunStarted 0] [] eq_refl) as [Hin|Hp]; [by apply not_elem_of_nil in Hin|exact Hp].
  - destruct (Hret eq_refl) as (y & Hy & Hr & _). eauto.
Defined.

(** ** The dispatcher's loop *)

(** Run publishes the outbox: rows leave it only through the broker, and once it was woken
    and nothing failed nothing is left, however ticks and kicks follow each other. *)
Theorem Dispatcher_Run_delivers {W} `{Store W} `{!StoreView W} `{!StoreLaws W} (publish : Row -> W -> error * W) fuel wakes d w :
  (forall r w, unsent (publish r w).2 = unsent w) -> (size (unsent w) < fuel)%nat ->
  exists w' tr, Dispatcher_Run publish fuel wakes d w = Some (w', tr)
    /\ unsent w' ⊆ unsent w /\ unsent w ∖ unsent w' ⊆ list_to_set (accepted tr)
    /\ (head wakes = Some WakeTick \/ head wakes = Some WakeKick -> existsb failed tr = false -> 0 < batch d -> unsent w' = ∅).
Proof.
  intros Hp. revert d w. induction wakes as [|u wakes IH]; intros d w Hf.
  { exists w, []. split; [done|]. split; [done|]. split; [set_solver|]. by intros [|]. }
  assert (Hgo : forall d', batch d' = batch d -> exists w' tr,
    match drain publish fuel d' w with
    | None => None
    | Some (w, tr) => match Dispatcher_Run publish fuel wakes d' w with Some (w, tr') => Some (w, tr ++ tr') | None => None end
    end = Some (w', tr)
    /\ unsent w' ⊆ unsent w /\ unsent w ∖ unsent w' ⊆ list_to_set (accepted tr)
    /\ (existsb failed tr = false -> 0 < batch d -> unsent w' = ∅)).
  { intros d' Hb. destruct (drain_spec publish Hp fuel d' w Hf) as (w1 & tr1 & Hd & (D1 & D2 & _ & _) & Hall).
    destruct (IH d' w1) as (w2 & tr2 & Hr & S1 & S2 & _); [by eapply Nat.le_lt_trans; [apply subseteq_size|]|].
    exists w2, (tr1 ++ tr2). rewrite Hd, Hr. split; [done|]. split; [by etrans|]. split.
    - unfold accepted. rewrite omap_app, list_to_set_app_L. intros e He. destruct (decide (e ∈ unsent w1)); set_solver.
    - rewrite existsb_app. intros [H1 _]%orb_false_iff Hpos. rewrite Hb in Hall. specialize (Hall H1 Hpos). set_solver. }
  destruct u; cbn [Dispatcher_Run head].
  - exists w, []. split; [done|]. split; [done|]. split; [set_solver|]. by intros [|].
  - destruct (Hgo d eq_refl) as (w' & tr & Hr & S1 & S2 & S3). exists w', tr. auto.
  - destruct (Hgo (mkDispatcher (interval d) (batch d) false) eq_refl) as (w' & tr & Hr & S1 & S2 & S3). exists w', tr. auto.
Qed.

(** A dispatcher built with a non-positive interval cannot be scheduled (and time.NewTicker panics in Run). *)
Example zero_interval_panics name :
  Scheduler.Register (Dispatcher_Job (NewDispatcher [WithInterval 0]) name) [] [] = Panics ("scheduler: Job.Every must be positive: " +:+ name).
Proof. reflexivity. Qed.
(** A kick that arrives before the first run is served by a second run right after it. *)
Example kick_before_first_run : exists x,
  rsteps (fun _ => poll) (fun n => n - 1) (start [poll] false (fun _ => None)) x
  /\ rn_trace x = [Kicked 0; RunStarted 0; RunEnded 0; RunStarted 0].
Proof.
  set (x1 := log (Kicked 0) (set_jobs (Scheduler.Kick "poll" [poll]) (start [poll] false (fun _ => None)))).
  set (p1 := mkRJob (rj_job poll) false true).
  assert (H1 : rsteps (fun _ => poll) (fun n => n - 1) (start [poll] false (fun _ => None)) (begin_run 0 p1 x1)).
  { eapply Rsteps_snoc; [|by apply (R_first _ _ 0 p1)]. eapply Rsteps_snoc; [constructor|by apply (R_kick _ _ 0 poll (start [poll] false (fun _ => None)))]. }
  destruct (run_ends (fun _ => poll) (fun n => n - 1) _ O (begin_run 0 p1 x1) eq_refl) as (s & Hs & Hd).
  set (x2 := log (RunEnded 0) (set_phase 0 Waiting (set_sys s (begin_run 0 p1 x1)))).
  exists (begin_run 0 poll (set_jobs (<[O := poll]> (rn_jobs x2)) x2)). split; [|done].
  eapply Rsteps_snoc; [|apply (R_wake_kick _ _ 0 p1 poll x2); done].
  eapply Rsteps_snoc; [by eapply rsteps_trans|]. apply R_end; [vm_compute; lia|done|done].
Qed.
