(* ===== verification/Pipeline.v ===== *)
(** * Pipeline: from a committed row to the broker

    The composition the outbox package is made for: a Dispatcher whose Publish is
    ReliablePublisher.Publish with confirms, run by its loop or as a job.  The
    database and the broker are the two halves of one world. *)

From S2P Require Import Prelude GoStrings Errors Backoff Retry SqlQuery Transaction Dao.
From S2P Require Import Amqp Outbox Scheduler Runner.

(** ** Two worlds side by side *)

(** A store next to other state. *)
Definition on_left {WD X A} (m : M WD A) : M (WD * X) A := fun w => let '(r, wd) := m w.1 in (r, (wd, w.2)).
#[export] Instance store_left {WD X} `{Store WD} : Store (WD * X) := {
  store_Insert tx action payload rid := on_left (store_Insert tx action payload rid);
  store_FetchUnsent limit := on_left (store_FetchUnsent limit);
  store_MarkSent id := on_left (store_MarkSent id)
}.
#[export] Instance view_left {WD X} `{StoreView WD} : StoreView (WD * X) := fun w => unsent w.1.
#[export] Instance laws_left {WD X} `{StoreLaws WD} : StoreLaws (WD * X).
Proof.
  split; cbn; unfold on_left, unsent, view_left.
  - intros limit [wd x] rows w' E. cbn in *. destruct (store_FetchUnsent limit wd) as [r wd'] eqn:Ef. injection E as -> <-. by eapply fetch_ok.
  - intros limit [wd x] e w' E. cbn in *. destruct (store_FetchUnsent limit wd) as [r wd'] eqn:Ef. injection E as -> <-. by eapply fetch_err.
  - intros id [wd x] w' E. cbn in *. destruct (store_MarkSent id wd) as [r wd'] eqn:Ef. injection E as -> <-. by eapply mark_ok.
  - intros id [wd x] e w' E. cbn in *. destruct (store_MarkSent id wd) as [r wd'] eqn:Ef. injection E as -> <-. by eapply mark_err.
Qed.

Section pipeline.
Context {WD WB : Type} `{StoreLaws WD} `{AmqpLaws WB}.
(** Where a row is sent, and the id its message carries. *)
Variable exchange : string.
Variable key mid : Row -> string.

Definition message (row : Row) : string * string * Publishing := (exchange, key row, mkPub "application/json" (mid row) (Payload row)).

(** The Publish callback of a service: the reliable publisher behind its mutex. *)
Definition publish_row (row : Row) (w : WD * (ReliablePublisher * WB)) : error * (WD * (ReliablePublisher * WB)) :=
  let '(err, p, wb) := rp_Publish exchange (key row) (Payload row) (mid row) w.2.1 w.2.2 in (err, (w.1, (p, wb))).

Lemma publish_row_unsent r w : unsent (publish_row r w).2 = unsent w.
Proof. unfold publish_row. by destruct (rp_Publish _ _ _ _ _ _) as [[err p] wb]. Qed.

(** Every row published without an error was handed over as its message. *)
Definition handed_over (tr : list oevent) (wb : WB) : Prop := forall row, Published row None ∈ tr -> message row ∈ taken wb.
Lemma handed_over_grows tr wb wb' : handed_over tr wb -> grows wb wb' -> handed_over tr wb'.
Proof. intros Hi [_ Ht] row Hr. by apply Ht, Hi. Qed.
Lemma handed_over_nil wb : handed_over [] wb.
Proof. intros row Hr. by apply not_elem_of_nil in Hr. Qed.

(** What a piece of the dispatcher's work does on the broker's side. *)
Definition forwards (base : gset nat) (w w' : WD * (ReliablePublisher * WB)) (tr : list oevent) : Prop :=
  owns_conn base w'.2.1 w'.2.2 /\ p_cfg w'.2.1 = p_cfg w.2.1 /\ grows w.2.2 w'.2.2 /\ handed_over tr w'.2.2.
Lemma forwards_trans base w1 w2 w3 tr1 tr2 : forwards base w1 w2 tr1 -> forwards base w2 w3 tr2 -> forwards base w1 w3 (tr1 ++ tr2).
Proof.
  intros (O1 & C1 & G1 & H1') (O2 & C2 & G2 & H2'). split; [done|]. split; [congruence|]. split; [by eapply grows_trans|].
  intros row [Hr|Hr]%elem_of_app; [by apply (handed_over_grows _ _ _ H1' G2)|by apply H2'].
Qed.
Lemma forwards_left base w w' e : owns_conn base w.2.1 w.2.2 -> w'.2 = w.2 -> (forall row, e <> Published row None) -> forwards base w w' [e].
Proof.
  intros O E Ha. unfold forwards. rewrite E. split; [done|]. split; [done|]. split; [apply keeps_refl|].
  intros row Hr%list_elem_of_singleton. by destruct (Ha row).
Qed.

Lemma publish_forwards base row w err w' :
  owns_conn base w.2.1 w.2.2 -> Confirms (p_cfg w.2.1) = true -> publish_row row w = (err, w') -> forwards base w w' [Published row err].
Proof.
  unfold publish_row. destruct (rp_Publish _ _ _ _ _ _) as [[err' p] wb] eqn:E. intros O Hc [= -> <-].
  eapply publishWithRetry_spec in E as (O1 & G1 & C1 & Hm); [|done]. split; [done|]. split; [done|]. split; [done|].
  intros row' [= -> <-]%list_elem_of_singleton. by apply Hm.
Qed.

Lemma drain_rows_forwards base rows w ok w' tr :
  owns_conn base w.2.1 w.2.2 -> Confirms (p_cfg w.2.1) = true -> drain_rows publish_row rows w = (ok, w', tr) -> forwards base w w' tr.
Proof.
  revert w ok w' tr. induction rows as [|row rows IH]; intros w ok w' tr O Hc; cbn [drain_rows].
  { intros [= <- <- <-]. split; [done|]. split; [done|]. split; [apply keeps_refl|apply handed_over_nil]. }
  destruct (publish_row row w) as [[e|] w1] eqn:E1; eapply publish_forwards in E1 as F1; try done; [by intros [= <- <- <-]|].
  destruct F1 as (O1 & C1 & G1 & H1').
  destruct (store_MarkSent (ID row) w1) as [[[]|e] w2] eqn:E2; cbn in E2; unfold on_left in E2;
    destruct (store_MarkSent (ID row) w1.1) as [r2 wd2]; injection E2 as -> <-.
  - destruct (drain_rows publish_row rows (wd2, w1.2)) as [[ok' w3] tr3] eqn:E3. intros [= <- <- <-].
    apply IH in E3; [|done|cbn; by rewrite C1]. change (Published row None :: MarkedSent row None :: tr3) with ([Published row None] ++ [MarkedSent row None] ++ tr3).
    eapply forwards_trans; [by split_and!|]. eapply forwards_trans; [|exact E3]. by apply forwards_left.
  - intros [= <- <- <-]. change [Published row None; MarkedSent row (Some e)] with ([Published row None] ++ [MarkedSent row (Some e)]).
    eapply forwards_trans; [by split_and!|]. by apply forwards_left.
Qed.

Lemma drain_forwards base fuel d w w' tr :
  owns_conn base w.2.1 w.2.2 -> Confirms (p_cfg w.2.1) = true -> drain publish_row fuel d w = Some (w', tr) -> forwards base w w' tr.
Proof.
  revert w w' tr. induction fuel as [|fuel IH]; intros w w' tr O Hc; [done|]. cbn [drain].
  destruct (store_FetchUnsent (batch d) w) as [r w1] eqn:E1. cbn in E1. unfold on_left in E1.
  destruct (store_FetchUnsent (batch d) w.1) as [r1 wd1]. injection E1 as <- <-.
  destruct r1 as [[|row rows]|e]; [intros [= <- <-]; by apply forwards_left| |intros [= <- <-]; by apply forwards_left].
  destruct (drain_rows publish_row (row :: rows) (wd1, w.2)) as [[ok w2] tr2] eqn:E2. apply (drain_rows_forwards base) in E2; [|done|done].
  assert (F0 : forwards base w (wd1, w.2) [Fetched (row :: rows)]) by (by apply forwards_left).
  destruct (negb ok || _).
  - intros [= <- <-]. change (Fetched (row :: rows) :: tr2) with ([Fetched (row :: rows)] ++ tr2). by eapply forwards_trans.
  - destruct (drain publish_row fuel d w2) as [[w3 tr3]|] eqn:E3; [|done]. intros [= <- <-].
    destruct E2 as (O2 & C2 & G2 & H2'). apply IH in E3; [|done|by rewrite C2].
    change (Fetched (row :: rows) :: tr2 ++ tr3) with ([Fetched (row :: rows)] ++ tr2 ++ tr3).
    eapply forwards_trans; [done|]. eapply forwards_trans; [by split_and!|done].
Qed.

Lemma Run_forwards base fuel wakes d w w' tr :
  owns_conn base w.2.1 w.2.2 -> Confirms (p_cfg w.2.1) = true -> Dispatcher_Run publish_row fuel wakes d w = Some (w', tr) -> forwards base w w' tr.
Proof.
  revert d w w' tr. induction wakes as [|u wakes IH]; intros d w w' tr O Hc; cbn [Dispatcher_Run].
  { intros [= <- <-]. split; [done|]. split; [done|]. split; [apply keeps_refl|apply handed_over_nil]. }
  assert (Hgo : forall d', match drain publish_row fuel d' w with
      | None => None
      | Some (w, tr) => match Dispatcher_Run publish_row fuel wakes d' w with Some (w, tr') => Some (w, tr ++ tr') | None => None end
      end = Some (w', tr) -> forwards base w w' tr).
  { intros d'. destruct (drain publish_row fuel d' w) as [[w1 tr1]|] eqn:E1; [|done]. apply (drain_forwards base) in E1; [|done|done].
    destruct (Dispatcher_Run publish_row fuel wakes d' w1) as [[w2 tr2]|] eqn:E2; [|done]. intros [= <- <-].
    pose proof E1 as (O1 & C1 & _ & _). apply IH in E2; [|done|by rewrite C1]. by eapply forwards_trans. }
  destruct u; [|apply Hgo|apply Hgo]. intros [= <- <-]. split; [done|]. split; [done|]. split; [apply keeps_refl|apply handed_over_nil].
Qed.

(** What is published came out of a fetch. *)
Definition fetched_first (tr : list oevent) : Prop := forall row e, Published row e ∈ tr -> exists rows, Fetched rows ∈ tr /\ row ∈ rows.
Lemma fetched_first_nil : fetched_first [].
Proof. intros row e Hr. by apply not_elem_of_nil in Hr. Qed.
Lemma fetched_first_app tr1 tr2 : fetched_first tr1 -> fetched_first tr2 -> fetched_first (tr1 ++ tr2).
Proof. intros H1' H2' row e [Hr|Hr]%elem_of_app; [apply H1' in Hr|apply H2' in Hr]; set_solver. Qed.
Lemma drain_rows_published rows w ok w' tr row e : drain_rows publish_row rows w = (ok, w', tr) -> Published row e ∈ tr -> row ∈ rows.
Proof.
  revert w ok w' tr. induction rows as [|r rows IH]; intros w ok w' tr; cbn [drain_rows]; [intros [= <- <- <-] []%not_elem_of_nil|].
  destruct (publish_row r w) as [[e1|] w1]; [intros [= <- <- <-] [= -> ->]%list_elem_of_singleton; by left|].
  destruct (store_MarkSent (ID r) w1) as [[[]|e2] w2]; [|intros [= <- <- <-] [[= -> ->]|[= ]%list_elem_of_singleton]%elem_of_cons; by left].
  destruct (drain_rows publish_row rows w2) as [[ok' w3] tr3] eqn:E3. intros [= <- <- <-].
  intros [[= -> ->]|[[= ]|Hr]%elem_of_cons]%elem_of_cons; [by left|right; by eapply IH].
Qed.
Lemma drain_fetched fuel d w w' tr : drain publish_row fuel d w = Some (w', tr) -> fetched_first tr.
Proof.
  revert w w' tr. induction fuel as [|fuel IH]; intros w w' tr; [done|]. cbn [drain].
  destruct (store_FetchUnsent (batch d) w) as [[[|r rows]|e] w1]; [intros [= <- <-] row e Hr%list_elem_of_singleton; discriminate| |intros [= <- <-] row e' Hr%list_elem_of_singleton; discriminate].
  destruct (drain_rows publish_row (r :: rows) w1) as [[ok w2] tr2] eqn:E2.
  assert (F : fetched_first (Fetched (r :: rows) :: tr2)).
  { intros row e [[= ]|Hr]%elem_of_cons. exists (r :: rows). split; [by left|]. by eapply drain_rows_published. }
  destruct (negb ok || _); [by intros [= <- <-]|].
  destruct (drain publish_row fuel d w2) as [[w3 tr3]|] eqn:E3; [|done]. intros [= <- <-].
  apply (fetched_first_app (Fetched (r :: rows) :: tr2)); [done|by eapply IH].
Qed.
Lemma Run_fetched fuel wakes d w w' tr : Dispatcher_Run publish_row fuel wakes d w = Some (w', tr) -> fetched_first tr.
Proof.
  revert d w w' tr. induction wakes as [|u wakes IH]; intros d w w' tr; cbn [Dispatcher_Run]; [intros [= <- <-]; apply fetched_first_nil|].
  destruct u; [intros [= <- <-]; apply fetched_first_nil| |].
  all: destruct (drain publish_row fuel _ w) as [[w1 tr1]|] eqn:E1; [|done];
    destruct (Dispatcher_Run publish_row fuel wakes _ w1) as [[w2 tr2]|] eqn:E2; [|done]; intros [= <- <-];
    apply fetched_first_app; [by eapply drain_fetched|by eapply IH].
Qed.

(** [id]'s row was fetched from the outbox during [tr] and the broker has its message. *)
Definition reached_broker (tr : list oevent) (wb : WB) (id : string) : Prop :=
  exists rows row, Fetched rows ∈ tr /\ row ∈ rows /\ ID row = id /\ message row ∈ taken wb.
Lemma accepted_reached tr wb id : fetched_first tr -> handed_over tr wb -> id ∈ accepted tr -> reached_broker tr wb id.
Proof.
  intros Hf Ho Ha. unfold accepted in Ha. apply list_elem_of_omap in Ha as (e & He & Ee).
  destruct e as [| |row [?|]| ]; try done. injection Ee as <-. destruct (Hf _ _ He) as (rows & Hr & Hin).
  exists rows, row. split; [done|]. split; [done|]. split; [done|by apply Ho].
Qed.

(** What left the outbox during a run was taken by the broker. *)
Lemma outbox_run_reaches cfg wd (wb : WB) p wb1 fuel wakes d wd' p' wb' tr :
  Confirms cfg = true -> NewReliablePublisher cfg wb = (Ok p, wb1) -> (size (unsent wd) < fuel)%nat ->
  Dispatcher_Run publish_row fuel wakes d (wd, (p, wb1)) = Some ((wd', (p', wb')), tr) ->
  forall id, id ∈ unsent wd -> id ∉ unsent wd' -> reached_broker tr wb' id.
Proof.
  intros Hc Hnew Hf Hr id Hin Hout. destruct (NewReliablePublisher_owns _ _ _ _ Hnew) as (O & Ecfg).
  destruct (Dispatcher_Run_delivers publish_row fuel wakes d (wd, (p, wb1)) publish_row_unsent Hf) as (w' & tr' & Hr' & _ & Hacc & _).
  rewrite Hr in Hr'. injection Hr' as <- <-.
  destruct (Run_forwards _ fuel wakes d (wd, (p, wb1)) _ _ O ltac:(cbn; by rewrite Ecfg) Hr) as (_ & _ & _ & Hover).
  apply Run_fetched in Hr. apply accepted_reached; [done..|].
  apply (elem_of_list_to_set (C:=gset string)), Hacc, elem_of_difference. by split.
Qed.

(** C23. The outbox keeps its promise end to end: with a confirming publisher, whatever the
    database, the broker and the network do and however ticks and kicks wake the
    dispatcher, its loop comes back from every wake-up; an event has left the outbox only
    if a row with its id was fetched and the broker has taken that row's message, with its
    payload, routing key and message id; when nothing failed after a wake-up, the outbox is
    empty and so the broker has every event that was in it; and the publisher holds at most
    one connection throughout. *)
Theorem outbox_reaches_broker cfg wd (wb : WB) p wb1 fuel wakes d :
  Confirms cfg = true -> NewReliablePublisher cfg wb = (Ok p, wb1) -> (size (unsent wd) < fuel)%nat ->
  exists wd' p' wb' tr, Dispatcher_Run publish_row fuel wakes d (wd, (p, wb1)) = Some ((wd', (p', wb')), tr)
    /\ unsent wd' ⊆ unsent wd
    /\ (forall id, id ∈ unsent wd -> id ∉ unsent wd' -> reached_broker tr wb' id)
    /\ (head wakes = Some WakeTick \/ head wakes = Some WakeKick -> existsb failed tr = false -> 0 < batch d ->
          unsent wd' = ∅ /\ forall id, id ∈ unsent wd -> reached_broker tr wb' id)
    /\ open_conns wb' = open_conns wb ∪ from_option (fun c => {[ c ]}) ∅ (p_conn p').
Proof.
  intros Hc Hnew Hf. destruct (NewReliablePublisher_owns _ _ _ _ Hnew) as (O & Ecfg).
  destruct (Dispatcher_Run_delivers publish_row fuel wakes d (wd, (p, wb1)) publish_row_unsent Hf)
    as ([wd' [p' wb']] & tr & Hr & Hsub & _ & Hall).
  destruct (Run_forwards _ fuel wakes d (wd, (p, wb1)) _ _ O ltac:(cbn; by rewrite Ecfg) Hr) as (O' & _).
  pose proof (outbox_run_reaches _ _ _ _ _ _ _ _ _ _ _ _ Hc Hnew Hf Hr) as Hid.
  exists wd', p', wb', tr. split; [done|]. split; [done|]. split; [done|]. split; [|apply O'].
  intros Hh Hnf Hb. specialize (Hall Hh Hnf Hb). change (unsent wd' = ∅) in Hall. split; [done|].
  intros id Hin. apply Hid; [done|]. rewrite Hall. set_solver.
Qed.
End pipeline.

(** ** The pipeline on a concrete database and broker *)

(** Three committed events and a broker that has already lost the publisher's first channel:
    the first event fails on it, the publisher redials, and one tick empties the outbox. *)
Lemma outbox_reaches_broker_witness :
  exists p wb1, NewReliablePublisher sample_cfg flaky = (Ok p, wb1)
    /\ (size (unsent sample_outbox) < 4)%nat
    /\ exists wd' p' wb' tr,
         Dispatcher_Run (publish_row "events" Action ID) 4 [WakeTick; WakeCtx] (NewDispatcher [WithBatchSize 2]) (sample_outbox, (p, wb1)) = Some ((wd', (p', wb')), tr)
         /\ unsent wd' = ∅ /\ reached_broker "events" Action ID tr wb' "b".
Proof.
  eexists _, _. split; [vm_compute; reflexivity|].
  split; [exact sample_outbox_size|].
  match goal with |- context [(sample_outbox, (?p, ?wb))] =>
    destruct (outbox_reaches_broker "events" Action ID sample_cfg sample_outbox flaky p wb 4 [WakeTick; WakeCtx] (NewDispatcher [WithBatchSize 2]))
      as (wd' & p' & wb' & tr & Hr & _ & _ & Hall & _); [reflexivity|vm_compute; reflexivity|exact sample_outbox_size|]
  end.
  exists wd', p', wb', tr. split; [exact Hr|].
  assert (Ht : snd <$> Some ((wd', (p', wb')), tr) = Some tr) by done. rewrite <- Hr in Ht. vm_compute in Ht. injection Ht as <-.
  destruct Hall as [He Hall]; [by left|vm_compute; reflexivity|vm_compute; reflexivity|]. split; [exact He|]. apply Hall.
  unfold unsent, obw_view, pgstore_view, unsent_ids. apply elem_of_list_to_set. vm_compute. repeat constructor.
Defined.
