(* ===== verification/Delivery.v ===== *)
(** * Delivery: from the outbox to the handler

    The consumer's side of the pipeline: which messages a ConsumerRunner settles, and
    the composition with the outbox dispatcher and the reliable publisher.  Every
    event stays somewhere until a handler has decided about it. *)

From S2P Require Import Prelude GoStrings Errors Backoff Retry SqlQuery Transaction Dao.
From S2P Require Import Outbox Scheduler Runner Pipeline.
From S2P Require Import Amqp Consumer.

(** ** What the broker keeps *)

(** The ids of the messages a consumer has acknowledged or rejected for good: the broker
    keeps every other message it has taken. *)
Class QueueView (W : Type) := settled : W -> gset string.

(** Only an acknowledgement and a rejection without requeue settle a message, and only the one
    that was delivered. *)
Class QueueLaws (W : Type) `{World W} `{Amqp W} `{!QueueView W} := {
  q_ack d w : settled (d_Ack d w).2 ⊆ settled w ∪ {[ MessageId d ]};
  q_reject d w : settled (d_Nack false d w).2 ⊆ settled w ∪ {[ MessageId d ]};
  q_requeue d w : settled (d_Nack true d w).2 = settled w;
  q_receive ch w : settled (ch_receive ch w).2 = settled w;
  q_dial u w : settled (amqp_Dial u w).2 = settled w;
  q_channel c w : settled (conn_Channel c w).2 = settled w;
  q_conn_close c w : settled (conn_Close c w).2 = settled w;
  q_ch_close ch w : settled (ch_Close ch w) = settled w;
  q_qos ch n w : settled (ch_Qos ch n w).2 = settled w;
  q_consume ch q t w : settled (ch_Consume ch q t w).2 = settled w;
  q_wait d w : settled (wait d w).2 = settled w
}.

(** ** What a trace settles *)

Definition done_id (a : raction) : gset string :=
  match a with Acked d _ | Nacked d false _ => {[ MessageId d ]} | _ => ∅ end.
Definition done_ids (tr : list raction) : gset string := ⋃ (done_id <$> tr).
Lemma done_ids_app tr1 tr2 : done_ids (tr1 ++ tr2) = done_ids tr1 ∪ done_ids tr2.
Proof. unfold done_ids. by rewrite fmap_app, union_list_app_L. Qed.
Lemma done_ids_elem id tr : id ∈ done_ids tr -> exists a, a ∈ tr /\ id ∈ done_id a.
Proof. unfold done_ids. rewrite elem_of_union_list. intros (X & (a & -> & Ha)%list_elem_of_fmap & Hid). eauto. Qed.

(** The handler decided: it processed the message, or gave it up. *)
Definition processed (id : string) (tr : list raction) : Prop := exists d, Handled d Ack ∈ tr /\ MessageId d = id.
(** It gave the message up: it asked for a dead-lettering, or for the MaxAttempts-th requeue since the
    message was last acked or dead-lettered. *)
Definition gave_up (cfg : ConsumerConfig) (id : string) (pre : list raction) (o : Outcome) : Prop :=
  o = DeadLetter \/ (o = Requeue /\ 0 < MaxAttempts cfg /\ streak id pre = MaxAttempts cfg - 1).
Definition rejected (cfg : ConsumerConfig) (id : string) (tr : list raction) : Prop :=
  exists pre d o err suf, tr = pre ++ Handled d o :: Nacked d false err :: suf /\ MessageId d = id /\ gave_up cfg id pre o.

Section consumer.
Context {W : Type} `{QueueLaws W}.
Variable cfg : ConsumerConfig.
Variable handler : Delivery -> W -> Outcome * W.
Variable Setup : option (nat -> W -> error * W).
(** The handler and the topology leave settling to the runner. *)
Hypothesis handler_leaves : forall d w, settled (handler d w).2 = settled w.
Hypothesis setup_leaves : forall f ch w, Setup = Some f -> settled (f ch w).2 = settled w.

Definition accounts (w w' : W) (tr : list raction) : Prop := settled w' ⊆ settled w ∪ done_ids tr.
Lemma accounts_same w w' : settled w' = settled w -> accounts w w' [].
Proof. unfold accounts. intros ->. set_solver. Qed.
Lemma accounts_trans w1 w2 w3 tr1 tr2 : accounts w1 w2 tr1 -> accounts w2 w3 tr2 -> accounts w1 w3 (tr1 ++ tr2).
Proof. unfold accounts. rewrite done_ids_app. set_solver. Qed.
Lemma accounts_before w0 w w' tr : settled w = settled w0 -> accounts w w' tr -> accounts w0 w' tr.
Proof. unfold accounts. by intros ->. Qed.
Lemma accounts_after w w' w'' tr : settled w'' = settled w' -> accounts w w' tr -> accounts w w'' tr.
Proof. unfold accounts. by intros ->. Qed.

Lemma settle_accounts o d r w r' w' tr : settle o d r w = (r', w', tr) -> accounts w w' tr.
Proof.
  unfold settle, accounts, done_ids. destruct o.
  - pose proof (q_ack d w). destruct (d_Ack d w) as [err w1]. intros [= <- <- <-]. cbn in *. set_solver.
  - pose proof (q_requeue d w). destruct (d_Nack true d w) as [err w1]. intros [= <- <- <-]. cbn in *. set_solver.
  - pose proof (q_reject d w). destruct (d_Nack false d w) as [err w1]. intros [= <- <- <-]. cbn in *. set_solver.
  - intros [= <- <- <-]. set_solver.
Qed.

Lemma dispatch_accounts d r w r' w' tr : dispatch cfg handler d r w = (r', w', tr) -> accounts w w' tr.
Proof.
  unfold dispatch. destruct (duplicate _ r).
  - pose proof (q_ack d w). destruct (d_Ack d w) as [err w1]. intros [= <- <- <-]. unfold accounts, done_ids. cbn in *. set_solver.
  - pose proof (handler_leaves d w) as Hh. destruct (handler d w) as [o w1]. destruct (cap_attempts cfg o (MessageId d) r) as [o' r1].
    destruct (settle o' d r1 w1) as [[r2 w2] tr2] eqn:E. intros [= <- <- <-]. apply settle_accounts in E.
    change (Handled d o :: tr2) with ([Handled d o] ++ tr2). eapply accounts_trans; [|exact E]. by apply (accounts_after w w); [|apply accounts_same].
Qed.

Lemma receive_loop_accounts fuel ch r w e r' w' tr : receive_loop cfg handler fuel ch r w = (e, r', w', tr) -> accounts w w' tr.
Proof.
  revert r w e r' w' tr. induction fuel as [|fuel IH]; intros r w e r' w' tr; cbn [receive_loop].
  { intros [= <- <- <- <-]. by apply accounts_same. }
  pose proof (q_receive ch w) as Hr. destruct (ch_receive ch w) as [[|[e1|]|d|] w1]; try (intros [= <- <- <- <-]; by apply accounts_same).
  destruct (dispatch cfg handler d r w1) as [[r1 w2] tr1] eqn:Ed. apply dispatch_accounts in Ed.
  destruct (receive_loop cfg handler fuel ch r1 w2) as [[[e2 r2] w3] tr2] eqn:El. intros [= <- <- <- <-]. apply IH in El.
  apply (accounts_before _ w1); [done|]. by eapply accounts_trans.
Qed.

Lemma drop_conn_settled ch conn w : settled (drop_conn ch conn w) = settled w.
Proof. unfold drop_conn. by rewrite q_conn_close, q_ch_close. Qed.

Lemma runOnce_accounts fuel r w e r' w' tr : runOnce cfg handler Setup fuel r w = (e, r', w', tr) -> accounts w w' tr.
Proof.
  unfold runOnce. pose proof (q_dial (cc_URL cfg) w) as H1'. destruct (amqp_Dial (cc_URL cfg) w) as [[conn|e1] w1]; cbn in H1';
    [|intros [= <- <- <- <-]; by apply accounts_same].
  pose proof (q_channel conn w1) as H2'. destruct (conn_Channel conn w1) as [[ch|e2] w2]; cbn in H2';
    [|intros [= <- <- <- <-]; apply accounts_same; by rewrite q_conn_close, H2'].
  assert (H3 : settled (match Setup with Some f => f ch w2 | None => (None, w2) end).2 = settled w2) by (destruct Setup; [by apply setup_leaves|done]).
  destruct (match Setup with Some f => _ | None => _ end) as [[e3|] w3]; cbn in H3; [intros [= <- <- <- <-]; apply accounts_same; by rewrite drop_conn_settled, H3, H2'|].
  assert (H4 : settled (if 0 <? PrefetchCount cfg then ch_Qos ch (PrefetchCount cfg) w3 else (None, w3)).2 = settled w3) by (case_match; [apply q_qos|done]).
  destruct (if 0 <? PrefetchCount cfg then _ else _) as [[e4|] w4]; cbn in H4; [intros [= <- <- <- <-]; apply accounts_same; by rewrite drop_conn_settled, H4, H3, H2'|].
  pose proof (q_consume ch (cc_Queue cfg) (cc_ConsumerTag cfg) w4) as H5. destruct (ch_Consume _ _ _ w4) as [[e5|] w5]; cbn in H5;
    [intros [= <- <- <- <-]; apply accounts_same; by rewrite drop_conn_settled, H5, H4, H3, H2'|].
  destruct (receive_loop cfg handler fuel ch r w5) as [[[[|e6] r6] w6] tr6] eqn:El; apply receive_loop_accounts in El; intros [= <- <- <- <-];
    (apply (accounts_before _ w5); [congruence|]); [done|]. apply (accounts_after _ w6); [apply drop_conn_settled|done].
Qed.

Lemma Run_from_accounts fuel b r w ret ws r' w' tr : Run_from cfg handler Setup fuel b r w = (ret, ws, r', w', tr) -> accounts w w' tr.
Proof.
  revert b r w ret ws r' w' tr. induction fuel as [|fuel IH]; intros b r w ret ws r' w' tr.
  { intros [= <- <- <- <- <-]. by apply accounts_same. }
  cbn [Run_from]. destruct (runOnce _ _ _ _ r w) as [[[[|e] r1] w1] tr1] eqn:E1; apply runOnce_accounts in E1; [by intros [= <- <- <- <- <-]|].
  destruct (ctx_err w1); [by intros [= <- <- <- <- <-]|]. pose proof (q_wait b w1) as Hw.
  destruct (wait b w1) as [[|] w2]; cbn in *; [|intros [= <- <- <- <- <-]; by eapply accounts_after].
  destruct (Run_from _ _ _ fuel _ r1 w2) as [[[[ret2 ws2] r2] w3] tr2] eqn:E2. intros [= <- <- <- <- <-]. apply IH in E2.
  eapply accounts_trans; [done|]. by eapply accounts_before.
Qed.
End consumer.

(** ** Nothing is settled undecided *)

Lemma processed_app id tr tr' : processed id tr -> processed id (tr ++ tr').
Proof. intros (d & Hd & E). exists d. split; [|done]. apply elem_of_app. by left. Qed.
Lemma rejected_app cfg id tr tr' : rejected cfg id tr -> rejected cfg id (tr ++ tr').
Proof.
  intros (pre & d & o & err & suf & -> & Ho & E). exists pre, d, o, err, (suf ++ tr'). split; [|done].
  by rewrite <- (assoc_L (++)).
Qed.
#[local] Hint Resolve processed_app rejected_app : core.

(** Deduplication remembers only messages the handler processed, so what is settled was decided. *)
Record decided (cfg : ConsumerConfig) (tr : list raction) (r : ConsumerRunner) : Prop := {
  dc_seen dd id : r_dedup r = Some dd -> id ∈ dd_set dd -> processed id tr;
  dc_done id : id ∈ done_ids tr -> processed id tr \/ rejected cfg id tr
}.

Lemma decided_init cfg cap : decided cfg [] (NewConsumerRunner (NewDedup <$> cap)).
Proof. split; [|unfold done_ids; set_solver]. intros dd id. destruct cap; cbn; [|done]. intros [= <-]. cbn. set_solver. Qed.

(** One dispatch on top of a decided trace, by what it adds. *)
Lemma decided_snoc cfg tr r tr' r' :
  decided cfg tr r ->
  (forall dd' id, r_dedup r' = Some dd' -> id ∈ dd_set dd' -> (exists dd, r_dedup r = Some dd /\ id ∈ dd_set dd) \/ processed id tr') ->
  (forall id, id ∈ done_ids tr' -> processed id (tr ++ tr') \/ rejected cfg id (tr ++ tr')) ->
  decided cfg (tr ++ tr') r'.
Proof.
  intros [S D] HS HD. split.
  - intros dd' id Hr Hin. destruct (HS dd' id Hr Hin) as [(dd & Hd & Hi)|(d & Hd & E)]; [eauto|].
    exists d. split; [|done]. apply elem_of_app. by right.
  - intros id. rewrite done_ids_app, elem_of_union. intros [Hi|Hi]; [destruct (D id Hi); eauto|]. by apply HD.
Qed.

Lemma Mark_set id dd x : x ∈ dd_set (Mark id dd) -> x ∈ dd_set dd \/ x = id.
Proof.
  unfold Mark. case_bool_decide; [by left|]. case_bool_decide; [by left|]. destruct (_ <=? _); [destruct (dd_order dd)|]; cbn; set_solver.
Qed.
Lemma done_ids_handled id d o b : id ∈ done_ids [Handled d o; b] -> id ∈ done_id b.
Proof. unfold done_ids. cbn. by rewrite (left_id_L ∅ (∪)), (right_id_L ∅ (∪)). Qed.

(** A requeue is turned into a dead-lettering only at the cap. *)
Lemma capped_gave_up cfg tr r id r' :
  (0 < MaxAttempts cfg -> id <> "" -> counter_ok cfg id r /\ attempts_of id r = streak id tr) ->
  attemptExceeded cfg id r = (true, r') -> gave_up cfg id tr Requeue.
Proof.
  intros Hc E. pose proof E as E'. unfold attemptExceeded in E'. destruct (Z.leb_spec (MaxAttempts cfg) 0) as [|Hmax]; [done|].
  destruct (decide (id = "")) as [->|Hid]; [by destruct (bool_decide _) eqn:Eb|].
  destruct (Hc Hmax Hid) as [[Hr _] Hs]. apply (exceeded_attempts_of cfg id Hmax Hid) in E.
  rewrite bool_decide_eq_true_2 in E by done. destruct E as [_ E]. symmetry in E. apply Z.leb_le in E.
  right. split; [done|]. split; [done|lia].
Qed.

Lemma decided_step cfg tr r d tr' r' :
  (forall id, 0 < MaxAttempts cfg -> id <> "" -> counter_ok cfg id r /\ attempts_of id r = streak id tr) ->
  decided cfg tr r -> dispatched cfg d r tr' r' -> decided cfg (tr ++ tr') r'.
Proof.
  intros Hcnt I Hd. pose proof I as [S _]. destruct Hd as [err Hdup|err Hdup|err r' Hdup He|err r' Hdup He|err Hdup|n Hdup]; apply (decided_snoc _ _ r); try done;
    try (intros dd' id; try rewrite forgetAttempts_dedup; try rewrite (attemptExceeded_dedup _ _ _ _ _ He); cbn; eauto; fail).
  - intros id Hi. left. assert (id = MessageId d) as -> by (unfold done_ids in Hi; cbn in Hi; set_solver). apply processed_app.
    unfold duplicate, Seen in Hdup. destruct (r_dedup r) as [dd|] eqn:Er; [|done]. case_bool_decide; [done|]. apply bool_decide_eq_true in Hdup. by eapply S.
  - intros dd' id. rewrite forgetAttempts_dedup. cbn. destruct (r_dedup r) as [dd|]; [|done]. intros [= <-] Hi. apply Mark_set in Hi as [Hi| ->]; [eauto|].
    right. exists d. split; [by left|done].
  - intros id Hi. left. apply done_ids_handled in Hi. cbn in Hi. apply elem_of_singleton in Hi as ->.
    exists d. split; [|done]. apply elem_of_app. right. by left.
  - intros id Hi. right. apply done_ids_handled in Hi. cbn in Hi. apply elem_of_singleton in Hi as ->.
    exists tr, d, Requeue, err, []. split; [done|]. split; [done|]. by apply (capped_gave_up _ _ _ _ _ (Hcnt _) He).
  - intros id Hi. right. apply done_ids_handled in Hi. cbn in Hi. apply elem_of_singleton in Hi as ->.
    exists tr, d, DeadLetter, err, []. split; [done|]. split; [done|]. by left.
Qed.

Lemma dispatches_decided {W} `{World W} `{Amqp W} cfg (handler : Delivery -> W -> Outcome * W) cap tr r :
  dispatches cfg handler (NewConsumerRunner (NewDedup <$> cap)) tr r -> decided cfg tr r.
Proof.
  induction 1 as [|tr r1 d w r2 w' tr' Hds IH Hd]; [apply decided_init|]. apply dispatch_dispatched in Hd.
  eapply decided_step; [|done|done]. intros id Hmax Hid.
  by apply (dispatches_count _ _ _ Hmax Hid) in Hds; [|by apply NewConsumerRunner_counter].
Qed.

(** C24. No event is lost between the commit and the handler.  The dispatcher publishes the
    outbox with confirms, each event under its ID as the message id, then a consumer works on
    the broker's queue, each for as long as it likes and whatever fails on the way, reconnects,
    redeliveries and deduplication included.  When none of these events was settled before the
    consumer came, every event is still in the outbox, or its fetched row's message is with the
    broker and still unsettled, or the handler processed it, or the handler gave it up: it asked
    to dead-letter it, or to requeue it for the MaxAttempts-th time in a row. *)
Theorem event_accounted {WD WB} `{StoreLaws WD} `{QueueLaws WB} `{!AmqpView WB} `{!AmqpLaws WB}
    exchange (key : Row -> string) pcfg wd (wb wb1 : WB) p fuel wakes d wd' p' wb' tr
    ccfg (handler : Delivery -> WB -> Outcome * WB) setup cap cfuel ret ws r wb'' ctr :
  Confirms pcfg = true -> NewReliablePublisher pcfg wb = (Ok p, wb1) -> (size (unsent wd) < fuel)%nat ->
  Dispatcher_Run (publish_row exchange key ID) fuel wakes d (wd, (p, wb1)) = Some ((wd', (p', wb')), tr) ->
  (forall d w, settled (handler d w).2 = settled w) -> (forall f ch w, setup = Some f -> settled (f ch w).2 = settled w) ->
  unsent wd ## settled wb' ->
  Consumer.Run ccfg handler setup cfuel (NewConsumerRunner (NewDedup <$> cap)) wb' = (ret, ws, r, wb'', ctr) ->
  forall id, id ∈ unsent wd ->
    id ∈ unsent wd'
    \/ exists rows row, Fetched rows ∈ tr /\ row ∈ rows /\ ID row = id /\ message exchange key ID row ∈ taken wb'
         /\ ((id ∉ settled wb'') \/ processed id ctr \/ rejected ccfg id ctr).
Proof.
  intros Hc Hnew Hf Hrun Hh Hs Hdisj Hcons id Hin. destruct (decide (id ∈ unsent wd')) as [Ho|Ho]; [by left|]. right.
  destruct (outbox_run_reaches exchange key ID pcfg wd wb p wb1 fuel wakes d wd' p' wb' tr Hc Hnew Hf Hrun id Hin Ho)
    as (rows & row & Hfe & Hr & Hid & Hm).
  exists rows, row. split; [done|]. split; [done|]. split; [done|]. split; [done|].
  destruct (decide (id ∈ settled wb'')) as [Hst|Hst]; [|by left]. right.
  unfold Consumer.Run in Hcons. pose proof (Run_from_accounts _ _ _ Hh Hs _ _ _ _ _ _ _ _ _ Hcons) as Ha.
  apply Run_dispatches, dispatches_decided in Hcons.
  destruct (proj1 (elem_of_union _ _ _) (Ha _ Hst)) as [Hb|Hb]; [by destruct (Hdisj id)|].
  by apply (dc_done _ _ _ Hcons).
Qed.

(** ** A broker with a queue *)

(** The broker of [Amqp] with the ids settled so far; it delivers what it has taken and
    still has, and the context ends when there is nothing left. *)
Record qworld := mkQ { q_broker : broker; q_settled : gset string }.
Definition on_broker {A} (m : broker -> A * broker) (w : qworld) : A * qworld := let '(a, b) := m (q_broker w) in (a, mkQ b (q_settled w)).
Definition pending (w : qworld) : list (string * string * Publishing) :=
  List.filter (fun m => negb (bool_decide (pub_MessageId m.2 ∈ q_settled w))) (b_taken (q_broker w)).
Definition settle_id (d : Delivery) (w : qworld) : qworld := mkQ (q_broker w) ({[ MessageId d ]} ∪ q_settled w).

#[export] Instance qworld_world : World qworld := {
  ctx_err w := match pending w with [] => Some context_Canceled | _ => None end;
  time_now w := 0; rand63n w n := 0; wait d w := (true, w)
}.
#[export] Instance qworld_amqp : Amqp qworld := {
  amqp_Dial u := on_broker (amqp_Dial u); conn_Channel c := on_broker (conn_Channel c); conn_Close c := on_broker (conn_Close c);
  conn_lost c := on_broker (conn_lost c); ch_Close ch w := mkQ (ch_Close ch (q_broker w)) (q_settled w); ch_IsClosed ch w := ch_IsClosed ch (q_broker w);
  ch_Confirm ch := on_broker (ch_Confirm ch); ch_Qos ch n := on_broker (ch_Qos ch n); ch_ExchangeDeclare ch x k d := on_broker (ch_ExchangeDeclare ch x k d);
  ch_QueueDeclare ch q d a := on_broker (ch_QueueDeclare ch q d a); ch_QueueDelete ch q := on_broker (ch_QueueDelete ch q);
  ch_QueueBind ch q k x := on_broker (ch_QueueBind ch q k x); ch_Publish ch x k m := on_broker (ch_Publish ch x k m);
  ch_PublishDeferred ch x k m := on_broker (ch_PublishDeferred ch x k m); dc_wait dc := on_broker (dc_wait dc); ch_Consume ch q t := on_broker (ch_Consume ch q t);
  ch_receive ch w := match pending w with
                     | [] => (CtxDone, w)
                     | (x, k, m) :: _ => (Received (mkDelivery (pub_MessageId m) k (pub_Body m)), w)
                     end;
  d_Ack d w := (None, settle_id d w);
  d_Nack requeue d w := (None, if requeue then w else settle_id d w)
}.
#[export] Instance qworld_view : AmqpView qworld := {
  open_conns w := open_conns (q_broker w); confirming ch w := confirming ch (q_broker w); taken w := taken (q_broker w)
}.
#[export] Instance qworld_queue : QueueView qworld := q_settled.

#[export] Instance qworld_amqp_laws : AmqpLaws qworld.
Proof.
  split; intros.
  - pose proof (law_dial u (q_broker w)) as L. change (amqp_Dial u w) with (on_broker (amqp_Dial u) w). unfold on_broker. destruct (amqp_Dial u (q_broker w)) as [[c|e] b]; exact L.
  - pose proof (law_conn_close c (q_broker w)) as L. change (conn_Close c w) with (on_broker (conn_Close c) w). unfold on_broker. destruct (conn_Close c (q_broker w)); exact L.
  - pose proof (law_channel c (q_broker w)) as L. change (conn_Channel c w) with (on_broker (conn_Channel c) w). unfold on_broker. destruct (conn_Channel c (q_broker w)); exact L.
  - exact (law_ch_close ch (q_broker w)).
  - pose proof (law_confirm ch (q_broker w)) as L. change (ch_Confirm ch w) with (on_broker (ch_Confirm ch) w). unfold on_broker. destruct (ch_Confirm ch (q_broker w)); exact L.
  - pose proof (law_declare ch x k d (q_broker w)) as L. change (ch_ExchangeDeclare ch x k d w) with (on_broker (ch_ExchangeDeclare ch x k d) w). unfold on_broker. destruct (ch_ExchangeDeclare ch x k d (q_broker w)); exact L.
  - pose proof (law_publish ch x k m (q_broker w)) as L. change (ch_Publish ch x k m w) with (on_broker (ch_Publish ch x k m) w). unfold on_broker. destruct (ch_Publish ch x k m (q_broker w)); exact L.
  - pose proof (law_deferred ch x k m (q_broker w)) as L. change (ch_PublishDeferred ch x k m w) with (on_broker (ch_PublishDeferred ch x k m) w). unfold on_broker. destruct (ch_PublishDeferred ch x k m (q_broker w)); exact L.
  - pose proof (law_wait dc (q_broker w)) as L. change (dc_wait dc w) with (on_broker (dc_wait dc) w). unfold on_broker. destruct (dc_wait dc (q_broker w)); exact L.
  - revert H0 H1. change (ch_PublishDeferred ch x k m w) with (on_broker (ch_PublishDeferred ch x k m) w). change (dc_wait dc w1) with (on_broker (dc_wait dc) w1). unfold on_broker.
    destruct (ch_PublishDeferred ch x k m (q_broker w)) as [r1 b1] eqn:E1. intros [= -> <-].
    destruct (dc_wait dc b1) as [r2 b2] eqn:E2. cbn [q_broker q_settled]. rewrite E2. intros [= -> <-]. by eapply (law_acked ch x k m (q_broker w)).
Qed.

#[export] Instance qworld_queue_laws : QueueLaws qworld.
Proof.
  split; intros; unfold settled, qworld_queue;
    cbn -[amqp_Dial conn_Channel conn_Close ch_Close ch_Confirm ch_Qos ch_Consume dc_wait]; unfold on_broker; try done.
  - set_solver.
  - set_solver.
  - by destruct (pending w) as [|[[x k] m] l].
Qed.

(** The outbox of three events is published, and a handler that refuses the second for good
    works through the queue: two events were processed and one was rejected. *)
Definition picky (d : Delivery) (w : qworld) : Outcome * qworld := (if bool_decide (MessageId d = "b") then DeadLetter else Ack, w).
#[local] Abbreviation published :=
  (match NewReliablePublisher sample_cfg (mkQ flaky ∅) with
   | (Ok p, w) => Dispatcher_Run (publish_row "events" Action ID) 4 [WakeTick; WakeCtx] (NewDispatcher [WithBatchSize 2]) (sample_outbox, (p, w))
   | _ => None
   end).
#[local] Abbreviation consume w := (Consumer.Run (sample_consumer 3) picky None 9 (NewConsumerRunner (NewDedup <$> Some 10)) w).

Definition outcomes (ctr : list raction) : list (string * option Outcome) :=
  map (fun a => match a with Handled d o => (MessageId d, Some o) | Acked d _ | Nacked d _ _ => (MessageId d, None) end) ctr.
Example consumed_outcomes :
  match published with
  | Some ((_, (_, wb')), _) => outcomes (consume wb').2
  | None => []
  end = [("c", Some Ack); ("c", None); ("b", Some DeadLetter); ("b", None); ("a", Some Ack); ("a", None)].
Proof. vm_compute. reflexivity. Qed.

Example published_unsettled :
  match published with Some ((_, (_, wb')), _) => settled wb' = ∅ | None => False end.
Proof. vm_compute. reflexivity. Qed.

Lemma event_accounted_witness :
  match published with
  | Some ((wd', (p', wb')), tr) =>
      let wb'' := (consume wb').1.2 in let ctr := (consume wb').2 in
      forall id, id ∈ unsent sample_outbox ->
           id ∈ unsent wd'
           \/ exists rows row, Fetched rows ∈ tr /\ row ∈ rows /\ ID row = id /\ message "events" Action ID row ∈ taken wb'
                /\ ((id ∉ settled wb'') \/ processed id ctr \/ rejected (sample_consumer 3) id ctr)
  | None => False
  end.
Proof.
  pose proof consumed_outcomes as Hc. pose proof published_unsettled as Hu.
  destruct (NewReliablePublisher sample_cfg (mkQ flaky ∅)) as [[p|e] w] eqn:Hnew; [|discriminate].
  destruct (Dispatcher_Run _ _ _ _ _) as [[[wd' [p' wb']] tr]|] eqn:Hp; [|discriminate].
  destruct (consume wb') as [[[[ret ws] r] wb''] ctr] eqn:Hcons.
  apply (event_accounted "events" Action sample_cfg sample_outbox (mkQ flaky ∅) w p 4 [WakeTick; WakeCtx] (NewDispatcher [WithBatchSize 2]) wd' p' wb' tr
    (sample_consumer 3) picky None (Some 10) 9 ret ws r wb'' ctr eq_refl Hnew sample_outbox_size Hp); [reflexivity|discriminate| |exact Hcons].
  rewrite Hu. intros x _ Hx. by apply not_elem_of_empty in Hx.
Defined.
