(* ===== verification/Tracing.v ===== *)
(** * Tracing: observability, messaging/rabbitmq/otel.go and the query tracers

    OpenTelemetry is an interface: a tracer names spans in the order they start,
    a propagator writes and reads the trace context through a carrier.  Here are
    the package that installs them, the carrier of AMQP headers with the spans of
    a publish and a delivery, and the tracers of database/postgres/client. *)

From S2P Require Import Prelude GoStrings Errors Backoff Amqp.

(** ** observability/init.go *)

Record obs_Config := mkObs { obs_ServiceName : string; obs_Endpoint : string }.

(** OTel's global state and the process-wide sync.Once: the endpoint of the installed
    provider, whether the propagators are set, and the exporters that are open. *)
Record otel_global := mkOtel { once_done : bool; provider : option string; propagators : bool; exporters : list string }.
Definition otel_default : otel_global := mkOtel false None false [].

Inductive shutdown_fn := Noop | TpShutdown.

(** [exporter_err] and [resource_err] are what the SDK's constructors return. *)
Definition Init (exporter_err resource_err : error) (getenv : string -> string) (cfg : obs_Config) (g : otel_global)
  : (shutdown_fn * error) * otel_global :=
  if once_done g then ((Noop, None), g)
  else
    let g := mkOtel true (provider g) (propagators g) (exporters g) in
    let endpoint := if bool_decide (obs_Endpoint cfg = EmptyString) then getenv "OTEL_EXPORTER_OTLP_ENDPOINT" else obs_Endpoint cfg in
    if bool_decide (endpoint = EmptyString) then ((Noop, None), g)
    else match exporter_err with
         | Some e => ((Noop, Some (wrapf "observability.Init: create OTLP exporter" e)), g)
         | None =>
             let g := mkOtel true (provider g) (propagators g) (endpoint :: exporters g) in
             match resource_err with
             | Some e => ((Noop, Some (wrapf "observability.Init: build resource" e)), g)
             | None => ((TpShutdown, None), mkOtel true (Some endpoint) true (exporters g))
             end
         end.

(** Any number of calls, each with its own outcome of the SDK. *)
Record init_call := mkInit { ic_exporter : error; ic_resource : error; ic_cfg : obs_Config }.
Fixpoint init_all (getenv : string -> string) (calls : list init_call) (g : otel_global) : list (shutdown_fn * error) * otel_global :=
  match calls with
  | [] => ([], g)
  | c :: calls =>
      let '(r, g) := Init (ic_exporter c) (ic_resource c) getenv (ic_cfg c) g in
      let '(rs, g) := init_all getenv calls g in (r :: rs, g)
  end.

(** ** otel.go: the carrier *)

(** The values an amqp.Table holds, as far as the carrier tells them apart. *)
Inductive field := FString (s : string) | FOther (repr : string).
Abbreviation table := (gmap string field).

Definition carrier_Get (c : table) (key : string) : string :=
  match c !! key with Some (FString s) => s | _ => EmptyString end.
Definition carrier_Set (c : table) (key value : string) : table := <[key := FString value]> c.
Definition carrier_Keys (c : table) : list string := (map_to_list c).*1.

(** ** otel.go: spans *)

Record span_context := mkSC { TraceID : N; SpanID : N }.
Inductive span_kind := KindProducer | KindConsumer.
Record span := mkSpan {
  sp_name : string; sp_kind : span_kind; sp_attrs : list (string * string);
  sp_context : span_context; sp_parent : option span_context; sp_error : error
}.

(** A propagator: the fields it sets for a context, and how it reads them back. *)
Class Propagator := {
  fields : span_context -> list (string * string);
  extract : (string -> string) -> option span_context
}.
(** W3C Trace Context: distinct fields that determine the context they were written for,
    and a carrier without them yields nothing. *)
Class PropagatorLaws `{Propagator} := {
  fields_distinct sc : NoDup (fields sc).*1;
  extract_fields sc get : (forall k v, (k, v) ∈ fields sc -> get k = v) -> extract get = Some sc
}.

(** What the global functions reach: [None] is the default, which does nothing. *)
Record otel_env `{Propagator} := mkEnv { env_propagates : bool; env_next : N }.
#[global] Arguments mkEnv {_}.

Section spans.
Context `{Propagator}.

(** Inject: every field of the context of the span in ctx. *)
Definition injectTraceContext (e : otel_env) (ctx : option span_context) (headers : table) : table :=
  match ctx with
  | Some sc => if env_propagates e then fold_left (fun h kv => carrier_Set h kv.1 kv.2) (fields sc) headers else headers
  | None => headers
  end.

(** tracer.Start: a child of the span in ctx, or the root of a new trace. *)
Definition start_span (name : string) (kind : span_kind) (attrs : list (string * string)) (ctx : option span_context) (e : otel_env)
  : span * otel_env :=
  let id := env_next e in
  let trace := match ctx with Some sc => TraceID sc | None => id end in
  (mkSpan name kind attrs (mkSC trace id) ctx None, mkEnv (env_propagates e) (id + 1)%N).

Definition startProducerSpan (exchange routingKey : string) : option span_context -> otel_env -> span * otel_env :=
  start_span ("rabbitmq.publish " +:+ routingKey) KindProducer
    [("messaging.system", "rabbitmq"); ("messaging.operation.type", "publish"); ("messaging.destination.name", exchange);
     ("messaging.rabbitmq.destination.routing_key", routingKey)].

Definition startConsumerSpan (exchange : string) (headers : table) (d : Delivery) (ctx : option span_context) (e : otel_env)
  : span * otel_env :=
  let ctx := if env_propagates e then match extract (carrier_Get headers) with Some sc => Some sc | None => ctx end else ctx in
  start_span ("rabbitmq.process " +:+ RoutingKey d) KindConsumer
    ([("messaging.system", "rabbitmq"); ("messaging.operation.type", "receive"); ("messaging.destination.name", exchange);
      ("messaging.rabbitmq.destination.routing_key", RoutingKey d)]
     ++ if bool_decide (MessageId d = EmptyString) then [] else [("messaging.message.id", MessageId d)]) ctx e.

Definition recordSpanError (s : span) (err : error) : span :=
  match err with
  | None => s
  | Some _ => mkSpan (sp_name s) (sp_kind s) (sp_attrs s) (sp_context s) (sp_parent s) err
  end.
End spans.

(** ** database/postgres/client/tracer.go, slowquerytracer.go *)

(** A context's values, by key; [clock] is the time of the call. *)
Record slowQueryState := mkSlow { sq_start : Z; sq_sql : string; sq_argCount : Z }.
Record qctx := mkQctx { slow_state : option slowQueryState; other_values : list (string * string) }.
Record query_start := mkQStart { qs_SQL : string; qs_Args : list string }.
Record warning := mkWarn { w_sql : string; w_arg_count : Z; w_duration : Z; w_err : error }.

(** A pgx.QueryTracer: at the start it may add to the context, at the end it may log. *)
Record QueryTracer := mkTracer {
  TraceQueryStart : Z -> query_start -> qctx -> qctx;
  TraceQueryEnd : Z -> error -> qctx -> list warning
}.

Definition DefaultSlowQueryThreshold : Z := 200 * Millisecond.

(** [logger] is whether the Logger is not nil. *)
Definition SlowQueryTracer (threshold : Z) (logger : bool) : QueryTracer := {|
  TraceQueryStart now data ctx := mkQctx (Some (mkSlow now (qs_SQL data) (Z.of_nat (length (qs_Args data))))) (other_values ctx);
  TraceQueryEnd now err ctx :=
    if negb logger then []
    else match slow_state ctx with
         | None => []
         | Some st =>
             let threshold := if threshold <=? 0 then DefaultSlowQueryThreshold else threshold in
             let d := now - sq_start st in
             if threshold <=? d then [mkWarn (sq_sql st) (sq_argCount st) d err] else []
         end
|}.

Definition NewMultiTracer (tracers : list QueryTracer) : QueryTracer := {|
  TraceQueryStart now data ctx := fold_left (fun ctx t => TraceQueryStart t now data ctx) tracers ctx;
  TraceQueryEnd now err ctx := concat (map (fun t => TraceQueryEnd t now err ctx) tracers)
|}.

(** ** Installing OpenTelemetry once *)

Lemma init_all_done getenv calls g : once_done g = true ->
  init_all getenv calls g = (map (fun _ => (Noop, None)) calls, g).
Proof.
  intros Hg. induction calls as [|c calls IH]; [done|]. cbn [init_all]. unfold Init. rewrite Hg. by rewrite IH.
Qed.
(** However often a process initialises tracing, the first call decides: the later ones
    change nothing, report success and return a shutdown that does nothing, and at most
    one exporter is ever opened. *)
Theorem Init_first_decides getenv c calls :
  init_all getenv (c :: calls) otel_default =
    (let '(r, g) := Init (ic_exporter c) (ic_resource c) getenv (ic_cfg c) otel_default in (r :: map (fun _ => (Noop, None)) calls, g))
  /\ (length (exporters (init_all getenv (c :: calls) otel_default).2) <= 1)%nat.
Proof.
  assert (E : init_all getenv (c :: calls) otel_default =
    let '(r, g) := Init (ic_exporter c) (ic_resource c) getenv (ic_cfg c) otel_default in (r :: map (fun _ => (Noop, None)) calls, g)).
  { cbn [init_all]. destruct (Init _ _ _ _ _) as [r g] eqn:Ei. rewrite init_all_done; [done|].
    unfold Init in Ei. cbn in Ei. repeat case_match; by simplify_eq. }
  split; [exact E|]. rewrite E. unfold Init. cbn. repeat case_match; simplify_eq; cbn; lia.
Qed.
(** A first call that fails uses the once up: the retry reports success, and nothing is installed. *)
Example init_failure_sticks :
  let cfg := mkObs "svc" "collector:4317" in
  init_all (fun _ => EmptyString) [mkInit (Some (NewErr "dial")) None cfg; mkInit None None cfg] otel_default
  = ([(Noop, Some (wrapf "observability.Init: create OTLP exporter" (NewErr "dial"))); (Noop, None)], mkOtel true None false []).
Proof. reflexivity. Qed.
(** An exporter whose resource cannot be built is never closed. *)
Example resource_failure_leaks :
  (Init None (Some (NewErr "resource")) (fun _ => EmptyString) (mkObs "svc" "collector:4317") otel_default) =
  ((Noop, Some (wrapf "observability.Init: build resource" (NewErr "resource"))), mkOtel true None false ["collector:4317"]).
Proof. reflexivity. Qed.

(** ** One trace across the broker *)

Section linked.
Context `{PropagatorLaws}.

Lemma inject_other l headers k : (k ∉ l.*1) -> fold_left (fun h kv => carrier_Set h kv.1 kv.2) l headers !! k = headers !! k.
Proof.
  revert headers. induction l as [|[k' v'] l IH]; intros headers Hk; [done|]. cbn in *. rewrite not_elem_of_cons in Hk.
  rewrite IH by naive_solver. unfold carrier_Set. by rewrite lookup_insert_ne by naive_solver.
Qed.
Lemma inject_get l headers k v : NoDup l.*1 -> (k, v) ∈ l ->
  carrier_Get (fold_left (fun h kv => carrier_Set h kv.1 kv.2) l headers) k = v.
Proof.
  revert headers. induction l as [|[k' v'] l IH]; intros headers Hn Hin; [by apply not_elem_of_nil in Hin|]. cbn in *.
  apply NoDup_cons in Hn as [Hk Hn]. apply elem_of_cons in Hin as [[= -> ->]|Hin]; [|by apply IH].
  unfold carrier_Get. rewrite inject_other by done. unfold carrier_Set. by rewrite lookup_insert_eq.
Qed.

(** A message carries its trace: the span of the delivery is a child of the span of the
    publish, in the same trace, whatever headers the message had and whatever the consumer
    was doing; and injecting leaves every other header alone. *)
Theorem trace_linked e exchange key ctx headers exchange' d ctx' :
  env_propagates e = true ->
  let '(p, e1) := startProducerSpan exchange key ctx e in
  let sent := injectTraceContext e1 (Some (sp_context p)) headers in
  let '(c, _) := startConsumerSpan exchange' sent d ctx' e1 in
  sp_parent c = Some (sp_context p) /\ TraceID (sp_context c) = TraceID (sp_context p) /\ SpanID (sp_context c) <> SpanID (sp_context p)
  /\ forall k, (k ∉ (fields (sp_context p)).*1) -> sent !! k = headers !! k.
Proof.
  intros He. unfold startProducerSpan, start_span. cbn zeta. cbn [sp_context]. set (sc := mkSC _ _).
  unfold startConsumerSpan, injectTraceContext. cbn [env_propagates env_next]. rewrite He.
  rewrite (extract_fields sc) by (intros k v Hin; apply inject_get; [apply fields_distinct|done]).
  unfold start_span. cbn. split_and!; [done|done|lia|]. intros k. by apply inject_other.
Qed.
(** Without a propagator the headers are what they were. *)
Lemma untraced_headers e ctx headers : env_propagates e = false -> injectTraceContext e ctx headers = headers.
Proof. intros He. unfold injectTraceContext. rewrite He. by destruct ctx. Qed.
End linked.

(** Two decimal fields instead of the hexadecimal traceparent. *)
#[export] Instance two_fields : Propagator := {
  fields sc := [("trace", digits (Z.of_N (TraceID sc))); ("span", digits (Z.of_N (SpanID sc)))];
  extract get := t ← parse_unsigned (get "trace"); s ← parse_unsigned (get "span"); Some (mkSC (Z.to_N t) (Z.to_N s))
}.
#[export] Instance two_fields_laws : PropagatorLaws.
Proof.
  split.
  - intros sc. cbn. repeat constructor; set_solver.
  - intros [t s] get Hget. cbn in *. rewrite (Hget "trace" (digits (Z.of_N t))), (Hget "span" (digits (Z.of_N s))) by set_solver.
    rewrite !parse_unsigned_digits by lia. cbn. by rewrite !N2Z.id.
Qed.
Definition first_publish : otel_env := mkEnv true 7.
Example trace_linked_sample :
  let '(p, e1) := startProducerSpan "ex" "orders" None first_publish in
  let '(c, _) := startConsumerSpan "ex" (injectTraceContext e1 (Some (sp_context p)) {[ "x-retry" := FOther "3" ]}) (mkDelivery "m1" "orders" "{}") None e1 in
  (sp_context p, sp_context c, sp_parent c) = (mkSC 7 7, mkSC 7 8, Some (mkSC 7 7)).
Proof. vm_compute. reflexivity. Qed.

(** ** Slow queries *)

Definition transparent (t : QueryTracer) : Prop := forall now data ctx, slow_state (TraceQueryStart t now data ctx) = slow_state ctx.
Definition slow_tracer (t : QueryTracer) : Prop := exists threshold logger, t = SlowQueryTracer threshold logger.

Lemma multi_slow_state tracers now data ctx st : Forall (fun t => slow_tracer t \/ transparent t) tracers ->
  st = mkSlow now (qs_SQL data) (Z.of_nat (length (qs_Args data))) ->
  slow_state ctx = Some st \/ Exists slow_tracer tracers ->
  slow_state (TraceQueryStart (NewMultiTracer tracers) now data ctx) = Some st.
Proof.
  intros Ht ->. cbn. revert ctx. induction Ht as [|t tracers [(thr & lg & ->)|Htr] _ IH]; intros ctx H; cbn.
  - destruct H as [H|H]; [done|by apply Exists_nil in H].
  - apply IH. by left.
  - destruct H as [H|H]; [apply IH; left; by rewrite Htr|].
    apply Exists_cons in H as [(thr & lg & ->)|H]; apply IH; [by left|by right].
Qed.

(** Composed with any tracers that leave its entry of the context alone, a slow-query
    tracer with a logger warns about a query exactly when it took at least the threshold
    (200ms when none is set), with the text, the number of arguments and the error; the
    values of the arguments are no part of a warning. *)
Theorem slow_query_warned tracers threshold now now' data err ctx :
  Forall (fun t => slow_tracer t \/ transparent t) tracers -> SlowQueryTracer threshold true ∈ tracers ->
  TraceQueryEnd (SlowQueryTracer threshold true) now' err (TraceQueryStart (NewMultiTracer tracers) now data ctx)
  = (if (if threshold <=? 0 then 200 * Millisecond else threshold) <=? now' - now
     then [mkWarn (qs_SQL data) (Z.of_nat (length (qs_Args data))) (now' - now) err] else [])
  /\ (forall warn, warn ∈ TraceQueryEnd (SlowQueryTracer threshold true) now' err (TraceQueryStart (NewMultiTracer tracers) now data ctx) ->
       warn ∈ TraceQueryEnd (NewMultiTracer tracers) now' err (TraceQueryStart (NewMultiTracer tracers) now data ctx)).
Proof.
  intros Ht Hin. split.
  - cbn [TraceQueryEnd SlowQueryTracer negb].
    by erewrite multi_slow_state; [|done|done|right; apply Exists_exists; exists (SlowQueryTracer threshold true); split; [done|by eexists _, _]].
  - intros warn Hw. cbn [TraceQueryEnd NewMultiTracer]. apply list_elem_of_In, in_concat. eexists. split; [|by apply list_elem_of_In].
    apply in_map_iff. exists (SlowQueryTracer threshold true). split; [done|]. by apply list_elem_of_In.
Qed.
