(* ===== verification/Clients.v ===== *)
(** * Clients: how connections are built

    database/postgres/client (the pool), database/redis (the client),
    grpc/client, database/elasticsearch/client (transport and construction) and
    auth/jwt/keycloak.go.  Drivers are parameters: what they are handed is data
    here, and what their constructors return is an argument. *)

From S2P Require Import Prelude GoStrings Http Errors Backoff Retry Tracing Migrations.

(** What a service holds: connections and pools that were opened and not closed. *)
Record held := mkHeld { open_pools : Z }.
Definition open_one (h : held) : held := mkHeld (open_pools h + 1).
Definition close_one (h : held) : held := mkHeld (open_pools h - 1).

(** ** database/postgres/client: config.go, pool.go *)

Record pg_Config := mkPgCfg {
  pg_DSN : string; MaxConns : Z; MinConns : Z; MaxConnLifetime : Z; ConnectTimeout : Z; pg_SearchPath : string
}.
(** pgxpool.Config, as far as it is set here. *)
Record poolConfig := mkPoolCfg {
  RuntimeParams : gmap string string; pc_MaxConns : Z; pc_MinConns : Z; pc_MaxConnLifetime : Z; pc_Tracer : option QueryTracer
}.
Definition PoolOption := poolConfig -> poolConfig.
Definition WithTracers (tracers : list QueryTracer) : PoolOption := fun c =>
  mkPoolCfg (RuntimeParams c) (pc_MaxConns c) (pc_MinConns c) (pc_MaxConnLifetime c) (Some (NewMultiTracer tracers)).

Definition pool_config (cfg : pg_Config) (parsed : poolConfig) : poolConfig :=
  mkPoolCfg
    (if bool_decide (pg_SearchPath cfg = EmptyString) then RuntimeParams parsed else <["search_path" := pg_SearchPath cfg]> (RuntimeParams parsed))
    (if 0 <? MaxConns cfg then MaxConns cfg else pc_MaxConns parsed)
    (if 0 <? MinConns cfg then MinConns cfg else pc_MinConns parsed)
    (if 0 <? MaxConnLifetime cfg then MaxConnLifetime cfg else pc_MaxConnLifetime parsed)
    (pc_Tracer parsed).
Definition connect_timeout (cfg : pg_Config) : Z := if ConnectTimeout cfg =? 0 then 10 * Second else ConnectTimeout cfg.

(** [create] and [ping] are pgx's, called with the configuration and the timeout. *)
Definition NewPool (ParseConfig : string -> res poolConfig) (create : poolConfig -> Z -> error) (ping : poolConfig -> Z -> error)
  (cfg : pg_Config) (opts : list PoolOption) (h : held) : res poolConfig * held :=
  match ParseConfig (pg_DSN cfg) with
  | Err e => (Err (wrapf "client.NewPool: parsing DSN" e), h)
  | Ok parsed =>
      let pc := fold_left (fun c o => o c) opts (pool_config cfg parsed) in
      match create pc (connect_timeout cfg) with
      | Some e => (Err (wrapf "client.NewPool: creating pool" e), h)
      | None =>
          let h := open_one h in
          match ping pc (connect_timeout cfg) with
          | Some e => (Err (wrapf "client.NewPool: ping failed" e), close_one h)
          | None => (Ok pc, h)
          end
      end
  end.

(** ** database/redis: config.go, client.go *)

Record redis_Config := mkRedisCfg { rc_Addr : string; rc_Password : string; rc_DB : Z; PoolSize : Z; rc_EnableTracing : bool }.
Record redis_Options := mkRedisOpts { ro_Addr : string; ro_Password : string; ro_DB : Z; ro_PoolSize : Z }.
Definition redis_options (cfg : redis_Config) : redis_Options :=
  mkRedisOpts (rc_Addr cfg) (rc_Password cfg) (rc_DB cfg) (if 0 <? PoolSize cfg then PoolSize cfg else 0).
Definition redis_NewClient (instrument : error) (ping : redis_Options -> error) (cfg : redis_Config) (h : held) : res redis_Options * held :=
  let opts := redis_options cfg in
  let h := open_one h in
  match (if rc_EnableTracing cfg then instrument else None) with
  | Some e => (Err (wrapf "redis.NewClient: instrument tracing" e), close_one h)
  | None =>
      match ping opts with
      | Some e => (Err (wrapf "redis.NewClient: ping failed" e), close_one h)
      | None => (Ok opts, h)
      end
  end.
Definition redis_Close (close_err : error) (h : held) : error * held := (close_err, close_one h).

(** ** TLS settings, as the clients make them *)

Definition VersionTLS12 : Z := 771.
(** [None] for the system's roots; MinVersion 0 is the library's default. *)
Record client_tls := mkCTls { ct_ServerName : string; ct_MinVersion : Z; ct_Insecure : bool; ct_Roots : option string }.

(** Reading a CA bundle: [read] is os.ReadFile, [has_certs] whether AppendCertsFromPEM finds one. *)
Definition ca_bundle (read : string -> res string) (has_certs : string -> bool) (read_msg none_msg path : string) : res (option string) :=
  if bool_decide (path = EmptyString) then Ok None
  else match read path with
       | Err e => Err (wrapf read_msg e)
       | Ok pem => if has_certs pem then Ok (Some pem) else Err (NewErr none_msg)
       end.

(** ** grpc/client: config.go, dial.go *)

Record grpc_Config := mkGrpcCfg {
  Target : string; TLS : bool; CACertPath : string; ServerNameOverride : string; KeepaliveTime : Z; KeepaliveTimeout : Z
}.
(** Interceptors by name; the resilience interceptor with the number of its options. *)
Inductive interceptor := Resilience (opts : list string) | App (name : string).
Inductive dial_option :=
  | WithTransportCredentials (c : option client_tls)       (* None = insecure *)
  | WithKeepaliveParams (time timeout : Z)
  | WithStatsHandler
  | WithChainUnary (l : list interceptor)
  | RawOption (name : string).
Record dialConfig := mkDial { d_tracing : bool; d_resilient : bool; resilienceOpts : list string; unary : list string; extra : list string }.
Definition DialOpt := dialConfig -> dialConfig.
Definition WithoutResilience : DialOpt := fun c => mkDial (d_tracing c) false (resilienceOpts c) (unary c) (extra c).
Definition WithoutTracing : DialOpt := fun c => mkDial false (d_resilient c) (resilienceOpts c) (unary c) (extra c).
Definition WithResilience (opts : list string) : DialOpt := fun c => mkDial (d_tracing c) (d_resilient c) (resilienceOpts c ++ opts) (unary c) (extra c).
Definition WithUnaryInterceptors (l : list string) : DialOpt := fun c => mkDial (d_tracing c) (d_resilient c) (resilienceOpts c) (unary c ++ l) (extra c).
Definition WithDialOptions (l : list string) : DialOpt := fun c => mkDial (d_tracing c) (d_resilient c) (resilienceOpts c) (unary c) (extra c ++ l).

(** Resilience and tracing are on by default. *)
Definition dial_config (opts : list DialOpt) : dialConfig := fold_left (fun c o => o c) opts (mkDial true true [] [] []).
Definition defaultKeepaliveTime : Z := 30 * Second.
Definition defaultKeepaliveTimeout : Z := 10 * Second.

Section grpc.
Variable read : string -> res string.
Variable has_certs : string -> bool.

Definition transportCredentials (cfg : grpc_Config) : res (option client_tls) :=
  if negb (TLS cfg) then Ok None
  else match ca_bundle read has_certs "grpc client: read ca_cert_path" "grpc client: ca_cert_path has no valid PEM certificates" (CACertPath cfg) with
       | Err e => Err e
       | Ok roots => Ok (Some (mkCTls (ServerNameOverride cfg) VersionTLS12 false roots))
       end.

Definition dial_interceptors (dc : dialConfig) : list interceptor :=
  (if d_resilient dc then [Resilience (resilienceOpts dc)] else []) ++ map App (unary dc).

(** [new_client] is grpc.NewClient. *)
Definition Dial (new_client : string -> list dial_option -> error) (cfg : grpc_Config) (opts : list DialOpt) : res (list dial_option) :=
  if bool_decide (Target cfg = EmptyString) then Err (NewErr "grpc client: target is required")
  else
    let dc := dial_config opts in
    match transportCredentials cfg with
    | Err e => Err e
    | Ok creds =>
        let kaTime := if KeepaliveTime cfg <=? 0 then defaultKeepaliveTime else KeepaliveTime cfg in
        let kaTimeout := if KeepaliveTimeout cfg <=? 0 then defaultKeepaliveTimeout else KeepaliveTimeout cfg in
        let dialOpts := [WithTransportCredentials creds; WithKeepaliveParams kaTime kaTimeout]
          ++ (if d_tracing dc then [WithStatsHandler] else [])
          ++ (match dial_interceptors dc with [] => [] | l => [WithChainUnary l] end)
          ++ map RawOption (extra dc) in
        match new_client (Target cfg) dialOpts with
        | Some e => Err (wrapf ("grpc client: dial " +:+ Target cfg) e)
        | None => Ok dialOpts
        end
    end.
End grpc.

(** ** auth/jwt/keycloak.go *)

(** What the select of NewKeycloakJWKS receives. *)
Inductive jwks_wait := JwksResult (err : error) | JwksTimeout.
Definition NewKeycloakJWKS (jwksURL : string) (refreshInterval : Z) (received : jwks_wait) : res string :=
  let _ := if refreshInterval =? 0 then 5 * (60 * Second) else refreshInterval in      (* computed and not used *)
  match received with
  | JwksResult (Some e) => Err (wrapf ("initialising keyfunc JWKS from " +:+ quoted jwksURL) e)
  | JwksResult None => Ok jwksURL
  | JwksTimeout => Err (NewErr ("initialising keyfunc JWKS from " +:+ quoted jwksURL +:+ ": timed out after 30s"))
  end.

(** ** database/elasticsearch/client: config.go, client.go, instrument.go *)

Record es_Config := mkEsCfg {
  Addresses : list string; es_Username : string; es_Password : string; es_APIKey : string; es_Timeout : Z;
  es_CACertPath : string; es_InsecureSkipVerify : bool; MaxRetries : Z; DisableRetry : bool; MaxIdleConnsPerHost : Z;
  EnableMetrics : bool; es_EnableTracing : bool; es_Logger : bool; es_Transport : option string
}.
(** Round trippers: the process's default, one the service wired in, a configured clone of
    the default, and the two instrumenting layers. *)
Inductive transport :=
  | DefaultTransport
  | CustomTransport (name : string)
  | ClonedTransport (idle_per_host idle : Z) (tls : option client_tls)
  | Observed (next : transport) (logger metrics : bool)
  | Traced (next : transport).

(** net/http's default transport keeps 100 idle connections, by default 2 per host (0 here). *)
Definition default_idle : Z := 100.

Definition buildTransport (default_is_http : bool) (read : string -> res string) (has_certs : string -> bool) (cfg : es_Config)
  : res (option transport) :=
  let tls_asked := negb (bool_decide (es_CACertPath cfg = EmptyString)) || es_InsecureSkipVerify cfg in
  let rt : res (option transport) :=
    match es_Transport cfg with
    | Some name => Ok (Some (CustomTransport name))
    | None =>
        if tls_asked || (0 <? MaxIdleConnsPerHost cfg) then
          if negb default_is_http then Err (NewErr "elastic config: default transport unavailable for TLS/pool configuration")
          else
            let per_host := if 0 <? MaxIdleConnsPerHost cfg then MaxIdleConnsPerHost cfg else 0 in
            let idle := if (0 <? MaxIdleConnsPerHost cfg) && (default_idle <? MaxIdleConnsPerHost cfg) then MaxIdleConnsPerHost cfg else default_idle in
            if tls_asked then
              match ca_bundle read has_certs "elastic config: read ca_cert_path" "elastic config: ca_cert_path contains no valid PEM certificates" (es_CACertPath cfg) with
              | Err e => Err e
              | Ok roots => Ok (Some (ClonedTransport per_host idle (Some (mkCTls EmptyString 0 (es_InsecureSkipVerify cfg) roots))))
              end
            else Ok (Some (ClonedTransport per_host idle None))
        else Ok None
    end in
  match rt with
  | Err e => Err e
  | Ok rt =>
      let rt := if EnableMetrics cfg || es_Logger cfg
                then Some (Observed (default DefaultTransport rt) (es_Logger cfg) (EnableMetrics cfg)) else rt in
      Ok (if es_EnableTracing cfg then Some (Traced (default DefaultTransport rt)) else rt)
  end.

(** The settings handed to go-elasticsearch. *)
Record es_settings := mkEsSet {
  set_Addresses : list string; set_Auth : string * string * string; set_DisableRetry : bool; set_MaxRetries : Z; RetryOnStatus : list Z;
  set_Transport : option transport
}.
Definition RetryBackoff (attempt : Z) : Z := wrap64 (wrap64 (wrap64 (attempt * attempt) * 100) * Millisecond).
Definition es_settings_of (cfg : es_Config) (t : option transport) : es_settings :=
  mkEsSet (Addresses cfg) (es_Username cfg, es_Password cfg, es_APIKey cfg) (DisableRetry cfg)
    (if DisableRetry cfg then 0 else if MaxRetries cfg <=? 0 then 3 else MaxRetries cfg)
    (if DisableRetry cfg then [] else [429; 502; 503; 504]) t.
Definition es_timeout (cfg : es_Config) : Z := if es_Timeout cfg <=? 0 then 10 * Second else es_Timeout cfg.

(** [ping] is the GET / of the new client within the timeout. *)
Definition es_New (default_is_http : bool) (read : string -> res string) (has_certs : string -> bool)
  (new_client : es_settings -> error) (ping : es_settings -> Z -> error) (cfg : es_Config) : res (es_settings * Z) :=
  if bool_decide (Addresses cfg = []) then Err (NewErr "elastic config: addresses is required")
  else match buildTransport default_is_http read has_certs cfg with
       | Err e => Err e
       | Ok t =>
           let s := es_settings_of cfg t in
           match new_client s with
           | Some e => Err (wrapf "elastic.New" e)
           | None => match ping s (es_timeout cfg) with
                     | Some e => Err (wrapf "elastic.New: ping" e)
                     | None => Ok (s, es_timeout cfg)
                     end
           end
       end.

(** instrument.go: the counters and the log. *)
Record es_log := mkEsLog { lg_failed : bool; lg_method : string; lg_path : string; lg_status : string; lg_duration : Z }.
Record observations := mkObservations { reqTotal : gmap (string * string) Z; reqDuration : list (string * Z); es_logged : list es_log }.
Record http_req := mkHttpRq { rq_Method : string; rq_Path : string }.

Section roundtrip.
Context {W : Type} `{World W}.
(** The round trippers below the instrumentation; a response is its status. *)
Variable leaf : transport -> http_req -> W -> res Z * W.

Definition observe (logger metrics : bool) (req : http_req) (elapsed : Z) (r : res Z) (o : observations) : observations :=
  let status := match r with Ok code => itoa code | Err _ => "error" end in
  let o := if metrics
           then mkObservations (<[(rq_Method req, status) := default 0 (reqTotal o !! (rq_Method req, status)) + 1]> (reqTotal o))
                  (reqDuration o ++ [(rq_Method req, elapsed)]) (es_logged o)
           else o in
  if logger
  then mkObservations (reqTotal o) (reqDuration o)
         (es_logged o ++ [mkEsLog (match r with Err _ => true | Ok _ => false end) (rq_Method req) (rq_Path req)
                            (match r with Err _ => EmptyString | Ok _ => status end) elapsed])
  else o.

(** transport_RoundTrip of a stack of layers; a span changes nothing a caller sees. *)
Fixpoint transport_RoundTrip (t : transport) (req : http_req) (w : W * observations) : res Z * (W * observations) :=
  match t with
  | Observed next logger metrics =>
      let start := time_now w.1 in
      let '(r, (w1, o)) := transport_RoundTrip next req w in
      (r, (w1, observe logger metrics req (time_now w1 - start) r o))
  | Traced next => transport_RoundTrip next req w
  | t => let '(r, w1) := leaf t req w.1 in (r, (w1, w.2))
  end.

(** The transport below the layers. *)
Fixpoint innermost (t : transport) : transport :=
  match t with Observed next _ _ => innermost next | Traced next => innermost next | t => t end.

Lemma innermost_no_layer t : match innermost t with Observed _ _ _ | Traced _ => False | _ => True end.
Proof. by induction t. Qed.
Lemma transport_RoundTrip_innermost t req w o :
  (transport_RoundTrip t req (w, o)).1 = (leaf (innermost t) req w).1 /\ (transport_RoundTrip t req (w, o)).2.1 = (leaf (innermost t) req w).2.
Proof.
  induction t as [| | |next [IH1 IH2] lg mt|next IH]; cbn; [by destruct (leaf _ req w)..| |done].
  destruct (transport_RoundTrip next req (w, o)) as [r [w1 o1]]. cbn in *. by split.
Qed.
End roundtrip.

(** The stack [buildTransport] makes never changes what a caller sees: requests reach the
    transport the configuration names, once, and their results come back unchanged, with
    metrics, logging and tracing on or off; and every request counts once under its method
    and status exactly when metrics are on. *)
Theorem instrumentation_transparent {W} `{World W} (leaf : transport -> http_req -> W -> res Z * W) default_is_http read has_certs cfg t req w o :
  buildTransport default_is_http read has_certs cfg = Ok (Some t) ->
  (transport_RoundTrip leaf t req (w, o)).1 = (leaf (innermost t) req w).1 /\ (transport_RoundTrip leaf t req (w, o)).2.1 = (leaf (innermost t) req w).2
  /\ let status := match (leaf (innermost t) req w).1 with Ok code => itoa code | Err _ => "error" end in
     reqTotal (transport_RoundTrip leaf t req (w, o)).2.2 =
       (if EnableMetrics cfg then <[(rq_Method req, status) := default 0 (reqTotal o !! (rq_Method req, status)) + 1]> (reqTotal o) else reqTotal o)
  /\ (es_Transport cfg <> None -> es_Transport cfg = match innermost t with CustomTransport n => Some n | _ => None end).
Proof.
  intros Hb. split; [apply transport_RoundTrip_innermost|]. split; [apply transport_RoundTrip_innermost|]. cbn zeta.
  unfold buildTransport in Hb.
  assert (Hrt : exists base, innermost base = base /\ innermost t = base
    /\ (es_Transport cfg <> None -> es_Transport cfg = match base with CustomTransport n => Some n | _ => None end)
    /\ (t = base /\ EnableMetrics cfg = false \/ t = Observed base (es_Logger cfg) (EnableMetrics cfg)
        \/ t = Traced base /\ EnableMetrics cfg = false \/ t = Traced (Observed base (es_Logger cfg) (EnableMetrics cfg)))).
  { destruct (match es_Transport cfg with Some _ => _ | None => _ end) as [rt|e] eqn:Ert; [|done]. injection Hb as Hb.
    exists (default DefaultTransport rt).
    assert (Hin : innermost (default DefaultTransport rt) = default DefaultTransport rt) by (repeat case_match; by simplify_eq).
    split; [done|]. destruct (EnableMetrics cfg) eqn:Em, (es_Logger cfg) eqn:El, (es_EnableTracing cfg) eqn:Et; cbn in Hb; simplify_eq; cbn;
      (split; [exact Hin|]); (split; [destruct (es_Transport cfg); by simplify_eq|]);
      first [by left|by right; left|by right; right; left|by right; right; right]. }
  destruct Hrt as (base & Hbase & Hinner & Hcust & Ht). rewrite Hinner. split; [|exact Hcust].
  assert (Hleaf : transport_RoundTrip leaf base req (w, o) = let '(r, w1) := leaf base req w in (r, (w1, o))).
  { pose proof (innermost_no_layer base) as Hn. rewrite Hbase in Hn. by destruct base. }
  destruct Ht as [[-> Em]|[->|[[-> Em]| ->]]]; cbn [transport_RoundTrip]; rewrite Hleaf; try rewrite Em; destruct (leaf base req w) as [r w1]; cbn; [done| |done|].
  all: unfold observe; destruct (EnableMetrics cfg), (es_Logger cfg); done.
Qed.

(** ** Nothing is left open *)

(** A pool exists after NewPool exactly when it is returned. *)
Theorem NewPool_releases ParseConfig create ping cfg opts h :
  open_pools (NewPool ParseConfig create ping cfg opts h).2 =
  open_pools h + match (NewPool ParseConfig create ping cfg opts h).1 with Ok _ => 1 | Err _ => 0 end.
Proof.
  unfold NewPool, close_one, open_one. destruct (ParseConfig _); [|cbn; lia]. destruct (create _ _); [cbn; lia|]. destruct (ping _ _); cbn; lia.
Qed.
Theorem redis_NewClient_releases instrument ping cfg h :
  open_pools (redis_NewClient instrument ping cfg h).2 =
  open_pools h + match (redis_NewClient instrument ping cfg h).1 with Ok _ => 1 | Err _ => 0 end.
Proof.
  unfold redis_NewClient, close_one, open_one. destruct (if rc_EnableTracing cfg then _ else _); [cbn; lia|]. destruct (ping _); cbn; lia.
Qed.

(** The application's pool and the migrations work in the same schema: from the same DSN
    and the same search path the connections get the same parameters. *)
Theorem schema_agrees (Parse : string -> res (gmap string string)) create ping cfg tracers h pc h' {D} (gm : GolangMigrate D) mcfg dir mw params mw' idle :
  let ParseConfig dsn := match Parse dsn with Ok p => Ok (mkPoolCfg p idle 0 (60 * 60 * Second) None) | Err e => Err e end in
  NewPool ParseConfig create ping cfg (map WithTracers tracers) h = (Ok pc, h') ->
  @pgx_ParseConfig D gm = Parse -> mig_open mcfg dir mw = (Ok params, mw') ->
  mig_DSN mcfg = pg_DSN cfg -> mig_SearchPath mcfg = pg_SearchPath cfg -> RuntimeParams pc = params.
Proof.
  cbn zeta. intros Hp Hg Hm Hd Hs.
  assert (Hopts : forall c, RuntimeParams (fold_left (fun c (o : PoolOption) => o c) (map WithTracers tracers) c) = RuntimeParams c).
  { clear. induction tracers as [|t ts IH]; intros c; [done|]. cbn. by rewrite IH. }
  unfold NewPool in Hp. unfold mig_open in Hm. rewrite Hg, Hd, Hs in Hm. destruct (Parse (pg_DSN cfg)) as [p|e]; [|done].
  repeat (case_match; try done); simplify_eq. rewrite Hopts. unfold pool_config, search_params. cbn. done.
Qed.

(** ** What a channel is dialled with *)

(** Dial gives exactly one kind of credentials — plaintext only when TLS is off, TLS 1.2 at
    least and verified otherwise, against the configured CA if there is one — keeps
    connections alive with positive intervals, and puts the resilience interceptor, unless
    it was turned off, before every interceptor of the application. *)
Theorem Dial_plan read has_certs new_client cfg opts l :
  Dial read has_certs new_client cfg opts = Ok l ->
  let dc := dial_config opts in
  exists creds kt kto rest, l = WithTransportCredentials creds :: WithKeepaliveParams kt kto :: rest
    /\ (creds = None <-> TLS cfg = false)
    /\ (forall c, creds = Some c -> VersionTLS12 <= ct_MinVersion c /\ ct_Insecure c = false
          /\ (ct_Roots c = None <-> CACertPath cfg = EmptyString) /\ (forall pem, ct_Roots c = Some pem -> has_certs pem = true))
    /\ 0 < kt /\ 0 < kto
    /\ (d_resilient dc = true -> WithChainUnary (Resilience (resilienceOpts dc) :: map App (unary dc)) ∈ rest)
    /\ (forall n, WithChainUnary n ∈ rest -> n = dial_interceptors dc).
Proof.
  unfold Dial. case_bool_decide; [done|]. intros E. cbn zeta in *. set (dc := dial_config opts) in *.
  destruct (transportCredentials read has_certs cfg) as [creds|e] eqn:Ec; [|done]. destruct (new_client _ _); [done|]. injection E as <-.
  eexists creds, _, _, _. split; [reflexivity|]. split_and!.
  - unfold transportCredentials in Ec. destruct (TLS cfg); cbn in Ec; [|by simplify_eq]. by case_match; simplify_eq.
  - intros c ->. unfold transportCredentials, ca_bundle in Ec. destruct (TLS cfg); cbn in Ec; [|done].
    repeat case_match; simplify_eq; cbn; (split; [done|]); (split; [done|]); bools; (split; [done|]); by intros ? [= <-].
  - destruct (Z.leb_spec (KeepaliveTime cfg) 0); [done|lia].
  - destruct (Z.leb_spec (KeepaliveTimeout cfg) 0); [done|lia].
  - intros Hr. apply elem_of_app. right. apply elem_of_app. left. unfold dial_interceptors. rewrite Hr. cbn. by left.
  - intros n Hin. apply elem_of_app in Hin as [Hin|Hin]; [case_match; set_solver|]. apply elem_of_app in Hin as [Hin|Hin].
    + destruct (dial_interceptors dc) eqn:Ei; [set_solver|]. rewrite list_elem_of_singleton in Hin. congruence.
    + apply list_elem_of_fmap in Hin as (? & ? & _). done.
Qed.

(** ** Examples *)

(** Retries wait quadratically longer, not exponentially as the configuration says. *)
Example backoff_quadratic : map RetryBackoff [1; 2; 3; 4] = map (fun n => n * Millisecond) [100; 400; 900; 1600].
Proof. reflexivity. Qed.
(** The configured refresh interval never reaches the key set. *)
Example refresh_interval_unused url a b received : NewKeycloakJWKS url a received = NewKeycloakJWKS url b received.
Proof. reflexivity. Qed.
(** Later WithTracers options replace earlier ones. *)
Example last_tracers_win a b c : pc_Tracer (fold_left (fun c (o : PoolOption) => o c) [WithTracers a; WithTracers b] c) = Some (NewMultiTracer b).
Proof. reflexivity. Qed.
