(* ===== verification/Containers.v ===== *)
(** * Containers: dxtest/containers — databases for integration tests

    One container per kind is shared by a test binary behind a sync.Once; each
    call migrates, connects and seeds.  Docker, pgx and the file systems of
    migrations and fixtures are parameters; what is asked of them is logged in
    order.  testing.T is its outcomes: a test goes on, is skipped or fails, and
    runs its clean-ups in every case. *)

From S2P Require Import Prelude GoStrings Http Errors Backoff Retry Tracing Migrations Clients.

(** ** path.Join and path.Clean, on two elements *)

Definition clean_step (rooted : bool) (out : list string) (c : string) : list string :=
  if bool_decide (c = EmptyString) || bool_decide (c = ".") then out
  else if bool_decide (c = "..")
       then match out with
            | [] => if rooted then [] else [".."]
            | c' :: out' => if bool_decide (c' = "..") then ".." :: out else out'
            end
       else c :: out.
Definition path_Clean (p : string) : string :=
  let rooted := has_prefix "/" p in
  let body := join "/" (rev (fold_left (clean_step rooted) (split "/" p) [])) in
  if rooted then "/" +:+ body else if bool_decide (body = EmptyString) then "." else body.
Definition path_Join (dir name : string) : string :=
  match filter (fun e => e <> EmptyString) [dir; name] with
  | [] => EmptyString
  | l => path_Clean (join "/" l)
  end.

(** strings.HasSuffix *)
Definition has_suffix (suf s : string) : bool :=
  (String.length suf <=? String.length s)%nat && bool_decide (drop (String.length s - String.length suf) s = suf).

(** ** The test process *)

(** fs.FS: the entries of a directory with whether they are directories, and contents. *)
Record FS := mkFS { fs_ReadDir : string -> res (list (string * bool)); fs_ReadFile : string -> res string }.

(** How a helper called from a test ends. *)
Inductive tres (A : Type) := Ret (a : A) | Skipped | Fatal (msg : string).
Arguments Ret {A}. Arguments Skipped {A}. Arguments Fatal {A}.

Definition t_Fatalf {A} (what : string) (e : goerr) : tres A := Fatal ("dxtest/containers: " +:+ what +:+ error_text e).

(** The helper that went on is followed by the rest; t.FailNow and t.SkipNow end the test. *)
Definition t_then {P A B} (r : tres A * P) (k : A -> P -> tres B * P) : tres B * P :=
  match r with
  | (Ret a, p) => k a p
  | (Skipped, p) => (Skipped, p)
  | (Fatal m, p) => (Fatal m, p)
  end.

(** What the helpers ask of the outside, in order. *)
Inductive tevent := Started (image : string) | Migrated (dir : string) | Connected (addr : string) | Executed (sql : string).
#[export] Instance tevent_eq_dec : EqDecision tevent.
Proof. solve_decision. Defined.

(** Docker and an open pool. *)
Class TestHost (X : Type) := {
  provider_healthy : X -> bool * X;
  tc_Run : string -> list string -> X -> res string * X;                (* image, options; the container *)
  tc_ConnectionString : string -> list string -> X -> res string * X;
  pool_Exec : string -> string -> X -> error * X                        (* the pool by its DSN *)
}.

(** A sync.Once with the variables its function sets. *)
Record shared := mkShared { once_done : bool; sh_addr : string; sh_err : error }.
Definition not_started : shared := mkShared false EmptyString None.

(** The package's variables and what a test process holds. *)
Record tproc (D X : Type) := mkProc {
  pg : shared; redis : shared; tp_mig : mig_world D; tp_held : held; tp_cleanups : nat; tp_log : list tevent; tp_host : X
}.
Arguments mkProc {D X}. Arguments pg {D X}. Arguments redis {D X}. Arguments tp_mig {D X}. Arguments tp_held {D X}.
Arguments tp_cleanups {D X}. Arguments tp_log {D X}. Arguments tp_host {D X}.

Section containers.
Context {D X : Type} `{TestHost X}.
Variable ParseConfig : string -> res poolConfig.
Variable create ping : poolConfig -> Z -> error.
Variable redis_ping : redis_Options -> error.

Definition set_pg (s : shared) (p : tproc D X) : tproc D X := mkProc s (redis p) (tp_mig p) (tp_held p) (tp_cleanups p) (tp_log p) (tp_host p).
Definition set_redis (s : shared) (p : tproc D X) : tproc D X := mkProc (pg p) s (tp_mig p) (tp_held p) (tp_cleanups p) (tp_log p) (tp_host p).
Definition set_mig (w : mig_world D) (p : tproc D X) : tproc D X := mkProc (pg p) (redis p) w (tp_held p) (tp_cleanups p) (tp_log p) (tp_host p).
Definition set_held (h : held) (p : tproc D X) : tproc D X := mkProc (pg p) (redis p) (tp_mig p) h (tp_cleanups p) (tp_log p) (tp_host p).
Definition set_host (x : X) (p : tproc D X) : tproc D X := mkProc (pg p) (redis p) (tp_mig p) (tp_held p) (tp_cleanups p) (tp_log p) x.
Definition log (e : tevent) (p : tproc D X) : tproc D X := mkProc (pg p) (redis p) (tp_mig p) (tp_held p) (tp_cleanups p) (tp_log p ++ [e]) (tp_host p).
(** t.Cleanup of a function that closes one pool or client. *)
Definition t_Cleanup (p : tproc D X) : tproc D X := mkProc (pg p) (redis p) (tp_mig p) (tp_held p) (S (tp_cleanups p)) (tp_log p) (tp_host p).
(** The end of a test. *)
Definition end_test (p : tproc D X) : tproc D X :=
  mkProc (pg p) (redis p) (tp_mig p) (Nat.iter (tp_cleanups p) close_one (tp_held p)) 0 (tp_log p) (tp_host p).

(** ** Starting a container *)

(** The function under the Once: the variables after it. [address] is what is kept of the connection string. *)
Definition run_container (kind image : string) (opts conn : list string) (address : string -> string) (p : tproc D X) : shared * tproc D X :=
  let p := log (Started image) p in
  match tc_Run image opts (tp_host p) with
  | (Err e, x) => (mkShared true EmptyString (Some (wrapf ("start " +:+ kind +:+ " container") e)), set_host x p)
  | (Ok c, x) =>
      match tc_ConnectionString c conn x with
      | (Err e, x) => (mkShared true EmptyString (Some (wrapf (kind +:+ " container connection string") e)), set_host x p)
      | (Ok s, x) => (mkShared true (address s) None, set_host x p)
      end
  end.
Definition once_result (s : shared) : tres string := match sh_err s with Some e => t_Fatalf EmptyString e | None => Ret (sh_addr s) end.

Definition startPostgresContainer (p : tproc D X) : tres string * tproc D X :=
  let '(healthy, x) := provider_healthy (tp_host p) in
  let p := set_host x p in
  if negb healthy then (Skipped, p)
  else
    let p := if once_done (pg p) then p
             else let '(s, p) := run_container "postgres" "postgres:16-alpine"
                                   ["database=dxtest"; "username=dxtest"; "password=dxtest"; "wait=basic"] ["sslmode=disable"] id p in
                  set_pg s p in
    (once_result (pg p), p).

Definition trimRedisScheme (connStr : string) : string :=
  let scheme := "redis://" in
  if (String.length scheme <? String.length connStr)%nat && bool_decide (String.substring 0 (String.length scheme) connStr = scheme)
  then drop (String.length scheme) connStr else connStr.

Definition startRedisContainer (p : tproc D X) : tres string * tproc D X :=
  let '(healthy, x) := provider_healthy (tp_host p) in
  let p := set_host x p in
  if negb healthy then (Skipped, p)
  else
    let p := if once_done (redis p) then p
             else let '(s, p) := run_container "redis" "redis:7-alpine" [] [] trimRedisScheme p in set_redis s p in
    (once_result (redis p), p).

(** ** Setup SQL *)

Definition setup_names (entries : list (string * bool)) : list string :=
  sort_strings (omap (fun e => if negb e.2 && has_suffix ".sql" e.1 then Some e.1 else None) entries).

Fixpoint exec_files (dsn : string) (fsys : FS) (dir : string) (names : list string) (p : tproc D X) : tres unit * tproc D X :=
  match names with
  | [] => (Ret tt, p)
  | name :: names =>
      match fs_ReadFile fsys (path_Join dir name) with
      | Err e => (t_Fatalf ("read setup SQL file " +:+ quoted name +:+ ": ") e, p)
      | Ok contents =>
          let p := log (Executed contents) p in
          match pool_Exec dsn contents (tp_host p) with
          | (Some e, x) => (t_Fatalf ("apply setup SQL " +:+ quoted name +:+ ": ") e, set_host x p)
          | (None, x) => exec_files dsn fsys dir names (set_host x p)
          end
      end
  end.

Definition applySetupSQL (dsn : string) (fsys : FS) (dir : string) (p : tproc D X) : tres unit * tproc D X :=
  match fs_ReadDir fsys dir with
  | Err e => (t_Fatalf ("read setup SQL dir " +:+ quoted dir +:+ ": ") e, p)
  | Ok entries => exec_files dsn fsys dir (setup_names entries) p
  end.

(** ** Postgres and Redis *)

(** The migrations are golang-migrate reading the given file system. *)
Record postgresConfig := mkPC { migrations : option (GolangMigrate D * string); setupSQL : option (FS * string) }.
Definition Option := postgresConfig -> postgresConfig.
Definition WithMigrations (fsys : GolangMigrate D) (dir : string) : Option := fun c => mkPC (Some (fsys, dir)) (setupSQL c).
Definition WithSetupSQL (fsys : FS) (dir : string) : Option := fun c => mkPC (migrations c) (Some (fsys, dir)).
Record PostgresHandle := mkHandle { h_Pool : poolConfig; h_DSN : string }.

Definition migrate_first (m : option (GolangMigrate D * string)) (dsn : string) (p : tproc D X) : tres unit * tproc D X :=
  match m with
  | None => (Ret tt, p)
  | Some (fsys, dir) =>
      let '(err, w) := @Run D fsys (mkMig ModeMigrate dsn "schema_migrations_dxtest" EmptyString) dir (tp_mig p) in
      let p := set_mig w (log (Migrated dir) p) in
      match err with Some e => (t_Fatalf "apply migrations: " e, p) | None => (Ret tt, p) end
  end.
Definition connect_pool (dsn : string) (p : tproc D X) : tres poolConfig * tproc D X :=
  let '(r, h) := NewPool ParseConfig create ping (mkPgCfg dsn 0 0 0 0 EmptyString) [] (tp_held p) in
  let p := set_held h (log (Connected dsn) p) in
  match r with Err e => (t_Fatalf "connect pool: " e, p) | Ok pc => (Ret pc, t_Cleanup p) end.

(** [env] is os.Getenv. *)
Definition Postgres (env : string -> string) (opts : list Option) (p : tproc D X) : tres PostgresHandle * tproc D X :=
  let cfg := fold_left (fun c o => o c) opts (mkPC None None) in
  t_then (if bool_decide (env "DX_TEST_PG_DSN" = EmptyString) then startPostgresContainer p else (Ret (env "DX_TEST_PG_DSN"), p)) (fun dsn p =>
  t_then (migrate_first (migrations cfg) dsn p) (fun _ p =>
  t_then (connect_pool dsn p) (fun pool p =>
  t_then (match setupSQL cfg with Some (fsys, dir) => applySetupSQL dsn fsys dir p | None => (Ret tt, p) end) (fun _ p =>
  (Ret (mkHandle pool dsn), p))))).

Record RedisHandle := mkRHandle { rh_Client : redis_Options; rh_Addr : string }.
Definition Redis (env : string -> string) (p : tproc D X) : tres RedisHandle * tproc D X :=
  t_then (if bool_decide (env "DX_TEST_REDIS_ADDR" = EmptyString) then startRedisContainer p else (Ret (env "DX_TEST_REDIS_ADDR"), p)) (fun addr p =>
  let '(r, h) := redis_NewClient None redis_ping (mkRedisCfg addr EmptyString 0 0 false) (tp_held p) in
  let p := set_held h (log (Connected addr) p) in
  match r with Err e => (t_Fatalf "connect redis: " e, p) | Ok opts => (Ret (mkRHandle opts addr), t_Cleanup p) end).

(** ** A test binary *)

Inductive tcall := CallPostgres (env : string -> string) (opts : list Option) | CallRedis (env : string -> string).
Definition t_map {P A B} (f : A -> B) (r : tres A * P) : tres B * P := t_then r (fun a p => (Ret (f a), p)).
(** A call and the address it got. *)
Definition run_call (c : tcall) (p : tproc D X) : tres string * tproc D X :=
  match c with
  | CallPostgres env opts => t_map h_DSN (Postgres env opts p)
  | CallRedis env => t_map rh_Addr (Redis env p)
  end.
(** The calls of one test, up to the one that ends it; then its clean-ups. *)
Fixpoint run_test (cs : list tcall) (p : tproc D X) : list (tcall * tres string) * tproc D X :=
  match cs with
  | [] => ([], end_test p)
  | c :: cs =>
      match run_call c p with
      | (Ret a, p) => let '(outs, p) := run_test cs p in ((c, Ret a) :: outs, p)
      | (r, p) => ([(c, r)], end_test p)
      end
  end.
Fixpoint run_suite (tests : list (list tcall)) (p : tproc D X) : list (tcall * tres string) * tproc D X :=
  match tests with
  | [] => ([], p)
  | t :: tests => let '(o1, p) := run_test t p in let '(o2, p) := run_suite tests p in (o1 ++ o2, p)
  end.

(** ** What a suite shares and what it leaves *)

Definition starts (image : string) (p : tproc D X) : nat := length (filter (fun e => e = Started image) (tp_log p)).
(** Pools open beyond those a clean-up will close. *)
Definition owed (p : tproc D X) : Z := open_pools (tp_held p) - Z.of_nat (tp_cleanups p).

(** One kind of container: it was started exactly if its Once ran. *)
Definition counted (image : string) (s : tproc D X -> shared) (p : tproc D X) : Prop := starts image p = if once_done (s p) then 1%nat else 0%nat.
(** What every step of the package keeps. *)
Record keeps (p p' : tproc D X) : Prop := mkKeeps {
  kp_pg : once_done (pg p) = true -> pg p' = pg p;
  kp_redis : once_done (redis p) = true -> redis p' = redis p;
  kp_pg_count : counted "postgres:16-alpine" pg p -> counted "postgres:16-alpine" pg p';
  kp_redis_count : counted "redis:7-alpine" redis p -> counted "redis:7-alpine" redis p';
  kp_owed : owed p' = owed p;
  kp_mig : mw_open (tp_mig p') = mw_open (tp_mig p)
}.
#[local] Instance keeps_preorder : PreOrder keeps.
Proof.
  split; [intros p; by split|]. intros p1 p2 p3 K1 K2. destruct K1, K2. split; try congruence; eauto.
  - intros E. rewrite kp_pg1; [auto|]. by rewrite kp_pg0.
  - intros E. rewrite kp_redis1; [auto|]. by rewrite kp_redis0.
Qed.

Lemma starts_log image e p : starts image (log e p) = (starts image p + if decide (e = Started image) then 1 else 0)%nat.
Proof. unfold starts, log. cbn [tp_log]. rewrite filter_app, length_app. cbn. unfold filter, list_filter. by case_decide. Qed.
(** An event that starts nothing changes no count. *)
Lemma keeps_log e p : (forall image, e <> Started image) -> keeps p (log e p).
Proof. intros He. split; try done; unfold counted; rewrite starts_log, decide_False by done; cbn; by rewrite Nat.add_0_r. Qed.
Lemma keeps_host x p : keeps p (set_host x p).
Proof. by split. Qed.
Lemma keeps_end p : keeps p (end_test p).
Proof.
  split; try done. unfold owed. cbn [end_test tp_held tp_cleanups].
  assert (E : forall n h, open_pools (Nat.iter n close_one h) = open_pools h - Z.of_nat n).
  { intros n h. induction n as [|n IH]; cbn [Nat.iter nat_rect]; [lia|]. unfold close_one at 1. cbn. unfold Nat.iter in IH. rewrite IH. lia. }
  rewrite E. lia.
Qed.

(** The Once: on its first run the container is started once and the result kept. *)
Lemma run_container_log kind image opts conn address p s p' : run_container kind image opts conn address p = (s, p') ->
  once_done s = true /\ exists x, p' = set_host x (log (Started image) p).
Proof. unfold run_container. intros E. repeat case_match; simplify_eq; eauto. Qed.

Lemma once_result_ret s a : once_done s = true -> once_result s = Ret a -> s = mkShared true a None.
Proof. unfold once_result, t_Fatalf. destruct s as [d ad [e|]]; cbn; congruence. Qed.

Lemma startPostgres_spec p r p' : startPostgresContainer p = (r, p') ->
  keeps p p' /\ forall a, r = Ret a -> pg p' = mkShared true a None.
Proof.
  unfold startPostgresContainer. destruct (provider_healthy (tp_host p)) as [h x]. destruct h; cbn [negb]; [|intros [= <- <-]; by split; [apply keeps_host|]].
  destruct (once_done (pg (set_host x p))) eqn:Ho.
  - intros [= <- <-]. split; [apply keeps_host|]. intros a. by apply once_result_ret.
  - destruct (run_container _ _ _ _ _ _) as [s p1] eqn:E. intros [= <- <-]. apply run_container_log in E as (Hd & x' & ->). split.
    + cbn in Ho. split; try done; [by rewrite Ho| |].
      * unfold counted. cbn [set_pg pg]. rewrite Hd, Ho. intros E. change (starts "postgres:16-alpine" (log (Started "postgres:16-alpine") (set_host x p)) = 1%nat).
        rewrite starts_log, decide_True by done. change (starts "postgres:16-alpine" (set_host x p)) with (starts "postgres:16-alpine" p). lia.
      * intros E. unfold counted in *. cbn -[starts]. rewrite <- E.
        change (starts "redis:7-alpine" (log (Started "postgres:16-alpine") p) = starts "redis:7-alpine" p). rewrite starts_log, decide_False by done. lia.
    + intros a. by apply once_result_ret.
Qed.
Lemma startRedis_spec p r p' : startRedisContainer p = (r, p') ->
  keeps p p' /\ forall a, r = Ret a -> redis p' = mkShared true a None.
Proof.
  unfold startRedisContainer. destruct (provider_healthy (tp_host p)) as [h x]. destruct h; cbn [negb]; [|intros [= <- <-]; by split; [apply keeps_host|]].
  destruct (once_done (redis (set_host x p))) eqn:Ho.
  - intros [= <- <-]. split; [apply keeps_host|]. intros a. by apply once_result_ret.
  - destruct (run_container _ _ _ _ _ _) as [s p1] eqn:E. intros [= <- <-]. apply run_container_log in E as (Hd & x' & ->). split.
    + cbn in Ho. split; try done; [by rewrite Ho| |].
      * intros E. unfold counted in *. cbn -[starts]. rewrite <- E.
        change (starts "postgres:16-alpine" (log (Started "redis:7-alpine") p) = starts "postgres:16-alpine" p). rewrite starts_log, decide_False by done. lia.
      * unfold counted. cbn [set_redis redis]. rewrite Hd, Ho. intros E. change (starts "redis:7-alpine" (log (Started "redis:7-alpine") (set_host x p)) = 1%nat).
        rewrite starts_log, decide_True by done. change (starts "redis:7-alpine" (set_host x p)) with (starts "redis:7-alpine" p). lia.
    + intros a. by apply once_result_ret.
Qed.

(** A step and the rest of a test. *)
Lemma t_then_keeps {A B} p (r : tres A * tproc D X) (k : A -> tproc D X -> tres B * tproc D X) :
  keeps p r.2 -> (forall a, r.1 = Ret a -> keeps r.2 (k a r.2).2) -> keeps p (t_then r k).2.
Proof. intros K1 K2. destruct r as [[a| |m] p1]; cbn in *; [etrans; [done|by apply K2]|done..]. Qed.

Lemma exec_files_keeps dsn fsys dir names p : keeps p (exec_files dsn fsys dir names p).2.
Proof.
  revert p. induction names as [|name names IH]; intros p; cbn [exec_files]; [done|]. destruct (fs_ReadFile _ _) as [contents|e]; [|done].
  destruct (pool_Exec _ _ _) as [[e|] x]; (etrans; [by apply (keeps_log (Executed contents))|]); [apply keeps_host|].
  etrans; [apply (keeps_host x)|apply IH].
Qed.
Lemma migrate_first_keeps m dsn p : keeps p (migrate_first m dsn p).2.
Proof.
  destruct m as [[fsys dir]|]; [|done]. unfold migrate_first. pose proof (Run_releases (mkMig ModeMigrate dsn "schema_migrations_dxtest" EmptyString) dir (tp_mig p)) as Hr.
  destruct (Run _ _ _) as [err w]. etrans; [by apply (keeps_log (Migrated dir))|]. destruct err as [e|]; by split.
Qed.
Lemma connect_pool_keeps dsn p : keeps p (connect_pool dsn p).2.
Proof.
  unfold connect_pool. pose proof (NewPool_releases ParseConfig create ping (mkPgCfg dsn 0 0 0 0 EmptyString) [] (tp_held p)) as Hr.
  destruct (NewPool _ _ _ _ _ _) as [r h]. etrans; [by apply (keeps_log (Connected dsn))|]. cbn in Hr.
  destruct r as [pc|e]; split; try done; unfold owed; cbn; lia.
Qed.

Lemma Postgres_spec env opts p r p' : Postgres env opts p = (r, p') ->
  keeps p p' /\ (env "DX_TEST_PG_DSN" = EmptyString -> forall h, r = Ret h -> pg p' = mkShared true (h_DSN h) None).
Proof.
  intros E. unfold Postgres in E. set (cfg := fold_left _ _ _) in E.
  set (start := if bool_decide _ then startPostgresContainer p else _) in E.
  assert (Hs : keeps p start.2 /\ (env "DX_TEST_PG_DSN" = EmptyString -> forall a, start.1 = Ret a -> pg start.2 = mkShared true a None)).
  { subst start. case_bool_decide; [|by split]. destruct (startPostgresContainer p) as [r1 p1] eqn:E1. apply startPostgres_spec in E1 as [K1 S1]. by split. }
  destruct Hs as [K0 S0]. destruct start as [[dsn| |m] p0]; cbn in *; [|by simplify_eq; split..].
  pose proof (migrate_first_keeps (migrations cfg) dsn p0) as K1. destruct (migrate_first _ _ _) as [[[]| |m] p1]; cbn in *; [|simplify_eq; split; [by etrans|done]..].
  pose proof (connect_pool_keeps dsn p1) as K2. destruct (connect_pool _ _) as [[pool| |m] p2]; cbn in *; [|simplify_eq; split; [by do 2 (etrans; [done|])|done]..].
  assert (K3 : keeps p2 (match setupSQL cfg with Some (fsys, dir) => applySetupSQL dsn fsys dir p2 | None => (Ret tt, p2) end).2).
  { destruct (setupSQL cfg) as [[fsys dir]|]; [|done]. unfold applySetupSQL. destruct (fs_ReadDir fsys dir); [apply exec_files_keeps|done]. }
  destruct (match setupSQL cfg with Some _ => _ | None => _ end) as [[[]| |m] p3]; cbn in *; simplify_eq;
    (split; [by do 3 (etrans; [done|])|]); [|done..].
  intros He h [= <-]. cbn. assert (K : keeps p0 p') by (by do 2 (etrans; [done|])). rewrite (kp_pg _ _ K); [by apply S0|]. by rewrite (S0 He dsn eq_refl).
Qed.
Lemma Redis_spec env p r p' : Redis env p = (r, p') ->
  keeps p p' /\ (env "DX_TEST_REDIS_ADDR" = EmptyString -> forall h, r = Ret h -> redis p' = mkShared true (rh_Addr h) None).
Proof.
  intros E. unfold Redis in E. set (start := if bool_decide _ then startRedisContainer p else _) in E.
  assert (Hs : keeps p start.2 /\ (env "DX_TEST_REDIS_ADDR" = EmptyString -> forall a, start.1 = Ret a -> redis start.2 = mkShared true a None)).
  { subst start. case_bool_decide; [|by split]. destruct (startRedisContainer p) as [r1 p1] eqn:E1. apply startRedis_spec in E1 as [K1 S1]. by split. }
  destruct Hs as [K0 S0]. destruct start as [[addr| |m] p0]; cbn [t_then fst snd] in *; [|by simplify_eq; split..].
  pose proof (redis_NewClient_releases None redis_ping (mkRedisCfg addr EmptyString 0 0 false) (tp_held p0)) as Hr.
  destruct (redis_NewClient _ _ _ _) as [r1 h]. cbn in Hr.
  assert (K1 : keeps p0 p'). { etrans; [by apply (keeps_log (Connected addr))|]. destruct r1; injection E as <- <-; split; try done; unfold owed; cbn; lia. }
  split; [by etrans|]. intros He hd Ehd. destruct r1; simplify_eq. cbn. by apply S0.
Qed.

(** A call that used a container got the address the package shares. *)
Definition shares (o : tcall * tres string) (p : tproc D X) : Prop :=
  forall a, o.2 = Ret a ->
  match o.1 with
  | CallPostgres env _ => env "DX_TEST_PG_DSN" = EmptyString -> pg p = mkShared true a None
  | CallRedis env => env "DX_TEST_REDIS_ADDR" = EmptyString -> redis p = mkShared true a None
  end.
Lemma shares_keeps o p p' : shares o p -> keeps p p' -> shares o p'.
Proof.
  intros S K a Ha. specialize (S a Ha). destruct o.1; intros He; specialize (S He).
  - rewrite (kp_pg _ _ K); [done|by rewrite S].
  - rewrite (kp_redis _ _ K); [done|by rewrite S].
Qed.
Lemma run_call_spec c p r p' : run_call c p = (r, p') -> keeps p p' /\ shares (c, r) p'.
Proof.
  destruct c as [env opts|env]; cbn; unfold t_map.
  - destruct (Postgres env opts p) as [r1 p1] eqn:E. apply Postgres_spec in E as [K S]. intros E.
    destruct r1; cbn in E; simplify_eq; (split; [done|]); intros b Hb; simplify_eq/=. intros He. by apply S.
  - destruct (Redis env p) as [r1 p1] eqn:E. apply Redis_spec in E as [K S]. intros E.
    destruct r1; cbn in E; simplify_eq; (split; [done|]); intros b Hb; simplify_eq/=. intros He. by apply S.
Qed.
Lemma run_test_spec cs p outs p' : run_test cs p = (outs, p') -> keeps p p' /\ Forall (fun o => shares o p') outs.
Proof.
  revert p outs. induction cs as [|c cs IH]; intros p outs; cbn; [intros [= <- <-]; split; [apply keeps_end|done]|].
  destruct (run_call c p) as [r p1] eqn:E. apply run_call_spec in E as [K1 S1].
  assert (Hend : forall outs, ([(c, r)], end_test p1) = (outs, p') -> keeps p p' /\ Forall (fun o => shares o p') outs).
  { intros ? [= <- <-]. split; [etrans; [done|apply keeps_end]|]. constructor; [|done]. eapply shares_keeps; [done|apply keeps_end]. }
  destruct r as [a| |m]; [|by apply Hend..]. destruct (run_test cs p1) as [o2 p2] eqn:E2. intros [= <- <-]. apply IH in E2 as [K2 S2].
  split; [by etrans|]. constructor; [by eapply shares_keeps|done].
Qed.
Lemma run_suite_spec tests p outs p' : run_suite tests p = (outs, p') -> keeps p p' /\ Forall (fun o => shares o p') outs.
Proof.
  revert p outs. induction tests as [|t tests IH]; intros p outs; cbn; [intros [= <- <-]; by split|].
  destruct (run_test t p) as [o1 p1] eqn:E1. apply run_test_spec in E1 as [K1 S1].
  destruct (run_suite tests p1) as [o2 p2] eqn:E2. intros [= <- <-]. apply IH in E2 as [K2 S2]. split; [by etrans|].
  apply Forall_app. split; [|done]. eapply Forall_impl; [exact S1|]. intros o So. exact (shares_keeps _ _ _ So K2).
Qed.

(** A test binary starts each container at most once, however many tests ask for it and
    whatever fails; every call that used the container got the same address; and no test
    leaves a pool, a client or a migration connection open, also when it was cut short. *)
Theorem suite_shares_containers tests mig h host outs p :
  run_suite tests (mkProc not_started not_started mig h 0 [] host) = (outs, p) ->
  (starts "postgres:16-alpine" p <= 1)%nat /\ (starts "redis:7-alpine" p <= 1)%nat
  /\ (forall env opts a env' opts' a', (CallPostgres env opts, Ret a) ∈ outs -> (CallPostgres env' opts', Ret a') ∈ outs ->
        env "DX_TEST_PG_DSN" = EmptyString -> env' "DX_TEST_PG_DSN" = EmptyString -> a = a')
  /\ (forall env a env' a', (CallRedis env, Ret a) ∈ outs -> (CallRedis env', Ret a') ∈ outs ->
        env "DX_TEST_REDIS_ADDR" = EmptyString -> env' "DX_TEST_REDIS_ADDR" = EmptyString -> a = a')
  /\ owed p = open_pools h /\ mw_open (tp_mig p) = mw_open mig.
Proof.
  intros E. apply run_suite_spec in E as [K S]. rewrite Forall_forall in S.
  assert (C1 : (starts "postgres:16-alpine" p <= 1)%nat) by (rewrite (kp_pg_count _ _ K) by done; case_match; lia).
  assert (C2 : (starts "redis:7-alpine" p <= 1)%nat) by (rewrite (kp_redis_count _ _ K) by done; case_match; lia).
  split; [done|]. split; [done|]. split; [|split; [|split]].
  - intros env opts a env' opts' a' H1 H2 E1 E2. pose proof (S _ H1 a eq_refl E1). pose proof (S _ H2 a' eq_refl E2). congruence.
  - intros env a env' a' H1 H2 E1 E2. pose proof (S _ H1 a eq_refl E1). pose proof (S _ H2 a' eq_refl E2). congruence.
  - rewrite (kp_owed _ _ K). unfold owed. cbn. lia.
  - apply (kp_mig _ _ K).
Qed.

(** The setup files that ran are the .sql files of the directory in the order of their names. *)
Lemma exec_files_log dsn fsys dir names p p' : exec_files dsn fsys dir names p = (Ret tt, p') ->
  exists contents, Forall2 (fun name c => fs_ReadFile fsys (path_Join dir name) = Ok c) names contents /\ tp_log p' = tp_log p ++ map Executed contents.
Proof.
  revert p. induction names as [|name names IH]; intros p; cbn [exec_files].
  { intros [= <-]. exists []. split; [constructor|]. by rewrite app_nil_r. }
  destruct (fs_ReadFile fsys (path_Join dir name)) as [c|e] eqn:Er; [|done].
  destruct (pool_Exec _ _ _) as [[e|] x]; [done|]. intros (cs & Hf & Hl)%IH. exists (c :: cs). split; [by constructor|].
  rewrite Hl. cbn. by rewrite <- app_assoc.
Qed.
Theorem applySetupSQL_ordered dsn fsys dir p p' : applySetupSQL dsn fsys dir p = (Ret tt, p') ->
  exists entries names contents, fs_ReadDir fsys dir = Ok entries /\ StronglySorted String.le names
    /\ names ≡ₚ omap (fun e => if negb e.2 && has_suffix ".sql" e.1 then Some e.1 else None) entries
    /\ Forall2 (fun name c => fs_ReadFile fsys (path_Join dir name) = Ok c) names contents
    /\ tp_log p' = tp_log p ++ map Executed contents.
Proof.
  unfold applySetupSQL. destruct (fs_ReadDir fsys dir) as [entries|e]; [|done]. intros (contents & Hf & Hl)%exec_files_log.
  exists entries, (setup_names entries), contents. split; [done|]. split; [apply sort_strings_Sorted|]. split; [apply sort_strings_Permutation|]. by split.
Qed.
End containers.

Example path_Join_cases :
  map (fun '(d, n) => path_Join d n) [(".", "schema.sql"); ("db/setup/", "a.sql"); ("", "a.sql"); ("/x/../y", "a.sql"); ("..", "a.sql")]
  = ["schema.sql"; "db/setup/a.sql"; "a.sql"; "/y/a.sql"; "../a.sql"].
Proof. reflexivity. Qed.
Example trimRedisScheme_cases :
  map trimRedisScheme ["redis://localhost:6379"; "localhost:6379"; "redis://"] = ["localhost:6379"; "localhost:6379"; "redis://"].
Proof. reflexivity. Qed.

(** ** One history table for every test *)

(** A database as its tables and the version each history table is at; a source is the
    tables its migrations 1 to n create. *)
Definition toy_db : Type := gmap string Z * list string.
Definition toy_source (tables : list string) : GolangMigrate toy_db := {|
  iofs_New _ := None; pgx_ParseConfig _ := Ok ∅; driver_init _ _ db := (None, db); new_instance := None;
  m_Up _ history db :=
    let n := Z.of_nat (length tables) in
    match db.1 !! history with
    | None => (UpOk, (<[history := n]> db.1, db.2 ++ tables))
    | Some v => if v =? n then (ErrNoChange, db) else (UpErr (NewErr "file does not exist"), db)
    end;
  m_Version _ history db := match db.1 !! history with Some v => Version_ v false | None => ErrNilVersion end
|}.
#[local] Instance toy_host : TestHost unit := {|
  provider_healthy x := (true, x); tc_Run _ _ x := (Ok "c1", x); tc_ConnectionString c _ x := (Ok ("postgres://" +:+ c), x);
  pool_Exec _ _ x := (None, x)
|}.
Definition toy_call (tables : list string) : @tcall toy_db := CallPostgres (fun _ => EmptyString) [WithMigrations (toy_source tables) "migrations"].

(** The history table has one name for all callers, so on the shared database the second
    service's migrations count as applied: its test goes on without its tables. *)
Definition toy_suite := run_suite (D := toy_db) (fun _ => Ok (mkPoolCfg ∅ 4 0 0 None)) (fun _ _ => None) (fun _ _ => None) (fun _ => None).
Definition toy_start : tproc toy_db unit := mkProc not_started not_started (mkMW (∅, []) 0) (mkHeld 0) 0 [] tt.
Example second_migrations_skipped :
  let s := toy_suite [[toy_call ["orders"]]; [toy_call ["users"]]] toy_start in
  map snd s.1 = [Ret "postgres://c1"; Ret "postgres://c1"] /\ (mw_db (tp_mig s.2)).2 = ["orders"].
Proof. split; vm_compute; reflexivity. Qed.

Lemma suite_shares_containers_witness :
  let s := toy_suite [[toy_call ["orders"]]; [CallRedis (fun _ => EmptyString); toy_call []]] toy_start in
  map snd s.1 = [Ret "postgres://c1"; Ret "postgres://c1"; Fatal "dxtest/containers: apply migrations: migrate: up: file does not exist"]
  /\ starts "postgres:16-alpine" s.2 = 1%nat /\ (starts "redis:7-alpine" s.2 <= 1)%nat /\ owed s.2 = 0.
Proof.
  intros s. split; [vm_compute; reflexivity|]. split; [vm_compute; reflexivity|].
  destruct (suite_shares_containers _ _ _ _ _ _ _ _ _ _ (surjective_pairing s)) as (_ & Hr & _ & _ & Ho & _). by split.
Defined.
