(* ===== verification/Service.v ===== *)
(** * Service: httpserver, openapi, config and metrics — what a service is assembled from

    net/http's server, kin-openapi, viper and the Prometheus client are
    parameters. *)

From S2P Require Import Prelude GoStrings Http Errors Backoff Middleware.

(** ** httpserver: config.go, server.go *)

Record srv_Config := mkSrv {
  srv_Port : Z; ReadTimeout : Z; WriteTimeout : Z; IdleTimeout : Z; ShutdownTimeout : Z; TLSCertFile : string; TLSKeyFile : string
}.
Definition srv_DefaultConfig : srv_Config := mkSrv 8080 (15 * Second) (30 * Second) (60 * Second) (10 * Second) EmptyString EmptyString.

(** The fields of http.Server that New sets. *)
Record http_server := mkHttpSrv { Addr : string; hs_Read : Z; hs_Write : Z; hs_Idle : Z }.
Definition srv_New (cfg : srv_Config) : http_server :=
  mkHttpSrv (":" +:+ itoa (srv_Port cfg)) (ReadTimeout cfg) (WriteTimeout cfg) (IdleTimeout cfg).

(** The life of a server as Start sees it: ListenAndServe returns, a signal arrives; the
    select takes whichever is there, any of the two when both are. *)
Inductive srv_event := ListenReturns (err : error) | SignalArrives.
Record srv_state := mkSrvState { errCh : option goerr; quit : bool }.

(** The serving goroutine sends its error unless the server was closed on purpose. *)
Definition srv_event_step (s : srv_state) (e : srv_event) : srv_state :=
  match e with
  | ListenReturns (Some e) => if errors_is e "http.ErrServerClosed" then s else mkSrvState (Some e) (quit s)
  | ListenReturns None => s
  | SignalArrives => mkSrvState (errCh s) true
  end.

(** shutdown: [Shutdown] is the server's, with the timeout of its context. *)
Definition srv_shutdown (Shutdown : Z -> error) (cfg : srv_Config) : error :=
  match Shutdown (ShutdownTimeout cfg) with
  | Some e => Some (wrapf "graceful shutdown failed" e)
  | None => None
  end.

(** What Start has returned when the select ran in a state: [None] while it blocks;
    [prefer_err] is the choice when both are ready. *)
Definition srv_select (Shutdown : Z -> error) (cfg : srv_Config) (prefer_err : bool) (s : srv_state) : option error :=
  match errCh s, quit s with
  | None, false => None
  | Some e, false => Some (Some (wrapf "server error" e))
  | None, true => Some (srv_shutdown Shutdown cfg)
  | Some e, true => Some (if prefer_err then Some (wrapf "server error" e) else srv_shutdown Shutdown cfg)
  end.
(** Start runs until the select can proceed. *)
Fixpoint srv_run (Shutdown : Z -> error) (cfg : srv_Config) (prefer_err : bool) (s : srv_state) (evs : list srv_event) : option error :=
  match srv_select Shutdown cfg prefer_err s with
  | Some r => Some r
  | None => match evs with
            | [] => None
            | e :: evs => srv_run Shutdown cfg prefer_err (srv_event_step s e) evs
            end
  end.
Definition srv_Start (Shutdown : Z -> error) (cfg : srv_Config) (prefer_err : bool) (evs : list srv_event) : option error :=
  srv_run Shutdown cfg prefer_err (mkSrvState None false) evs.

Definition StartTLS (LoadX509KeyPair : string -> string -> error) (Shutdown : Z -> error) (cfg : srv_Config) (prefer_err : bool) (evs : list srv_event)
  : option error :=
  if bool_decide (TLSCertFile cfg = EmptyString) || bool_decide (TLSKeyFile cfg = EmptyString)
  then Some (Some (NewErr "TLSCertFile and TLSKeyFile must be set for StartTLS"))
  else match LoadX509KeyPair (TLSCertFile cfg) (TLSKeyFile cfg) with
       | Some e => Some (Some (wrapf "loading TLS key pair" e))
       | None => srv_Start Shutdown cfg prefer_err evs
       end.

(** ** openapi: config.go, loader.go, middleware.go, swagger.go *)

Record oa_Config := mkOa { SpecPath : string; SwaggerUIEnabled : bool; SwaggerUIPath : string; ValidateRequests : bool; ValidateResponses : bool }.
Definition oa_DefaultConfig : oa_Config := mkOa EmptyString true "/docs" true false.

Section openapi.
(** kin-openapi: documents, routes, and the checks of a document and of a request. *)
Context {Doc Route : Type}.
Variable LoadFromData : string -> res Doc.
Variable Validate : Doc -> error.
Variable NewRouter : Doc -> error.
Variable FindRoute : Doc -> hreq -> option Route.
Variable oa_ValidateRequest : Route -> hreq -> error.
Variable encode_doc : Doc -> res json.

Definition NewLoaderFromBytes (data : string) : res Doc :=
  match LoadFromData data with
  | Err e => Err (wrapf "parsing OpenAPI spec" e)
  | Ok doc => match Validate doc with
              | Some e => Err (wrapf "validating OpenAPI spec" e)
              | None => Ok doc
              end
  end.
Definition NewLoader (ReadFile : string -> res string) (specPath : string) : res Doc :=
  match ReadFile specPath with
  | Err e => Err (wrapf ("reading OpenAPI spec file " +:+ quoted specPath) e)
  | Ok data => NewLoaderFromBytes data
  end.

Definition healthPaths : list string := ["/health"; "/healthz"; "/ready"; "/live"].

Definition is_health_path (path : string) : bool := existsb (fun p => has_prefix p path) healthPaths.

(** Building the middleware panics when the router cannot be built. *)
Definition ValidationMiddleware {W} (doc : Doc) (cfg : oa_Config) : res (mware W) :=
  match NewRouter doc with
  | Some e => Err (NewErr ("openapi: failed to build router from spec: " +:+ error_text e))
  | None => Ok (fun next S wr r s w =>
      if is_health_path (Path r) then next S wr r s w
      else if negb (ValidateRequests cfg) then next S wr r s w
      else match FindRoute doc r with
           | None => next S wr r s w
           | Some route =>
               match oa_ValidateRequest route r with
               | Some _ => (run_calls wr (error_calls (NewValidation "request validation failed" [])) s, w, None)
               | None => next S wr r s w
               end
           end)
  end.

(** The routes ServeUI registers; the page is a constant of the package. *)
Definition ServeUI {W} (swaggerUIHTML : string) (doc : Doc) (cfg : oa_Config) : list (string * mhandler W) :=
  let base := if bool_decide (SwaggerUIPath cfg = EmptyString) then "/docs" else SwaggerUIPath cfg in
  let page : mhandler W := leaf (fun _ => ([CSet "Content-Type" "text/html; charset=utf-8"; CWrite (Raw swaggerUIHTML)], None)) in
  (base +:+ "/openapi.json",
   leaf (fun _ => (CSet "Content-Type" "application/json"
                   :: match encode_doc doc with
                      | Ok j => [CWrite (Encoded j)]
                      | Err _ => error_calls (NewInternal "failed to encode spec" [])
                      end, None)))
  :: if SwaggerUIEnabled cfg then [(base, page); (base +:+ "/", page)] else [].
End openapi.

(** ** config: loader.go, model.go, service.go *)

Record BaseConfig := mkBase { LogLevel : string; bc_Server : srv_Config; AuthEnabled : bool }.
Record ServiceOptions := mkSvcOpts {
  ConfigName : string; ConfigType : string; Paths : list string; Defaults : list (string * string); EnvPrefix : string
}.
(** A viper instance before it reads; [v_file] is an explicit file. *)
Record viper := mkViper {
  v_name : string; v_type : string; v_paths : list string; v_file : option string;
  v_defaults : list (string * string); v_prefix : string; v_dots_to_underscores : bool; v_automatic_env : bool
}.

Section config.
(** [ReadInConfig] is the settings of the file it finds; [Unmarshal] decodes the merged settings. *)
Context {T : Type}.
Variable ReadInConfig : viper -> res (list (string * string)).
Variable Unmarshal : viper -> list (string * string) -> res T.

Definition LoadInto (filePath : string) : res T :=
  let v := mkViper "config" EmptyString [] None [] "DX" true true in
  let read := if bool_decide (filePath = EmptyString) then Ok (v, [])
              else let v := mkViper "config" EmptyString [] (Some filePath) [] "DX" true true in
                   match ReadInConfig v with
                   | Err e => Err (wrapf ("config.LoadInto: reading " +:+ quoted filePath) e)
                   | Ok file => Ok (v, file)
                   end in
  match read with
  | Err e => Err e
  | Ok (v, file) => match Unmarshal v file with
                    | Err e => Err (wrapf "config.LoadInto: unmarshal" e)
                    | Ok cfg => Ok cfg
                    end
  end.

Definition service_viper (opts : ServiceOptions) : viper :=
  mkViper (if bool_decide (ConfigName opts = EmptyString) then "config" else ConfigName opts)
    (if bool_decide (ConfigType opts = EmptyString) then "yaml" else ConfigType opts)
    (match Paths opts with [] => ["."; "./configs"; "/app/configs"] | l => l end) None (Defaults opts) (EnvPrefix opts) true true.

(** A file that cannot be read, for whatever reason, counts as absent. *)
Definition LoadService (opts : ServiceOptions) : res T :=
  let v := service_viper opts in
  let file := match ReadInConfig v with Ok file => file | Err _ => [] end in
  match Unmarshal v file with
  | Err e => Err (wrapf "config.LoadService: unmarshal" e)
  | Ok cfg => Ok cfg
  end.
End config.

(** ** metrics/metrics.go *)

Record RequestMetrics := mkRM { rm_namespace : string; rm_requests : gmap (string * string) Z; rm_duration : gmap (string * string) (list Z) }.
Definition NewRequestMetrics (namespace : string) : RequestMetrics := mkRM namespace ∅ ∅.
Definition RecordRequest (rm : RequestMetrics) (method : string) (statusCode duration : Z) : RequestMetrics :=
  let labels := (itoa statusCode, method) in
  mkRM (rm_namespace rm) (<[labels := default 0 (rm_requests rm !! labels) + 1]> (rm_requests rm))
    (<[labels := default [] (rm_duration rm !! labels) ++ [duration]]> (rm_duration rm)).

(** ** When a server stops *)

(** The events that leave Start waiting. *)
Definition quiet (e : srv_event) : bool :=
  match e with
  | ListenReturns (Some e) => errors_is e "http.ErrServerClosed"
  | ListenReturns None => true
  | SignalArrives => false
  end.
Lemma quiet_step s e : quiet e = true -> srv_event_step s e = s.
Proof. destruct e as [[e|]|]; cbn; [by intros ->|done|done]. Qed.

(** Start blocks exactly as long as neither serving has failed nor a signal arrived, and what
    it returns is decided by the first such event: a failed server is reported as it is,
    without a shutdown; a signal leads to a graceful shutdown within the configured
    timeout, whose result is returned. A server closed on purpose is no error. *)
Theorem Start_first_event Shutdown cfg prefer_err evs :
  (forallb quiet evs = true -> srv_Start Shutdown cfg prefer_err evs = None)
  /\ (forall before after e, evs = before ++ ListenReturns (Some e) :: after -> forallb quiet before = true ->
        errors_is e "http.ErrServerClosed" = false -> srv_Start Shutdown cfg prefer_err evs = Some (Some (wrapf "server error" e)))
  /\ (forall before after, evs = before ++ SignalArrives :: after -> forallb quiet before = true ->
        srv_Start Shutdown cfg prefer_err evs = Some (srv_shutdown Shutdown cfg)).
Proof.
  unfold srv_Start. split_and!.
  - intros Hq. induction evs as [|e evs IH]; [done|]. cbn [forallb] in Hq. apply andb_true_iff in Hq as [He Hq].
    cbn [srv_run srv_select errCh quit]. rewrite quiet_step by done. by apply IH.
  - intros before after e -> Hq He. induction before as [|b before IH]; cbn [app srv_run srv_select errCh quit].
    + cbn [srv_event_step]. rewrite He. by destruct after.
    + cbn [forallb] in Hq. apply andb_true_iff in Hq as [Hb Hq]. rewrite quiet_step by done. by apply IH.
  - intros before after -> Hq. induction before as [|b before IH]; cbn [app srv_run srv_select errCh quit].
    + cbn [srv_event_step]. by destruct after.
    + cbn [forallb] in Hq. apply andb_true_iff in Hq as [Hb Hq]. rewrite quiet_step by done. by apply IH.
Qed.

(** ** Validation *)

(** The paths are compared as prefixes: resources whose names start like a health path are
    never validated. *)
Example health_prefix_skips_validation (r : hreq) (next : mhandler unit) :
  Path r = "/healthcare/patients" ->
  exists mw, ValidationMiddleware (fun _ : unit => None) (fun _ _ => Some tt) (fun _ _ => Some (NewErr "missing field")) tt oa_DefaultConfig = Ok mw
  /\ mw next ResponseWriter base_writer r new_writer tt = next ResponseWriter base_writer r new_writer tt.
Proof. intros Hp. eexists. split; [reflexivity|]. cbn beta. by rewrite Hp. Qed.

(** The handlers behind the middleware see, of the requests the specification covers, only
    valid ones: on any other the client gets a 400 and no handler runs. *)
Theorem ValidationMiddleware_guards {Doc Route W} NewRouter (FindRoute : Doc -> hreq -> option Route) check doc cfg (mw : mware W) r route e :
  ValidationMiddleware NewRouter FindRoute check doc cfg = Ok mw -> ValidateRequests cfg = true ->
  is_health_path (Path r) = false -> FindRoute doc r = Some route -> check route r = Some e ->
  forall next rw w, mw next ResponseWriter base_writer r rw w = (WriteError (NewValidation "request validation failed" []) rw, w, None).
Proof.
  unfold ValidationMiddleware. destruct (NewRouter doc); [done|]. intros [= <-] Hv Hh Hr Hc next rw w.
  cbn beta. by rewrite Hh, Hv, Hr, Hc.
Qed.

(** ** Configuration *)

(** A malformed file is passed over in silence like a missing one: the service starts with
    its defaults. *)
Example malformed_config_ignored :
  let Read (v : viper) : res (list (string * string)) := Err (NewErr "yaml: line 3: mapping values are not allowed") in
  let Unmarshal (v : viper) (file : list (string * string)) := Ok (file ++ v_defaults v) in
  LoadService Read Unmarshal (mkSvcOpts EmptyString EmptyString [] [("jwt.enabled", "false")] EmptyString) = Ok [("jwt.enabled", "false")].
Proof. reflexivity. Qed.

(** ** Metrics *)

Definition record_all (rm : RequestMetrics) (reqs : list (string * Z * Z)) : RequestMetrics :=
  fold_left (fun rm '(method, status, duration) => RecordRequest rm method status duration) reqs rm.
Definition labelled (labels : string * string) (req : string * Z * Z) : Prop := (itoa req.1.2, req.1.1) = labels.
#[export] Instance labelled_dec labels req : Decision (labelled labels req).
Proof. unfold labelled. solve_decision. Defined.

(** The counter of a code and method is the number of requests recorded with them, and their
    durations are all in its histogram, in order. *)
Theorem requests_counted namespace reqs labels :
  let rm := record_all (NewRequestMetrics namespace) reqs in
  default 0 (rm_requests rm !! labels) = Z.of_nat (length (filter (labelled labels) reqs))
  /\ default [] (rm_duration rm !! labels) = map snd (filter (labelled labels) reqs).
Proof.
  cbn zeta. unfold record_all. induction reqs as [|[[method status] d] reqs [IH1 IH2]] using rev_ind; [done|].
  rewrite fold_left_app, filter_app, length_app, map_app. cbn [fold_left]. set (rm := fold_left _ reqs _) in *.
  cbn [RecordRequest rm_requests rm_duration]. rewrite filter_cons. destruct (decide (labelled labels (method, status, d))) as [Hl|Hl].
  - unfold labelled in Hl. cbn in Hl. subst labels. rewrite !lookup_insert_eq. cbn. rewrite IH1, IH2. split; [lia|done].
  - unfold labelled in Hl. cbn in Hl. rewrite !lookup_insert_ne by done. cbn. rewrite IH1, IH2, app_nil_r. split; [lia|done].
Qed.
